(** * A shallow embedding of the SuDoKu solving library (csudoku.c)

    The grid [SuDoKu] is the C struct: the clue array [o], the value array
    [v], the candidate masks [p], the candidate counts [c], the forced queue
    [q] with its write and read cursors [q_i] and [q_o], the number of
    filled cells [n], the tracking flag [e] and the decision graph [g].

    Arrays of 81 cells are lists of [Z]; [unsigned char] arithmetic has its
    wrap-around written out; return codes are the C ones ([0], [-2] for a
    Contradiction, [-1] for an internal error).  Allocation failures of the
    Python runtime are not modelled.  Recursion that the C code bounds by
    the size of the grid is given fuel; the fuel is shown sufficient. *)

From Stdlib Require Import ZArith Bool Lia Ascii String List Permutation.
Import ListNotations.
Local Open Scope Z_scope.

(** ** Arrays *)

Fixpoint upd {A : Type} (l : list A) (k : nat) (x : A) : list A :=
  match l, k with
  | [], _ => []
  | _ :: t, O => x :: t
  | h :: t, S k' => h :: upd t k' x
  end.

(** [a[i]] and [a[i] = x] on an array of integers.  An index outside the
    array is undefined behaviour in C; here a read gives 0 and a write is
    dropped, and the theorems keep indices in range. *)
Definition get (l : list Z) (i : Z) : Z :=
  if i <? 0 then 0 else nth (Z.to_nat i) l 0.

Definition put (l : list Z) (i : Z) (x : Z) : list Z :=
  if i <? 0 then l else upd l (Z.to_nat i) x.

Definition range (k : nat) : list Z := map Z.of_nat (seq 0 k).

(** ** Candidate masks *)

(** [(m >> (d - 1)) & 1] *)
Definition bit_of (m d : Z) : bool :=
  negb (Z.land (Z.shiftr m (d - 1)) 1 =? 0).

(** [m ^ (1 << (d - 1))] *)
Definition flip_bit (m d : Z) : Z := Z.lxor m (Z.shiftl 1 (d - 1)).

(** [ffs] on an [unsigned short]: one plus the index of the lowest set bit,
    0 when no bit is set. *)
Fixpoint ffs_from (k : nat) (b : Z) (m : Z) : Z :=
  match k with
  | O => 0
  | S k' => if Z.testbit m b then b + 1 else ffs_from k' (b + 1) m
  end.

Definition ffs (m : Z) : Z := ffs_from 16 0 m.

(** Number of set bits of an [unsigned short]. *)
Definition popcount (m : Z) : Z :=
  fold_right (fun b acc => (if Z.testbit m b then 1 else 0) + acc) 0 (range 16).

(** ** The decision graph

    [self->g] is a Python object: [NULL], [None], a tuple [(depth, '+')] or
    [(depth, '-')], or a tuple [(depth, [children])]. *)
#[local] Unset Elimination Schemes.
Inductive graph : Type :=
| GNull
| GNone
| GLeaf (d : Z) (ch : ascii)
| GNode (d : Z) (l : list graph).
#[local] Set Elimination Schemes.

(** ** The grid *)

Record SuDoKu : Type := mkSuDoKu {
  o : list Z;
  v : list Z;
  p : list Z;
  c : list Z;
  q : list Z;
  q_i : Z;
  q_o : Z;
  n : Z;
  e : bool;
  g : graph
}.

Definition set_o (s : SuDoKu) (x : list Z) : SuDoKu :=
  mkSuDoKu x (v s) (p s) (c s) (q s) (q_i s) (q_o s) (n s) (e s) (g s).
Definition set_v (s : SuDoKu) (x : list Z) : SuDoKu :=
  mkSuDoKu (o s) x (p s) (c s) (q s) (q_i s) (q_o s) (n s) (e s) (g s).
Definition set_p (s : SuDoKu) (x : list Z) : SuDoKu :=
  mkSuDoKu (o s) (v s) x (c s) (q s) (q_i s) (q_o s) (n s) (e s) (g s).
Definition set_c (s : SuDoKu) (x : list Z) : SuDoKu :=
  mkSuDoKu (o s) (v s) (p s) x (q s) (q_i s) (q_o s) (n s) (e s) (g s).
Definition set_q (s : SuDoKu) (x : list Z) : SuDoKu :=
  mkSuDoKu (o s) (v s) (p s) (c s) x (q_i s) (q_o s) (n s) (e s) (g s).
Definition set_q_i (s : SuDoKu) (x : Z) : SuDoKu :=
  mkSuDoKu (o s) (v s) (p s) (c s) (q s) x (q_o s) (n s) (e s) (g s).
Definition set_q_o (s : SuDoKu) (x : Z) : SuDoKu :=
  mkSuDoKu (o s) (v s) (p s) (c s) (q s) (q_i s) x (n s) (e s) (g s).
Definition set_n (s : SuDoKu) (x : Z) : SuDoKu :=
  mkSuDoKu (o s) (v s) (p s) (c s) (q s) (q_i s) (q_o s) x (e s) (g s).
Definition set_g (s : SuDoKu) (x : graph) : SuDoKu :=
  mkSuDoKu (o s) (v s) (p s) (c s) (q s) (q_i s) (q_o s) (n s) (e s) x.

(** [SuDoKu__reset] *)
Definition SuDoKu__reset (s : SuDoKu) : SuDoKu :=
  mkSuDoKu (o s) (repeat 0 81) (repeat 511 81) (repeat 9 81) (repeat 255 81)
           0 0 0 (e s) (if e s then GNone else g s).

(** [SuDoKu__copy self t]: the new contents of [t]. *)
Definition SuDoKu__copy (s t : SuDoKu) : SuDoKu :=
  mkSuDoKu (o s) (v s) (p s) (c s) (q s) (q_i s) (q_o s) (n s) (e s)
           (if e s then GNone else g t).

(** The statistics block run before a Contradiction is raised:
    [self->g = (self->n, '-')] when tracking. *)
Definition leaf_minus (s : SuDoKu) : SuDoKu :=
  if e s then set_g s (GLeaf (n s) "-"%char) else s.

(** [SuDoKu__eliminate] *)
Definition SuDoKu__eliminate (s : SuDoKu) (i d : Z) : Z * SuDoKu :=
  if bit_of (get (p s) i) d then
    let s1 := set_p s (put (p s) i (flip_bit (get (p s) i) d)) in
    let s2 := set_c s1 (put (c s1) i ((get (c s1) i - 1) mod 256)) in
    if get (c s2) i =? 0 then (-2, leaf_minus s2)
    else if get (c s2) i =? 1 then
      (0, set_q_i (set_q s2 (put (q s2) (q_i s2) (i mod 256))) (q_i s2 + 1))
    else (0, s2)
  else (0, s).

(** The loop of [SuDoKu__mark] over the relations of the marked cell. *)
Fixpoint eliminate_peers (s : SuDoKu) (js : list Z) (d : Z) : Z * SuDoKu :=
  match js with
  | [] => (0, s)
  | j :: js' =>
      let '(r, s1) := SuDoKu__eliminate s j d in
      if r <? 0 then (r, s1) else eliminate_peers s1 js' d
  end.

(** The four assignments of [SuDoKu__mark]: [self->v[i] = n],
    [self->n += 1], [self->p[i] = 0], [self->c[i] = 0]. *)
Definition assign (s : SuDoKu) (i d : Z) : SuDoKu :=
  let s1 := set_v s (put (v s) i d) in
  let s2 := set_n s1 (n s1 + 1) in
  let s3 := set_p s2 (put (p s2) i 0) in
  set_c s3 (put (c s3) i 0).

(** A pop of the forced queue: the cell and its candidate mask at that
    moment.  The list of pops is a ghost output of the model of
    [SuDoKu__mark]; the C code has no such value. *)
Definition pop_event : Type := (Z * Z)%type.

(** [SuDoKu__mark], and its [while (self->q_o < self->q_i)] loop.  The
    table [rel] is [SuDoKu__relations]; a row has 20 entries. *)
Fixpoint mark_fuel (rel : list (list Z)) (f : nat) (s : SuDoKu) (i d : Z)
  {struct f} : option (Z * SuDoKu * list pop_event) :=
  match f with
  | O => None
  | S f' =>
      if get (v s) i =? d then Some (0, s, [])
      else if negb (bit_of (get (p s) i) d) then Some (-2, leaf_minus s, [])
      else
        let '(r, s1) :=
          eliminate_peers (assign s i d)
            (firstn 20 (nth (Z.to_nat i) rel [])) d in
        if r <? 0 then Some (r, s1, []) else drain_fuel rel f' s1
  end
with drain_fuel (rel : list (list Z)) (f : nat) (s : SuDoKu)
  {struct f} : option (Z * SuDoKu * list pop_event) :=
  match f with
  | O => None
  | S f' =>
      if q_o s <? q_i s then
        let i := get (q s) (q_o s) in
        let s1 := set_q_o s (q_o s + 1) in
        let d := ffs (get (p s1) i) mod 256 in
        match mark_fuel rel f' s1 i d with
        | None => None
        | Some (r, s2, tr) =>
            if r <? 0 then Some (r, s2, (i, get (p s1) i) :: tr)
            else
              match drain_fuel rel f' s2 with
              | None => None
              | Some (r', s3, tr') =>
                  Some (r', s3, (i, get (p s1) i) :: tr ++ tr')
              end
        end
      else Some (0, s, [])
  end.

(** Twice the length of the queue plus two calls are enough, see
    [mark_fuel_enough]. *)
Definition mark_depth : nat := 164.

Definition mark_traced (rel : list (list Z)) (s : SuDoKu) (i d : Z)
  : option (Z * SuDoKu * list pop_event) :=
  mark_fuel rel mark_depth s i d.

Definition SuDoKu__mark (rel : list (list Z)) (s : SuDoKu) (i d : Z)
  : option (Z * SuDoKu) :=
  match mark_traced rel s i d with
  | None => None
  | Some (r, s', _) => Some (r, s')
  end.

(** [SuDoKu__search_min]: [im] and [cm] are [unsigned char], so the
    initial [im = -1] is 255. *)
Definition search_min_step (s : SuDoKu) (acc : Z * Z) (i : Z) : Z * Z :=
  let '(im, cm) := acc in
  if (get (v s) i =? 0) && (get (c s) i <? cm) then (i mod 256, get (c s) i)
  else (im, cm).

Definition SuDoKu__search_min (s : SuDoKu) : Z :=
  fst (fold_left (search_min_step s) (range 81) (255, 10)).

(** [SuDoKu_get2darray]: the 9x9 list of lists handed to Python. *)
Definition SuDoKu_get2darray (a : list Z) : list (list Z) :=
  map (fun i => map (fun j => get a (9 * i + j)) (range 9)) (range 9).

Definition is_null (x : graph) : bool :=
  match x with GNull => true | _ => false end.

Definition digits : list Z := [1; 2; 3; 4; 5; 6; 7; 8; 9].

Definition solutions : Type := list (list (list Z)).

(** The [for (n = 1; n < 10; n++)] loop of [SuDoKu__resolve_aux].  [rec] is
    the recursive call, [t0] the previous content of the workspace slot
    [ws[self->n]] (of which [SuDoKu__copy] keeps only [g], and only when
    tracking is off), [res] and [sg] the lists built so far.
    [PyList_Append] fails on a [NULL] item. *)
Fixpoint resolve_branches (rel : list (list Z))
  (rec : SuDoKu -> option (Z * solutions * SuDoKu))
  (s t0 : SuDoKu) (i : Z) (ds : list Z) (res : solutions) (sg : list graph)
  : option (Z * solutions * list graph) :=
  match ds with
  | [] => Some (0, res, sg)
  | d :: ds' =>
      if bit_of (get (p s) i) d then
        let t := SuDoKu__copy s t0 in
        match SuDoKu__mark rel t i d with
        | None => None
        | Some (r, t1) =>
            if r =? -2 then
              if e s then
                if is_null (g t1) then Some (-1, res, sg)
                else resolve_branches rel rec s t0 i ds' res (sg ++ [g t1])
              else resolve_branches rel rec s t0 i ds' res sg
            else if r <? 0 then Some (r, res, sg)
            else
              match rec t1 with
              | None => None
              | Some (r2, sres, t2) =>
                  if r2 <? 0 then Some (-1, res, sg)
                  else if e s then
                    if is_null (g t2) then Some (-1, res ++ sres, sg)
                    else resolve_branches rel rec s t0 i ds'
                           (res ++ sres) (sg ++ [g t2])
                  else resolve_branches rel rec s t0 i ds' (res ++ sres) sg
              end
        end
      else resolve_branches rel rec s t0 i ds' res sg
  end.

(** [SuDoKu__resolve_aux]: the return code, [*res] and [self] with its new
    [g].  Every level works in the slot [ws[self->n]]; a deeper level has
    a larger [n], so the slots of nested calls are distinct and a slot is
    modelled as a value. *)
Fixpoint resolve_aux_fuel (rel : list (list Z)) (f : nat) (s t0 : SuDoKu)
  : option (Z * solutions * SuDoKu) :=
  match f with
  | O => None
  | S f' =>
      if n s =? 81 then
        Some (0, [SuDoKu_get2darray (v s)],
              if e s then set_g s (GLeaf (n s) "+"%char) else s)
      else
        let i := SuDoKu__search_min s in
        match resolve_branches rel (fun t => resolve_aux_fuel rel f' t t0)
                s t0 i digits [] [] with
        | None => None
        | Some (r, res, sg) =>
            Some (r, res, if e s then set_g s (GNode (n s) sg) else s)
        end
  end.

(** The recursion enters a level with at most 81 filled cells. *)
Definition search_depth : nat := 82.

Definition SuDoKu__resolve_aux (rel : list (list Z)) (s t0 : SuDoKu)
  : option (Z * solutions * SuDoKu) :=
  resolve_aux_fuel rel search_depth s t0.

(** The loop of [SuDoKu__unique_sol_aux]; [count] is the running count.
    The slot [t = &ws[self->n]] belongs to the array [ws] that
    [SuDoKu__unique_sol], the only caller, declares and never initialises.
    When [self->e] is set, [SuDoKu__copy] runs [Py_XDECREF] on the
    indeterminate pointer [t->g]: the behaviour is undefined and the model
    gives no result.  When [self->e] is clear, [t->g] is neither read nor
    written, and [t0] stands for what the slot holds. *)
Fixpoint unique_branches (rel : list (list Z)) (rec : SuDoKu -> option Z)
  (s t0 : SuDoKu) (i : Z) (ds : list Z) (count : Z) : option Z :=
  match ds with
  | [] => Some count
  | d :: ds' =>
      if bit_of (get (p s) i) d then
        if e s then None
        else
          let t := SuDoKu__copy s t0 in
          match SuDoKu__mark rel t i d with
          | None => None
          | Some (r, t1) =>
              if r =? -2 then unique_branches rel rec s t0 i ds' count
              else
                match rec t1 with
                | None => None
                | Some scount =>
                    if scount <? 0 then Some scount
                    else if 1 <? count + scount then Some (-2)
                    else unique_branches rel rec s t0 i ds' (count + scount)
                end
          end
      else unique_branches rel rec s t0 i ds' count
  end.

Fixpoint unique_sol_aux_fuel (rel : list (list Z)) (f : nat) (s t0 : SuDoKu)
  : option Z :=
  match f with
  | O => None
  | S f' =>
      if n s =? 81 then Some 1
      else
        let i := SuDoKu__search_min s in
        unique_branches rel (fun t => unique_sol_aux_fuel rel f' t t0)
          s t0 i digits 0
  end.

Definition SuDoKu__unique_sol_aux (rel : list (list Z)) (s t0 : SuDoKu)
  : option Z :=
  unique_sol_aux_fuel rel search_depth s t0.

(** Step 1 of [SuDoKu_resolve] and of [SuDoKu__unique_sol]: mark the clues
    in cell order, stop at the first failure. *)
Fixpoint mark_clues (rel : list (list Z)) (s : SuDoKu) (cells : list Z)
  : option (Z * SuDoKu) :=
  match cells with
  | [] => Some (0, s)
  | i :: cells' =>
      if 0 <? get (o s) i then
        match SuDoKu__mark rel s i (get (o s) i) with
        | None => None
        | Some (r, s1) =>
            if r <? 0 then Some (r, s1) else mark_clues rel s1 cells'
        end
      else mark_clues rel s cells'
  end.

(** [SuDoKu__unique_sol]: [t0] stands for the content of the
    uninitialised workspace [ws].  [None] is the absence of a result: the
    undefined behaviour of a search with tracking on (see
    [unique_branches]), or a bound of the model that was too small.
    [SuDoKu_generate], the only caller, clears [self->e] before its
    calls. *)
Definition SuDoKu__unique_sol (rel : list (list Z)) (s t0 : SuDoKu)
  : option Z :=
  match mark_clues rel (SuDoKu__reset s) (range 81) with
  | None => None
  | Some (r, s1) =>
      if r <? 0 then Some (-1) else SuDoKu__unique_sol_aux rel s1 t0
  end.

(** What a method returns to Python: an exception or a value. *)
Inductive exn : Type := Contradiction | InternalError.

Inductive py_result : Type :=
| Raised (x : exn)
| Returned (l : solutions).

(** [SuDoKu_resolve]: the result and [self] afterwards.  When tracking,
    the slots of [ws] start with [g = NULL]. *)
Definition SuDoKu_resolve (rel : list (list Z)) (s t0 : SuDoKu)
  : option (py_result * SuDoKu) :=
  let t0' := if e s then set_g t0 GNull else t0 in
  match mark_clues rel (SuDoKu__reset s) (range 81) with
  | None => None
  | Some (r, s1) =>
      if r <? 0 then
        Some (Raised (if r =? -2 then Contradiction else InternalError), s1)
      else
        match SuDoKu__resolve_aux rel s1 t0' with
        | None => None
        | Some (r2, res, s2) =>
            if r2 <? 0 then Some (Raised InternalError, s2)
            else Some (Returned res, s2)
        end
  end.

(** [SuDoKu__graph_len_aux]; [PyArg_ParseTuple] fails on what is not a
    tuple. *)
Fixpoint SuDoKu__graph_len_aux (x : graph) (d : Z) : Z :=
  match x with
  | GNull | GNone => -1
  | GLeaf g0 _ => g0 - d
  | GNode g0 l =>
      (fix loop (l : list graph) (acc : Z) : Z :=
         match l with
         | [] => acc
         | y :: l' =>
             let sl := SuDoKu__graph_len_aux y g0 in
             if sl <? 0 then sl else loop l' (acc + sl)
         end) l (g0 - d)
  end.

Definition SuDoKu__graph_len (x : graph) : Z := SuDoKu__graph_len_aux x 0.

(** [SuDoKu__graph_forks] *)
Fixpoint SuDoKu__graph_forks (x : graph) : Z :=
  match x with
  | GNull | GNone => -1
  | GLeaf _ _ => 0
  | GNode _ l =>
      (fix loop (l : list graph) (f : Z) : Z :=
         match l with
         | [] => f
         | y :: l' =>
             let sf := SuDoKu__graph_forks y in
             if sf <? 0 then sf else loop l' (f + (sf + 1))
         end) l 0
  end.

(** [SuDoKu_estimate]: [None], an exception, or the pair whose first
    component is [log(l / 81.0) + 1.0]; the model keeps [l] and the forks
    [f]. *)
Inductive estimate_result : Type :=
| EstNone
| EstError
| EstValue (l f : Z).

Definition SuDoKu_estimate (s : SuDoKu) : estimate_result :=
  if negb (e s) || is_null (g s) then EstNone
  else
    let l := SuDoKu__graph_len (g s) in
    if l <? 0 then EstError
    else
      let f := SuDoKu__graph_forks (g s) in
      if f <? 0 then EstError else EstValue l f.

(** ** Parsing *)

Definition code (ch : ascii) : Z := Z.of_nat (nat_of_ascii ch).

(** ['\n'] or ['\r'] *)
Definition is_newline (ch : ascii) : bool := (code ch =? 10) || (code ch =? 13).

(** [c >= '1' && c <= '9'] *)
Definition is_clue (ch : ascii) : bool := (49 <=? code ch) && (code ch <=? 57).

(** ['_'], ['-'], [' '], ['.'] or ['0'] *)
Definition is_blank (ch : ascii) : bool :=
  (code ch =? 95) || (code ch =? 45) || (code ch =? 32) || (code ch =? 46)
  || (code ch =? 48).

Inductive format_error : Type :=
| InvalidCharacter (ch : ascii)
| NotEnoughData
| TooMuchData.

(** How the [for (k = 0; k < l; k++)] loop of [SuDoKu__from_string] ends:
    at [k = l], by [break], or by the [return -1] of an invalid character;
    with the counter [i] and the array [self->o]. *)
Inductive scan : Type :=
| ScanEnd (i : Z) (a : list Z)
| ScanBreak (i : Z) (a : list Z)
| ScanInvalid (ch : ascii) (a : list Z).

Fixpoint from_string_scan (str : string) (i : Z) (a : list Z) : scan :=
  match str with
  | EmptyString => ScanEnd i a
  | String ch str' =>
      if is_newline ch then from_string_scan str' i a
      else if 81 <=? i then ScanBreak i a
      else if is_clue ch then from_string_scan str' (i + 1) (put a i (code ch - 48))
      else if is_blank ch then from_string_scan str' (i + 1) a
      else ScanInvalid ch a
  end.

(** [SuDoKu__from_string]: [None] is the return code 0, [Some] the
    [ValueError] raised with -1. *)
Definition SuDoKu__from_string (s : SuDoKu) (str : string)
  : option format_error * SuDoKu :=
  match from_string_scan str 0 (o s) with
  | ScanInvalid ch a => (Some (InvalidCharacter ch), set_o s a)
  | ScanEnd i a =>
      if i <? 81 then (Some NotEnoughData, set_o s a) else (None, set_o s a)
  | ScanBreak i a =>
      if i <? 81 then (Some NotEnoughData, set_o s a)
      else (Some TooMuchData, set_o s a)
  end.

(** ** The relation table *)

Definition row_of (i : Z) : Z := i / 9.
Definition col_of (i : Z) : Z := i mod 9.
Definition box_of (i : Z) : Z := (row_of i / 3) * 3 + col_of i / 3.

(** Two distinct cells that share a row, a column or a box. *)
Definition peer (i j : Z) : bool :=
  negb (i =? j)
  && ((row_of i =? row_of j) || (col_of i =? col_of j) || (box_of i =? box_of j)).

(** Modelled from the spec: the table [SuDoKu__relations] is declared in
    csudoku.h, which is not part of the sources at hand.  The spec gives,
    for each of the 81 cells, the 20 cells that share its row, column or
    box; the order inside a row is not given and is ascending here. *)
Definition SuDoKu__relations : list (list Z) :=
  map (fun i => filter (peer i) (range 81)) (range 81).

(** What the theorems ask of a relation table: 81 rows of 20 cells, the
    row of [i] holding exactly the peers of [i]. *)
Definition row_ok (rel : list (list Z)) (i : Z) : bool :=
  let row := nth (Z.to_nat i) rel [] in
  (length row =? 20)%nat
  && forallb (fun j => (0 <=? j) && (j <? 81) && peer i j) row
  && forallb (fun j => implb (peer i j) (existsb (Z.eqb j) row)) (range 81).

Definition relations_ok (rel : list (list Z)) : bool :=
  (length rel =? 81)%nat && forallb (row_ok rel) (range 81).

(** ** Quantities of the spec's wording *)

(** The number of branching nodes with more than zero children. *)
Fixpoint branching_nodes (x : graph) : Z :=
  match x with
  | GNode _ l =>
      (match l with [] => 0 | _ :: _ => 1 end)
      + fold_right (fun y acc => branching_nodes y + acc) 0 l
  | _ => 0
  end.

(** The number of children, summed over all branching nodes: every node
    below the root counts once. *)
Fixpoint child_count (x : graph) : Z :=
  match x with
  | GNode _ l => fold_right (fun y acc => 1 + child_count y + acc) 0 l
  | _ => 0
  end.

(** A tree as a tracked search builds it: leaves and branching nodes only,
    no depth smaller than [lo], the depth of the parent. *)
Fixpoint tree_from (lo : Z) (x : graph) : Prop :=
  match x with
  | GNull | GNone => False
  | GLeaf d _ => lo <= d
  | GNode d l =>
      lo <= d /\ fold_right (fun y acc => tree_from d y /\ acc) True l
  end.

(** Cell [k] of a 9x9 grid. *)
Definition cell (sol : list (list Z)) (k : Z) : Z :=
  get (nth (Z.to_nat (k / 9)) sol []) (k mod 9).

(** ** Concrete grids *)

(** A grid object before its first use, tracking on. *)
Definition fresh (clues : list Z) : SuDoKu :=
  mkSuDoKu clues (repeat 0 81) (repeat 0 81) (repeat 0 81) (repeat 0 81)
           0 0 0 true GNull.

(** A complete valid grid: row [r], column [k] holds
    [(3 * (r mod 3) + r / 3 + k) mod 9 + 1]. *)
Definition full_grid : list Z :=
  map (fun i => (3 * (row_of i mod 3) + row_of i / 3 + col_of i) mod 9 + 1)
      (range 81).

(** [full_grid] without its 1s and 2s: swapping them gives a second
    solution. *)
Definition two_way_grid : list Z :=
  map (fun x => if x <=? 2 then 0 else x) full_grid.

(** ** Predicates of the statements *)

Definition is_mask (m : Z) : Prop := 0 <= m < 512.

(** The facts about 9-bit masks are checked on all of them. *)
Definition mask_check (m : Z) : bool :=
  (0 <=? popcount m) && (popcount m <=? 9)
  && Bool.eqb (popcount m =? 0) (m =? 0)
  && (0 <=? ffs m) && (ffs m <=? 9)
  && Bool.eqb (ffs m =? 0) (m =? 0)
  && implb (popcount m =? 1) (bit_of m (ffs m))
  && forallb (fun d =>
       implb (bit_of m d)
         ((0 <=? flip_bit m d) && (flip_bit m d <? 512)
          && (popcount (flip_bit m d) =? popcount m - 1)
          && (1 <=? d) && (d <=? 9))) (range 20).

Definition in_grid (i : Z) : Prop := 0 <= i < 81.

(** The number of cells that hold a digit. *)
Definition filled (l : list Z) : Z :=
  Z.of_nat (length (filter (fun x => negb (x =? 0)) l)).

Definition shaped (s : SuDoKu) : Prop :=
  length (v s) = 81%nat /\ length (p s) = 81%nat
  /\ length (c s) = 81%nat /\ length (q s) = 81%nat.

(** Masks have nine bits, counts are their population counts, values are
    digits, an assigned cell has no candidate left. *)
Definition counted (s : SuDoKu) : Prop :=
  forall i, in_grid i ->
    is_mask (get (p s) i) /\ get (c s) i = popcount (get (p s) i)
    /\ 0 <= get (v s) i <= 9 /\ (get (v s) i <> 0 -> get (p s) i = 0).

(** The cursors are ordered and stay inside the queue; a cell is written
    once, when its count is at most one. *)
Definition queued (s : SuDoKu) : Prop :=
  0 <= q_o s <= q_i s /\ q_i s <= 81
  /\ (forall k k', 0 <= k < k' -> k' < q_i s -> get (q s) k <> get (q s) k')
  /\ (forall k, 0 <= k < q_i s ->
        in_grid (get (q s) k) /\ get (c s) (get (q s) k) <= 1).

(** What holds of a grid after [SuDoKu__reset] and any calls of
    [SuDoKu__mark] and [SuDoKu__eliminate], failed ones included. *)
Definition consistent (s : SuDoKu) : Prop :=
  shaped s /\ counted s /\ queued s /\ n s = filled (v s).

(** What a call leaves alone or only moves one way. *)
Definition extends (s s' : SuDoKu) : Prop :=
  o s' = o s /\ e s' = e s /\ n s <= n s' /\ q_o s <= q_o s'
  /\ (forall i, in_grid i -> get (v s) i <> 0 -> get (v s') i = get (v s) i)
  /\ (forall i d, in_grid i -> bit_of (get (p s') i) d = true ->
        bit_of (get (p s) i) d = true).

(** The cells waiting in the queue are unassigned with one candidate. *)
Definition pending (s : SuDoKu) : Prop :=
  forall k, q_o s <= k < q_i s ->
    get (v s) (get (q s) k) = 0 /\ get (c s) (get (q s) k) = 1.

(** The digit of an assigned cell is no candidate of its peers. *)
Definition peers_cleared (s : SuDoKu) : Prop :=
  forall i j, in_grid i -> in_grid j -> peer i j = true ->
    get (v s) i <> 0 -> bit_of (get (p s) j) (get (v s) i) = false.

(** Peers hold different digits. *)
Definition peers_differ (s : SuDoKu) : Prop :=
  forall i j, in_grid i -> in_grid j -> peer i j = true ->
    get (v s) i <> 0 -> get (v s) i <> get (v s) j.

(** What holds between two calls that succeeded. *)
Definition propagated (s : SuDoKu) : Prop :=
  pending s /\ peers_cleared s /\ peers_differ s.

(** A pop of a cell of the grid whose mask has exactly one bit. *)
Definition good_pop (ev : pop_event) : Prop :=
  in_grid (fst ev) /\ popcount (snd ev) = 1
  /\ 1 <= ffs (snd ev) <= 9 /\ bit_of (snd ev) (ffs (snd ev)) = true.

(** [peers_cleared] for every assigned cell but [i], the cell whose peers
    are being processed. *)
Definition peers_cleared_but (i : Z) (s : SuDoKu) : Prop :=
  forall a b, in_grid a -> in_grid b -> peer a b = true ->
    get (v s) a <> 0 -> a <> i -> bit_of (get (p s) b) (get (v s) a) = false.

(** A grid between two calls of the program: after [SuDoKu__reset] and
    calls of [SuDoKu__mark] that all succeeded. *)
Definition settled (s : SuDoKu) : Prop :=
  consistent s /\ propagated s /\ q_o s = q_i s.

(** The grid without its statistics. *)
Definition strip (s : SuDoKu) : SuDoKu :=
  mkSuDoKu (o s) (v s) (p s) (c s) (q s) (q_i s) (q_o s) (n s) false GNull.

(** A count as [SuDoKu__unique_sol_aux] reports it: -2 stands for more
    than one. *)
Definition capped (k : Z) : Z := if k <=? 1 then k else -2.

(** A complete grid that obeys the rules and keeps the digits of [base]. *)
Definition solves (base : list Z) (sol : list (list Z)) : Prop :=
  length sol = 9%nat /\ Forall (fun row => length row = 9%nat) sol
  /\ forall i, in_grid i ->
       1 <= cell sol i <= 9
       /\ (forall j, in_grid j -> peer i j = true -> cell sol i <> cell sol j)
       /\ (get base i <> 0 -> cell sol i = get base i).

(** Clue arrays: 81 cells, each blank or a digit. *)
Definition clues_ok (l : list Z) : bool :=
  (length l =? 81)%nat && forallb (fun x => (0 <=? x) && (x <=? 9)) l.

(** A result of [mark_fuel] without the statistics of its grid. *)
Definition strip_result (x : option (Z * SuDoKu * list pop_event))
  : option (Z * SuDoKu * list pop_event) :=
  match x with
  | None => None
  | Some (r, s', tr) => Some (r, strip s', tr)
  end.

(** What one level of the search returns, for [SuDoKu__resolve_aux] and,
    with tracking off, for [SuDoKu__unique_sol_aux]. *)
Definition level_ok (rel : list (list Z)) (f : nat) (s t0 : SuDoKu) : Prop :=
  exists res s',
    resolve_aux_fuel rel f s t0 = Some (0, res, s')
    /\ e s' = e s
    /\ (forall sol, In sol res -> solves (v s) sol)
    /\ (e s = true -> tree_from (n s) (g s'))
    /\ unique_sol_aux_fuel rel f (strip s) t0
       = Some (capped (Z.of_nat (length res))).

(** ** States of the grid *)

(** The grids reached from [SuDoKu__reset] by calls of [SuDoKu__mark] and
    [SuDoKu__eliminate], whatever they return. *)
Inductive reachable (rel : list (list Z)) : SuDoKu -> Prop :=
| reach_reset (s : SuDoKu) : reachable rel (SuDoKu__reset s)
| reach_mark (s : SuDoKu) (i d r : Z) (s' : SuDoKu) :
    reachable rel s -> in_grid i -> 1 <= d <= 9 ->
    SuDoKu__mark rel s i d = Some (r, s') -> reachable rel s'
| reach_eliminate (s : SuDoKu) (i d r : Z) (s' : SuDoKu) :
    reachable rel s -> in_grid i -> 1 <= d <= 9 ->
    SuDoKu__eliminate s i d = (r, s') -> reachable rel s'.

(** The grids on which the program calls [SuDoKu__mark]: it resets, marks
    while the marks succeed, and copies such a grid into a workspace; a
    grid whose mark failed is dropped or reset. *)
Inductive program_state (rel : list (list Z)) : SuDoKu -> Prop :=
| program_reset (s : SuDoKu) : program_state rel (SuDoKu__reset s)
| program_mark (s : SuDoKu) (i d : Z) (s' : SuDoKu) :
    program_state rel s -> in_grid i -> 1 <= d <= 9 ->
    SuDoKu__mark rel s i d = Some (0, s') -> program_state rel s'
| program_copy (s t : SuDoKu) :
    program_state rel s -> program_state rel (SuDoKu__copy s t).

(** The grid after a call of [SuDoKu__mark], whatever it returned. *)
Definition after (rel : list (list Z)) (s : SuDoKu) (i d : Z) : SuDoKu :=
  match SuDoKu__mark rel s i d with
  | Some (_, s') => s'
  | None => s
  end.

(** ** The writes of a mark *)

(** The statements of [SuDoKu__mark] that change the grid, in the order
    of their execution: the four assignments to the marked cell, a call of
    [SuDoKu__eliminate] (which clears a candidate, decrements the count,
    and may append to the queue or write the '-' leaf), the
    [self->q_o += 1] of a pop, and the '-' leaf of a forbidden digit.  The
    code has no statement that restores an earlier value. *)
Inductive write : Type :=
| WAssign (i d : Z)
| WEliminate (j d : Z)
| WPop
| WLeaf.

Definition apply_write (s : SuDoKu) (w : write) : SuDoKu :=
  match w with
  | WAssign i d => assign s i d
  | WEliminate j d => snd (SuDoKu__eliminate s j d)
  | WPop => set_q_o s (q_o s + 1)
  | WLeaf => leaf_minus s
  end.

(** The grid after a list of writes. *)
Definition replay (s : SuDoKu) (ws : list write) : SuDoKu :=
  fold_left apply_write ws s.

(** The calls made by the loop of [SuDoKu__mark] over the relations of
    the marked cell, up to and including the first that fails. *)
Fixpoint peers_writes (s : SuDoKu) (js : list Z) (d : Z) : Z * list write :=
  match js with
  | [] => (0, [])
  | j :: js' =>
      let '(r, s1) := SuDoKu__eliminate s j d in
      if r <? 0 then (r, [WEliminate j d])
      else
        let '(r', ws) := peers_writes s1 js' d in
        (r', WEliminate j d :: ws)
  end.

(** The return code of [SuDoKu__mark] and the writes it has made when it
    returns; after a failure these are the writes made before it. *)
Fixpoint mark_writes (rel : list (list Z)) (f : nat) (s : SuDoKu) (i d : Z)
  {struct f} : option (Z * list write) :=
  match f with
  | O => None
  | S f' =>
      if get (v s) i =? d then Some (0, [])
      else if negb (bit_of (get (p s) i) d) then Some (-2, [WLeaf])
      else
        let '(r, ws) :=
          peers_writes (assign s i d)
            (firstn 20 (nth (Z.to_nat i) rel [])) d in
        if r <? 0 then Some (r, WAssign i d :: ws)
        else
          match drain_writes rel f' (replay s (WAssign i d :: ws)) with
          | None => None
          | Some (r', ws') => Some (r', WAssign i d :: ws ++ ws')
          end
  end
with drain_writes (rel : list (list Z)) (f : nat) (s : SuDoKu)
  {struct f} : option (Z * list write) :=
  match f with
  | O => None
  | S f' =>
      if q_o s <? q_i s then
        let i := get (q s) (q_o s) in
        let s1 := set_q_o s (q_o s + 1) in
        let d := ffs (get (p s1) i) mod 256 in
        match mark_writes rel f' s1 i d with
        | None => None
        | Some (r, ws) =>
            if r <? 0 then Some (r, WPop :: ws)
            else
              match drain_writes rel f' (replay s (WPop :: ws)) with
              | None => None
              | Some (r', ws') => Some (r', WPop :: ws ++ ws')
              end
        end
      else Some (0, [])
  end.

Definition SuDoKu__mark_writes (rel : list (list Z)) (s : SuDoKu) (i d : Z)
  : option (Z * list write) :=
  mark_writes rel mark_depth s i d.

(** ** Input strings *)

Definition valid_char (ch : ascii) : bool := is_clue ch || is_blank ch.

(** The characters of a string that are not newlines. *)
Definition significant (str : string) : list ascii :=
  filter (fun ch => negb (is_newline ch)) (list_ascii_of_string str).

Definition first_invalid (l : list ascii) : option ascii :=
  find (fun ch => negb (valid_char ch)) l.

(** ** More concrete grids *)

(** A puzzle with one solution that propagation alone does not find. *)
Definition demo_puzzle : string :=
  "53.......6..195....98....6.8...6...34..8.3..17...2...6.6....28....419..5....8..79".

Definition demo_grid : SuDoKu :=
  snd (SuDoKu__from_string (fresh (repeat 0 81)) demo_puzzle).

(** The first row holds 1 to 7 in its first seven cells; the last two
    cells of the row can both hold 8 or 9. *)
Definition row_state : SuDoKu :=
  let mark := after SuDoKu__relations in
  mark (mark (mark (mark (mark (mark (mark
    (SuDoKu__reset (fresh (repeat 0 81))) 0 1) 1 2) 2 3) 3 4) 4 5) 5 6) 6 7.

(** 81 blanks. *)
Definition blank_puzzle : string :=
  ".................................................................................".

(** What [SuDoKu_resolve] makes of the demonstration puzzle. *)
Definition demo_outcome : option (py_result * SuDoKu) :=
  Eval vm_compute in SuDoKu_resolve SuDoKu__relations demo_grid (fresh []).

Definition demo_solutions : solutions :=
  match demo_outcome with
  | Some (Returned l, _) => l
  | _ => []
  end.

Definition demo_final : SuDoKu :=
  match demo_outcome with
  | Some (_, s) => s
  | None => demo_grid
  end.

(** ** Solutions of a puzzle *)

(** A complete grid that obeys the rules: 81 digits, peers different. *)
Definition valid_grid (a : list Z) : Prop :=
  length a = 81%nat
  /\ forall i, in_grid i ->
       1 <= get a i <= 9
       /\ forall j, in_grid j -> peer i j = true -> get a i <> get a j.

(** A valid grid that keeps every clue. *)
Definition is_solution (clues a : list Z) : Prop :=
  valid_grid a
  /\ forall i, in_grid i -> get clues i <> 0 -> get a i = get clues i.

(** The grid [a] is still possible in the state [s]: it agrees with the
    assigned cells and its digits are candidates of the others. *)
Definition fits (a : list Z) (s : SuDoKu) : Prop :=
  forall i, in_grid i ->
    (get (v s) i <> 0 -> get a i = get (v s) i)
    /\ (get (v s) i = 0 -> bit_of (get (p s) i) (get a i) = true).

(** A mask with one bit has [ffs] at that bit. *)
Definition single_bit_check (m : Z) : bool :=
  forallb (fun d => implb ((popcount m =? 1) && bit_of m d) (ffs m =? d))
    (range 20).


(** What one level of [SuDoKu__resolve_aux] returns, seen from the
    solutions: no grid twice, and every grid that is still possible. *)
Definition level_exact (rel : list (list Z)) (f : nat) (s t0 : SuDoKu)
  : Prop :=
  exists res s',
    resolve_aux_fuel rel f s t0 = Some (0, res, s')
    /\ NoDup res
    /\ (forall sol, In sol res -> solves (v s) sol)
    /\ (forall a, valid_grid a -> fits a s ->
          In (SuDoKu_get2darray a) res).


(** [valid_grid], decided. *)
Definition valid_gridb (a : list Z) : bool :=
  (length a =? 81)%nat
  && forallb (fun i =>
       (1 <=? get a i) && (get a i <=? 9)
       && forallb (fun j => implb (peer i j) (negb (get a i =? get a j)))
            (range 81))
     (range 81).

(** What [SuDoKu_resolve] makes of [two_way_grid]. *)
Definition two_way_outcome : option (py_result * SuDoKu) :=
  Eval vm_compute in
    SuDoKu_resolve SuDoKu__relations (fresh two_way_grid) (fresh []).

Definition two_way_solutions : solutions :=
  match two_way_outcome with
  | Some (Returned l, _) => l
  | _ => []
  end.

Definition two_way_final : SuDoKu :=
  match two_way_outcome with
  | Some (_, s) => s
  | None => fresh two_way_grid
  end.

(** Two 5s in the first row. *)
Definition clash_grid : list Z := put (put (repeat 0 81) 0 5) 1 5.

Definition clash_final : SuDoKu :=
  Eval vm_compute in
    match SuDoKu_resolve SuDoKu__relations (fresh clash_grid) (fresh []) with
    | Some (_, s) => s
    | None => fresh clash_grid
    end.


(** The grid after the clues of [full_grid] have been marked. *)
Definition full_state : SuDoKu :=
  Eval vm_compute in
    match mark_clues SuDoKu__relations (SuDoKu__reset (fresh full_grid))
            (range 81) with
    | Some (_, s) => s
    | None => fresh full_grid
    end.


(** ** Generation *)

(** [self->e = x] *)
Definition set_e (s : SuDoKu) (x : bool) : SuDoKu :=
  mkSuDoKu (o s) (v s) (p s) (c s) (q s) (q_i s) (q_o s) (n s) x (g s).

(** The values of [random()] are a stream [rnd]; the model counts the
    values drawn so far. *)

(** One round of the two shuffle loops of [SuDoKu_generate]:
    [j = random() % (i + 1); order[i] = order[j]; order[j] = i;]. *)
Definition shuffle_step (rnd : nat -> Z) (st : list Z * nat) (i : Z)
  : list Z * nat :=
  let j := Z.rem (rnd (snd st)) (i + 1) in
  let order1 := put (fst st) i (get (fst st) j) in
  (put order1 j i, S (snd st)).

Definition shuffle (rnd : nat -> Z) (order : list Z) (k : nat)
  : list Z * nat :=
  fold_left (shuffle_step rnd) (range 81) (order, k).

(** [for (k = 0; k < m; k++) j &= j - 1;] *)
Fixpoint clear_low (j : Z) (m : nat) : Z :=
  match m with
  | O => j
  | S m' => clear_low (Z.land j (j - 1)) m'
  end.

(** One pass of step 1 over the cells in shuffled order: the division
    [random() % 0] has no result, a Contradiction ends the pass. *)
Inductive fill_result : Type :=
| FillCrash
| FillRetry (s : SuDoKu) (k : nat)
| FillDone (s : SuDoKu) (k : nat).

Fixpoint fill_cells (rel : list (list Z)) (rnd : nat -> Z) (s : SuDoKu)
  (k : nat) (cells : list Z) : option fill_result :=
  match cells with
  | [] => Some (FillDone s k)
  | i :: cells' =>
      if get (v s) i =? 0 then
        if get (c s) i =? 0 then Some FillCrash
        else
          let m := Z.rem (rnd k) (get (c s) i) in
          let d := ffs (clear_low (get (p s) i) (Z.to_nat m)) mod 256 in
          match SuDoKu__mark rel s i d with
          | None => None
          | Some (r, s1) =>
              if r =? -2 then Some (FillRetry s1 (S k))
              else fill_cells rel rnd s1 (S k) cells'
          end
      else fill_cells rel rnd s k cells'
  end.

(** The [while (1)] loop of step 1, with a bound [att] on the number of
    passes: the C loop has none. *)
Fixpoint fill_grid (rel : list (list Z)) (rnd : nat -> Z) (att : nat)
  (s : SuDoKu) (order : list Z) (k : nat) : option fill_result :=
  match att with
  | O => None
  | S att' =>
      match fill_cells rel rnd (SuDoKu__reset s) k
              (map (get order) (range 81)) with
      | Some (FillRetry s1 k1) => fill_grid rel rnd att' s1 order k1
      | x => x
      end
  end.

(** [self] after [SuDoKu__unique_sol]: the search works on the copies in
    [ws]. *)
Definition unique_sol_self (rel : list (list Z)) (s : SuDoKu)
  : option SuDoKu :=
  match mark_clues rel (SuDoKu__reset s) (range 81) with
  | None => None
  | Some (_, s1) => Some s1
  end.

(** The last loop of step 2: [inl] is [return NULL]. *)
Fixpoint reduce_cells (rel : list (list Z)) (s t0 : SuDoKu) (cells : list Z)
  : option (SuDoKu + SuDoKu) :=
  match cells with
  | [] => Some (inr s)
  | i :: cells' =>
      let d := get (o s) i in
      let s1 := set_o s (put (o s) i 0) in
      match SuDoKu__unique_sol rel s1 t0, unique_sol_self rel s1 with
      | Some r, Some s2 =>
          if 0 <=? r then reduce_cells rel s2 t0 cells'
          else if r =? -2 then
            reduce_cells rel (set_o s2 (put (o s2) i d)) t0 cells'
          else Some (inl s2)
      | _, _ => None
      end
  end.

Inductive gen_outcome : Type :=
| GenCrash
| GenNull (s : SuDoKu)
| GenGrid (l : list (list Z)) (s : SuDoKu).

(** [SuDoKu_generate]: [order0] is the content of the uninitialised
    array [order], [t0] that of the workspace of [SuDoKu__unique_sol];
    [memcpy(self->o, self->v, 81)] copies the whole array. *)
Definition SuDoKu_generate (rel : list (list Z)) (rnd : nat -> Z)
  (att : nat) (order0 : list Z) (s t0 : SuDoKu) : option gen_outcome :=
  let s0 := set_e (SuDoKu__reset s) false in
  let sh1 := shuffle rnd order0 0 in
  match fill_grid rel rnd att s0 (fst sh1) (snd sh1) with
  | Some FillCrash => Some GenCrash
  | Some (FillDone s1 k2) =>
      let s2 := set_o s1 (v s1) in
      let sh2 := shuffle rnd (fst sh1) k2 in
      match reduce_cells rel s2 t0 (map (get (fst sh2)) (range 81)) with
      | None => None
      | Some (inl s3) => Some (GenNull s3)
      | Some (inr s3) =>
          Some (GenGrid (SuDoKu_get2darray (o s3)) (set_e s3 (e s)))
      end
  | _ => None
  end.

(** A linear congruential stream of values in [0, 2^31). *)
Definition lcg (k : nat) : Z :=
  (Z.of_nat k * 1103515245 + 12345) mod 2147483648.


(** Every unassigned cell has a candidate left. *)
Definition alive (s : SuDoKu) : Prop :=
  forall i, in_grid i -> get (v s) i = 0 -> 1 <= get (c s) i.

(** After fewer rounds of [j &= j - 1] than the mask has bits, [ffs]
    finds a bit of the mask; checked on all masks. *)
Definition low_bits_check (m : Z) : bool :=
  forallb (fun k =>
             implb (k <? popcount m)
               (let d := ffs (clear_low m (Z.to_nat k)) in
                (1 <=? d) && (d <=? 9) && bit_of m d))
    (range 9).

(** The clue array [base'] asks no more than [base]. *)
Definition weaker (base' base : list Z) : Prop :=
  forall i, in_grid i -> get base' i <> 0 -> get base' i = get base i.

(** The state of step 2 of [SuDoKu_generate]: the clues have the one
    solution [full], and no clue of a cell in [done] can be blanked
    without allowing another one. *)
Definition reduced (full : list (list Z)) (done : Z -> Prop) (s : SuDoKu)
  : Prop :=
  clues_ok (o s) = true
  /\ solves (o s) full
  /\ (forall sol, solves (o s) sol -> sol = full)
  /\ (forall i, done i -> in_grid i -> get (o s) i <> 0 ->
        exists sol, solves (put (o s) i 0) sol /\ sol <> full).

(** A run of [SuDoKu_generate] on the stream [lcg]. *)
Definition gen_demo : option gen_outcome :=
  Eval vm_compute in
    SuDoKu_generate SuDoKu__relations lcg 50 (repeat 0 81) (fresh [])
      (fresh []).

Definition gen_demo_grid : SuDoKu :=
  match gen_demo with
  | Some (GenGrid _ s) => s
  | _ => fresh []
  end.


Definition gen_demo_out : gen_outcome :=
  match gen_demo with
  | Some x => x
  | None => GenCrash
  end.


(** ** Output *)

(** A block of [char] obtained from [calloc] is a list of characters; a
    write outside of the block has no result. *)
Definition nul : ascii := "000"%char.

Definition chr (x : Z) : ascii := ascii_of_nat (Z.to_nat x).

Inductive fmt (A : Type) : Type :=
| Overflow
| Invalid
| Ok (x : A).

Arguments Overflow {A}.
Arguments Invalid {A}.
Arguments Ok {A} x.

Definition bind {A B : Type} (m : fmt A) (f : A -> fmt B) : fmt B :=
  match m with
  | Overflow => Overflow
  | Invalid => Invalid
  | Ok x => f x
  end.

Notation "x <- m ;; k" := (bind m (fun x => k))
  (at level 61, m at next level, right associativity).

(** [buf[off] = ch] *)
Definition poke (buf : list ascii) (off : Z) (ch : ascii)
  : fmt (list ascii) :=
  if (0 <=? off) && (off <? Z.of_nat (length buf))
  then Ok (upd buf (Z.to_nat off) ch) else Overflow.

(** [stpcpy(buf + off, src)]: the characters, then the terminating NUL,
    whose offset is returned. *)
Fixpoint stpcpy (buf : list ascii) (off : Z) (src : list ascii)
  : fmt (list ascii * Z) :=
  match src with
  | [] => b <- poke buf off nul ;; Ok (b, off)
  | ch :: src' => b <- poke buf off ch ;; stpcpy b (off + 1) src'
  end.

Definition copy (src : string) (st : list ascii * Z) : fmt (list ascii * Z) :=
  stpcpy (fst st) (snd st) (list_ascii_of_string src).

(** The C string that starts a block, as [_PyUnicode_FromString] reads
    it. *)
Fixpoint c_string (buf : list ascii) : string :=
  match buf with
  | [] => EmptyString
  | ch :: buf' =>
      if code ch =? 0 then EmptyString else String ch (c_string buf')
  end.

(** [SuDoKu__to_string] writing at [s = buf + off]. *)
Fixpoint to_string_cells (vals : list Z) (cells : list Z)
  (buf : list ascii) (off : Z) : fmt (list ascii) :=
  match cells with
  | [] => poke buf (off + 81) nul
  | i :: cells' =>
      let x := get vals i in
      if x =? 0 then
        b <- poke buf (off + i) "_"%char ;; to_string_cells vals cells' b off
      else if (1 <=? x) && (x <=? 9) then
        b <- poke buf (off + i) (chr (x + 48)) ;;
        to_string_cells vals cells' b off
      else Invalid
  end.

Definition SuDoKu__to_string (vals : list Z) (buf : list ascii) (off : Z)
  : fmt (list ascii) :=
  to_string_cells vals (range 81) buf off.

Definition newline : string := String "010"%char EmptyString.

Definition sep : string :=
  (" --- --- --- --- --- --- --- --- --- " ++ newline)%string.

Definition lin : string :=
  ("|   |   |   |   |   |   |   |   |   |" ++ newline)%string.

(** The inner loop of [SuDoKu__to_console]: the digits of row [i] are
    written into the line copied at [p1]. *)
Fixpoint console_cells (vals : list Z) (i : Z) (js : list Z) (p1 : Z)
  (buf : list ascii) : fmt (list ascii) :=
  match js with
  | [] => Ok buf
  | j :: js' =>
      let k := get vals (9 * i + j) in
      if k =? 0 then console_cells vals i js' p1 buf
      else if (1 <=? k) && (k <=? 9) then
        b <- poke buf (p1 + (4 * j + 2)) (chr (k + 48)) ;;
        console_cells vals i js' p1 b
      else Invalid
  end.

(** The body of the outer loop of [SuDoKu__to_console]: [st] is the block
    and [p1]. *)
Definition console_row (vals : list Z) (i : Z) (st : list ascii * Z)
  : fmt (list ascii * Z) :=
  st2 <- copy lin st ;;
  b <- console_cells vals i (range 9) (snd st) (fst st2) ;;
  copy sep (b, snd st2).

Fixpoint console_rows (vals : list Z) (rows : list Z) (st : list ascii * Z)
  : fmt (list ascii * Z) :=
  match rows with
  | [] => Ok st
  | i :: rows' => st1 <- console_row vals i st ;; console_rows vals rows' st1
  end.

(** [SuDoKu__to_console] *)
Definition SuDoKu__to_console (vals : list Z) (buf : list ascii)
  : fmt (list ascii) :=
  st1 <- copy sep (buf, 0) ;;
  st2 <- console_rows vals (range 9) st1 ;;
  poke (fst st2) (snd st2 - 1) nul.

Definition quote : string := String "034"%char EmptyString.

(** The body of the inner loop of [SuDoKu__to_html] for the value [k];
    [st] is the block and [p]. *)
Definition html_cell (k : Z) (st : list ascii * Z) : fmt (list ascii * Z) :=
  st1 <- copy "<td>" st ;;
  st2 <- (if k =? 0 then copy "&nbsp;" st1
          else if (1 <=? k) && (k <=? 9) then
            b0 <- poke (fst st1) (snd st1) (chr (k + 48)) ;;
            b1 <- poke b0 (snd st1 + 1) nul ;;
            Ok (b1, snd st1 + 1)
          else Invalid) ;;
  copy "</td>" st2.

Fixpoint html_cells (vals : list Z) (i : Z) (js : list Z)
  (st : list ascii * Z) : fmt (list ascii * Z) :=
  match js with
  | [] => Ok st
  | j :: js' =>
      st1 <- html_cell (get vals (9 * i + j)) st ;;
      html_cells vals i js' st1
  end.

Definition html_row (vals : list Z) (i : Z) (st : list ascii * Z)
  : fmt (list ascii * Z) :=
  st1 <- copy "<tr>" st ;;
  st2 <- html_cells vals i (range 9) st1 ;;
  copy "</tr>" st2.

Fixpoint html_rows (vals : list Z) (rows : list Z) (st : list ascii * Z)
  : fmt (list ascii * Z) :=
  match rows with
  | [] => Ok st
  | i :: rows' => st1 <- html_row vals i st ;; html_rows vals rows' st1
  end.

(** [SuDoKu__to_html] *)
Definition SuDoKu__to_html (vals : list Z) (buf : list ascii)
  : fmt (list ascii) :=
  st1 <- copy ("<table class=" ++ quote ++ "sudoku" ++ quote ++ ">")
           (buf, 0) ;;
  st2 <- html_rows vals (range 9) st1 ;;
  st3 <- copy "</table>" st2 ;;
  Ok (fst st3).

(** ** Python values *)

(** The objects that [SuDoKu_set2darray] tells apart: an exact [int], an
    exact [list], anything else. *)
#[warnings="-register-all"]
Inductive pyobj : Type :=
| PyInt (x : Z)
| PyList (l : list pyobj)
| PyOther.

(** [_PyLong_AsLong] for a [long] of 64 bits: -1 on overflow. *)
Definition PyLong_AsLong (x : Z) : Z :=
  if (- 2 ^ 63 <=? x) && (x <? 2 ^ 63) then x else -1.

Inductive set_error : Type :=
| NoValue
| NotNineRows
| NotNineColumns
| NotIntegers.

(** The loop over [j] of [SuDoKu_set2darray]. *)
Fixpoint set_cells (a : list Z) (i : Z) (js : list Z) (r : list pyobj)
  : option set_error * list Z :=
  match js with
  | [] => (None, a)
  | j :: js' =>
      match nth (Z.to_nat j) r PyOther with
      | PyInt x =>
          set_cells (put a (9 * i + j) (PyLong_AsLong x mod 256)) i js' r
      | _ => (Some NotIntegers, a)
      end
  end.

Fixpoint set_rows (a : list Z) (rows : list Z) (l : list pyobj)
  : option set_error * list Z :=
  match rows with
  | [] => (None, a)
  | i :: rows' =>
      match nth (Z.to_nat i) l PyOther with
      | PyList r =>
          if (length r =? 9)%nat then
            match set_cells a i (range 9) r with
            | (None, a1) => set_rows a1 rows' l
            | x => x
            end
          else (Some NotNineColumns, a)
      | _ => (Some NotNineColumns, a)
      end
  end.

(** [SuDoKu_set2darray]: the return code ([None] is 0) and the array. *)
Definition SuDoKu_set2darray (a : list Z) (v : option pyobj)
  : option set_error * list Z :=
  match v with
  | None => (Some NoValue, a)
  | Some (PyList l) =>
      if (length l =? 9)%nat then set_rows a (range 9) l
      else (Some NotNineRows, a)
  | Some _ => (Some NotNineRows, a)
  end.

(** [SuDoKu_get2darray] as Python objects. *)
Definition py_grid (a : list Z) : pyobj :=
  PyList (map (fun row => PyList (map PyInt row)) (SuDoKu_get2darray a)).

(** What [SuDoKu_to_string], [SuDoKu_str] and [SuDoKu_repr] return. *)
Inductive str_result : Type :=
| StrOverflow
| StrError
| StrValueError
| StrInvalidFormat
| StrReturned (str : string).

Definition finish (r : fmt (list ascii)) : str_result :=
  match r with
  | Overflow => StrOverflow
  | Invalid => StrValueError
  | Ok buf => StrReturned (c_string buf)
  end.

(** [SuDoKu_to_string]: [cvalues0] is the content of the uninitialised
    array [cvalues]. *)
Definition SuDoKu_to_string (s : SuDoKu) (format : string)
  (values : option pyobj) (cvalues0 : list Z) : str_result :=
  match
    match values with
    | None => (None, o s)
    | Some x => SuDoKu_set2darray cvalues0 (Some x)
    end
  with
  | (Some NoValue, _) => StrError
  | (Some _, _) => StrValueError
  | (None, cvalues) =>
      if String.eqb format "console" then
        finish (SuDoKu__to_console cvalues (repeat nul (19 * 38 + 1)))
      else if String.eqb format "html" then
        finish (SuDoKu__to_html cvalues (repeat nul (9 * 144 + 30 + 1)))
      else if String.eqb format "string" then
        finish (SuDoKu__to_string cvalues (repeat nul (81 + 1)) 0)
      else StrInvalidFormat
  end.

(** [SuDoKu_str] *)
Definition SuDoKu_str (s : SuDoKu) : str_result :=
  finish (SuDoKu__to_string (o s) (repeat nul 82) 0).

(** [SuDoKu_repr], without [DEBUG]. *)
Definition SuDoKu_repr (s : SuDoKu) : str_result :=
  finish
    (st0 <- copy "sudoku.SuDoKu(" (repeat nul 135, 0) ;;
     let show_problem := existsb (fun i => negb (get (o s) i =? 0)) (range 81) in
     st1 <- (if show_problem then
               st <- copy ("problem=" ++ quote) st0 ;;
               b <- SuDoKu__to_string (o s) (fst st) (snd st) ;;
               copy quote (b, snd st + 81)
             else Ok st0) ;;
     st2 <- (if negb (e s) then
               st <- (if negb show_problem then Ok st1 else copy ", " st1) ;;
               copy "estimate=False" st
             else Ok st1) ;;
     st3 <- copy ")" st2 ;;
     Ok (fst st3)).

(** [SuDoKu_new]: the fields that [tp_alloc] zeroes, [e = 1]. *)
Definition SuDoKu_new : SuDoKu :=
  mkSuDoKu (repeat 0 81) (repeat 0 81) (repeat 0 81) (repeat 0 81)
           (repeat 0 81) 0 0 0 true GNull.

(** [SuDoKu_init]: the arguments [problem] and [estimate] are optional;
    the flag is stored while the arguments are parsed. *)
Definition SuDoKu_init (s : SuDoKu) (problem : option string)
  (estimate : option bool) : option format_error * SuDoKu :=
  let s1 := match estimate with Some b => set_e s b | None => s end in
  match problem with
  | Some str => SuDoKu__from_string s1 str
  | None => (None, s1)
  end.


(** ** The text of a grid *)

(** [0 <= x <= 9]: a blank or a digit. *)
Definition valid_cell (x : Z) : bool := (0 <=? x) && (x <=? 9).

Definition valid_cells (vals : list Z) : bool :=
  forallb (fun i => valid_cell (get vals i)) (range 81).

(** The character of a cell in the one-line format. *)
Definition cell_char (x : Z) : ascii :=
  if x =? 0 then "_"%char else chr (x + 48).

(** The 81 characters of the one-line format. *)
Definition grid_text (vals : list Z) : list ascii :=
  map (fun i => cell_char (get vals i)) (range 81).


(** What a character becomes when a string is parsed and printed. *)
Definition normal_char (ch : ascii) : ascii :=
  if is_clue ch then ch else "_"%char.

(** The digit of a cell written over the line of its row. *)
Definition console_step (vals : list Z) (i : Z) (l : list ascii) (j : Z)
  : list ascii :=
  let k := get vals (9 * i + j) in
  if k =? 0 then l else upd l (Z.to_nat (4 * j + 2)) (chr (k + 48)).

Definition console_line (vals : list Z) (i : Z) (js : list Z)
  (l : list ascii) : list ascii :=
  fold_left (console_step vals i) js l.

(** The text of the console format before the last newline is cut. *)
Definition console_text (vals : list Z) (rows : list Z) : list ascii :=
  flat_map (fun i => console_line vals i (range 9) (list_ascii_of_string lin)
                     ++ list_ascii_of_string sep) rows.

(** The text of the cells and rows of the HTML format. *)
Definition html_cell_text (x : Z) : list ascii :=
  list_ascii_of_string "<td>"
  ++ (if x =? 0 then list_ascii_of_string "&nbsp;" else [chr (x + 48)])
  ++ list_ascii_of_string "</td>".

Definition html_cells_text (vals : list Z) (i : Z) (js : list Z)
  : list ascii :=
  flat_map (fun j => html_cell_text (get vals (9 * i + j))) js.

Definition html_rows_text (vals : list Z) (rows : list Z) : list ascii :=
  flat_map (fun i => list_ascii_of_string "<tr>"
                     ++ html_cells_text vals i (range 9)
                     ++ list_ascii_of_string "</tr>") rows.

Definition html_text (vals : list Z) : list ascii :=
  list_ascii_of_string
    ("<table class=" ++ quote ++ "sudoku" ++ quote ++ ">")
  ++ html_rows_text vals (range 9)
  ++ list_ascii_of_string "</table>".

(** A grid whose cell 40 holds 10. *)
Definition bad_grid : SuDoKu := set_o SuDoKu_new (put (repeat 0 81) 40 10).


(** No character of the text ends a C string. *)
Definition no_nul (l : list ascii) : bool :=
  forallb (fun ch => negb (code ch =? 0)) l.

(** The text of the console format. *)
Definition console_output (vals : list Z) : list ascii :=
  removelast (list_ascii_of_string sep ++ console_text vals (range 9)).


(** [(unsigned char)_PyLong_AsLong(c)] *)
Definition as_byte (x : Z) : Z := PyLong_AsLong x mod 256.

Definition is_int (x : pyobj) : bool :=
  match x with PyInt _ => true | _ => false end.

(** A row that [SuDoKu_set2darray] accepts: a list of nine integers. *)
Definition good_row (x : pyobj) : bool :=
  match x with
  | PyList r => (length r =? 9)%nat && forallb is_int r
  | _ => false
  end.


(** A list of rows whose second row is not a list. *)
Definition broken_rows : list pyobj :=
  PyList (map PyInt [1; 2; 3; 4; 5; 6; 7; 8; 9]) :: PyOther
  :: repeat (PyList (map PyInt [0; 0; 0; 0; 0; 0; 0; 0; 0])) 7.


(** The arguments that [SuDoKu_repr] shows: the clues when one is not
    blank, the flag when it is off. *)
Definition shown_problem (s : SuDoKu) : option string :=
  if existsb (fun i => negb (get (o s) i =? 0)) (range 81)
  then Some (string_of_list_ascii (grid_text (o s))) else None.

Definition shown_estimate (s : SuDoKu) : option bool :=
  if e s then None else Some false.

(** The call of the constructor with these arguments, as text. *)
Definition repr_text (problem : option string) (estimate : option bool)
  : list ascii :=
  list_ascii_of_string "sudoku.SuDoKu("
  ++ match problem with
     | Some str =>
         list_ascii_of_string ("problem=" ++ quote)
         ++ list_ascii_of_string str ++ list_ascii_of_string quote
     | None => []
     end
  ++ match estimate with
     | Some b =>
         (match problem with
          | Some _ => list_ascii_of_string ", "
          | None => []
          end)
         ++ list_ascii_of_string
              (if b then "estimate=True" else "estimate=False")
     | None => []
     end
  ++ list_ascii_of_string ")".


(** 81 characters whose third is not a cell. *)
Definition bad_puzzle : string :=
  "12x.............................................................................1".


(** ** Leaves of the decision tree *)

(** The number of ['+'] leaves. *)
Fixpoint plus_leaves (x : graph) : Z :=
  match x with
  | GLeaf _ ch => if Ascii.eqb ch "+"%char then 1 else 0
  | GNode _ l => fold_right (fun y acc => plus_leaves y + acc) 0 l
  | _ => 0
  end.

(** Every ['+'] leaf is at depth 81. *)
Fixpoint plus_at_81 (x : graph) : Prop :=
  match x with
  | GLeaf d ch => Ascii.eqb ch "+"%char = true -> d = 81
  | GNode _ l => fold_right (fun y acc => plus_at_81 y /\ acc) True l
  | _ => True
  end.

(** * Properties *)

(** ** Arrays *)

Lemma length_upd {A : Type} (l : list A) (k : nat) (x : A) :
  length (upd l k x) = length l.
Proof.
  revert k; induction l as [|h t IH]; intros [|k]; simpl; auto.
Qed.

Lemma nth_upd_eq {A : Type} (l : list A) (k : nat) (x y : A) :
  (k < length l)%nat -> nth k (upd l k x) y = x.
Proof.
  revert k; induction l as [|h t IH]; intros [|k] H; simpl in *; try lia; auto.
  apply IH; lia.
Qed.

Lemma nth_upd_neq {A : Type} (l : list A) (k k' : nat) (x y : A) :
  k <> k' -> nth k' (upd l k x) y = nth k' l y.
Proof.
  revert k k'; induction l as [|h t IH]; intros [|k] [|k'] H; simpl; auto.
  - congruence.
Qed.

Lemma length_put (l : list Z) (i x : Z) : length (put l i x) = length l.
Proof.
  unfold put; destruct (i <? 0); auto using length_upd.
Qed.

Lemma get_put_eq (l : list Z) (i x : Z) :
  0 <= i < Z.of_nat (length l) -> get (put l i x) i = x.
Proof.
  intros H; unfold get, put.
  destruct (Z.ltb_spec i 0); [lia|].
  apply nth_upd_eq; lia.
Qed.

Lemma get_put_neq (l : list Z) (i j x : Z) :
  i <> j -> get (put l i x) j = get l j.
Proof.
  intros H; unfold get, put.
  destruct (Z.ltb_spec j 0); auto.
  destruct (Z.ltb_spec i 0); auto.
  apply nth_upd_neq; lia.
Qed.

Lemma get_put (l : list Z) (i j x : Z) :
  0 <= i < Z.of_nat (length l) ->
  get (put l i x) j = if j =? i then x else get l j.
Proof.
  intros H; destruct (Z.eqb_spec j i) as [->|Hne].
  - now apply get_put_eq.
  - apply get_put_neq; congruence.
Qed.

Lemma get_repeat (x : Z) (k : nat) (i : Z) :
  0 <= i < Z.of_nat k -> get (repeat x k) i = x.
Proof.
  intros H; unfold get.
  destruct (Z.ltb_spec i 0); [lia|].
  apply nth_repeat_lt; lia.
Qed.

Lemma in_range (k : nat) (x : Z) : In x (range k) <-> 0 <= x < Z.of_nat k.
Proof.
  unfold range; rewrite in_map_iff; split.
  - intros (y & <- & Hy); apply in_seq in Hy; lia.
  - intros H; exists (Z.to_nat x); split; [lia|apply in_seq; lia].
Qed.

Lemma forallb_range (k : nat) (P : Z -> bool) :
  forallb P (range k) = true -> forall x, 0 <= x < Z.of_nat k -> P x = true.
Proof.
  intros H x Hx; rewrite forallb_forall in H; apply H, in_range, Hx.
Qed.

(** ** Candidate masks *)

Lemma bit_of_testbit (m d : Z) : bit_of m d = Z.testbit m (d - 1).
Proof.
  unfold bit_of.
  pose proof (Z.land_ones (Z.shiftr m (d - 1)) 1 ltac:(lia)) as H.
  change (Z.ones 1) with 1 in H; change (2 ^ 1) with 2 in H.
  rewrite H, <- Z.bit0_mod, Z.shiftr_spec by lia; simpl.
  destruct (Z.testbit m (d - 1)); reflexivity.
Qed.

Lemma bit_of_flip_same (m d : Z) :
  1 <= d -> bit_of m d = true -> bit_of (flip_bit m d) d = false.
Proof.
  intros Hd H; rewrite bit_of_testbit in *; unfold flip_bit.
  rewrite Z.lxor_spec, H, Z.shiftl_1_l, Z.pow2_bits_true by lia; reflexivity.
Qed.

Lemma bit_of_flip_other (m d d' : Z) :
  1 <= d -> d' <> d -> bit_of (flip_bit m d) d' = bit_of m d'.
Proof.
  intros Hd H; rewrite !bit_of_testbit; unfold flip_bit.
  rewrite Z.lxor_spec, Z.shiftl_1_l, Z.pow2_bits_false by lia.
  apply xorb_false_r.
Qed.

Lemma bit_of_zero (d : Z) : bit_of 0 d = false.
Proof. rewrite bit_of_testbit; apply Z.testbit_0_l. Qed.

Lemma mask_check_all : forallb mask_check (range 512) = true.
Proof. vm_compute; reflexivity. Qed.

Lemma mask_facts (m : Z) :
  is_mask m ->
  0 <= popcount m <= 9 /\ (popcount m = 0 <-> m = 0)
  /\ 0 <= ffs m <= 9 /\ (ffs m = 0 <-> m = 0)
  /\ (popcount m = 1 -> bit_of m (ffs m) = true).
Proof.
  intros Hm.
  pose proof (forallb_range _ _ mask_check_all m Hm) as H.
  unfold mask_check in H; rewrite !andb_true_iff in H.
  destruct H as (((((((A & B) & C) & D) & E) & F) & G) & _).
  apply Z.leb_le in A, B, D, E.
  apply Bool.eqb_prop in C, F.
  assert (C' : popcount m = 0 <-> m = 0).
  { split; intros X; apply Z.eqb_eq; [rewrite <- C | rewrite C];
      apply Z.eqb_eq, X. }
  assert (F' : ffs m = 0 <-> m = 0).
  { split; intros X; apply Z.eqb_eq; [rewrite <- F | rewrite F];
      apply Z.eqb_eq, X. }
  repeat (split; [lia || assumption|]).
  intros X; apply Z.eqb_eq in X; rewrite X in G; exact G.
Qed.

Lemma mask_flip (m d : Z) :
  is_mask m -> 0 <= d <= 19 -> bit_of m d = true ->
  is_mask (flip_bit m d) /\ popcount (flip_bit m d) = popcount m - 1
  /\ 1 <= d <= 9.
Proof.
  intros Hm Hd Hb.
  pose proof (forallb_range _ _ mask_check_all m Hm) as H.
  unfold mask_check in H.
  apply andb_prop in H; destruct H as [_ H].
  pose proof (forallb_range _ _ H d ltac:(simpl; lia)) as H1.
  simpl in H1; rewrite Hb in H1; simpl in H1.
  rewrite !andb_true_iff in H1.
  destruct H1 as ((((A & B) & C) & D) & E).
  apply Z.leb_le in A, D, E; apply Z.ltb_lt in B; apply Z.eqb_eq in C.
  unfold is_mask; lia.
Qed.

(** ** Elimination of a candidate *)

Lemma range_NoDup (k : nat) : NoDup (range k).
Proof.
  apply NoDup_map_NoDup_ForallPairs; [|apply seq_NoDup].
  intros a b _ _ H; lia.
Qed.

(** A queue of distinct cells that misses one cell has room left. *)
Lemma queue_room (f : Z -> Z) (k x : Z) :
  0 <= k ->
  (forall a, 0 <= a < k -> in_grid (f a)) ->
  (forall a b, 0 <= a < b -> b < k -> f a <> f b) ->
  in_grid x -> (forall a, 0 <= a < k -> f a <> x) ->
  k < 81.
Proof.
  intros Hk Hin Hinj Hx Hnot.
  assert (N : NoDup (x :: map f (range (Z.to_nat k)))).
  { constructor.
    - rewrite in_map_iff; intros (a & E & Ha); apply in_range in Ha.
      apply (Hnot a); [lia|exact E].
    - apply NoDup_map_NoDup_ForallPairs; [|apply range_NoDup].
      intros a b Ha Hb E; apply in_range in Ha, Hb.
      destruct (Z.lt_trichotomy a b) as [L|[L|L]]; auto.
      + exfalso; apply (Hinj a b); auto; lia.
      + exfalso; apply (Hinj b a); auto; lia. }
  assert (I : incl (x :: map f (range (Z.to_nat k))) (range 81)).
  { intros y [<-|Hy]; apply in_range; [exact Hx|].
    apply in_map_iff in Hy; destruct Hy as (a & <- & Ha).
    apply in_range in Ha; apply Hin; lia. }
  pose proof (NoDup_incl_length N I) as L.
  simpl in L; unfold range in L; rewrite !length_map, !length_seq in L; lia.
Qed.

Lemma eliminate_cases (s : SuDoKu) (i d : Z) :
  consistent s -> in_grid i -> 0 <= d <= 19 ->
  exists r s',
    SuDoKu__eliminate s i d = (r, s')
    /\ o s' = o s /\ v s' = v s /\ n s' = n s /\ q_o s' = q_o s /\ e s' = e s
    /\ ((bit_of (get (p s) i) d = false /\ r = 0 /\ s' = s)
        \/ (bit_of (get (p s) i) d = true /\ 1 <= d <= 9
            /\ p s' = put (p s) i (flip_bit (get (p s) i) d)
            /\ c s' = put (c s) i (get (c s) i - 1)
            /\ ((get (c s) i = 1 /\ r = -2 /\ q s' = q s /\ q_i s' = q_i s)
                \/ (get (c s) i = 2 /\ r = 0
                    /\ q s' = put (q s) (q_i s) i /\ q_i s' = q_i s + 1
                    /\ g s' = g s)
                \/ (2 < get (c s) i /\ r = 0 /\ q s' = q s
                    /\ q_i s' = q_i s /\ g s' = g s)))).
Proof.
  intros (Hs & Hc & Hq & Hn) Hi Hd.
  destruct Hs as (Lv & Lp & Lc & Lq).
  destruct (Hc i Hi) as (Hm & Hcnt & _ & _).
  unfold SuDoKu__eliminate.
  destruct (bit_of (get (p s) i) d) eqn:Hb.
  2:{ exists 0, s; repeat split; auto. }
  destruct (mask_flip _ _ Hm Hd Hb) as (Hm' & Hp' & Hd').
  destruct (mask_facts _ Hm') as (Hr' & _).
  assert (E1 : (get (c s) i - 1) mod 256 = get (c s) i - 1)
    by (apply Z.mod_small; lia).
  cbn [set_p set_c c p q q_i]; rewrite E1, get_put_eq
    by (unfold in_grid in Hi; lia).
  destruct (Z.eqb_spec (get (c s) i - 1) 0) as [Z0|Z0].
  { eexists _, _; split; [reflexivity|].
    unfold leaf_minus, set_g, set_c, set_p; simpl; destruct (e s); simpl;
      repeat split; auto; right; repeat split; auto; try lia;
      left; repeat split; auto; lia. }
  destruct (Z.eqb_spec (get (c s) i - 1) 1) as [Z1|Z1].
  { eexists _, _; split; [reflexivity|].
    cbn; repeat split; auto; right; repeat split; auto; try lia.
    right; left; repeat split; auto; try lia.
    rewrite Z.mod_small by (unfold in_grid in Hi; lia); reflexivity. }
  eexists _, _; split; [reflexivity|].
  cbn; repeat split; auto; right; repeat split; auto; try lia.
  right; right; repeat split; auto; lia.
Qed.

Lemma extends_refl (s : SuDoKu) : extends s s.
Proof. unfold extends; repeat split; auto; lia. Qed.

Lemma extends_trans (s1 s2 s3 : SuDoKu) :
  extends s1 s2 -> extends s2 s3 -> extends s1 s3.
Proof.
  intros (A1 & A2 & A3 & A4 & A5 & A6) (B1 & B2 & B3 & B4 & B5 & B6).
  unfold extends; repeat split; try congruence; try lia.
  - intros i Hi Hv; rewrite B5; auto; rewrite A5; auto.
  - intros i d Hi Hb; auto.
Qed.

Lemma eliminate_keeps (s : SuDoKu) (i d r : Z) (s' : SuDoKu) :
  consistent s -> in_grid i -> 0 <= d <= 19 ->
  SuDoKu__eliminate s i d = (r, s') ->
  consistent s' /\ extends s s' /\ (r = 0 \/ r = -2)
  /\ v s' = v s /\ q_o s' = q_o s
  /\ bit_of (get (p s') i) d = false
  /\ (forall j, get (c s') j <= get (c s) j).
Proof.
  intros Hcons Hi Hd E.
  destruct (eliminate_cases s i d Hcons Hi Hd)
    as (r0 & s0 & E0 & Ho & Hv & Hn & Hqo & He & Hcase).
  rewrite E in E0; inversion E0; subst r0 s0; clear E0.
  destruct Hcase as [(Hb & -> & ->)|(Hb & Hd' & Hp & Hc & Hcase)].
  { split; [exact Hcons|]; split; [apply extends_refl|].
    repeat split; auto; intros; lia. }
  destruct Hcons as ((Lv & Lp & Lc & Lq) & Hcnt & (Q1 & Q2 & Q3 & Q4) & Hfill).
  destruct (Hcnt i Hi) as (Hm & Hci & Hvi & Hvp).
  destruct (mask_flip _ _ Hm Hd Hb) as (Hm' & Hp' & _).
  assert (Li : 0 <= i < Z.of_nat (length (p s))) by (unfold in_grid in Hi; lia).
  assert (Li' : 0 <= i < Z.of_nat (length (c s))) by (unfold in_grid in Hi; lia).
  assert (Hcdec : forall j, get (c s') j <= get (c s) j).
  { intros j; rewrite Hc, get_put by exact Li'.
    destruct (Z.eqb_spec j i) as [->|]; lia. }
  assert (Hcounted : counted s').
  { intros j Hj; rewrite Hp, Hc, Hv, !get_put by assumption.
    destruct (Z.eqb_spec j i) as [->|Hne]; [|apply Hcnt, Hj].
    repeat split; try apply Hm'; try lia.
    intros Hnz; rewrite (Hvp Hnz), bit_of_zero in Hb; discriminate. }
  assert (Hext : extends s s').
  { unfold extends; rewrite Ho, He, Hn, Hqo, Hv; repeat split; auto; try lia.
    intros j d' Hj; rewrite Hp, get_put by exact Li.
    destruct (Z.eqb_spec j i) as [->|Hne]; auto.
    destruct (Z.eq_dec d' d) as [->|Hdd].
    - rewrite bit_of_flip_same; [discriminate|lia|exact Hb].
    - rewrite bit_of_flip_other; [auto|lia|exact Hdd]. }
  assert (Hbit : bit_of (get (p s') i) d = false).
  { rewrite Hp, get_put_eq by exact Li; apply bit_of_flip_same; [lia|exact Hb]. }
  assert (Hshape : length (v s') = 81%nat /\ length (p s') = 81%nat
                   /\ length (c s') = 81%nat).
  { rewrite Hv, Hp, Hc, !length_put; auto. }
  assert (Hr : r = 0 \/ r = -2).
  { destruct Hcase as [(_ & -> & _)|[(_ & -> & _)|(_ & -> & _)]]; auto. }
  assert (Hq' : length (q s') = 81%nat /\ queued s').
  { unfold queued; rewrite Hqo.
    destruct Hcase as [(C1 & _ & Hq & Hqi)|[(C2 & _ & Hq & Hqi & _)|(C3 & _ & Hq & Hqi & _)]];
      rewrite Hqi, Hq.
    - split; [exact Lq|]; split; [lia|]; split; [lia|]; split; [exact Q3|].
      intros k Hk; destruct (Q4 k Hk) as (G1 & G2); split; [exact G1|].
      specialize (Hcdec (get (q s) k)); lia.
    - assert (Room : q_i s < 81).
      { apply (queue_room (get (q s)) (q_i s) i); auto; try lia.
        - intros a Ha; apply Q4, Ha.
        - intros a Ha Eq; destruct (Q4 a Ha) as (_ & G2); rewrite Eq in G2; lia. }
      assert (Lqi : 0 <= q_i s < Z.of_nat (length (q s))) by lia.
      split; [rewrite length_put; exact Lq|].
      split; [lia|]; split; [lia|]; split.
      + intros k k' Hk Hk'; rewrite !get_put by exact Lqi.
        destruct (Z.eqb_spec k (q_i s)); [lia|].
        destruct (Z.eqb_spec k' (q_i s)) as [->|Hne]; [|apply Q3; lia].
        intros Eq; destruct (Q4 k ltac:(lia)) as (_ & G2); rewrite Eq in G2; lia.
      + intros k Hk; rewrite get_put by exact Lqi.
        destruct (Z.eqb_spec k (q_i s)) as [->|Hne].
        * split; [exact Hi|]; rewrite Hc, get_put_eq by exact Li'; lia.
        * destruct (Q4 k ltac:(lia)) as (G1 & G2); split; [exact G1|].
          specialize (Hcdec (get (q s) k)); lia.
    - split; [exact Lq|]; split; [lia|]; split; [lia|]; split; [exact Q3|].
      intros k Hk; destruct (Q4 k Hk) as (G1 & G2); split; [exact G1|].
      specialize (Hcdec (get (q s) k)); lia. }
  split.
  { unfold consistent, shaped; repeat (split; [tauto || congruence|]); congruence. }
  repeat (split; [assumption|]); assumption.
Qed.

Lemma eliminate_pending (s : SuDoKu) (i d : Z) (s' : SuDoKu) :
  consistent s -> pending s -> in_grid i -> 0 <= d <= 19 ->
  SuDoKu__eliminate s i d = (0, s') -> pending s'.
Proof.
  intros Hcons Hpend Hi Hd E.
  destruct (eliminate_cases s i d Hcons Hi Hd)
    as (r0 & s0 & E0 & Ho & Hv & Hn & Hqo & He & Hcase).
  rewrite E in E0; inversion E0; subst r0 s0; clear E0.
  destruct Hcase as [(Hb & _ & ->)|(Hb & Hd' & Hp & Hc & Hcase)]; [exact Hpend|].
  destruct Hcons as ((Lv & Lp & Lc & Lq) & Hcnt & (Q1 & Q2 & Q3 & Q4) & Hfill).
  destruct (Hcnt i Hi) as (Hm & Hci & Hvi & Hvp).
  assert (Li' : 0 <= i < Z.of_nat (length (c s))) by (unfold in_grid in Hi; lia).
  assert (Hv0 : get (v s) i = 0).
  { destruct (Z.eq_dec (get (v s) i) 0) as [|Hnz]; auto.
    rewrite (Hvp Hnz), bit_of_zero in Hb; discriminate. }
  assert (Old : forall k, q_o s <= k < q_i s ->
            get (v s) (get (q s) k) = 0
            /\ get (c s') (get (q s) k) = 1 /\ get (q s) k <> i
            \/ get (c s) i = 1).
  { intros k Hk; destruct (Hpend k Hk) as (G1 & G2).
    destruct (Z.eq_dec (get (q s) k) i) as [Eq|Hne].
    - right; rewrite <- Eq; exact G2.
    - left; rewrite Hc, get_put_neq by congruence; auto. }
  unfold pending; rewrite Hqo, Hv.
  destruct Hcase as [(C1 & Hr & _)|[(C2 & _ & Hq & Hqi & _)|(C3 & _ & Hq & Hqi & _)]];
    [discriminate| |]; rewrite Hqi, Hq; intros k Hk.
  - assert (Lqi : 0 <= q_i s < Z.of_nat (length (q s))).
    { split; [lia|].
      enough (q_i s < 81) by lia.
      apply (queue_room (get (q s)) (q_i s) i); auto; try lia.
      - intros a Ha; apply Q4, Ha.
      - intros a Ha Eq; destruct (Q4 a Ha) as (_ & G2); rewrite Eq in G2; lia. }
    rewrite get_put by exact Lqi.
    destruct (Z.eqb_spec k (q_i s)) as [->|Hne].
    + split; [exact Hv0|]; rewrite Hc, get_put_eq by exact Li'; lia.
    + destruct (Old k ltac:(lia)) as [(G1 & G2 & _)|G]; [auto|lia].
  - destruct (Old k Hk) as [(G1 & G2 & _)|G]; [auto|lia].
Qed.

Lemma eliminate_peers_keeps (js : list Z) (d : Z) :
  0 <= d <= 19 -> Forall in_grid js ->
  forall (s : SuDoKu) (r : Z) (s' : SuDoKu),
    consistent s -> eliminate_peers s js d = (r, s') ->
    consistent s' /\ extends s s' /\ (r = 0 \/ r = -2)
    /\ v s' = v s /\ q_o s' = q_o s
    /\ (r = 0 -> forall j, In j js -> bit_of (get (p s') j) d = false)
    /\ (pending s -> r = 0 -> pending s').
Proof.
  intros Hd Hjs; induction Hjs as [|j js Hj Hjs IH]; intros s r s' Hcons E.
  - simpl in E; inversion E; subst; clear E.
    split; [exact Hcons|]; split; [apply extends_refl|].
    split; [auto|]; split; [auto|]; split; [auto|].
    split; [intros _ j []|auto].
  - simpl in E.
    destruct (SuDoKu__eliminate s j d) as [r1 s1] eqn:E1.
    destruct (eliminate_keeps s j d r1 s1 Hcons Hj Hd E1)
      as (C1 & X1 & R1 & V1 & Q1 & B1 & _).
    destruct (Z.ltb_spec r1 0) as [Hneg|Hpos].
    + inversion E; subst; clear E.
      repeat (split; [assumption|]); split; intros; lia.
    + assert (r1 = 0) by lia; subst r1.
      destruct (IH s1 r s' C1 E) as (C2 & X2 & R2 & V2 & Q2 & B2 & P2).
      split; [exact C2|]; split; [exact (extends_trans _ _ _ X1 X2)|].
      split; [exact R2|]; split; [congruence|]; split; [congruence|]; split.
      * intros Hr j' [<-|Hin]; [|apply B2; auto].
        destruct (bit_of (get (p s') j) d) eqn:Hb; auto.
        destruct X2 as (_ & _ & _ & _ & _ & Mono).
        rewrite (Mono j d Hj Hb) in B1; discriminate.
      * intros Hp Hr; apply P2; [|exact Hr].
        exact (eliminate_pending s j d s1 Hcons Hp Hj Hd E1).
Qed.

(** ** The relation table *)

Lemma peer_sym (i j : Z) : peer i j = peer j i.
Proof.
  unfold peer; rewrite (Z.eqb_sym i j), (Z.eqb_sym (row_of i)),
    (Z.eqb_sym (col_of i)), (Z.eqb_sym (box_of i)); reflexivity.
Qed.

Lemma peer_irrefl (i : Z) : peer i i = false.
Proof. unfold peer; rewrite Z.eqb_refl; reflexivity. Qed.

Lemma relations_row (rel : list (list Z)) (i : Z) :
  relations_ok rel = true -> in_grid i ->
  firstn 20 (nth (Z.to_nat i) rel []) = nth (Z.to_nat i) rel []
  /\ (forall j, In j (nth (Z.to_nat i) rel []) <-> in_grid j /\ peer i j = true).
Proof.
  intros Hrel Hi; unfold relations_ok in Hrel.
  apply andb_prop in Hrel; destruct Hrel as (_ & Hrows).
  pose proof (forallb_range _ _ Hrows i Hi) as H.
  unfold row_ok in H; rewrite !andb_true_iff in H.
  destruct H as ((L & A) & B); apply Nat.eqb_eq in L.
  split; [rewrite <- L; apply firstn_all|].
  intros j; split.
  - intros Hin; rewrite forallb_forall in A; specialize (A j Hin).
    rewrite !andb_true_iff in A; destruct A as ((A1 & A2) & A3).
    unfold in_grid; split; [lia|exact A3].
  - intros (Hj & Hp); pose proof (forallb_range _ _ B j Hj) as H.
    simpl in H; rewrite Hp in H; simpl in H.
    apply existsb_exists in H; destruct H as (x & Hx & Ex).
    apply Z.eqb_eq in Ex; subst x; exact Hx.
Qed.

Lemma relations_ok_table : relations_ok SuDoKu__relations = true.
Proof. vm_compute; reflexivity. Qed.

(** ** The count of filled cells *)

Lemma filled_upd (l : list Z) (k : nat) (d : Z) :
  (k < length l)%nat -> nth k l 0 = 0 -> d <> 0 ->
  length (filter (fun x => negb (x =? 0)) (upd l k d))
  = S (length (filter (fun x => negb (x =? 0)) l)).
Proof.
  revert k; induction l as [|h t IH]; intros [|k] Hk H0 Hd; simpl in *; try lia.
  - subst h; simpl. destruct (Z.eqb_spec d 0); [contradiction|reflexivity].
  - destruct (negb (h =? 0)); simpl; rewrite IH; auto; lia.
Qed.

Lemma filled_put (l : list Z) (i d : Z) :
  0 <= i < Z.of_nat (length l) -> get l i = 0 -> d <> 0 ->
  filled (put l i d) = filled l + 1.
Proof.
  unfold filled, get, put; intros Hi H0 Hd.
  destruct (Z.ltb_spec i 0); [lia|].
  rewrite filled_upd; auto; lia.
Qed.

Lemma filled_le (l : list Z) : 0 <= filled l <= Z.of_nat (length l).
Proof.
  unfold filled; pose proof (filter_length_le (fun x => negb (x =? 0)) l); lia.
Qed.

Lemma filled_all (l : list Z) :
  filled l = Z.of_nat (length l) -> forall x, In x l -> x <> 0.
Proof.
  unfold filled; induction l as [|h t IH]; intros H x Hx; [destruct Hx|].
  simpl in H; pose proof (filter_length_le (fun x => negb (x =? 0)) t) as L.
  destruct (Z.eqb_spec h 0) as [->|Hh]; simpl in H; [lia|].
  destruct Hx as [<-|Hx]; auto.
  apply IH; auto; lia.
Qed.

(** ** Marking a cell *)

Lemma mark_fuel_S (rel : list (list Z)) (f : nat) (s : SuDoKu) (i d : Z) :
  mark_fuel rel (S f) s i d =
  if get (v s) i =? d then Some (0, s, [])
  else if negb (bit_of (get (p s) i) d) then Some (-2, leaf_minus s, [])
  else
    let '(r, s1) :=
      eliminate_peers (assign s i d) (firstn 20 (nth (Z.to_nat i) rel [])) d in
    if r <? 0 then Some (r, s1, []) else drain_fuel rel f s1.
Proof. reflexivity. Qed.

Lemma drain_fuel_S (rel : list (list Z)) (f : nat) (s : SuDoKu) :
  drain_fuel rel (S f) s =
  if q_o s <? q_i s then
    let i := get (q s) (q_o s) in
    let s1 := set_q_o s (q_o s + 1) in
    let d := ffs (get (p s1) i) mod 256 in
    match mark_fuel rel f s1 i d with
    | None => None
    | Some (r, s2, tr) =>
        if r <? 0 then Some (r, s2, (i, get (p s1) i) :: tr)
        else
          match drain_fuel rel f s2 with
          | None => None
          | Some (r', s3, tr') => Some (r', s3, (i, get (p s1) i) :: tr ++ tr')
          end
    end
  else Some (0, s, []).
Proof. reflexivity. Qed.

Lemma mark_traced_eq (rel : list (list Z)) (s : SuDoKu) (i d : Z) :
  mark_traced rel s i d = mark_fuel rel mark_depth s i d.
Proof. reflexivity. Qed.

Lemma mark_eq (rel : list (list Z)) (s : SuDoKu) (i d : Z) :
  SuDoKu__mark rel s i d =
  match mark_fuel rel mark_depth s i d with
  | None => None
  | Some (r, s', _) => Some (r, s')
  end.
Proof. reflexivity. Qed.

Lemma leaf_minus_consistent (s : SuDoKu) :
  consistent s -> consistent (leaf_minus s) /\ extends s (leaf_minus s).
Proof.
  intros H; unfold leaf_minus; destruct (e s) eqn:He.
  - split; [exact H|].
    unfold extends; simpl; repeat (split; [auto; lia|]); auto.
  - split; [exact H|apply extends_refl].
Qed.

Lemma assign_keeps (s : SuDoKu) (i d : Z) :
  consistent s -> in_grid i -> 0 <= d <= 19 ->
  bit_of (get (p s) i) d = true ->
  consistent (assign s i d) /\ extends s (assign s i d)
  /\ get (v s) i = 0 /\ 1 <= d <= 9 /\ get (v (assign s i d)) i = d.
Proof.
  intros ((Lv & Lp & Lc & Lq) & Hcnt & (Q1 & Q2 & Q3 & Q4) & Hfill) Hi Hd Hb.
  destruct (Hcnt i Hi) as (Hm & Hci & Hvi & Hvp).
  destruct (mask_flip _ _ Hm Hd Hb) as (_ & _ & Hd').
  assert (Hv0 : get (v s) i = 0).
  { destruct (Z.eq_dec (get (v s) i) 0) as [|Hnz]; auto.
    rewrite (Hvp Hnz), bit_of_zero in Hb; discriminate. }
  assert (Li : 0 <= i < 81) by exact Hi.
  assert (Hcounted : counted (assign s i d)).
  { intros j Hj; simpl; rewrite !get_put by lia.
    destruct (Z.eqb_spec j i) as [->|Hne]; [|apply Hcnt, Hj].
    repeat split; try reflexivity; lia. }
  assert (Hqueued : queued (assign s i d)).
  { unfold queued; simpl; repeat (split; [assumption|]).
    intros k Hk; destruct (Q4 k Hk) as (G1 & G2); split; [exact G1|].
    rewrite get_put by lia; destruct (Z.eqb_spec (get (q s) k) i); lia. }
  split; [|split; [|repeat split; auto; try lia]].
  - unfold consistent, shaped; simpl; rewrite !length_put.
    split; [tauto|]; split; [exact Hcounted|]; split; [exact Hqueued|].
    rewrite filled_put; lia.
  - unfold extends; simpl; repeat (split; [auto; lia|]); split.
    + intros j Hj Hnz; apply get_put_neq; congruence.
    + intros j d' Hj; rewrite get_put by lia.
      destruct (Z.eqb_spec j i); auto; rewrite bit_of_zero; discriminate.
  - simpl; apply get_put_eq; lia.
Qed.

Lemma set_q_o_keeps (s : SuDoKu) :
  consistent s -> q_o s < q_i s ->
  consistent (set_q_o s (q_o s + 1)) /\ extends s (set_q_o s (q_o s + 1))
  /\ in_grid (get (q s) (q_o s)).
Proof.
  intros (Hs & Hcnt & (Q1 & Q2 & Q3 & Q4) & Hfill) Hlt.
  split; [|split].
  - unfold consistent, queued; simpl.
    split; [exact Hs|]; split; [exact Hcnt|]; split; [|exact Hfill].
    split; [lia|]; split; [lia|]; split; assumption.
  - unfold extends; simpl; repeat (split; [auto; lia|]); auto.
  - apply Q4; lia.
Qed.

Section Propagation.

Variable rel : list (list Z).
Hypothesis Hrel : relations_ok rel = true.

Lemma mark_drain_keeps (f : nat) :
  (forall s i d r s' tr,
      consistent s -> in_grid i -> 0 <= d <= 9 ->
      mark_fuel rel f s i d = Some (r, s', tr) ->
      consistent s' /\ extends s s' /\ (r = 0 \/ r = -2)
      /\ (r = 0 -> d <> 0 -> get (v s') i = d)
      /\ (r = 0 -> q_o s = q_i s -> q_o s' = q_i s')
      /\ (get (v s) i <> d -> bit_of (get (p s) i) d = true ->
          n s < n s' /\ get (v s') i = d))
  /\ (forall s r s' tr,
      consistent s -> drain_fuel rel f s = Some (r, s', tr) ->
      consistent s' /\ extends s s' /\ (r = 0 \/ r = -2)
      /\ (r = 0 -> q_o s' = q_i s')).
Proof.
  induction f as [|f [IHm IHd]]; [split; intros; discriminate|].
  split.
  - intros s i d r s' tr Hcons Hi Hd E.
    rewrite mark_fuel_S in E.
    destruct (Z.eqb_spec (get (v s) i) d) as [Hv|Hv].
    { inversion E; subst; clear E.
      split; [exact Hcons|]; split; [apply extends_refl|].
      repeat (split; [auto|]); intros; contradiction. }
    destruct (bit_of (get (p s) i) d) eqn:Hb; cbn [negb] in E.
    2:{ inversion E; subst; clear E.
        destruct (leaf_minus_consistent s Hcons) as (A & B).
        split; [exact A|]; split; [exact B|].
        split; [auto|]; split; [intros; lia|]; split; [intros; lia|].
        intros; discriminate. }
    destruct (assign_keeps s i d Hcons Hi ltac:(lia) Hb)
      as (C1 & X1 & V0 & Hd' & Vi).
    destruct (relations_row rel i Hrel Hi) as (Hrow & Hpeers).
    rewrite Hrow in E.
    destruct (eliminate_peers (assign s i d) (nth (Z.to_nat i) rel []) d)
      as [r1 s1] eqn:E1.
    assert (Hjs : Forall in_grid (nth (Z.to_nat i) rel [])).
    { apply Forall_forall; intros j Hj; apply Hpeers in Hj; tauto. }
    destruct (eliminate_peers_keeps _ d ltac:(lia) Hjs _ _ _ C1 E1)
      as (C2 & X2 & R2 & V2 & Q2 & _ & _).
    assert (X12 := extends_trans _ _ _ X1 X2).
    assert (Vi2 : get (v s1) i = d) by (rewrite V2; exact Vi).
    assert (N2 : n s + 1 <= n s1).
    { destruct X2 as (_ & _ & N & _).
      change (n (assign s i d)) with (n s + 1) in N; exact N. }
    destruct (Z.ltb_spec r1 0) as [Hneg|Hpos].
    { injection E as <- <- <-.
      repeat (split; [assumption|]).
      split; [intros; lia|]; split; [intros; lia|].
      intros _ _; split; [lia|exact Vi2]. }
    destruct (IHd s1 r s' tr C2 E) as (C3 & X3 & R3 & Q3).
    assert (Vi3 : get (v s') i = d).
    { destruct X3 as (_ & _ & _ & _ & Keep & _); rewrite Keep; auto; lia. }
    split; [exact C3|]; split; [exact (extends_trans _ _ _ X12 X3)|].
    split; [exact R3|]; split; [|split; [auto|]].
    + intros _ _; exact Vi3.
    + intros _ _; split; [|exact Vi3].
      destruct X3 as (_ & _ & N & _); lia.
  - intros s r s' tr Hcons E.
    rewrite drain_fuel_S in E.
    destruct (Z.ltb_spec (q_o s) (q_i s)) as [Hlt|Hge].
    2:{ inversion E; subst; clear E.
        split; [exact Hcons|]; split; [apply extends_refl|]; split; [auto|].
        intros _; destruct Hcons as (_ & _ & (Q1 & _) & _); lia. }
    destruct (set_q_o_keeps s Hcons Hlt) as (C1 & X1 & Hx).
    cbv zeta in E.
    set (x := get (q s) (q_o s)) in *.
    set (s1 := set_q_o s (q_o s + 1)) in *.
    assert (Hd : 0 <= ffs (get (p s1) x) mod 256 <= 9).
    { destruct C1 as (_ & Hcnt & _); destruct (Hcnt x Hx) as (Hm & _).
      destruct (mask_facts _ Hm) as (_ & _ & F & _).
      rewrite Z.mod_small; lia. }
    destruct (mark_fuel rel f s1 x (ffs (get (p s1) x) mod 256))
      as [[[r1 s2] tr1]|] eqn:E1; [|discriminate].
    destruct (IHm _ _ _ _ _ _ C1 Hx Hd E1) as (C2 & X2 & R2 & _).
    assert (X12 := extends_trans _ _ _ X1 X2).
    destruct (Z.ltb_spec r1 0) as [Hneg|Hpos].
    { inversion E; subst; clear E.
      repeat (split; [assumption|]); intros; lia. }
    destruct (drain_fuel rel f s2) as [[[r2 s3] tr2]|] eqn:E2; [|discriminate].
    inversion E; subst; clear E.
    destruct (IHd _ _ _ _ C2 E2) as (C3 & X3 & R3 & Q3).
    split; [exact C3|]; split; [exact (extends_trans _ _ _ X12 X3)|]; auto.
Qed.

Lemma mark_drain_total (f : nat) :
  (forall s i d,
      consistent s -> in_grid i -> 0 <= d <= 9 ->
      2 * (81 - q_o s) + 2 <= Z.of_nat f ->
      mark_fuel rel f s i d <> None)
  /\ (forall s,
      consistent s -> 2 * (81 - q_o s) + 1 <= Z.of_nat f ->
      drain_fuel rel f s <> None).
Proof.
  induction f as [|f [IHm IHd]].
  { split; intros s; intros; exfalso;
      match goal with
      | [ H : consistent _ |- _ ] => destruct H as (_ & _ & (? & ? & _) & _)
      end; lia. }
  split.
  - intros s i d Hcons Hi Hd Hf.
    rewrite mark_fuel_S.
    destruct (get (v s) i =? d); [discriminate|].
    destruct (bit_of (get (p s) i) d) eqn:Hb; cbn [negb]; [|discriminate].
    destruct (assign_keeps s i d Hcons Hi ltac:(lia) Hb)
      as (C1 & X1 & V0 & Hd' & Vi).
    destruct (relations_row rel i Hrel Hi) as (Hrow & Hpeers).
    rewrite Hrow.
    destruct (eliminate_peers (assign s i d) (nth (Z.to_nat i) rel []) d)
      as [r1 s1] eqn:E1.
    assert (Hjs : Forall in_grid (nth (Z.to_nat i) rel [])).
    { apply Forall_forall; intros j Hj; apply Hpeers in Hj; tauto. }
    destruct (eliminate_peers_keeps _ d ltac:(lia) Hjs _ _ _ C1 E1)
      as (C2 & X2 & R2 & V2 & Q2 & _ & _).
    destruct (r1 <? 0); [discriminate|].
    apply IHd; [exact C2|].
    change (q_o (assign s i d)) with (q_o s) in Q2; lia.
  - intros s Hcons Hf.
    rewrite drain_fuel_S.
    destruct (Z.ltb_spec (q_o s) (q_i s)) as [Hlt|Hge]; [|discriminate].
    destruct (set_q_o_keeps s Hcons Hlt) as (C1 & X1 & Hx).
    cbv zeta.
    set (x := get (q s) (q_o s)) in *.
    set (s1 := set_q_o s (q_o s + 1)) in *.
    assert (Hd : 0 <= ffs (get (p s1) x) mod 256 <= 9).
    { destruct C1 as (_ & Hcnt & _); destruct (Hcnt x Hx) as (Hm & _).
      destruct (mask_facts _ Hm) as (_ & _ & F & _).
      rewrite Z.mod_small; lia. }
    destruct (mark_fuel rel f s1 x (ffs (get (p s1) x) mod 256))
      as [[[r1 s2] tr1]|] eqn:E1.
    2:{ exfalso; revert E1; apply IHm; auto.
        change (q_o s1) with (q_o s + 1); lia. }
    destruct (proj1 (mark_drain_keeps f) _ _ _ _ _ _ C1 Hx Hd E1)
      as (C2 & X2 & _).
    destruct (r1 <? 0); [discriminate|].
    destruct (drain_fuel rel f s2) as [[[r2 s3] tr2]|] eqn:E2; [discriminate|].
    exfalso; revert E2; apply IHd; [exact C2|].
    destruct X2 as (_ & _ & _ & Hq & _).
    change (q_o s1) with (q_o s + 1) in Hq; lia.
Qed.

(** The fuel of [mark_traced] is enough on every consistent grid. *)
Lemma mark_fuel_enough (s : SuDoKu) (i d : Z) :
  consistent s -> in_grid i -> 0 <= d <= 9 ->
  exists r s' tr, mark_traced rel s i d = Some (r, s', tr).
Proof.
  intros Hcons Hi Hd; rewrite mark_traced_eq.
  assert (Hf : 2 * (81 - q_o s) + 2 <= Z.of_nat mark_depth).
  { destruct Hcons as (_ & _ & (Q1 & Q2 & _) & _).
    change (Z.of_nat mark_depth) with 164; lia. }
  pose proof (proj1 (mark_drain_total mark_depth) s i d Hcons Hi Hd Hf) as T.
  destruct (mark_fuel rel mark_depth s i d) as [[[r s'] tr]|];
    [eauto|contradiction].
Qed.

Lemma assign_propagated (s : SuDoKu) (i d : Z) :
  consistent s -> propagated s -> in_grid i -> 0 <= d <= 19 ->
  bit_of (get (p s) i) d = true ->
  (forall k, q_o s <= k < q_i s -> get (q s) k <> i) ->
  pending (assign s i d) /\ peers_differ (assign s i d)
  /\ peers_cleared_but i (assign s i d).
Proof.
  intros Hcons (Hpend & Hclr & Hdif) Hi Hd Hb Hnot.
  destruct (assign_keeps s i d Hcons Hi Hd Hb) as (_ & _ & V0 & Hd' & _).
  destruct Hcons as ((Lv & Lp & Lc & Lq) & _).
  assert (Li : 0 <= i < 81) by exact Hi.
  split; [|split].
  - intros k Hk; simpl in *.
    rewrite !get_put_neq by (apply not_eq_sym, Hnot, Hk).
    apply Hpend, Hk.
  - intros a b Ha Hb' Hp; simpl; rewrite !get_put by lia.
    destruct (Z.eqb_spec a i) as [->|Hai]; destruct (Z.eqb_spec b i) as [->|Hbi].
    + rewrite peer_irrefl in Hp; discriminate.
    + intros _ Eq.
      assert (Hnz : get (v s) b <> 0) by lia.
      rewrite peer_sym in Hp.
      pose proof (Hclr b i Hb' Hi Hp Hnz) as F.
      rewrite <- Eq, Hb in F; discriminate.
    + intros Hnz Eq.
      pose proof (Hclr a i Ha Hi Hp Hnz) as F.
      rewrite Eq, Hb in F; discriminate.
    + apply Hdif; auto.
  - intros a b Ha Hb' Hp; simpl; rewrite !get_put by lia.
    destruct (Z.eqb_spec a i) as [->|Hai]; [intros _ X; contradiction|].
    intros Hnz _.
    destruct (Z.eqb_spec b i) as [->|Hbi]; [apply bit_of_zero|].
    apply Hclr; auto.
Qed.

Lemma mark_drain_propagates (f : nat) :
  (forall s i d r s' tr,
      consistent s -> propagated s -> in_grid i -> 1 <= d <= 9 ->
      (forall k, q_o s <= k < q_i s -> get (q s) k <> i) ->
      mark_fuel rel f s i d = Some (r, s', tr) ->
      Forall good_pop tr /\ (r = 0 -> propagated s'))
  /\ (forall s r s' tr,
      consistent s -> propagated s ->
      drain_fuel rel f s = Some (r, s', tr) ->
      Forall good_pop tr /\ (r = 0 -> propagated s')).
Proof.
  induction f as [|f [IHm IHd]]; [split; intros; discriminate|].
  split.
  - intros s i d r s' tr Hcons Hprop Hi Hd Hnot E.
    rewrite mark_fuel_S in E.
    destruct (Z.eqb_spec (get (v s) i) d) as [Hv|Hv].
    { inversion E; subst; clear E; auto. }
    destruct (bit_of (get (p s) i) d) eqn:Hb; cbn [negb] in E.
    2:{ inversion E; subst; clear E; split; [auto|discriminate]. }
    destruct (assign_keeps s i d Hcons Hi ltac:(lia) Hb)
      as (C1 & X1 & V0 & Hd' & Vi).
    destruct (assign_propagated s i d Hcons Hprop Hi ltac:(lia) Hb Hnot)
      as (P1 & D1 & B1).
    destruct (relations_row rel i Hrel Hi) as (Hrow & Hpeers).
    rewrite Hrow in E.
    destruct (eliminate_peers (assign s i d) (nth (Z.to_nat i) rel []) d)
      as [r1 s1] eqn:E1.
    assert (Hjs : Forall in_grid (nth (Z.to_nat i) rel [])).
    { apply Forall_forall; intros j Hj; apply Hpeers in Hj; tauto. }
    destruct (eliminate_peers_keeps _ d ltac:(lia) Hjs _ _ _ C1 E1)
      as (C2 & X2 & R2 & V2 & Q2 & K2 & P2).
    destruct (Z.ltb_spec r1 0) as [Hneg|Hpos].
    { inversion E; subst; clear E; split; [auto|intros; lia]. }
    assert (r1 = 0) by lia; subst r1.
    apply (IHd s1 r s' tr C2); [|exact E].
    split; [apply P2; auto|]; split.
    + intros a b Ha Hb' Hp Hnz; rewrite V2 in *.
      destruct (Z.eq_dec a i) as [->|Hai].
      * rewrite Vi; apply K2; auto; apply Hpeers; auto.
      * destruct (bit_of (get (p s1) b) (get (v (assign s i d)) a)) eqn:F; auto.
        destruct X2 as (_ & _ & _ & _ & _ & Mono).
        apply Mono in F; [|exact Hb'].
        rewrite (B1 a b Ha Hb' Hp Hnz Hai) in F; discriminate.
    + intros a b; rewrite V2; apply D1.
  - intros s r s' tr Hcons Hprop E.
    rewrite drain_fuel_S in E.
    destruct (Z.ltb_spec (q_o s) (q_i s)) as [Hlt|Hge].
    2:{ inversion E; subst; clear E; auto. }
    destruct (set_q_o_keeps s Hcons Hlt) as (C1 & X1 & Hx).
    cbv zeta in E.
    set (x := get (q s) (q_o s)) in *.
    set (s1 := set_q_o s (q_o s + 1)) in *.
    destruct Hprop as (Hpend & Hclr & Hdif).
    destruct Hcons as (Hs & Hcnt & (Q1 & Q2 & Q3 & Q4) & Hfill).
    destruct (Hpend (q_o s) ltac:(lia)) as (Vx & Cx); fold x in Vx, Cx.
    destruct (Hcnt x Hx) as (Hm & Hpc & _).
    destruct (mask_facts _ Hm) as (_ & Z0 & F & F0 & Fb).
    assert (Hpop : popcount (get (p s) x) = 1) by lia.
    assert (Hffs : 1 <= ffs (get (p s) x) <= 9).
    { enough (ffs (get (p s) x) <> 0) by lia.
      intros G; apply F0 in G; apply Z0 in G; lia. }
    assert (Hd : 1 <= ffs (get (p s1) x) mod 256 <= 9).
    { change (get (p s1) x) with (get (p s) x).
      rewrite Z.mod_small by lia; exact Hffs. }
    assert (Good : good_pop (x, get (p s1) x)).
    { change (get (p s1) x) with (get (p s) x).
      unfold good_pop; cbn [fst snd].
      split; [exact Hx|]; split; [exact Hpop|]; split; [exact Hffs|].
      exact (Fb Hpop). }
    assert (Prop1 : propagated s1).
    { split; [|split; assumption].
      intros k Hk; apply Hpend.
      change (q_o s1) with (q_o s + 1) in Hk.
      change (q_i s1) with (q_i s) in Hk; lia. }
    assert (Not1 : forall k, q_o s1 <= k < q_i s1 -> get (q s1) k <> x).
    { intros k Hk.
      change (q_o s1) with (q_o s + 1) in Hk.
      change (q_i s1) with (q_i s) in Hk.
      change (get (q s1) k) with (get (q s) k).
      apply not_eq_sym, Q3; lia. }
    destruct (mark_fuel rel f s1 x (ffs (get (p s1) x) mod 256))
      as [[[r1 s2] tr1]|] eqn:E1; [|discriminate].
    destruct (IHm _ _ _ _ _ _ C1 Prop1 Hx Hd Not1 E1) as (T1 & P1).
    assert (Hd0 : 0 <= ffs (get (p s1) x) mod 256 <= 9) by lia.
    destruct (proj1 (mark_drain_keeps f) _ _ _ _ _ _ C1 Hx Hd0 E1)
      as (C2 & _ & R1 & _).
    destruct (Z.ltb_spec r1 0) as [Hneg|Hpos].
    { inversion E; subst; clear E; split; [auto|intros; lia]. }
    destruct (drain_fuel rel f s2) as [[[r2 s3] tr2]|] eqn:E2; [|discriminate].
    inversion E; subst; clear E.
    assert (H : r1 = 0) by lia.
    destruct (IHd _ _ _ _ C2 (P1 H) E2) as (T2 & P2).
    split; [|exact P2].
    constructor; [exact Good|]; apply Forall_app; auto.
Qed.

(** *** The statistics do not steer the propagation *)

Lemma eliminate_strip (s : SuDoKu) (i d : Z) :
  SuDoKu__eliminate (strip s) i d =
  (fst (SuDoKu__eliminate s i d), strip (snd (SuDoKu__eliminate s i d))).
Proof.
  unfold SuDoKu__eliminate; cbn [strip p c q q_i set_p set_c].
  destruct (bit_of (get (p s) i) d); [|reflexivity].
  destruct (_ =? 0).
  { unfold leaf_minus; cbn [e set_c set_p]; destruct (e s); reflexivity. }
  destruct (_ =? 1); reflexivity.
Qed.

Lemma eliminate_peers_strip (js : list Z) (d : Z) (s : SuDoKu) :
  eliminate_peers (strip s) js d =
  (fst (eliminate_peers s js d), strip (snd (eliminate_peers s js d))).
Proof.
  revert s; induction js as [|j js IH]; intros s; [reflexivity|].
  simpl; rewrite eliminate_strip.
  destruct (SuDoKu__eliminate s j d) as [r s1]; simpl.
  destruct (r <? 0); [reflexivity|apply IH].
Qed.

Lemma mark_drain_strip (f : nat) :
  (forall s i d,
      mark_fuel rel f (strip s) i d = strip_result (mark_fuel rel f s i d))
  /\ (forall s, drain_fuel rel f (strip s) = strip_result (drain_fuel rel f s)).
Proof.
  induction f as [|f [IHm IHd]]; [split; reflexivity|].
  split.
  - intros s i d; rewrite !mark_fuel_S.
    change (get (v (strip s)) i) with (get (v s) i).
    change (get (p (strip s)) i) with (get (p s) i).
    destruct (get (v s) i =? d); [reflexivity|].
    destruct (bit_of (get (p s) i) d); cbn [negb].
    2:{ unfold leaf_minus; cbn [e strip]; destruct (e s); reflexivity. }
    change (assign (strip s) i d) with (strip (assign s i d)).
    rewrite eliminate_peers_strip.
    destruct (eliminate_peers (assign s i d) _ d) as [r s1]; cbn [fst snd].
    destruct (r <? 0); [reflexivity|apply IHd].
  - intros s; rewrite !drain_fuel_S.
    change (q_o (strip s)) with (q_o s); change (q_i (strip s)) with (q_i s).
    destruct (q_o s <? q_i s); [|reflexivity].
    cbv zeta.
    change (set_q_o (strip s) (q_o s + 1)) with (strip (set_q_o s (q_o s + 1))).
    change (get (q (strip s)) (q_o s)) with (get (q s) (q_o s)).
    rewrite IHm.
    change (get (p (strip (set_q_o s (q_o s + 1)))) (get (q s) (q_o s)))
      with (get (p (set_q_o s (q_o s + 1))) (get (q s) (q_o s))).
    destruct (mark_fuel rel f (set_q_o s (q_o s + 1)) _ _)
      as [[[r1 s2] tr1]|]; [|reflexivity].
    cbn [strip_result].
    destruct (r1 <? 0); [reflexivity|].
    rewrite IHd.
    destruct (drain_fuel rel f s2) as [[[r2 s3] tr2]|]; reflexivity.
Qed.

Lemma mark_strip (s1 s2 : SuDoKu) (i d : Z) :
  strip s1 = strip s2 ->
  match SuDoKu__mark rel s1 i d, SuDoKu__mark rel s2 i d with
  | Some (r1, t1), Some (r2, t2) => r1 = r2 /\ strip t1 = strip t2
  | None, None => True
  | _, _ => False
  end.
Proof.
  intros H; rewrite !mark_eq.
  pose proof (proj1 (mark_drain_strip mark_depth) s1 i d) as A.
  pose proof (proj1 (mark_drain_strip mark_depth) s2 i d) as B.
  rewrite H in A; rewrite A in B; clear A.
  destruct (mark_fuel rel mark_depth s1 i d) as [[[r1 t1] tr1]|];
    destruct (mark_fuel rel mark_depth s2 i d) as [[[r2 t2] tr2]|];
    cbn [strip_result] in B; try discriminate; [|exact I].
  injection B as B1 B2 B3 B4 B5 B6 B7 B8 B9 B10.
  split; [exact B1|unfold strip; congruence].
Qed.

(** *** A failure leaves its leaf *)

Lemma eliminate_leaf (s : SuDoKu) (i d : Z) :
  e (snd (SuDoKu__eliminate s i d)) = e s
  /\ (fst (SuDoKu__eliminate s i d) <> 0 -> e s = true ->
      g (snd (SuDoKu__eliminate s i d))
      = GLeaf (n (snd (SuDoKu__eliminate s i d))) "-"%char).
Proof.
  unfold SuDoKu__eliminate.
  destruct (bit_of (get (p s) i) d); [|split; [reflexivity|intros []; reflexivity]].
  destruct (_ =? 0).
  { unfold leaf_minus; cbn [e set_c set_p fst snd].
    destruct (e s) eqn:He; split; auto; discriminate. }
  destruct (_ =? 1); (split; [reflexivity|intros []; reflexivity]).
Qed.

Lemma eliminate_peers_leaf (js : list Z) (d : Z) (s : SuDoKu) :
  e (snd (eliminate_peers s js d)) = e s
  /\ (fst (eliminate_peers s js d) <> 0 -> e s = true ->
      g (snd (eliminate_peers s js d))
      = GLeaf (n (snd (eliminate_peers s js d))) "-"%char).
Proof.
  revert s; induction js as [|j js IH]; intros s.
  { simpl; split; [reflexivity|intros []; reflexivity]. }
  simpl; destruct (eliminate_leaf s j d) as (A & B).
  destruct (SuDoKu__eliminate s j d) as [r s1]; cbn [fst snd] in *.
  destruct (Z.ltb_spec r 0).
  - cbn [fst snd]; split; [exact A|intros _; apply B; lia].
  - destruct (IH s1) as (A' & B'); split; [congruence|].
    intros Hr He; apply B'; congruence.
Qed.

Lemma mark_drain_leaf (f : nat) :
  (forall s i d r s' tr,
      mark_fuel rel f s i d = Some (r, s', tr) ->
      e s' = e s
      /\ (r <> 0 -> e s = true -> g s' = GLeaf (n s') "-"%char))
  /\ (forall s r s' tr,
      drain_fuel rel f s = Some (r, s', tr) ->
      e s' = e s
      /\ (r <> 0 -> e s = true -> g s' = GLeaf (n s') "-"%char)).
Proof.
  induction f as [|f [IHm IHd]]; [split; intros; discriminate|].
  split.
  - intros s i d r s' tr E; rewrite mark_fuel_S in E.
    destruct (get (v s) i =? d).
    { inversion E; subst; split; [reflexivity|intros []; reflexivity]. }
    destruct (bit_of (get (p s) i) d); cbn [negb] in E.
    2:{ inversion E; subst; unfold leaf_minus.
        destruct (e s) eqn:He; split; auto; discriminate. }
    destruct (eliminate_peers_leaf (firstn 20 (nth (Z.to_nat i) rel [])) d
                (assign s i d)) as (A & B).
    destruct (eliminate_peers (assign s i d) _ d) as [r1 s1]; cbn [fst snd] in *.
    change (e (assign s i d)) with (e s) in *.
    destruct (Z.ltb_spec r1 0).
    + inversion E; subst; split; [exact A|intros _; apply B; lia].
    + destruct (IHd _ _ _ _ E) as (A' & B'); split; [congruence|].
      intros Hr He; apply B'; congruence.
  - intros s r s' tr E; rewrite drain_fuel_S in E.
    destruct (q_o s <? q_i s).
    2:{ inversion E; subst; split; [reflexivity|intros []; reflexivity]. }
    cbv zeta in E.
    destruct (mark_fuel rel f (set_q_o s (q_o s + 1)) _ _)
      as [[[r1 s2] tr1]|] eqn:E1; [|discriminate].
    destruct (IHm _ _ _ _ _ _ E1) as (A & B).
    change (e (set_q_o s (q_o s + 1))) with (e s) in *.
    destruct (Z.ltb_spec r1 0).
    + inversion E; subst; split; [exact A|intros _; apply B; lia].
    + destruct (drain_fuel rel f s2) as [[[r2 s3] tr2]|] eqn:E2; [|discriminate].
      inversion E; subst.
      destruct (IHd _ _ _ _ E2) as (A' & B'); split; [congruence|].
      intros Hr He; apply B'; congruence.
Qed.

(** *** [SuDoKu__mark] as the program calls it *)

Lemma mark_keeps (s : SuDoKu) (i d : Z) :
  consistent s -> in_grid i -> 0 <= d <= 9 ->
  exists r s',
    SuDoKu__mark rel s i d = Some (r, s')
    /\ consistent s' /\ extends s s' /\ (r = 0 \/ r = -2)
    /\ (r = 0 -> d <> 0 -> get (v s') i = d)
    /\ (get (v s) i <> d -> bit_of (get (p s) i) d = true ->
        n s < n s' /\ get (v s') i = d)
    /\ (r <> 0 -> e s = true -> g s' = GLeaf (n s') "-"%char).
Proof.
  intros Hcons Hi Hd.
  destruct (mark_fuel_enough s i d Hcons Hi Hd) as (r & s' & tr & E).
  rewrite mark_traced_eq in E.
  exists r, s'; rewrite mark_eq, E; split; [reflexivity|].
  destruct (proj1 (mark_drain_keeps mark_depth) _ _ _ _ _ _ Hcons Hi Hd E)
    as (A1 & A2 & A3 & A4 & _ & A6).
  destruct (proj1 (mark_drain_leaf mark_depth) _ _ _ _ _ _ E) as (_ & L).
  exact (conj A1 (conj A2 (conj A3 (conj A4 (conj A6 L))))).
Qed.

Lemma mark_settled (s : SuDoKu) (i d : Z) (s' : SuDoKu) :
  settled s -> in_grid i -> 1 <= d <= 9 ->
  SuDoKu__mark rel s i d = Some (0, s') -> settled s'.
Proof.
  intros (Hcons & Hprop & Hq) Hi Hd E.
  rewrite mark_eq in E.
  destruct (mark_fuel rel mark_depth s i d) as [[[r t] tr]|] eqn:E1;
    [|discriminate].
  inversion E; subst; clear E.
  assert (Hd0 : 0 <= d <= 9) by lia.
  destruct (proj1 (mark_drain_keeps mark_depth) _ _ _ _ _ _
              Hcons Hi Hd0 E1) as (A1 & _ & _ & _ & A5 & _).
  assert (Hnot : forall k, q_o s <= k < q_i s -> get (q s) k <> i)
    by (intros; lia).
  destruct (proj1 (mark_drain_propagates mark_depth) _ _ _ _ _ _
              Hcons Hprop Hi Hd Hnot E1) as (_ & B).
  split; [exact A1|]; split; auto.
Qed.

Lemma filled_repeat_0 (k : nat) : filled (repeat 0 k) = 0.
Proof. unfold filled; induction k as [|k IH]; simpl; auto. Qed.

Lemma reset_settled (s : SuDoKu) : settled (SuDoKu__reset s).
Proof.
  assert (V : forall i, in_grid i -> get (v (SuDoKu__reset s)) i = 0).
  { intros i Hi; apply get_repeat; exact Hi. }
  split; [|split; [split; [|split]|reflexivity]].
  - split; [repeat split; apply repeat_length|]; split; [|split].
    + intros i Hi; rewrite V by exact Hi.
      cbn [SuDoKu__reset p c]; rewrite !get_repeat by exact Hi.
      split; [unfold is_mask; lia|]; split; [reflexivity|].
      split; [lia|intros []; reflexivity].
    + unfold queued; cbn [SuDoKu__reset q_o q_i].
      split; [lia|]; split; [lia|]; split; intros; lia.
    + cbn [SuDoKu__reset v n]; rewrite filled_repeat_0; reflexivity.
  - intros k Hk; cbn [SuDoKu__reset q_o q_i] in Hk; lia.
  - intros i j Hi Hj _ Hnz; rewrite V in Hnz by exact Hi; contradiction.
  - intros i j Hi Hj _ Hnz; rewrite V in Hnz by exact Hi; contradiction.
Qed.

Lemma copy_settled (s t : SuDoKu) :
  settled s -> settled (SuDoKu__copy s t) /\ extends s (SuDoKu__copy s t).
Proof.
  intros H; split; [exact H|].
  unfold extends; cbn [SuDoKu__copy o e n q_o v p].
  repeat (split; [auto; lia|]); auto.
Qed.

(** Step 1 of the public operations: every clue that was marked stays. *)
Lemma mark_clues_keeps (cells : list Z) :
  Forall in_grid cells ->
  forall s,
    settled s -> (forall i, in_grid i -> 0 <= get (o s) i <= 9) ->
    exists r s',
      mark_clues rel s cells = Some (r, s')
      /\ consistent s' /\ extends s s' /\ (r = 0 \/ r = -2)
      /\ (r <> 0 -> e s = true -> g s' = GLeaf (n s') "-"%char)
      /\ (r = 0 -> settled s'
                   /\ forall i, In i cells -> get (o s) i <> 0 ->
                                get (v s') i = get (o s) i).
Proof.
  intros Hcells; induction Hcells as [|i cells Hi Hcells IH]; intros s Hs Ho.
  { exists 0, s; split; [reflexivity|]; split; [apply Hs|].
    split; [apply extends_refl|]; split; [auto|]; split; [intros []; reflexivity|].
    intros _; split; [exact Hs|intros i []]. }
  cbn [mark_clues].
  destruct (Z.ltb_spec 0 (get (o s) i)) as [Hpos|Hzero].
  2:{ destruct (IH s Hs Ho) as (r & s' & E & A1 & A2 & A3 & A4 & A5).
      exists r, s'; repeat (split; [assumption|]).
      intros Hr; destruct (A5 Hr) as (B1 & B3).
      split; [exact B1|].
      intros j [<-|Hj] Hnz; [specialize (Ho i Hi); lia|auto]. }
  destruct (mark_keeps s i (get (o s) i) (proj1 Hs) Hi (Ho i Hi))
    as (r1 & s1 & E1 & C1 & X1 & R1 & V1 & _ & L1).
  rewrite E1.
  destruct (Z.ltb_spec r1 0) as [Hneg|Hnn].
  { exists r1, s1; split; [reflexivity|].
    split; [exact C1|]; split; [exact X1|]; split; [exact R1|].
    split; [exact L1|intros; lia]. }
  assert (r1 = 0) by lia; subst r1.
  assert (S1 : settled s1).
  { apply (mark_settled s i (get (o s) i)); auto.
    specialize (Ho i Hi); lia. }
  assert (O1 : o s1 = o s) by apply X1.
  assert (E01 : e s1 = e s) by apply X1.
  assert (Ho1 : forall j, in_grid j -> 0 <= get (o s1) j <= 9)
    by (rewrite O1; exact Ho).
  destruct (IH s1 S1 Ho1) as (r & s' & E & A1 & A2 & A3 & A4 & A5).
  exists r, s'; split; [exact E|]; split; [exact A1|].
  split; [exact (extends_trans _ _ _ X1 A2)|]; split; [exact A3|].
  split; [rewrite <- E01; exact A4|].
  intros Hr; destruct (A5 Hr) as (B1 & B3); split; [exact B1|].
  intros j [<-|Hj] Hnz; [|rewrite <- O1; apply B3; auto; rewrite O1; auto].
  destruct A2 as (_ & _ & _ & _ & Keep & _).
  rewrite Keep; auto; rewrite V1; auto; lia.
Qed.

End Propagation.

(** ** The branching cell *)

Lemma filled_lt_zero (l : list Z) :
  filled l < Z.of_nat (length l) ->
  exists k, 0 <= k < Z.of_nat (length l) /\ get l k = 0.
Proof.
  unfold filled; induction l as [|h t IH]; simpl; [lia|].
  destruct (Z.eqb_spec h 0) as [->|Hh]; simpl; intros H.
  - exists 0; split; [lia|reflexivity].
  - destruct IH as (k & Hk & E); [lia|].
    exists (k + 1); split; [lia|].
    unfold get in *.
    destruct (Z.ltb_spec k 0); [lia|]; destruct (Z.ltb_spec (k + 1) 0); [lia|].
    replace (Z.to_nat (k + 1)) with (S (Z.to_nat k)) by lia; exact E.
Qed.

Lemma search_min_fold (s : SuDoKu) (cells : list Z) :
  Forall in_grid cells ->
  forall acc,
    (in_grid (fst acc) /\ get (v s) (fst acc) = 0
     \/ snd acc = 10
        /\ exists i, In i cells /\ get (v s) i = 0 /\ get (c s) i < 10) ->
    in_grid (fst (fold_left (search_min_step s) cells acc))
    /\ get (v s) (fst (fold_left (search_min_step s) cells acc)) = 0.
Proof.
  intros Hcells; induction Hcells as [|i cells Hi Hcells IH]; intros [im cm] H.
  { destruct H as [H|(_ & i & [] & _)]; exact H. }
  cbn [fold_left]; apply IH.
  unfold search_min_step; cbn [fst snd] in *.
  destruct (Z.eqb_spec (get (v s) i) 0) as [Hv|Hv]; cbn [andb].
  - destruct (Z.ltb_spec (get (c s) i) cm) as [Hc|Hc]; cbn [fst snd].
    + left; rewrite Z.mod_small by (unfold in_grid in Hi; lia); auto.
    + destruct H as [H|(-> & j & [<-|Hj] & Hj0 & Hjc)]; auto; [lia|].
      right; split; [reflexivity|]; exists j; auto.
  - destruct H as [H|(-> & j & [<-|Hj] & Hj0 & Hjc)]; auto; [contradiction|].
    right; split; [reflexivity|]; exists j; auto.
Qed.

Lemma search_min_finds (s : SuDoKu) :
  consistent s -> n s <> 81 ->
  in_grid (SuDoKu__search_min s) /\ get (v s) (SuDoKu__search_min s) = 0.
Proof.
  intros ((Lv & _) & Hcnt & _ & Hfill) Hn.
  unfold SuDoKu__search_min; apply search_min_fold.
  { apply Forall_forall; intros i Hi; apply in_range in Hi; exact Hi. }
  right; split; [reflexivity|].
  pose proof (filled_le (v s)) as L.
  destruct (filled_lt_zero (v s)) as (k & Hk & E); [lia|].
  exists k; split; [apply in_range; lia|]; split; [exact E|].
  destruct (Hcnt k ltac:(unfold in_grid; lia)) as (Hm & Hc & _).
  destruct (mask_facts _ Hm) as (P & _); lia.
Qed.

(** ** Grids handed to Python *)

Lemma cell_get2darray (a : list Z) (k : Z) :
  in_grid k -> cell (SuDoKu_get2darray a) k = get a k.
Proof.
  intros Hk; unfold cell, SuDoKu_get2darray.
  assert (Hq : 0 <= k / 9 < 9) by (unfold in_grid in Hk; split;
    [apply Z.div_pos; lia|apply Z.div_lt_upper_bound; lia]).
  assert (Hr : 0 <= k mod 9 < 9) by (apply Z.mod_pos_bound; lia).
  rewrite (nth_indep _ [] (map (fun j => get a (9 * 0 + j)) (range 9)))
    by (rewrite length_map; unfold range; rewrite length_map, length_seq; lia).
  rewrite (map_nth (fun i => map (fun j => get a (9 * i + j)) (range 9))).
  assert (N : forall x, 0 <= x < 9 -> nth (Z.to_nat x) (range 9) 0 = x).
  { intros x Hx; unfold range.
    rewrite (nth_indep _ 0 (Z.of_nat 0)) by (rewrite length_map, length_seq; lia).
    rewrite map_nth, seq_nth by lia; lia. }
  rewrite N by exact Hq.
  unfold get at 1; destruct (Z.ltb_spec (k mod 9) 0); [lia|].
  rewrite (nth_indep _ 0 (get a (9 * (k / 9) + 0)))
    by (rewrite length_map; unfold range; rewrite length_map, length_seq; lia).
  rewrite (map_nth (fun j => get a (9 * (k / 9) + j))), N by exact Hr.
  f_equal; pose proof (Z.div_mod k 9); lia.
Qed.

(** ** The search *)

Lemma resolve_aux_fuel_S (rel : list (list Z)) (f : nat) (s t0 : SuDoKu) :
  resolve_aux_fuel rel (S f) s t0 =
  if n s =? 81 then
    Some (0, [SuDoKu_get2darray (v s)],
          if e s then set_g s (GLeaf (n s) "+"%char) else s)
  else
    match resolve_branches rel (fun t => resolve_aux_fuel rel f t t0)
            s t0 (SuDoKu__search_min s) digits [] [] with
    | None => None
    | Some (r, res, sg) =>
        Some (r, res, if e s then set_g s (GNode (n s) sg) else s)
    end.
Proof. reflexivity. Qed.

Lemma unique_sol_aux_fuel_S (rel : list (list Z)) (f : nat) (s t0 : SuDoKu) :
  unique_sol_aux_fuel rel (S f) s t0 =
  if n s =? 81 then Some 1
  else unique_branches rel (fun t => unique_sol_aux_fuel rel f t t0)
         s t0 (SuDoKu__search_min s) digits 0.
Proof. reflexivity. Qed.

Lemma resolve_aux_eq (rel : list (list Z)) (s t0 : SuDoKu) :
  SuDoKu__resolve_aux rel s t0 = resolve_aux_fuel rel search_depth s t0.
Proof. reflexivity. Qed.

Lemma unique_sol_aux_eq (rel : list (list Z)) (s t0 : SuDoKu) :
  SuDoKu__unique_sol_aux rel s t0 = unique_sol_aux_fuel rel search_depth s t0.
Proof. reflexivity. Qed.

Lemma tree_from_weaken (lo lo' : Z) (x : graph) :
  lo' <= lo -> tree_from lo x -> tree_from lo' x.
Proof.
  intros H; destruct x as [| |d ch|d l]; simpl; auto; [lia|].
  intros (A & B); split; [lia|exact B].
Qed.

Lemma tree_from_children (d : Z) (l : list graph) :
  Forall (tree_from d) l ->
  fold_right (fun y acc => tree_from d y /\ acc) True l.
Proof. induction 1; simpl; auto. Qed.

Lemma tree_from_not_null (lo : Z) (x : graph) :
  tree_from lo x -> is_null x = false.
Proof. destruct x; simpl; auto; intros []. Qed.

Lemma solves_extends (s t : SuDoKu) (sol : list (list Z)) :
  extends s t -> solves (v t) sol -> solves (v s) sol.
Proof.
  intros (_ & _ & _ & _ & Keep & _) (L1 & L2 & H).
  split; [exact L1|]; split; [exact L2|]; intros i Hi.
  destruct (H i Hi) as (A & B & C); split; [exact A|]; split; [exact B|].
  intros Hnz; rewrite <- (Keep i Hi Hnz); apply C.
  rewrite (Keep i Hi Hnz); exact Hnz.
Qed.

Lemma settled_complete (s : SuDoKu) :
  settled s -> n s = 81 -> solves (v s) (SuDoKu_get2darray (v s)).
Proof.
  intros (((Lv & _) & Hcnt & _ & Hfill) & (_ & _ & Hdif) & _) Hn.
  split; [reflexivity|]; split.
  { unfold SuDoKu_get2darray; apply Forall_forall; intros row Hrow.
    apply in_map_iff in Hrow; destruct Hrow as (k & <- & _); reflexivity. }
  intros i Hi.
  assert (Nz : forall k, in_grid k -> get (v s) k <> 0).
  { intros k Hk; apply (filled_all (v s)); [rewrite Lv; lia|].
    unfold get; destruct (Z.ltb_spec k 0); [unfold in_grid in Hk; lia|].
    apply nth_In; unfold in_grid in Hk; lia. }
  rewrite cell_get2darray by exact Hi.
  split; [|split; [|auto]].
  - destruct (Hcnt i Hi) as (_ & _ & R & _); specialize (Nz i Hi); lia.
  - intros j Hj Hp; rewrite cell_get2darray by exact Hj.
    apply Hdif; auto.
Qed.

Lemma capped_big (k : Z) : 2 <= k -> capped k = -2.
Proof. unfold capped; intros H; destruct (Z.leb_spec k 1); [lia|reflexivity]. Qed.

Lemma capped_small (k : Z) : k <= 1 -> capped k = k.
Proof. unfold capped; intros H; destruct (Z.leb_spec k 1); [reflexivity|lia]. Qed.

(** *** The tracking flag *)

Lemma mark_flag (rel : list (list Z)) (s : SuDoKu) (i d r : Z) (s' : SuDoKu) :
  SuDoKu__mark rel s i d = Some (r, s') ->
  e s' = e s /\ (r <> 0 -> e s = true -> is_null (g s') = false).
Proof.
  intros E; rewrite mark_eq in E.
  destruct (mark_fuel rel mark_depth s i d) as [[[r0 s0] tr]|] eqn:E1;
    [|discriminate].
  injection E as -> ->.
  destruct (proj1 (mark_drain_leaf rel mark_depth) _ _ _ _ _ _ E1) as (A & B).
  split; [exact A|]; intros Hr He; rewrite (B Hr He); reflexivity.
Qed.

Lemma mark_clues_flag (rel : list (list Z)) (cells : list Z) :
  forall s r u, mark_clues rel s cells = Some (r, u) -> e u = e s.
Proof.
  induction cells as [|i cells IH]; intros s r u M.
  { injection M as _ <-; reflexivity. }
  cbn [mark_clues] in M.
  destruct (0 <? get (o s) i); [|exact (IH _ _ _ M)].
  destruct (SuDoKu__mark rel s i (get (o s) i)) as [[r1 s1]|] eqn:M1;
    [|discriminate].
  destruct (mark_flag rel _ _ _ _ _ M1) as (E1 & _).
  destruct (r1 <? 0); [injection M as _ <-; exact E1|].
  rewrite (IH _ _ _ M); exact E1.
Qed.

Section Search.

Variable rel : list (list Z).
Hypothesis Hrel : relations_ok rel = true.

(** *** The count does not depend on the statistics *)

Lemma strip_fields (s1 s2 : SuDoKu) :
  strip s1 = strip s2 ->
  o s1 = o s2 /\ v s1 = v s2 /\ p s1 = p s2 /\ c s1 = c s2 /\ n s1 = n s2.
Proof.
  unfold strip; intros H; injection H as H1 H2 H3 H4 H5 H6 H7 H8; auto.
Qed.

Lemma mark_clues_strip (cells : list Z) (s1 s2 : SuDoKu) :
  strip s1 = strip s2 ->
  match mark_clues rel s1 cells, mark_clues rel s2 cells with
  | Some (r1, t1), Some (r2, t2) => r1 = r2 /\ strip t1 = strip t2
  | None, None => True
  | _, _ => False
  end.
Proof.
  revert s1 s2; induction cells as [|i cells IH]; intros s1 s2 H.
  { simpl; auto. }
  cbn [mark_clues].
  destruct (strip_fields _ _ H) as (Ho & _); rewrite Ho.
  destruct (0 <? get (o s2) i); [|apply IH, H].
  pose proof (mark_strip rel s1 s2 i (get (o s2) i) H) as M.
  destruct (SuDoKu__mark rel s1 i (get (o s2) i)) as [[r1 t1]|];
    destruct (SuDoKu__mark rel s2 i (get (o s2) i)) as [[r2 t2]|];
    try contradiction; auto.
  destruct M as (-> & M); destruct (r2 <? 0); [auto|apply IH, M].
Qed.

Lemma unique_strip (f : nat) :
  forall s1 s2 t1 t2,
    strip s1 = strip s2 -> e s1 = false -> e s2 = false ->
    unique_sol_aux_fuel rel f s1 t1 = unique_sol_aux_fuel rel f s2 t2.
Proof.
  induction f as [|f IH]; intros s1 s2 t1 t2 H He1 He2; [reflexivity|].
  rewrite !unique_sol_aux_fuel_S.
  destruct (strip_fields _ _ H) as (Ho & Hv & Hp & Hc & Hn).
  rewrite Hn; destruct (n s2 =? 81); [reflexivity|].
  assert (Hi : SuDoKu__search_min s1 = SuDoKu__search_min s2).
  { unfold SuDoKu__search_min, search_min_step; rewrite Hv, Hc; reflexivity. }
  rewrite Hi; generalize (SuDoKu__search_min s2) as i; intros i.
  assert (Loop : forall ds count,
            unique_branches rel (fun t => unique_sol_aux_fuel rel f t t1)
              s1 t1 i ds count
            = unique_branches rel (fun t => unique_sol_aux_fuel rel f t t2)
                s2 t2 i ds count); [|apply Loop].
  induction ds as [|d ds IHds]; intros count; [reflexivity|].
  cbn [unique_branches]; rewrite Hp, He1, He2.
  destruct (bit_of (get (p s2) i) d); [|apply IHds].
  assert (Hcopy : strip (SuDoKu__copy s1 t1) = strip (SuDoKu__copy s2 t2)).
  { exact H. }
  pose proof (mark_strip rel _ _ i d Hcopy) as M.
  destruct (SuDoKu__mark rel (SuDoKu__copy s1 t1) i d) as [[r1 u1]|] eqn:M1;
    destruct (SuDoKu__mark rel (SuDoKu__copy s2 t2) i d) as [[r2 u2]|] eqn:M2;
    try contradiction; auto.
  destruct M as (-> & M); destruct (r2 =? -2); [apply IHds|].
  destruct (mark_flag rel _ _ _ _ _ M1) as (F1 & _).
  destruct (mark_flag rel _ _ _ _ _ M2) as (F2 & _).
  change (e (SuDoKu__copy s1 t1)) with (e s1) in F1.
  change (e (SuDoKu__copy s2 t2)) with (e s2) in F2.
  rewrite (IH u1 u2 t1 t2 M ltac:(congruence) ltac:(congruence)).
  destruct (unique_sol_aux_fuel rel f u2 t2) as [sc|]; [|reflexivity].
  destruct (sc <? 0); [reflexivity|].
  destruct (1 <? count + sc); [reflexivity|apply IHds].
Qed.

Lemma branches_ok (f : nat) (s t0 : SuDoKu) (i : Z) :
  settled s -> in_grid i -> get (v s) i = 0 ->
  (forall t, settled t -> n s < n t -> level_ok rel f t t0) ->
  forall ds, Forall (fun d => 1 <= d <= 9) ds ->
  forall res sg,
    (forall sol, In sol res -> solves (v s) sol) ->
    Forall (tree_from (n s)) sg ->
    exists res' sg',
      resolve_branches rel (fun t => resolve_aux_fuel rel f t t0)
        s t0 i ds res sg = Some (0, res', sg')
      /\ (forall sol, In sol res' -> solves (v s) sol)
      /\ Forall (tree_from (n s)) sg'
      /\ (length res <= length res')%nat
      /\ (Z.of_nat (length res) <= 1 ->
          unique_branches rel (fun t => unique_sol_aux_fuel rel f t t0)
            (strip s) t0 i ds (Z.of_nat (length res))
          = Some (capped (Z.of_nat (length res')))).
Proof.
  intros Hs Hi Hv0 Hrec ds Hds.
  induction Hds as [|d ds Hd Hds IH]; intros res sg Hres Hsg.
  { exists res, sg; split; [reflexivity|]; split; [exact Hres|].
    split; [exact Hsg|]; split; [lia|].
    intros H; simpl; rewrite capped_small by exact H; reflexivity. }
  cbn [resolve_branches unique_branches].
  change (p (strip s)) with (p s); change (e (strip s)) with false.
  destruct (bit_of (get (p s) i) d) eqn:Hb; [|apply IH; assumption].
  cbv iota.
  destruct (copy_settled s t0 Hs) as (St & Xt).
  set (t := SuDoKu__copy s t0) in *.
  destruct (mark_keeps rel Hrel t i d (proj1 St) Hi ltac:(lia))
    as (r & t1 & E1 & C1 & X1 & R1 & V1 & N1 & L1).
  pose proof (mark_strip rel (SuDoKu__copy (strip s) t0) t i d eq_refl) as Ms.
  rewrite E1 in Ms.
  destruct (SuDoKu__mark rel (SuDoKu__copy (strip s) t0) i d)
    as [[r' u1]|] eqn:E1'; [|contradiction].
  destruct Ms as (-> & Ms).
  destruct (mark_flag rel _ _ _ _ _ E1') as (Fu & _).
  change (e (SuDoKu__copy (strip s) t0)) with false in Fu.
  rewrite E1.
  assert (Nt : n s < n t1).
  { apply N1; [change (get (v t) i) with (get (v s) i); lia|exact Hb]. }
  assert (Xs1 : extends s t1) by exact (extends_trans _ _ _ Xt X1).
  destruct R1 as [->| ->].
  - (* the mark succeeded *)
    change (0 =? -2) with false; change (0 <? 0) with false; cbv iota.
    assert (S1 : settled t1) by exact (mark_settled rel Hrel t i d t1 St Hi Hd E1).
    destruct (Hrec t1 S1 Nt) as (sres & t2 & E2 & Ee & Hsol & Htree & U2).
    rewrite (unique_strip f u1 (strip t1) t0 t0 Ms Fu eq_refl).
    rewrite E2, U2; change (0 <? 0) with false; cbv iota.
    assert (Hres' : forall sol, In sol (res ++ sres) -> solves (v s) sol).
    { intros sol Hin; apply in_app_or in Hin; destruct Hin as [Hin|Hin];
        [auto|exact (solves_extends s t1 sol Xs1 (Hsol sol Hin))]. }
    assert (Et1 : e t1 = e s) by (destruct X1 as (_ & -> & _); reflexivity).
    assert (Fin : forall sg1, Forall (tree_from (n s)) sg1 ->
              exists res' sg',
                resolve_branches rel (fun t => resolve_aux_fuel rel f t t0)
                  s t0 i ds (res ++ sres) sg1 = Some (0, res', sg')
                /\ (forall sol, In sol res' -> solves (v s) sol)
                /\ Forall (tree_from (n s)) sg'
                /\ (length res <= length res')%nat
                /\ (Z.of_nat (length res) <= 1 ->
                    (if capped (Z.of_nat (length sres)) <? 0
                     then Some (capped (Z.of_nat (length sres)))
                     else
                       if 1 <? Z.of_nat (length res)
                               + capped (Z.of_nat (length sres))
                       then Some (-2)
                       else
                         unique_branches rel
                           (fun t => unique_sol_aux_fuel rel f t t0)
                           (strip s) t0 i ds
                           (Z.of_nat (length res)
                            + capped (Z.of_nat (length sres))))
                    = Some (capped (Z.of_nat (length res'))))).
    { intros sg1 Hsg1.
      destruct (IH (res ++ sres) sg1 Hres' Hsg1)
        as (res' & sg' & E & A1 & A2 & A3 & A4).
      exists res', sg'; split; [exact E|]; split; [exact A1|].
      split; [exact A2|]; rewrite length_app in A3, A4; split; [lia|].
      intros Hle.
      destruct (Z.ltb_spec (capped (Z.of_nat (length sres))) 0) as [Hneg|Hnn].
      { assert (Hbig : 2 <= Z.of_nat (length sres)).
        { unfold capped in Hneg;
            destruct (Z.leb_spec (Z.of_nat (length sres)) 1); lia. }
        rewrite !capped_big by lia; reflexivity. }
      assert (Hs1 : Z.of_nat (length sres) <= 1).
      { unfold capped in Hnn;
          destruct (Z.leb_spec (Z.of_nat (length sres)) 1); lia. }
      rewrite (capped_small _ Hs1).
      destruct (Z.ltb_spec 1 (Z.of_nat (length res) + Z.of_nat (length sres))).
      { rewrite capped_big by lia; reflexivity. }
      rewrite <- A4 by lia; f_equal; lia. }
    destruct (e s) eqn:He; [|apply Fin; exact Hsg].
    rewrite Et1 in Htree; specialize (Htree eq_refl).
    rewrite (tree_from_not_null _ _ Htree).
    apply Fin, Forall_app; split; [exact Hsg|].
    constructor; [|constructor].
    apply (tree_from_weaken (n t1)); [lia|exact Htree].
  - (* the mark raised a Contradiction *)
    change (-2 =? -2) with true; cbv iota.
    destruct (e s) eqn:He; [|apply IH; assumption].
    rewrite L1 by (try discriminate; exact He).
    cbn [is_null]; apply IH; [exact Hres|].
    apply Forall_app; split; [exact Hsg|].
    constructor; [simpl; lia|constructor].
Qed.

Lemma level_ok_all (f : nat) (s t0 : SuDoKu) :
  settled s -> 82 - n s <= Z.of_nat f -> level_ok rel f s t0.
Proof.
  revert s; induction f as [|f IH]; intros s Hs Hf.
  { exfalso; destruct Hs as (((Lv & _) & _ & _ & Hfill) & _).
    pose proof (filled_le (v s)); lia. }
  unfold level_ok; rewrite resolve_aux_fuel_S, unique_sol_aux_fuel_S.
  change (n (strip s)) with (n s).
  change (SuDoKu__search_min (strip s)) with (SuDoKu__search_min s).
  destruct (Z.eqb_spec (n s) 81) as [Hn|Hn].
  { eexists _, _; split; [reflexivity|].
    split; [destruct (e s) eqn:He; exact He|].
    split; [|split; [|reflexivity]].
    - intros sol [<-|[]]; apply settled_complete; assumption.
    - intros ->; simpl; lia. }
  destruct (search_min_finds s (proj1 Hs) Hn) as (Hi & Hv0).
  assert (Hrec : forall t, settled t -> n s < n t -> level_ok rel f t t0).
  { intros t St Hlt; apply IH; [exact St|lia]. }
  assert (Hds : Forall (fun d => 1 <= d <= 9) digits).
  { unfold digits; repeat constructor; lia. }
  destruct (branches_ok f s t0 _ Hs Hi Hv0 Hrec digits Hds [] []
              ltac:(intros sol []) (Forall_nil _))
    as (res & sg & E & A1 & A2 & _ & A4).
  rewrite E; eexists _, _; split; [reflexivity|].
  split; [destruct (e s) eqn:He; exact He|]; split; [exact A1|].
  split; [|apply A4; simpl; lia].
  intros ->; simpl; split; [lia|apply tree_from_children, A2].
Qed.

Lemma unique_sol_strip (s1 s2 t1 t2 : SuDoKu) :
  o s1 = o s2 -> e s1 = false -> e s2 = false ->
  SuDoKu__unique_sol rel s1 t1 = SuDoKu__unique_sol rel s2 t2.
Proof.
  intros Ho He1 He2; unfold SuDoKu__unique_sol.
  assert (H : strip (SuDoKu__reset s1) = strip (SuDoKu__reset s2)).
  { unfold strip, SuDoKu__reset; cbn; rewrite Ho; reflexivity. }
  pose proof (mark_clues_strip (range 81) _ _ H) as M.
  destruct (mark_clues rel (SuDoKu__reset s1) (range 81))
    as [[r1 u1]|] eqn:M1;
    destruct (mark_clues rel (SuDoKu__reset s2) (range 81))
      as [[r2 u2]|] eqn:M2;
    try contradiction; auto.
  destruct M as (-> & M); destruct (r2 <? 0); [reflexivity|].
  pose proof (mark_clues_flag rel _ _ _ _ M1) as F1.
  pose proof (mark_clues_flag rel _ _ _ _ M2) as F2.
  change (e (SuDoKu__reset s1)) with (e s1) in F1.
  change (e (SuDoKu__reset s2)) with (e s2) in F2.
  rewrite !unique_sol_aux_eq; apply unique_strip; congruence.
Qed.

(** *** The public operations *)

Lemma clues_ok_range (l : list Z) :
  clues_ok l = true ->
  length l = 81%nat /\ forall i, in_grid i -> 0 <= get l i <= 9.
Proof.
  unfold clues_ok; intros H; apply andb_prop in H; destruct H as (L & F).
  apply Nat.eqb_eq in L; split; [exact L|]; intros i Hi.
  rewrite forallb_forall in F.
  assert (Hin : In (get l i) l).
  { unfold get; destruct (Z.ltb_spec i 0); [unfold in_grid in Hi; lia|].
    apply nth_In; unfold in_grid in Hi; lia. }
  specialize (F _ Hin); apply andb_prop in F; destruct F as (A & B).
  apply Z.leb_le in A, B; lia.
Qed.

(** [SuDoKu_resolve] and [SuDoKu__unique_sol] on the same clues. *)
Lemma resolve_spec (s t0 : SuDoKu) :
  clues_ok (o s) = true ->
  exists r s1,
    mark_clues rel (SuDoKu__reset s) (range 81) = Some (r, s1)
    /\ (r = -2 /\ SuDoKu_resolve rel s t0 = Some (Raised Contradiction, s1)
        /\ (e s = true -> g s1 = GLeaf (n s1) "-"%char)
        /\ e s1 = e s /\ 0 <= n s1
        /\ (forall su tu, o su = o s -> e su = false ->
            SuDoKu__unique_sol rel su tu = Some (-1))
        \/ r = 0
           /\ exists res s2,
               SuDoKu_resolve rel s t0 = Some (Returned res, s2)
               /\ e s2 = e s
               /\ (forall sol, In sol res -> solves (o s) sol)
               /\ (e s = true -> tree_from 0 (g s2))
               /\ (forall su tu, o su = o s -> e su = false ->
                   SuDoKu__unique_sol rel su tu
                   = Some (capped (Z.of_nat (length res))))).
Proof.
  intros Hclues; destruct (clues_ok_range _ Hclues) as (Lo & Ho).
  assert (Hcells : Forall in_grid (range 81)).
  { apply Forall_forall; intros i Hi; apply in_range in Hi; exact Hi. }
  destruct (mark_clues_keeps rel Hrel (range 81) Hcells (SuDoKu__reset s)
              (reset_settled s) Ho)
    as (r & s1 & E & C1 & X1 & R1 & L1 & S1).
  exists r, s1; split; [exact E|].
  assert (Hu : forall su tu, o su = o s -> e su = false ->
            exists u1,
              SuDoKu__unique_sol rel su tu
              = (if r <? 0 then Some (-1)
                 else unique_sol_aux_fuel rel search_depth u1 tu)
              /\ strip u1 = strip s1 /\ e u1 = false).
  { intros su tu Ho' He'; unfold SuDoKu__unique_sol.
    assert (H : strip (SuDoKu__reset su) = strip (SuDoKu__reset s)).
    { unfold strip, SuDoKu__reset; cbn; rewrite Ho'; reflexivity. }
    pose proof (mark_clues_strip (range 81) _ _ H) as M; rewrite E in M.
    destruct (mark_clues rel (SuDoKu__reset su) (range 81))
      as [[r1 u1]|] eqn:M1; [|contradiction].
    destruct M as (-> & M); exists u1; rewrite unique_sol_aux_eq.
    split; [reflexivity|]; split; [exact M|].
    rewrite (mark_clues_flag rel _ _ _ _ M1); exact He'. }
  unfold SuDoKu_resolve; rewrite E.
  destruct R1 as [->| ->]; [right|left].
  2:{ split; [reflexivity|]; split; [reflexivity|].
      split; [intros He; apply L1; [discriminate|exact He]|].
      split; [destruct X1 as (_ & -> & _); reflexivity|].
      split; [destruct C1 as (_ & _ & _ & Hfill);
              pose proof (filled_le (v s1)); lia|].
      intros su tu Ho' He'; destruct (Hu su tu Ho' He') as (u1 & -> & _).
      reflexivity. }
  split; [reflexivity|].
  change (0 <? 0) with false; cbv iota.
  destruct (S1 eq_refl) as (St & Hkeep).
  set (t0' := if e s then set_g t0 GNull else t0).
  assert (Hf : 82 - n s1 <= Z.of_nat search_depth).
  { destruct C1 as (_ & _ & _ & Hfill); pose proof (filled_le (v s1)).
    change (Z.of_nat search_depth) with 82; lia. }
  destruct (level_ok_all search_depth s1 t0' St Hf)
    as (res & s2 & E2 & Ee & Hsol & Htree & U2).
  rewrite resolve_aux_eq, E2; change (0 <? 0) with false; cbv iota.
  exists res, s2; split; [reflexivity|].
  assert (Es1 : e s1 = e s) by (destruct X1 as (_ & -> & _); reflexivity).
  split; [congruence|]; split; [|split].
  - intros sol Hin; destruct (Hsol sol Hin) as (A1 & A2 & A3).
    split; [exact A1|]; split; [exact A2|]; intros i Hi.
    destruct (A3 i Hi) as (B1 & B2 & B3).
    split; [exact B1|]; split; [exact B2|].
    intros Hnz; specialize (Hkeep i ltac:(apply in_range; exact Hi) Hnz).
    change (o (SuDoKu__reset s)) with (o s) in Hkeep.
    rewrite <- Hkeep; apply B3; rewrite Hkeep; exact Hnz.
  - intros He; apply (tree_from_weaken (n s1)).
    + destruct C1 as (_ & _ & _ & Hfill); pose proof (filled_le (v s1)); lia.
    + apply Htree; congruence.
  - intros su tu Ho' He'; destruct (Hu su tu Ho' He') as (u1 & -> & M & F).
    change (0 <? 0) with false; cbv iota.
    rewrite (unique_strip search_depth u1 (strip s1) tu t0' M F eq_refl).
    exact U2.
Qed.

End Search.

(** ** The demonstration puzzle *)

Lemma demo_clues_ok : clues_ok (o demo_grid) = true.
Proof. vm_compute; reflexivity. Qed.

Lemma demo_resolve :
  SuDoKu_resolve SuDoKu__relations demo_grid (fresh [])
  = Some (Returned demo_solutions, demo_final).
Proof. vm_compute; reflexivity. Qed.

(** * The claims *)

(** ** Elimination (C4) *)



(** ** Reachable grids (C8) *)

Lemma reachable_consistent (rel : list (list Z)) (s : SuDoKu) :
  relations_ok rel = true -> reachable rel s -> consistent s.
Proof.
  intros Hrel H; induction H as [s|s i d r s' H IH Hi Hd E|s i d r s' H IH Hi Hd E].
  - apply reset_settled.
  - destruct (mark_keeps rel Hrel s i d IH Hi ltac:(lia)) as (r0 & s0 & E0 & C0 & _).
    rewrite E in E0; injection E0 as <- <-; exact C0.
  - destruct (eliminate_keeps s i d r s' IH Hi ltac:(lia) E) as (C0 & _); exact C0.
Qed.

Lemma reachable_after (rel : list (list Z)) (s : SuDoKu) (i d : Z) :
  reachable rel s -> in_grid i -> 1 <= d <= 9 -> reachable rel (after rel s i d).
Proof.
  intros H Hi Hd; unfold after.
  destruct (SuDoKu__mark rel s i d) as [[r s']|] eqn:E; [|exact H].
  exact (reach_mark rel s i d r s' H Hi Hd E).
Qed.

Lemma row_state_reachable : reachable SuDoKu__relations row_state.
Proof.
  unfold row_state; cbv zeta.
  repeat (apply reachable_after; [|unfold in_grid; lia|lia]).
  apply reach_reset.
Qed.

(** C8.  On every grid reached from [SuDoKu__reset] by calls of
    [SuDoKu__mark] and [SuDoKu__eliminate], failed ones included, the
    count of a cell is the population count of its mask, and an assigned
    cell has mask 0 and count 0. *)
Theorem count_is_popcount (rel : list (list Z)) (s : SuDoKu) :
  relations_ok rel = true -> reachable rel s ->
  forall i, in_grid i ->
    get (c s) i = popcount (get (p s) i)
    /\ (get (v s) i <> 0 -> get (p s) i = 0 /\ get (c s) i = 0).
Proof.
  intros Hrel H i Hi.
  destruct (reachable_consistent rel s Hrel H) as (_ & Hcnt & _).
  destruct (Hcnt i Hi) as (_ & Hc & _ & Hz); split; [exact Hc|].
  intros Hnz; rewrite Hc, (Hz Hnz); split; reflexivity.
Qed.

Lemma count_is_popcount_witness :
  reachable SuDoKu__relations (after SuDoKu__relations row_state 16 9)
  /\ get (c (after SuDoKu__relations row_state 16 9)) 8
     = popcount (get (p (after SuDoKu__relations row_state 16 9)) 8).
Proof.
  assert (H : reachable SuDoKu__relations (after SuDoKu__relations row_state 16 9)).
  { apply reachable_after;
      [exact row_state_reachable|unfold in_grid; lia|lia]. }
  split; [exact H|].
  assert (H8 : in_grid 8) by (unfold in_grid; lia).
  exact (proj1 (count_is_popcount SuDoKu__relations _ relations_ok_table H 8 H8)).
Defined.

(** ** Marking (C3) *)

Lemma replay_app (s : SuDoKu) (a b : list write) :
  replay s (a ++ b) = replay (replay s a) b.
Proof. apply fold_left_app. Qed.

Lemma mark_writes_S (rel : list (list Z)) (f : nat) (s : SuDoKu) (i d : Z) :
  mark_writes rel (S f) s i d =
  if get (v s) i =? d then Some (0, [])
  else if negb (bit_of (get (p s) i) d) then Some (-2, [WLeaf])
  else
    let '(r, ws) :=
      peers_writes (assign s i d) (firstn 20 (nth (Z.to_nat i) rel [])) d in
    if r <? 0 then Some (r, WAssign i d :: ws)
    else
      match drain_writes rel f (replay s (WAssign i d :: ws)) with
      | None => None
      | Some (r', ws') => Some (r', WAssign i d :: ws ++ ws')
      end.
Proof. reflexivity. Qed.

Lemma drain_writes_S (rel : list (list Z)) (f : nat) (s : SuDoKu) :
  drain_writes rel (S f) s =
  if q_o s <? q_i s then
    let i := get (q s) (q_o s) in
    let s1 := set_q_o s (q_o s + 1) in
    let d := ffs (get (p s1) i) mod 256 in
    match mark_writes rel f s1 i d with
    | None => None
    | Some (r, ws) =>
        if r <? 0 then Some (r, WPop :: ws)
        else
          match drain_writes rel f (replay s (WPop :: ws)) with
          | None => None
          | Some (r', ws') => Some (r', WPop :: ws ++ ws')
          end
    end
  else Some (0, []).
Proof. reflexivity. Qed.

Lemma mark_writes_eq (rel : list (list Z)) (s : SuDoKu) (i d : Z) :
  SuDoKu__mark_writes rel s i d = mark_writes rel mark_depth s i d.
Proof. reflexivity. Qed.

(** The loop over the peers stops in the grid that its calls have left. *)
Lemma peers_writes_spec (js : list Z) (d : Z) :
  forall s,
    fst (peers_writes s js d) = fst (eliminate_peers s js d)
    /\ replay s (snd (peers_writes s js d)) = snd (eliminate_peers s js d).
Proof.
  induction js as [|j js IH]; intros s; [split; reflexivity|].
  cbn [peers_writes eliminate_peers].
  destruct (SuDoKu__eliminate s j d) as [r s1] eqn:E.
  destruct (r <? 0).
  - unfold replay; cbn [fst snd fold_left apply_write].
    rewrite E; split; reflexivity.
  - destruct (IH s1) as (A & B).
    destruct (peers_writes s1 js d) as [r' ws]; cbn [fst snd] in *.
    split; [exact A|].
    unfold replay in *; cbn [fold_left apply_write]; rewrite E; exact B.
Qed.

(** Whatever a mark returns, its grid is the grid of the call with the
    writes made so far, each applied once and in order. *)
Lemma mark_drain_writes (rel : list (list Z)) (f : nat) :
  (forall s i d r s' tr,
      mark_fuel rel f s i d = Some (r, s', tr) ->
      exists ws, mark_writes rel f s i d = Some (r, ws) /\ replay s ws = s')
  /\ (forall s r s' tr,
      drain_fuel rel f s = Some (r, s', tr) ->
      exists ws, drain_writes rel f s = Some (r, ws) /\ replay s ws = s').
Proof.
  induction f as [|f [IHm IHd]]; [split; intros; discriminate|].
  split.
  - intros s i d r s' tr E; rewrite mark_fuel_S in E; rewrite mark_writes_S.
    destruct (get (v s) i =? d).
    { inversion E; subst; exists []; split; reflexivity. }
    destruct (bit_of (get (p s) i) d); cbn [negb] in E |- *.
    2:{ inversion E; subst; exists [WLeaf]; split; reflexivity. }
    destruct (peers_writes_spec (firstn 20 (nth (Z.to_nat i) rel [])) d
                (assign s i d)) as (A & B).
    destruct (eliminate_peers (assign s i d) _ d) as [r1 s1].
    destruct (peers_writes (assign s i d) _ d) as [r1' ws].
    cbn [fst snd] in A, B; subst r1'.
    assert (R : replay s (WAssign i d :: ws) = s1) by exact B.
    destruct (r1 <? 0).
    + inversion E; subst.
      exists (WAssign i d :: ws); split; [reflexivity|exact R].
    + rewrite R; destruct (IHd _ _ _ _ E) as (ws' & E' & R'); rewrite E'.
      exists (WAssign i d :: ws ++ ws'); split; [reflexivity|].
      change (WAssign i d :: ws ++ ws') with ((WAssign i d :: ws) ++ ws').
      rewrite replay_app, R; exact R'.
  - intros s r s' tr E; rewrite drain_fuel_S in E; rewrite drain_writes_S.
    destruct (q_o s <? q_i s).
    2:{ inversion E; subst; exists []; split; reflexivity. }
    cbv zeta in E |- *.
    destruct (mark_fuel rel f (set_q_o s (q_o s + 1)) _ _)
      as [[[r1 s2] tr1]|] eqn:E1; [|discriminate].
    destruct (IHm _ _ _ _ _ _ E1) as (ws & Ew & Rw); rewrite Ew.
    assert (R : replay s (WPop :: ws) = s2) by exact Rw.
    destruct (r1 <? 0).
    + inversion E; subst.
      exists (WPop :: ws); split; [reflexivity|exact R].
    + rewrite R.
      destruct (drain_fuel rel f s2) as [[[r2 s3] tr2]|] eqn:E2;
        [|discriminate].
      inversion E; subst.
      destruct (IHd _ _ _ _ E2) as (ws' & E' & R'); rewrite E'.
      exists (WPop :: ws ++ ws'); split; [reflexivity|].
      change (WPop :: ws ++ ws') with ((WPop :: ws) ++ ws').
      rewrite replay_app, R; exact R'.
Qed.




(** The writes of that failed call: cell 16 is assigned, 9 is eliminated
    from its peers, which queues cells 7 and 8; cell 7 is popped and
    assigned 8, and the elimination of 8 from cell 8 fails.  The grid
    returned holds all of it: cells 7 and 8 have lost their candidates
    and the queue its first entry. *)
Example mark_failure_writes :
  SuDoKu__mark_writes SuDoKu__relations row_state 16 9
  = Some (-2,
          [WAssign 16 9; WEliminate 6 9; WEliminate 7 9; WEliminate 8 9;
           WEliminate 9 9; WEliminate 10 9; WEliminate 11 9;
           WEliminate 12 9; WEliminate 13 9; WEliminate 14 9;
           WEliminate 15 9; WEliminate 17 9; WEliminate 24 9;
           WEliminate 25 9; WEliminate 26 9; WEliminate 34 9;
           WEliminate 43 9; WEliminate 52 9; WEliminate 61 9;
           WEliminate 70 9; WEliminate 79 9; WPop; WAssign 7 8;
           WEliminate 0 8; WEliminate 1 8; WEliminate 2 8; WEliminate 3 8;
           WEliminate 4 8; WEliminate 5 8; WEliminate 6 8; WEliminate 8 8])
  /\ (get (p row_state) 7, get (c row_state) 7, get (p row_state) 8,
      q_i row_state, q_o row_state) = (384, 2, 384, 0, 0)
  /\ (let s' := after SuDoKu__relations row_state 16 9 in
      (get (p s') 7, get (c s') 7, get (p s') 8, q_i s', q_o s')
      = (0, 0, 0, 2, 1)).
Proof. vm_compute; repeat split; reflexivity. Qed.

(** ** The forced queue (C5) *)

Lemma program_state_settled (rel : list (list Z)) (s : SuDoKu) :
  relations_ok rel = true -> program_state rel s -> settled s.
Proof.
  intros Hrel H; induction H as [s|s i d s' H IH Hi Hd E|s t H IH].
  - apply reset_settled.
  - exact (mark_settled rel Hrel s i d s' IH Hi Hd E).
  - apply copy_settled, IH.
Qed.

Lemma program_after (rel : list (list Z)) (s : SuDoKu) (i d : Z) :
  program_state rel s -> in_grid i -> 1 <= d <= 9 ->
  match SuDoKu__mark rel s i d with
  | Some (r, _) => r =? 0
  | None => false
  end = true ->
  program_state rel (after rel s i d).
Proof.
  intros H Hi Hd; unfold after.
  destruct (SuDoKu__mark rel s i d) as [[r s']|] eqn:E; [|discriminate].
  intros Hr; apply Z.eqb_eq in Hr; subst r.
  exact (program_mark rel s i d s' H Hi Hd E).
Qed.

Lemma row_state_program : program_state SuDoKu__relations row_state.
Proof.
  unfold row_state; cbv zeta.
  repeat (apply program_after;
          [|unfold in_grid; lia|lia|vm_compute; reflexivity]).
  apply program_reset.
Qed.

(** C5.  On every grid on which the program calls [SuDoKu__mark], the
    call returns, and every cell it pops from the forced queue is a cell
    of the grid whose mask has exactly one bit at that moment: [ffs] of
    the mask is a digit of 1..9 and a candidate of the cell, so the
    nested call never sees digit 0. *)
Theorem popped_cells_hold_one_candidate
  (rel : list (list Z)) (s : SuDoKu) (i d : Z) :
  relations_ok rel = true -> program_state rel s ->
  in_grid i -> 1 <= d <= 9 ->
  exists r s' tr,
    mark_traced rel s i d = Some (r, s', tr)
    /\ SuDoKu__mark rel s i d = Some (r, s')
    /\ (r = 0 \/ r = -2)
    /\ Forall good_pop tr.
Proof.
  intros Hrel H Hi Hd.
  destruct (program_state_settled rel s Hrel H) as (Hcons & Hprop & Hq).
  assert (Hd0 : 0 <= d <= 9) by lia.
  destruct (mark_fuel_enough rel Hrel s i d Hcons Hi Hd0) as (r & s' & tr & E).
  exists r, s', tr; split; [exact E|].
  rewrite mark_traced_eq in E.
  split; [rewrite mark_eq, E; reflexivity|].
  destruct (proj1 (mark_drain_keeps rel Hrel mark_depth) _ _ _ _ _ _
              Hcons Hi Hd0 E) as (_ & _ & R & _).
  split; [exact R|].
  assert (Hnot : forall k, q_o s <= k < q_i s -> get (q s) k <> i)
    by (intros; lia).
  exact (proj1 (proj1 (mark_drain_propagates rel Hrel mark_depth) _ _ _ _ _ _
                  Hcons Hprop Hi Hd Hnot E)).
Qed.

Lemma popped_cells_hold_one_candidate_witness :
  exists r s' tr,
    mark_traced SuDoKu__relations row_state 7 8 = Some (r, s', tr)
    /\ SuDoKu__mark SuDoKu__relations row_state 7 8 = Some (r, s')
    /\ (r = 0 \/ r = -2)
    /\ Forall good_pop tr.
Proof.
  apply (popped_cells_hold_one_candidate SuDoKu__relations row_state 7 8);
    [exact relations_ok_table|exact row_state_program|unfold in_grid; lia|lia].
Defined.

(** Marking cell 7 with 8 on [row_state] pops cell 8, whose mask is bit 8
    alone. *)
Example row_state_pops :
  option_map snd (mark_traced SuDoKu__relations row_state 7 8)
  = Some [(8, 256)].
Proof. vm_compute; reflexivity. Qed.

(** The program never marks a grid on which a mark has failed.  On such
    a grid the queue can hold a cell without candidates: after the failed
    mark of cell 16 on [row_state], marking cell 40 pops cell 8 with an
    empty mask, and the nested call with digit 0 returns at once because
    [v[8]] is 0. *)
Example pop_after_failure :
  option_map snd
    (mark_traced SuDoKu__relations
       (after SuDoKu__relations row_state 16 9) 40 1)
  = Some [(8, 0)].
Proof. vm_compute; reflexivity. Qed.

(** ** The search (C6, C7, C1) *)

(** C6.  [SuDoKu_resolve] returns on every clue array; it raises the
    Contradiction exactly when marking the clues fails, and otherwise
    returns a list.  Inside the search a mark that fails with -2 is
    swallowed: the loop goes on with the next digits, the results
    unchanged, and a '-' leaf appended when tracking. *)
Theorem resolve_raises_only_on_clues (rel : list (list Z)) (s t0 : SuDoKu) :
  relations_ok rel = true -> clues_ok (o s) = true ->
  (exists r s1,
      mark_clues rel (SuDoKu__reset s) (range 81) = Some (r, s1)
      /\ (r = -2 /\ SuDoKu_resolve rel s t0 = Some (Raised Contradiction, s1)
          \/ r = 0 /\ exists res s2,
                        SuDoKu_resolve rel s t0 = Some (Returned res, s2)))
  /\ (forall rec u w i d ds res sg t1,
        bit_of (get (p u) i) d = true ->
        SuDoKu__mark rel (SuDoKu__copy u w) i d = Some (-2, t1) ->
        resolve_branches rel rec u w i (d :: ds) res sg
        = resolve_branches rel rec u w i ds res
            (if e u then sg ++ [GLeaf (n t1) "-"%char] else sg)).
Proof.
  intros Hrel Hclues; split.
  - destruct (resolve_spec rel Hrel s t0 Hclues) as (r & s1 & E & H).
    exists r, s1; split; [exact E|].
    destruct H as [(A & B & _)|(A & res & s2 & B & _)]; [left|right]; eauto.
  - intros rec u w i d ds res sg t1 Hb E.
    cbn [resolve_branches]; rewrite Hb, E.
    change (-2 =? -2) with true; cbv iota.
    destruct (e u) eqn:He; [|reflexivity].
    rewrite mark_eq in E.
    destruct (mark_fuel rel mark_depth (SuDoKu__copy u w) i d)
      as [[[r t] tr]|] eqn:E1; [|discriminate].
    injection E as -> ->.
    destruct (proj1 (mark_drain_leaf rel mark_depth) _ _ _ _ _ _ E1) as (_ & L).
    rewrite L; [reflexivity|discriminate|exact He].
Qed.

Lemma resolve_raises_only_on_clues_witness :
  (exists r s1,
      mark_clues SuDoKu__relations (SuDoKu__reset demo_grid) (range 81)
      = Some (r, s1)
      /\ (r = -2
          /\ SuDoKu_resolve SuDoKu__relations demo_grid (fresh [])
             = Some (Raised Contradiction, s1)
          \/ r = 0
             /\ exists res s2,
                 SuDoKu_resolve SuDoKu__relations demo_grid (fresh [])
                 = Some (Returned res, s2)))
  /\ resolve_branches SuDoKu__relations (fun _ => None) row_state (fresh [])
       16 [9] [] []
     = Some (0, [], [GLeaf 9 "-"%char]).
Proof.
  destruct (resolve_raises_only_on_clues SuDoKu__relations demo_grid (fresh [])
              relations_ok_table demo_clues_ok) as (A & B).
  split; [exact A|].
  rewrite (B (fun _ => None) row_state (fresh []) 16 9 [] [] []
             (after SuDoKu__relations (SuDoKu__copy row_state (fresh [])) 16 9));
    vm_compute; reflexivity.
Defined.

(** C7.  Every grid that [SuDoKu_resolve] returns has 9 rows of 9 cells,
    holds a digit of 1..9 in each of the 81 cells, gives peers different
    digits, and keeps every clue. *)
Theorem resolve_solutions_valid
  (rel : list (list Z)) (s t0 : SuDoKu) (res : solutions) (s' : SuDoKu) :
  relations_ok rel = true -> clues_ok (o s) = true ->
  SuDoKu_resolve rel s t0 = Some (Returned res, s') ->
  forall sol, In sol res -> solves (o s) sol.
Proof.
  intros Hrel Hclues E.
  destruct (resolve_spec rel Hrel s t0 Hclues) as (r & s1 & _ & H).
  destruct H as [(_ & B & _)|(_ & res' & s2 & B & _ & Hsol & _)].
  - rewrite E in B; discriminate.
  - rewrite E in B; injection B as -> ->; exact Hsol.
Qed.

Lemma resolve_solutions_valid_witness :
  SuDoKu_resolve SuDoKu__relations demo_grid (fresh [])
  = Some (Returned demo_solutions, demo_final)
  /\ length demo_solutions = 1%nat
  /\ forall sol, In sol demo_solutions -> solves (o demo_grid) sol.
Proof.
  split; [exact demo_resolve|]; split; [reflexivity|].
  exact (resolve_solutions_valid SuDoKu__relations demo_grid (fresh [])
           demo_solutions demo_final relations_ok_table demo_clues_ok
           demo_resolve).
Defined.

(** C1.  On the same clues, [SuDoKu__unique_sol] on a grid with tracking
    off, as [SuDoKu_generate] calls it, and [SuDoKu_resolve] on a grid that
    tracks or not both return, and the first returns 1 if and only if the
    second returns a list of exactly one solution.  (With tracking on,
    [SuDoKu__unique_sol] reads its uninitialised workspace.) *)
Theorem unique_iff_single (rel : list (list Z)) (su tu sr tr : SuDoKu) :
  relations_ok rel = true -> clues_ok (o sr) = true -> o su = o sr ->
  e su = false ->
  (exists k, SuDoKu__unique_sol rel su tu = Some k)
  /\ (exists out s', SuDoKu_resolve rel sr tr = Some (out, s'))
  /\ (SuDoKu__unique_sol rel su tu = Some 1
      <-> exists sol s', SuDoKu_resolve rel sr tr = Some (Returned [sol], s')).
Proof.
  intros Hrel Hclues Ho He.
  destruct (resolve_spec rel Hrel sr tr Hclues) as (r & s1 & _ & H).
  destruct H as [(_ & B & _ & _ & _ & U)|(_ & res & s2 & B & _ & _ & _ & U)];
    rewrite B, (U su tu Ho He).
  - split; [eauto|]; split; [eauto|]; split; [discriminate|].
    intros (sol & s' & E); discriminate.
  - split; [eauto|]; split; [eauto|]; split.
    + intros E; injection E as E.
      destruct res as [|sol [|sol' res]]; [discriminate|eauto|].
      rewrite capped_big in E by (cbn [length]; lia); discriminate.
    + intros (sol & s' & E); injection E as -> _; reflexivity.
Qed.

Lemma unique_iff_single_witness :
  SuDoKu__unique_sol SuDoKu__relations (strip demo_grid) (fresh []) = Some 1
  <-> exists sol s',
        SuDoKu_resolve SuDoKu__relations demo_grid (fresh [])
        = Some (Returned [sol], s').
Proof.
  apply (unique_iff_single SuDoKu__relations (strip demo_grid) (fresh [])
           demo_grid (fresh []));
    [exact relations_ok_table|exact demo_clues_ok|reflexivity|reflexivity].
Defined.

(** On the demonstration puzzle both sides of the equivalence hold; on
    [two_way_grid] neither does: two solutions, and the count is capped. *)
Example demo_unique :
  SuDoKu__unique_sol SuDoKu__relations (strip demo_grid) (fresh []) = Some 1.
Proof. vm_compute; reflexivity. Qed.

Example two_way_grid_ambiguous :
  SuDoKu__unique_sol SuDoKu__relations (strip (fresh two_way_grid)) (fresh [])
  = Some (-2)
  /\ exists sol1 sol2 s',
       SuDoKu_resolve SuDoKu__relations (fresh two_way_grid) (fresh [])
       = Some (Returned [sol1; sol2], s').
Proof.
  split; [vm_compute; reflexivity|].
  eexists _, _, _; vm_compute; reflexivity.
Qed.

(** With tracking on, the search on [two_way_grid] reaches the
    [SuDoKu__copy] into the uninitialised workspace, and there is no
    result; a complete grid needs no copy, and the count is returned. *)
Example two_way_grid_tracked :
  e (fresh two_way_grid) = true
  /\ SuDoKu__unique_sol SuDoKu__relations (fresh two_way_grid) (fresh [])
     = None
  /\ SuDoKu__unique_sol SuDoKu__relations (fresh full_grid) (fresh [])
     = Some 1.
Proof. vm_compute; repeat split; reflexivity. Qed.

(** ** The difficulty estimate (C2) *)

Lemma graph_induction (P : graph -> Prop) :
  P GNull -> P GNone -> (forall d ch, P (GLeaf d ch)) ->
  (forall d l, Forall P l -> P (GNode d l)) ->
  forall x, P x.
Proof.
  intros HNull HNone HLeaf HNode; fix IH 1.
  intros [| |d ch|d l]; [exact HNull|exact HNone|apply HLeaf|].
  apply HNode; induction l as [|y l IHl]; constructor; [apply IH|exact IHl].
Qed.

(** On a tree of the search both walks succeed, and the forks are the
    children of all its nodes. *)
Lemma tree_walks (x : graph) :
  forall lo, tree_from lo x ->
    SuDoKu__graph_forks x = child_count x /\ 0 <= child_count x
    /\ 0 <= SuDoKu__graph_len_aux x lo.
Proof.
  induction x as [| |d ch|d l IH] using graph_induction; intros lo H;
    simpl in H; try contradiction.
  - simpl; lia.
  - destruct H as (Hlo & Hl).
    assert (Forks : forall f0, 0 <= f0 ->
              (fix loop (l : list graph) (f : Z) : Z :=
                 match l with
                 | [] => f
                 | y :: l' =>
                     let sf := SuDoKu__graph_forks y in
                     if sf <? 0 then sf else loop l' (f + (sf + 1))
                 end) l f0
              = f0 + fold_right (fun y acc => 1 + child_count y + acc) 0 l
              /\ 0 <= fold_right (fun y acc => 1 + child_count y + acc) 0 l).
    { induction l as [|y l IHl]; intros f0 Hf0; [simpl; split; lia|].
      inversion IH as [|? ? Hy Hl']; subst.
      destruct Hl as (Ty & Tl).
      destruct (Hy d Ty) as (F & C & _).
      cbn [fold_right]; cbv zeta; rewrite F.
      destruct (Z.ltb_spec (child_count y) 0); [lia|].
      destruct (IHl Hl' Tl (f0 + (child_count y + 1)) ltac:(lia)) as (A & B).
      split; [etransitivity; [exact A|lia]|lia]. }
    assert (Len : forall a0, 0 <= a0 ->
              0 <= (fix loop (l : list graph) (acc : Z) : Z :=
                      match l with
                      | [] => acc
                      | y :: l' =>
                          let sl := SuDoKu__graph_len_aux y d in
                          if sl <? 0 then sl else loop l' (acc + sl)
                      end) l a0).
    { clear Forks.
      induction l as [|y l IHl]; intros a0 Ha0; [exact Ha0|].
      inversion IH as [|? ? Hy Hl']; subst.
      destruct Hl as (Ty & Tl).
      destruct (Hy d Ty) as (_ & _ & L).
      cbv zeta; destruct (Z.ltb_spec (SuDoKu__graph_len_aux y d) 0); [lia|].
      apply (IHl Hl' Tl); lia. }
    destruct (Forks 0 ltac:(lia)) as (A & B).
    split; [|split].
    + cbn [SuDoKu__graph_forks child_count]; etransitivity; [exact A|lia].
    + cbn [child_count]; exact B.
    + cbn [SuDoKu__graph_len_aux]; apply Len; lia.
Qed.

(** C2 (amended).  After a tracked [SuDoKu_resolve], whether it returned
    solutions or raised the Contradiction of the clues, [SuDoKu_estimate]
    reports as forks the number of children summed over all nodes of the
    decision tree, which is the number of its nodes below the root,
    leaves included. *)
Theorem estimate_forks_count_children
  (rel : list (list Z)) (s t0 : SuDoKu) (out : py_result) (s' : SuDoKu) :
  relations_ok rel = true -> clues_ok (o s) = true -> e s = true ->
  SuDoKu_resolve rel s t0 = Some (out, s') ->
  exists l, SuDoKu_estimate s' = EstValue l (child_count (g s')).
Proof.
  intros Hrel Hclues He E.
  destruct (resolve_spec rel Hrel s t0 Hclues) as (r & s1 & _ & H).
  destruct H as [(_ & B & G & Ee & Hn & _)|(_ & res' & s2 & B & Ee & _ & Htree & _)].
  { rewrite E in B; injection B as _ <-.
    unfold SuDoKu_estimate, SuDoKu__graph_len.
    rewrite Ee, He, (G He); cbn.
    replace (n s' - 0) with (n s') by lia.
    destruct (Z.ltb_spec (n s') 0); [lia|eexists; reflexivity]. }
  rewrite E in B; injection B as _ <-.
  specialize (Htree He).
  destruct (tree_walks (g s') 0 Htree) as (F & C & L).
  unfold SuDoKu_estimate, SuDoKu__graph_len.
  rewrite Ee, He, (tree_from_not_null _ _ Htree), F; cbn [negb orb].
  destruct (Z.ltb_spec (SuDoKu__graph_len_aux (g s') 0) 0); [lia|].
  destruct (Z.ltb_spec (child_count (g s')) 0); [lia|].
  eexists; reflexivity.
Qed.

Lemma estimate_forks_count_children_witness :
  e demo_grid = true
  /\ exists l, SuDoKu_estimate demo_final = EstValue l (child_count (g demo_final)).
Proof.
  split; [reflexivity|].
  exact (estimate_forks_count_children SuDoKu__relations demo_grid (fresh [])
           (Returned demo_solutions) demo_final relations_ok_table
           demo_clues_ok eq_refl demo_resolve).
Defined.

(** The tree of the demonstration puzzle has one branching node, with a
    failed and a successful child: the forks are 2, the branching nodes
    with children are 1. *)
Lemma forks_are_not_branching_nodes :
  SuDoKu_resolve SuDoKu__relations demo_grid (fresh [])
  = Some (Returned demo_solutions, demo_final)
  /\ g demo_final = GNode 40 [GLeaf 47 "-"%char; GLeaf 81 "+"%char]
  /\ SuDoKu_estimate demo_final = EstValue 88 2
  /\ branching_nodes (g demo_final) = 1
  /\ ~ (exists l,
          SuDoKu_estimate demo_final
          = EstValue l (branching_nodes (g demo_final))).
Proof.
  split; [exact demo_resolve|].
  split; [vm_compute; reflexivity|].
  split; [vm_compute; reflexivity|].
  split; [vm_compute; reflexivity|].
  intros (l & H); vm_compute in H; discriminate.
Qed.


(** ** Parsing (C9, C10) *)

Lemma significant_cons (ch : ascii) (str : string) :
  significant (String ch str)
  = if is_newline ch then significant str else ch :: significant str.
Proof. unfold significant; simpl; destruct (is_newline ch); reflexivity. Qed.

(** How the scan ends, read off the significant characters that fit in
    the cells left. *)
Lemma scan_kind (str : string) :
  forall i a, 0 <= i <= 81 ->
    match from_string_scan str i a with
    | ScanInvalid ch _ =>
        first_invalid (firstn (Z.to_nat (81 - i)) (significant str)) = Some ch
    | ScanEnd i' _ =>
        first_invalid (firstn (Z.to_nat (81 - i)) (significant str)) = None
        /\ (length (significant str) <= Z.to_nat (81 - i))%nat
        /\ i' = i + Z.of_nat (length (significant str))
    | ScanBreak i' _ =>
        first_invalid (firstn (Z.to_nat (81 - i)) (significant str)) = None
        /\ (Z.to_nat (81 - i) < length (significant str))%nat
        /\ i' = 81
    end.
Proof.
  induction str as [|ch str IH]; intros i a Hi.
  { simpl; rewrite firstn_nil; repeat split; [lia|lia]. }
  cbn [from_string_scan]; rewrite significant_cons.
  destruct (is_newline ch); [apply IH, Hi|].
  destruct (Z.leb_spec 81 i) as [Hfull|Hroom].
  { replace (Z.to_nat (81 - i)) with 0%nat by lia.
    cbn [firstn length]; repeat split; lia. }
  replace (Z.to_nat (81 - i)) with (S (Z.to_nat (81 - (i + 1)))) by lia.
  cbn [firstn length]; unfold first_invalid; cbn [find]; unfold valid_char.
  destruct (is_clue ch) eqn:Hc; cbn [orb negb].
  { specialize (IH (i + 1) (put a i (code ch - 48)) ltac:(lia)).
    destruct (from_string_scan str (i + 1) (put a i (code ch - 48)));
      [destruct IH as (A & B & C)|destruct IH as (A & B & C)|exact IH];
      (split; [exact A|split; lia]). }
  destruct (is_blank ch) eqn:Hb; cbn [negb]; [|reflexivity].
  specialize (IH (i + 1) a ltac:(lia)).
  destruct (from_string_scan str (i + 1) a);
    [destruct IH as (A & B & C)|destruct IH as (A & B & C)|exact IH];
    (split; [exact A|split; lia]).
Qed.

Lemma first_invalid_none (l : list ascii) :
  first_invalid l = None <-> forallb valid_char l = true.
Proof.
  unfold first_invalid; induction l as [|ch l IH]; simpl; [tauto|].
  destruct (valid_char ch); simpl; [exact IH|split; discriminate].
Qed.

(** C9 (amended).  [SuDoKu__from_string] succeeds exactly when the
    string, newlines and carriage returns ignored, is 81 characters among
    the digits 1-9 and the blanks.  It fails with the invalid-character
    error when one of the first 81 significant characters is none of
    these, whatever the length; otherwise with "not enough data" when
    there are fewer than 81 significant characters, and with "too much
    data" when there are more. *)
Theorem from_string_outcome (s : SuDoKu) (str : string) :
  let sig := significant str in
  let r := fst (SuDoKu__from_string s str) in
  (r = None <-> length sig = 81%nat /\ forallb valid_char sig = true)
  /\ (forall ch, first_invalid (firstn 81 sig) = Some ch ->
        r = Some (InvalidCharacter ch))
  /\ (first_invalid (firstn 81 sig) = None -> (length sig < 81)%nat ->
        r = Some NotEnoughData)
  /\ (first_invalid (firstn 81 sig) = None -> (81 < length sig)%nat ->
        r = Some TooMuchData).
Proof.
  cbv zeta; unfold SuDoKu__from_string.
  pose proof (scan_kind str 0 (o s) ltac:(lia)) as K.
  change (Z.to_nat (81 - 0)) with 81%nat in K.
  destruct (from_string_scan str 0 (o s)) as [i' a|i' a|ch a].
  - destruct K as (A & B & C).
    destruct (Z.ltb_spec i' 81) as [Hlt|Hge]; cbn [fst].
    + split; [split; [discriminate|intros (L & _); lia]|].
      split; [intros ch H; congruence|]; split; [reflexivity|intros; lia].
    + assert (L : length (significant str) = 81%nat) by lia.
      split.
      { split; [intros _; split; [exact L|]|reflexivity].
        apply first_invalid_none; rewrite <- A, <- L, firstn_all; reflexivity. }
      split; [intros ch H; congruence|]; split; intros; lia.
  - destruct K as (A & B & C); subst i'; cbn [fst].
    change (81 <? 81) with false; cbv iota; cbn [fst].
    split; [split; [discriminate|intros (L & _); lia]|].
    split; [intros ch H; congruence|]; split; [intros; lia|reflexivity].
  - cbn [fst]; split.
    { split; [discriminate|intros (L & F)].
      apply first_invalid_none in F.
      rewrite <- L, firstn_all in K; congruence. }
    split; [intros ch' H; congruence|]; split; intros; congruence.
Qed.

(** The second clause does not hold without "otherwise": a single [x] is
    fewer than 81 significant characters, and the error is the invalid
    character, not "not enough data". *)
Lemma short_input_with_invalid_character :
  (length (significant "x") < 81)%nat
  /\ fst (SuDoKu__from_string (fresh (repeat 0 81)) "x")
     = Some (InvalidCharacter "x"%char)
  /\ fst (SuDoKu__from_string (fresh (repeat 0 81)) "x") <> Some NotEnoughData.
Proof.
  split; [simpl; lia|]; split; [reflexivity|discriminate].
Qed.

(** The array after a scan that reached the end of the string. *)
Lemma scan_array (str : string) :
  forall i a i' a',
    0 <= i -> length a = 81%nat ->
    from_string_scan str i a = ScanEnd i' a' ->
    i <= i'
    /\ forall k,
        get a' k =
        if (i <=? k) && (k <? i')
           && is_clue (nth (Z.to_nat (k - i)) (significant str) "0"%char)
        then code (nth (Z.to_nat (k - i)) (significant str) "0"%char) - 48
        else get a k.
Proof.
  induction str as [|ch str IH]; intros i a i' a' Hi La E.
  { simpl in E; injection E as <- <-; split; [lia|]; intros k.
    destruct (Z.leb_spec i k); destruct (Z.ltb_spec k i); try lia; reflexivity. }
  cbn [from_string_scan] in E; rewrite significant_cons.
  destruct (is_newline ch); [exact (IH i a i' a' Hi La E)|].
  destruct (Z.leb_spec 81 i) as [Hfull|Hroom]; [discriminate|].
  assert (Step : forall x k,
            nth (Z.to_nat (k - i)) (ch :: significant str) x
            = if k <=? i then ch
              else nth (Z.to_nat (k - (i + 1))) (significant str) x).
  { intros x k; destruct (Z.leb_spec k i).
    - replace (Z.to_nat (k - i)) with 0%nat by lia; reflexivity.
    - replace (Z.to_nat (k - i)) with (S (Z.to_nat (k - (i + 1)))) by lia.
      reflexivity. }
  destruct (is_clue ch) eqn:Hc.
  { destruct (IH (i + 1) (put a i (code ch - 48)) i' a' ltac:(lia)
                ltac:(rewrite length_put; exact La) E) as (Hle & Hk).
    split; [lia|]; intros k; rewrite Hk, Step.
    destruct (Z.leb_spec k i) as [Hki|Hki].
    - destruct (Z.leb_spec (i + 1) k); [lia|]; cbn [andb].
      destruct (Z.leb_spec i k); cbn [andb].
      + assert (k = i) by lia; subst k.
        destruct (Z.ltb_spec i i'); [|lia]; cbn [andb].
        rewrite Hc; apply get_put_eq; lia.
      + apply get_put_neq; lia.
    - destruct (Z.leb_spec (i + 1) k); [|lia].
      destruct (Z.leb_spec i k); [|lia].
      rewrite get_put_neq by lia; reflexivity. }
  destruct (is_blank ch); [|discriminate].
  destruct (IH (i + 1) a i' a' ltac:(lia) La E) as (Hle & Hk).
  split; [lia|]; intros k; rewrite Hk, Step.
  destruct (Z.leb_spec k i) as [Hki|Hki].
  - destruct (Z.leb_spec (i + 1) k); [lia|]; cbn [andb].
    rewrite Hc, andb_false_r; reflexivity.
  - destruct (Z.leb_spec (i + 1) k); [|lia].
    destruct (Z.leb_spec i k); [|lia]; reflexivity.
Qed.

(** C10.  A successful [SuDoKu__from_string] writes [original] at the
    cells whose character is a digit and nowhere else: a cell whose
    character is a blank keeps the value it had before the call, and no
    other field of the grid changes. *)
Theorem from_string_keeps_blanks (s s' : SuDoKu) (str : string) :
  length (o s) = 81%nat ->
  SuDoKu__from_string s str = (None, s') ->
  (forall k, in_grid k ->
     let ch := nth (Z.to_nat k) (significant str) "0"%char in
     (is_clue ch = true -> get (o s') k = code ch - 48)
     /\ (is_clue ch = false ->
         is_blank ch = true /\ get (o s') k = get (o s) k))
  /\ s' = set_o s (o s').
Proof.
  intros Lo E; unfold SuDoKu__from_string in E.
  pose proof (scan_kind str 0 (o s) ltac:(lia)) as K.
  change (Z.to_nat (81 - 0)) with 81%nat in K.
  destruct (from_string_scan str 0 (o s)) as [i' a|i' a|ch a] eqn:S;
    [|destruct (i' <? 81); discriminate|discriminate].
  destruct (Z.ltb_spec i' 81) as [Hlt|Hge]; [discriminate|].
  injection E as <-; split; [|reflexivity].
  destruct K as (A & B & C).
  assert (L : length (significant str) = 81%nat) by lia.
  destruct (scan_array str 0 (o s) i' a ltac:(lia) Lo S) as (_ & Hk).
  intros k Hkg; cbv zeta; cbn [o set_o].
  rewrite Hk, Z.sub_0_r.
  destruct (Z.leb_spec 0 k); [|unfold in_grid in Hkg; lia].
  destruct (Z.ltb_spec k i'); [|unfold in_grid in Hkg; lia].
  cbn [andb].
  destruct (is_clue (nth (Z.to_nat k) (significant str) "0"%char)) eqn:Hc.
  - split; [reflexivity|discriminate].
  - split; [discriminate|intros _; split; [|reflexivity]].
    rewrite <- L, firstn_all in A; apply first_invalid_none in A.
    rewrite forallb_forall in A.
    assert (Hin : In (nth (Z.to_nat k) (significant str) "0"%char)
                     (significant str)).
    { apply nth_In; unfold in_grid in Hkg; lia. }
    specialize (A _ Hin); unfold valid_char in A; rewrite Hc in A; exact A.
Qed.

Lemma from_string_keeps_blanks_witness :
  SuDoKu__from_string (fresh full_grid) blank_puzzle
  = (None, snd (SuDoKu__from_string (fresh full_grid) blank_puzzle))
  /\ get (o (snd (SuDoKu__from_string (fresh full_grid) blank_puzzle))) 40
     = get full_grid 40.
Proof.
  assert (E : SuDoKu__from_string (fresh full_grid) blank_puzzle
              = (None, snd (SuDoKu__from_string (fresh full_grid) blank_puzzle)))
    by (vm_compute; reflexivity).
  split; [exact E|].
  assert (H40 : in_grid 40) by (unfold in_grid; lia).
  apply (proj1 (from_string_keeps_blanks (fresh full_grid) _ blank_puzzle
                  eq_refl E) 40 H40).
  vm_compute; reflexivity.
Defined.

(** The malformed inputs of the spec: 80 characters, 82 characters, and a
    character that is neither a digit nor a blank. *)
Example from_string_scenarios :
  fst (SuDoKu__from_string (fresh (repeat 0 81))
         (substring 0 80 blank_puzzle)) = Some NotEnoughData
  /\ fst (SuDoKu__from_string (fresh (repeat 0 81))
            (blank_puzzle ++ "5")%string) = Some TooMuchData
  /\ fst (SuDoKu__from_string (fresh (repeat 0 81))
            ("x" ++ substring 0 80 blank_puzzle)%string)
     = Some (InvalidCharacter "x"%char)
  /\ fst (SuDoKu__from_string (fresh (repeat 0 81))
            (blank_puzzle ++ String "010"%char EmptyString)%string) = None.
Proof. repeat split; vm_compute; reflexivity. Qed.


(** * Further properties *)

(** ** Propagation never loses a solution *)

Lemma single_bit_check_all : forallb single_bit_check (range 512) = true.
Proof. vm_compute; reflexivity. Qed.

Lemma single_bit_ffs (m d : Z) :
  is_mask m -> 0 <= d <= 19 -> popcount m = 1 -> bit_of m d = true ->
  ffs m = d.
Proof.
  intros Hm Hd Hp Hb.
  pose proof (forallb_range _ _ single_bit_check_all m Hm) as H.
  unfold single_bit_check in H.
  pose proof (forallb_range _ _ H d ltac:(simpl; lia)) as H1.
  simpl in H1; rewrite Hb in H1.
  apply Z.eqb_eq in Hp; rewrite Hp in H1; simpl in H1.
  apply Z.eqb_eq in H1; exact H1.
Qed.

Lemma bit_of_full (d : Z) : 1 <= d <= 9 -> bit_of 511 d = true.
Proof.
  intros H.
  assert (C : d = 1 \/ d = 2 \/ d = 3 \/ d = 4 \/ d = 5 \/ d = 6 \/ d = 7
              \/ d = 8 \/ d = 9) by lia.
  repeat (destruct C as [->|C]; [reflexivity|]); subst; reflexivity.
Qed.

Lemma reset_fits (a : list Z) (s : SuDoKu) :
  valid_grid a -> fits a (SuDoKu__reset s).
Proof.
  intros (_ & Ha) i Hi; cbn [SuDoKu__reset v p].
  rewrite !get_repeat by exact Hi; split; [intros []; reflexivity|].
  intros _; apply bit_of_full, Ha, Hi.
Qed.

Lemma eliminate_fits (a : list Z) (s : SuDoKu) (j d : Z) :
  consistent s -> fits a s -> in_grid j -> 1 <= d <= 9 ->
  1 <= get a j <= 9 -> get a j <> d ->
  fst (SuDoKu__eliminate s j d) = 0
  /\ fits a (snd (SuDoKu__eliminate s j d)).
Proof.
  intros Hcons Hfit Hj Hd Ha Hne.
  destruct (eliminate_cases s j d Hcons Hj ltac:(lia))
    as (r & s' & E & Ho & Hv & Hn & Hqo & He & Hcase).
  rewrite E; cbn [fst snd].
  destruct Hcase as [(Hb & -> & ->)|(Hb & _ & Hp & Hc & Hcase)]; [auto|].
  destruct Hcons as ((Lv & Lp & Lc & Lq) & Hcnt & _).
  destruct (Hcnt j Hj) as (Hm & Hcj & _ & Hvp).
  assert (Hv0 : get (v s) j = 0).
  { destruct (Z.eq_dec (get (v s) j) 0) as [|Hnz]; auto.
    rewrite (Hvp Hnz), bit_of_zero in Hb; discriminate. }
  assert (Hkeep : bit_of (flip_bit (get (p s) j) d) (get a j) = true).
  { rewrite bit_of_flip_other by lia; apply Hfit; assumption. }
  assert (Hd19 : 0 <= d <= 19) by lia.
  destruct (mask_flip _ _ Hm Hd19 Hb) as (Hm' & Hp' & _).
  assert (Hnz : popcount (flip_bit (get (p s) j) d) <> 0).
  { intros Z0; apply (proj1 (proj1 (proj2 (mask_facts _ Hm')))) in Z0.
    rewrite Z0, bit_of_zero in Hkeep; discriminate. }
  split.
  - destruct Hcase as [(C1 & _)|[(_ & -> & _)|(_ & -> & _)]]; auto; lia.
  - intros i Hi; rewrite Hv, Hp.
    rewrite get_put by (unfold in_grid in Hj; lia).
    destruct (Z.eqb_spec i j) as [->|Hij]; [|apply Hfit, Hi].
    split; [intros X; contradiction|intros _; exact Hkeep].
Qed.

Lemma eliminate_peers_fits (a : list Z) (d : Z) (js : list Z) :
  1 <= d <= 9 ->
  Forall (fun j => in_grid j /\ 1 <= get a j <= 9 /\ get a j <> d) js ->
  forall s, consistent s -> fits a s ->
    fst (eliminate_peers s js d) = 0
    /\ fits a (snd (eliminate_peers s js d)).
Proof.
  intros Hd Hjs; induction Hjs as [|j js (Hj & Ha & Hne) Hjs IH];
    intros s Hcons Hfit; [split; [reflexivity|exact Hfit]|].
  cbn [eliminate_peers].
  destruct (eliminate_fits a s j d Hcons Hfit Hj Hd Ha Hne) as (R & F).
  destruct (SuDoKu__eliminate s j d) as [r s1] eqn:E; cbn [fst snd] in R, F.
  subst r; change (0 <? 0) with false; cbv iota.
  destruct (eliminate_keeps s j d 0 s1 Hcons Hj ltac:(lia) E) as (C1 & _).
  exact (IH s1 C1 F).
Qed.

Section Completeness.

Variable rel : list (list Z).
Hypothesis Hrel : relations_ok rel = true.

(** The state after the assignment and the eliminations of a mark. *)
Lemma eliminated_propagated (s : SuDoKu) (i d : Z) (s1 : SuDoKu) :
  consistent s -> propagated s -> in_grid i -> 1 <= d <= 9 ->
  bit_of (get (p s) i) d = true ->
  (forall k, q_o s <= k < q_i s -> get (q s) k <> i) ->
  eliminate_peers (assign s i d) (nth (Z.to_nat i) rel []) d = (0, s1) ->
  consistent s1 /\ propagated s1 /\ extends s s1 /\ get (v s1) i = d.
Proof.
  intros Hcons Hprop Hi Hd Hb Hnot E1.
  destruct (assign_keeps s i d Hcons Hi ltac:(lia) Hb)
    as (C1 & X1 & V0 & Hd' & Vi).
  destruct (assign_propagated s i d Hcons Hprop Hi ltac:(lia) Hb Hnot)
    as (P1 & D1 & B1).
  destruct (relations_row rel i Hrel Hi) as (Hrow & Hpeers).
  assert (Hjs : Forall in_grid (nth (Z.to_nat i) rel [])).
  { apply Forall_forall; intros j Hj; apply Hpeers in Hj; tauto. }
  destruct (eliminate_peers_keeps _ d ltac:(lia) Hjs _ _ _ C1 E1)
    as (C2 & X2 & R2 & V2 & Q2 & K2 & P2).
  split; [exact C2|]; split; [|split].
  - split; [apply P2; auto|]; split.
    + intros x y Hx Hy Hp Hnz; rewrite V2 in *.
      destruct (Z.eq_dec x i) as [->|Hxi].
      * rewrite Vi; apply K2; auto; apply Hpeers; auto.
      * destruct (bit_of (get (p s1) y) (get (v (assign s i d)) x)) eqn:F; auto.
        destruct X2 as (_ & _ & _ & _ & _ & Mono).
        apply Mono in F; [|exact Hy].
        rewrite (B1 x y Hx Hy Hp Hnz Hxi) in F; discriminate.
    + intros x y; rewrite V2; apply D1.
  - exact (extends_trans _ _ _ X1 X2).
  - rewrite V2; exact Vi.
Qed.

Lemma mark_drain_fits (a : list Z) (f : nat) :
  valid_grid a ->
  (forall s i r s' tr,
      consistent s -> propagated s -> fits a s -> in_grid i ->
      (forall k, q_o s <= k < q_i s -> get (q s) k <> i) ->
      mark_fuel rel f s i (get a i) = Some (r, s', tr) ->
      r = 0 /\ fits a s')
  /\ (forall s r s' tr,
      consistent s -> propagated s -> fits a s ->
      drain_fuel rel f s = Some (r, s', tr) ->
      r = 0 /\ fits a s').
Proof.
  intros Hvalid; pose proof Hvalid as (La & Ha).
  induction f as [|f [IHm IHd]]; [split; intros; discriminate|].
  split.
  - intros s i r s' tr Hcons Hprop Hfit Hi Hnot E.
    destruct (Ha i Hi) as (Hdi & Hpeer).
    rewrite mark_fuel_S in E.
    destruct (Z.eqb_spec (get (v s) i) (get a i)) as [Hv|Hv].
    { injection E as <- <- _; auto. }
    assert (Hb : bit_of (get (p s) i) (get a i) = true).
    { destruct (Hfit i Hi) as (F1 & F2).
      destruct (Z.eq_dec (get (v s) i) 0) as [Z0|Nz]; [auto|].
      exfalso; apply Hv; symmetry; auto. }
    rewrite Hb in E; cbn [negb] in E.
    destruct (relations_row rel i Hrel Hi) as (Hrow & Hpeers).
    rewrite Hrow in E.
    destruct (assign_keeps s i (get a i) Hcons Hi ltac:(lia) Hb)
      as (C1 & X1 & V0 & _ & Vi).
    assert (F1 : fits a (assign s i (get a i))).
    { intros j Hj; cbn [assign v p set_v set_n set_p set_c].
      destruct Hcons as ((Lv & Lp & _) & _).
      rewrite !get_put by (unfold in_grid in Hi; lia).
      destruct (Z.eqb_spec j i) as [->|Hji]; [|apply Hfit, Hj].
      split; [reflexivity|intros Z0; lia]. }
    assert (Hjs : Forall (fun j => in_grid j /\ 1 <= get a j <= 9
                                   /\ get a j <> get a i)
                    (nth (Z.to_nat i) rel [])).
    { apply Forall_forall; intros j Hj; apply Hpeers in Hj.
      destruct Hj as (Hj & Hp); split; [exact Hj|].
      split; [apply Ha, Hj|].
      intros Eq; apply (Hpeer j Hj Hp); congruence. }
    destruct (eliminate_peers_fits a (get a i) _ Hdi Hjs _ C1 F1) as (R1 & F2).
    destruct (eliminate_peers (assign s i (get a i)) _ (get a i))
      as [r1 s1] eqn:E1; cbn [fst snd] in R1, F2; subst r1.
    change (0 <? 0) with false in E; cbv iota in E.
    destruct (eliminated_propagated s i (get a i) s1 Hcons Hprop Hi Hdi Hb
                Hnot E1) as (C2 & P2 & _).
    exact (IHd s1 r s' tr C2 P2 F2 E).
  - intros s r s' tr Hcons Hprop Hfit E.
    rewrite drain_fuel_S in E.
    destruct (Z.ltb_spec (q_o s) (q_i s)) as [Hlt|Hge].
    2:{ injection E as <- <- _; auto. }
    destruct (set_q_o_keeps s Hcons Hlt) as (C1 & X1 & Hx).
    cbv zeta in E.
    set (x := get (q s) (q_o s)) in *.
    set (s1 := set_q_o s (q_o s + 1)) in *.
    destruct Hprop as (Hpend & Hclr & Hdif).
    pose proof Hcons as (Hs & Hcnt & (Q1 & Q2 & Q3 & Q4) & Hfill).
    destruct (Hpend (q_o s) ltac:(lia)) as (Vx & Cx); fold x in Vx, Cx.
    destruct (Hcnt x Hx) as (Hm & Hpc & _).
    destruct (Ha x Hx) as (Hdx & _).
    assert (Hffs : ffs (get (p s) x) = get a x).
    { apply single_bit_ffs; [exact Hm|lia|lia|apply Hfit; assumption]. }
    change (get (p s1) x) with (get (p s) x) in E.
    rewrite Hffs, Z.mod_small in E by lia.
    assert (Prop1 : propagated s1).
    { split; [|split; assumption].
      intros k Hk; apply Hpend.
      change (q_o s1) with (q_o s + 1) in Hk.
      change (q_i s1) with (q_i s) in Hk; lia. }
    assert (Not1 : forall k, q_o s1 <= k < q_i s1 -> get (q s1) k <> x).
    { intros k Hk.
      change (q_o s1) with (q_o s + 1) in Hk.
      change (q_i s1) with (q_i s) in Hk.
      change (get (q s1) k) with (get (q s) k).
      apply not_eq_sym, Q3; lia. }
    destruct (mark_fuel rel f s1 x (get a x))
      as [[[r1 s2] tr1]|] eqn:E1; [|discriminate].
    destruct (IHm s1 x r1 s2 tr1 C1 Prop1 Hfit Hx Not1 E1) as (-> & F2).
    change (0 <? 0) with false in E; cbv iota in E.
    assert (Hdx0 : 0 <= get a x <= 9) by lia.
    destruct (proj1 (mark_drain_keeps rel Hrel f) _ _ _ _ _ _
                C1 Hx Hdx0 E1) as (C2 & _).
    destruct (proj1 (mark_drain_propagates rel Hrel f) _ _ _ _ _ _
                C1 Prop1 Hx Hdx Not1 E1) as (_ & P2).
    destruct (drain_fuel rel f s2) as [[[r2 s3] tr2]|] eqn:E2; [|discriminate].
    injection E as <- <- _.
    exact (IHd s2 r2 s3 tr2 C2 (P2 eq_refl) F2 E2).
Qed.

(** Marking a cell with its digit in a grid that is still possible
    succeeds, and the grid stays possible. *)
Lemma mark_fits (a : list Z) (s : SuDoKu) (i : Z) :
  valid_grid a -> settled s -> fits a s -> in_grid i ->
  exists s', SuDoKu__mark rel s i (get a i) = Some (0, s')
             /\ settled s' /\ fits a s' /\ extends s s'.
Proof.
  intros Hvalid Hs Hfit Hi; pose proof Hs as (Hcons & Hprop & Hq).
  destruct (proj2 Hvalid i Hi) as (Hd & _).
  destruct (mark_keeps rel Hrel s i (get a i) Hcons Hi ltac:(lia))
    as (r & s' & E & _ & X & _).
  assert (Hnot : forall k, q_o s <= k < q_i s -> get (q s) k <> i)
    by (intros; lia).
  pose proof E as E'; rewrite mark_eq in E'.
  destruct (mark_fuel rel mark_depth s i (get a i))
    as [[[r0 s0] tr]|] eqn:E1; [|discriminate].
  injection E' as -> ->.
  destruct (proj1 (mark_drain_fits a mark_depth Hvalid) _ _ _ _ _
              Hcons Hprop Hfit Hi Hnot E1) as (-> & F).
  exists s'; split; [exact E|]; split; [|split; assumption].
  exact (mark_settled rel Hrel s i (get a i) s' Hs Hi Hd E).
Qed.

End Completeness.


(** ** The search returns every solution once *)

Lemma get2darray_ext (a b : list Z) :
  (forall k, in_grid k -> get a k = get b k) ->
  SuDoKu_get2darray a = SuDoKu_get2darray b.
Proof.
  intros H; unfold SuDoKu_get2darray.
  apply map_ext_in; intros i Hi; apply map_ext_in; intros j Hj.
  apply in_range in Hi, Hj; apply H; unfold in_grid; lia.
Qed.

Ltac nine_cells l :=
  do 9 (destruct l as [|? l]; [discriminate|]);
  destruct l; [|discriminate].

(** A 9x9 list of lists is the 2D view of its 81 cells in row order. *)
Lemma grid_of_rows (sol : list (list Z)) :
  length sol = 9%nat -> Forall (fun row => length row = 9%nat) sol ->
  length (concat sol) = 81%nat /\ SuDoKu_get2darray (concat sol) = sol.
Proof.
  intros L F.
  do 9 (destruct sol as [|? sol]; [discriminate|]).
  destruct sol; [|discriminate].
  repeat match goal with
         | H : Forall _ (_ :: _) |- _ =>
             let A := fresh "A" in
             apply Forall_cons_iff in H; destruct H as [A H]
         end.
  nine_cells l; nine_cells l0; nine_cells l1; nine_cells l2; nine_cells l3;
    nine_cells l4; nine_cells l5; nine_cells l6; nine_cells l7.
  split; reflexivity.
Qed.

Lemma solves_is_solution (base : list Z) (sol : list (list Z)) :
  solves base sol ->
  exists a, sol = SuDoKu_get2darray a /\ is_solution base a.
Proof.
  intros (L & F & H).
  destruct (grid_of_rows sol L F) as (La & Ea).
  exists (concat sol); split; [symmetry; exact Ea|].
  assert (Hc : forall k, in_grid k -> get (concat sol) k = cell sol k).
  { intros k Hk; rewrite <- (cell_get2darray _ k Hk), Ea; reflexivity. }
  split; [split; [exact La|]|].
  - intros i Hi; destruct (H i Hi) as (A & B & _).
    rewrite (Hc i Hi); split; [exact A|].
    intros j Hj Hp; rewrite (Hc j Hj); apply B; assumption.
  - intros i Hi Hnz; rewrite (Hc i Hi); apply H; assumption.
Qed.

Lemma is_solution_solves (base a : list Z) :
  is_solution base a -> solves base (SuDoKu_get2darray a).
Proof.
  intros ((La & Ha) & Hb).
  split; [reflexivity|]; split.
  { unfold SuDoKu_get2darray; apply Forall_forall; intros row Hrow.
    apply in_map_iff in Hrow; destruct Hrow as (i & <- & _).
    rewrite length_map; reflexivity. }
  intros i Hi; rewrite (cell_get2darray a i Hi).
  destruct (Ha i Hi) as (A & B); split; [exact A|]; split.
  - intros j Hj Hp; rewrite (cell_get2darray a j Hj); apply B; assumption.
  - intros Hnz; apply Hb; assumption.
Qed.

Section Exactness.

Variable rel : list (list Z).
Hypothesis Hrel : relations_ok rel = true.

Lemma branches_exact (f : nat) (s t0 : SuDoKu) (i : Z) :
  settled s -> in_grid i -> get (v s) i = 0 ->
  (forall t, settled t -> n s < n t -> level_exact rel f t t0) ->
  forall ds, Forall (fun d => 1 <= d <= 9) ds -> NoDup ds ->
  forall res sg res' sg',
    resolve_branches rel (fun t => resolve_aux_fuel rel f t t0)
      s t0 i ds res sg = Some (0, res', sg') ->
    NoDup res -> (forall sol, In sol res -> ~ In (cell sol i) ds) ->
    NoDup res'
    /\ (forall a, valid_grid a -> fits a s ->
          In (get a i) ds \/ In (SuDoKu_get2darray a) res ->
          In (SuDoKu_get2darray a) res').
Proof.
  intros Hs Hi Hv0 Hrec ds Hds.
  induction Hds as [|d ds Hd Hds IH]; intros Nds res sg res' sg' E Nres Hout.
  { injection E as <- _; split; [exact Nres|].
    intros a _ _ [[]|H]; exact H. }
  apply NoDup_cons_iff in Nds; destruct Nds as (Hnd & Nds).
  assert (Hout' : forall sol, In sol res -> ~ In (cell sol i) ds).
  { intros sol Hin Hc; apply (Hout sol Hin); right; exact Hc. }
  cbn [resolve_branches] in E.
  destruct (bit_of (get (p s) i) d) eqn:Hb.
  2:{ destruct (IH Nds _ _ _ _ E Nres Hout') as (A1 & A2).
      split; [exact A1|]; intros a Va Fa [[Ha|Ha]|Ha].
      - destruct (Fa i Hi) as (_ & Fb); rewrite Ha, Fb in Hb by exact Hv0.
        discriminate.
      - apply A2; auto.
      - apply A2; auto. }
  destruct (copy_settled s t0 Hs) as (St & Xt).
  set (t := SuDoKu__copy s t0) in *.
  assert (Hd0 : 0 <= d <= 9) by lia.
  destruct (mark_keeps rel Hrel t i d (proj1 St) Hi Hd0)
    as (r & t1 & E1 & C1 & X1 & R1 & V1 & N1 & L1).
  rewrite E1 in E.
  assert (Nt : n s < n t1).
  { apply N1; [change (get (v t) i) with (get (v s) i); lia|exact Hb]. }
  assert (Hfit : forall a, valid_grid a -> fits a s -> get a i = d ->
            r = 0 /\ fits a t1).
  { intros a Va Fa Ha.
    destruct (mark_fits rel Hrel a t i Va St Fa Hi) as (t' & E' & _ & F' & _).
    rewrite Ha, E1 in E'; injection E' as -> ->; auto. }
  destruct R1 as [->| ->].
  - change (0 =? -2) with false in E; change (0 <? 0) with false in E.
    cbv iota in E.
    assert (S1 : settled t1)
      by exact (mark_settled rel Hrel t i d t1 St Hi Hd E1).
    destruct (Hrec t1 S1 Nt) as (sres & t2 & E2 & Nsres & Hsol & Hall).
    rewrite E2 in E; change (0 <? 0) with false in E; cbv iota in E.
    assert (Vi : get (v t1) i = d) by (apply V1; [reflexivity|lia]).
    assert (Hcell : forall sol, In sol sres -> cell sol i = d).
    { intros sol Hin; destruct (Hsol sol Hin) as (_ & _ & A).
      rewrite <- Vi; apply A; [exact Hi|lia]. }
    assert (Nboth : NoDup (res ++ sres)).
    { apply NoDup_app; [exact Nres|exact Nsres|].
      intros sol H1 H2; apply (Hout sol H1); left.
      symmetry; apply Hcell, H2. }
    assert (Hboth : forall sol, In sol (res ++ sres) -> ~ In (cell sol i) ds).
    { intros sol Hin; apply in_app_or in Hin; destruct Hin as [Hin|Hin];
        [apply Hout', Hin|rewrite (Hcell sol Hin); exact Hnd]. }
    assert (Fin : forall sg1,
              resolve_branches rel (fun t => resolve_aux_fuel rel f t t0)
                s t0 i ds (res ++ sres) sg1 = Some (0, res', sg') ->
              NoDup res'
              /\ (forall a, valid_grid a -> fits a s ->
                    In (get a i) (d :: ds) \/ In (SuDoKu_get2darray a) res ->
                    In (SuDoKu_get2darray a) res')).
    { intros sg1 E'.
      destruct (IH Nds _ _ _ _ E' Nboth Hboth) as (A1 & A2).
      split; [exact A1|]; intros a Va Fa [[Ha|Ha]|Ha].
      - apply A2; auto; right; apply in_or_app; right.
        apply Hall; [exact Va|apply (Hfit a Va Fa (eq_sym Ha))].
      - apply A2; auto.
      - apply A2; auto; right; apply in_or_app; left; exact Ha. }
    destruct (e s); [destruct (is_null (g t2)); [discriminate|]|];
      exact (Fin _ E).
  - change (-2 =? -2) with true in E; cbv iota in E.
    assert (Fin : forall sg1,
              resolve_branches rel (fun t => resolve_aux_fuel rel f t t0)
                s t0 i ds res sg1 = Some (0, res', sg') ->
              NoDup res'
              /\ (forall a, valid_grid a -> fits a s ->
                    In (get a i) (d :: ds) \/ In (SuDoKu_get2darray a) res ->
                    In (SuDoKu_get2darray a) res')).
    { intros sg1 E'.
      destruct (IH Nds _ _ _ _ E' Nres Hout') as (A1 & A2).
      split; [exact A1|]; intros a Va Fa [[Ha|Ha]|Ha].
      - destruct (Hfit a Va Fa (eq_sym Ha)) as (Hr & _); discriminate.
      - apply A2; auto.
      - apply A2; auto. }
    destruct (e s); [destruct (is_null (g t1)); [discriminate|]|];
      exact (Fin _ E).
Qed.

Lemma level_exact_all (f : nat) (s t0 : SuDoKu) :
  settled s -> 82 - n s <= Z.of_nat f -> level_exact rel f s t0.
Proof.
  revert s; induction f as [|f IH]; intros s Hs Hf.
  { exfalso; destruct Hs as (((Lv & _) & _ & _ & Hfill) & _).
    pose proof (filled_le (v s)); lia. }
  destruct (level_ok_all rel Hrel (S f) s t0 Hs Hf)
    as (res & s' & E & _ & Hsol & _).
  exists res, s'; split; [exact E|].
  rewrite resolve_aux_fuel_S in E.
  destruct (Z.eqb_spec (n s) 81) as [Hn|Hn].
  { injection E as <- _.
    split; [repeat constructor; intros []|]; split; [exact Hsol|].
    intros a Va Fa; left; apply get2darray_ext; intros k Hk.
    destruct Hs as (((Lv & _) & _ & _ & Hfill) & _).
    destruct (Fa k Hk) as (F1 & _); symmetry; apply F1.
    apply (filled_all (v s)); [rewrite Lv; lia|].
    unfold get; destruct (Z.ltb_spec k 0); [unfold in_grid in Hk; lia|].
    apply nth_In; unfold in_grid in Hk; lia. }
  destruct (search_min_finds s (proj1 Hs) Hn) as (Hi & Hv0).
  assert (Hrec : forall t, settled t -> n s < n t -> level_exact rel f t t0).
  { intros t St Hlt; apply IH; [exact St|lia]. }
  assert (Hds : Forall (fun d => 1 <= d <= 9) digits).
  { unfold digits; repeat constructor; lia. }
  assert (Nds : NoDup digits).
  { unfold digits; repeat constructor; simpl; lia. }
  destruct (resolve_branches rel (fun t => resolve_aux_fuel rel f t t0)
              s t0 (SuDoKu__search_min s) digits [] [])
    as [[[r res0] sg]|] eqn:E0; [|discriminate].
  injection E as -> -> _.
  destruct (branches_exact f s t0 _ Hs Hi Hv0 Hrec digits Hds Nds
              [] [] res sg E0 (NoDup_nil _) ltac:(intros sol []))
    as (A1 & A2).
  split; [exact A1|]; split; [exact Hsol|].
  intros a Va Fa; apply (A2 a Va Fa); left.
  destruct (proj2 Va _ Hi) as (Hd & _).
  unfold digits; simpl; lia.
Qed.

Lemma mark_clues_fits (a : list Z) (cells : list Z) :
  valid_grid a -> Forall in_grid cells ->
  forall s,
    settled s -> fits a s ->
    (forall i, in_grid i -> get (o s) i <> 0 -> get a i = get (o s) i) ->
    exists s', mark_clues rel s cells = Some (0, s')
               /\ settled s' /\ fits a s'.
Proof.
  intros Va Hcells; induction Hcells as [|i cells Hi Hcells IH];
    intros s Hs Fa Ho; [exists s; auto|].
  cbn [mark_clues].
  destruct (Z.ltb_spec 0 (get (o s) i)) as [Hpos|Hz]; [|apply IH; assumption].
  destruct (mark_fits rel Hrel a s i Va Hs Fa Hi) as (s' & E & S' & F' & X').
  rewrite <- (Ho i Hi) by lia; rewrite E.
  change (0 <? 0) with false; cbv iota.
  apply IH; [exact S'|exact F'|].
  destruct X' as (-> & _); exact Ho.
Qed.

Lemma resolve_returned (s t0 s1 : SuDoKu) (res : solutions) (s2 : SuDoKu) :
  mark_clues rel (SuDoKu__reset s) (range 81) = Some (0, s1) ->
  resolve_aux_fuel rel search_depth s1 (if e s then set_g t0 GNull else t0)
  = Some (0, res, s2) ->
  SuDoKu_resolve rel s t0 = Some (Returned res, s2).
Proof.
  intros E E2; unfold SuDoKu_resolve; rewrite E.
  change (0 <? 0) with false; cbv iota.
  rewrite resolve_aux_eq, E2; reflexivity.
Qed.

(** [SuDoKu_resolve] on a clue array of blanks and digits: a
    Contradiction when there is no solution, else the list of all
    solutions, each once; [SuDoKu__unique_sol], on a grid with tracking
    off, counts them up to two. *)
Lemma resolve_exact (s t0 : SuDoKu) :
  clues_ok (o s) = true ->
  (exists s1, SuDoKu_resolve rel s t0 = Some (Raised Contradiction, s1)
              /\ (forall su tu, o su = o s -> e su = false ->
                  SuDoKu__unique_sol rel su tu = Some (-1))
              /\ forall sol, ~ solves (o s) sol)
  \/ (exists res s2,
         SuDoKu_resolve rel s t0 = Some (Returned res, s2)
         /\ (forall su tu, o su = o s -> e su = false ->
             SuDoKu__unique_sol rel su tu
             = Some (capped (Z.of_nat (length res))))
         /\ NoDup res
         /\ forall sol, In sol res <-> solves (o s) sol).
Proof.
  intros Hclues; destruct (clues_ok_range _ Hclues) as (Lo & Ho).
  assert (Hcells : Forall in_grid (range 81)).
  { apply Forall_forall; intros i Hi; apply in_range in Hi; exact Hi. }
  assert (Hfits : forall sol, solves (o s) sol ->
            exists a s1, sol = SuDoKu_get2darray a /\ valid_grid a
              /\ mark_clues rel (SuDoKu__reset s) (range 81) = Some (0, s1)
              /\ fits a s1).
  { intros sol Hsol.
    destruct (solves_is_solution _ _ Hsol) as (a & -> & Va & Hkeep).
    destruct (mark_clues_fits a (range 81) Va Hcells (SuDoKu__reset s)
                (reset_settled s) (reset_fits a s Va) Hkeep)
      as (s1 & E & _ & F).
    exists a, s1; auto. }
  destruct (resolve_spec rel Hrel s t0 Hclues)
    as (r & s1 & E & [(-> & R & _ & _ & _ & U)
                     |(-> & res & s2 & R & _ & Hsol & _ & U)]).
  { left; exists s1; split; [exact R|]; split; [exact U|].
    intros sol Hs; destruct (Hfits sol Hs) as (a & s1' & _ & _ & E' & _).
    rewrite E in E'; discriminate. }
  right; exists res, s2; split; [exact R|]; split; [exact U|].
  destruct (mark_clues_keeps rel Hrel (range 81) Hcells (SuDoKu__reset s)
              (reset_settled s) Ho)
    as (r & s1' & E' & C1 & X1 & _ & _ & S1).
  rewrite E in E'; injection E' as <- <-.
  destruct (S1 eq_refl) as (St & _).
  assert (Hf : 82 - n s1 <= Z.of_nat search_depth).
  { destruct C1 as (_ & _ & _ & Hfill); pose proof (filled_le (v s1)).
    change (Z.of_nat search_depth) with 82; lia. }
  set (t0' := if e s then set_g t0 GNull else t0).
  destruct (level_exact_all search_depth s1 t0' St Hf)
    as (res1 & s3 & E3 & Nres & _ & Hall).
  assert (Eres : res1 = res).
  { pose proof (resolve_returned s t0 s1 res1 s3 E E3) as R'.
    rewrite R in R'; injection R' as -> _; reflexivity. }
  subst res1; split; [exact Nres|].
  intros sol; split; [apply Hsol|].
  intros Hs; destruct (Hfits sol Hs) as (a & s1' & -> & Va & E' & F).
  rewrite E in E'; injection E' as <-; apply Hall; assumption.
Qed.

End Exactness.


Lemma valid_gridb_ok (a : list Z) : valid_gridb a = true -> valid_grid a.
Proof.
  unfold valid_gridb; rewrite andb_true_iff; intros (L & H).
  apply Nat.eqb_eq in L; split; [exact L|]; intros i Hi.
  pose proof (forallb_range _ _ H i Hi) as Hi'; cbv beta in Hi'.
  rewrite !andb_true_iff in Hi'; destruct Hi' as ((A & B) & C).
  split; [lia|]; intros j Hj Hp.
  pose proof (forallb_range _ _ C j Hj) as Hj'; cbv beta in Hj'.
  rewrite Hp in Hj'; simpl in Hj'.
  apply negb_true_iff, Z.eqb_neq in Hj'; exact Hj'.
Qed.

Lemma two_way_clues_ok : clues_ok (o (fresh two_way_grid)) = true.
Proof. vm_compute; reflexivity. Qed.

Lemma two_way_resolve :
  SuDoKu_resolve SuDoKu__relations (fresh two_way_grid) (fresh [])
  = Some (Returned two_way_solutions, two_way_final).
Proof. vm_compute; reflexivity. Qed.

Lemma clash_clues_ok : clues_ok (o (fresh clash_grid)) = true.
Proof. vm_compute; reflexivity. Qed.

Lemma clash_resolve :
  SuDoKu_resolve SuDoKu__relations (fresh clash_grid) (fresh [])
  = Some (Raised Contradiction, clash_final).
Proof. vm_compute; reflexivity. Qed.

Lemma full_grid_valid : valid_grid full_grid.
Proof. apply valid_gridb_ok; vm_compute; reflexivity. Qed.

(** X1: when [SuDoKu_resolve] returns a list, every grid that solves the
    clues is in the list: the search skips no solution. *)
Theorem resolve_finds_every_solution
  (rel : list (list Z)) (s t0 : SuDoKu) (res : solutions) (s' : SuDoKu) :
  relations_ok rel = true -> clues_ok (o s) = true ->
  SuDoKu_resolve rel s t0 = Some (Returned res, s') ->
  forall sol, solves (o s) sol -> In sol res.
Proof.
  intros Hrel Hclues E.
  destruct (resolve_exact rel Hrel s t0 Hclues)
    as [(s1 & R & _)|(res' & s2 & R & _ & _ & H)];
    rewrite E in R; [discriminate|].
  injection R as -> _; intros sol; apply H.
Qed.

Lemma resolve_finds_every_solution_witness :
  SuDoKu_resolve SuDoKu__relations (fresh two_way_grid) (fresh [])
  = Some (Returned two_way_solutions, two_way_final)
  /\ forall sol, solves (o (fresh two_way_grid)) sol ->
       In sol two_way_solutions.
Proof.
  split; [exact two_way_resolve|].
  exact (resolve_finds_every_solution SuDoKu__relations (fresh two_way_grid)
           (fresh []) two_way_solutions two_way_final relations_ok_table
           two_way_clues_ok two_way_resolve).
Defined.

(** X2: the list returned by [SuDoKu_resolve] holds no grid twice. *)
Theorem resolve_lists_each_solution_once
  (rel : list (list Z)) (s t0 : SuDoKu) (res : solutions) (s' : SuDoKu) :
  relations_ok rel = true -> clues_ok (o s) = true ->
  SuDoKu_resolve rel s t0 = Some (Returned res, s') ->
  NoDup res.
Proof.
  intros Hrel Hclues E.
  destruct (resolve_exact rel Hrel s t0 Hclues)
    as [(s1 & R & _)|(res' & s2 & R & _ & N & _)];
    rewrite E in R; [discriminate|].
  injection R as -> _; exact N.
Qed.

Lemma resolve_lists_each_solution_once_witness :
  length two_way_solutions = 2%nat /\ NoDup two_way_solutions.
Proof.
  split; [reflexivity|].
  exact (resolve_lists_each_solution_once SuDoKu__relations
           (fresh two_way_grid) (fresh []) two_way_solutions two_way_final
           relations_ok_table two_way_clues_ok two_way_resolve).
Defined.

(** X3: when [SuDoKu_resolve] raises Contradiction, no grid solves the
    clues (the text of the exception: no solution exists). *)
Theorem contradiction_means_no_solution
  (rel : list (list Z)) (s t0 s' : SuDoKu) :
  relations_ok rel = true -> clues_ok (o s) = true ->
  SuDoKu_resolve rel s t0 = Some (Raised Contradiction, s') ->
  forall sol, ~ solves (o s) sol.
Proof.
  intros Hrel Hclues E.
  destruct (resolve_exact rel Hrel s t0 Hclues)
    as [(s1 & _ & _ & H)|(res' & s2 & R & _)]; [exact H|].
  rewrite E in R; discriminate.
Qed.

Lemma contradiction_means_no_solution_witness :
  SuDoKu_resolve SuDoKu__relations (fresh clash_grid) (fresh [])
  = Some (Raised Contradiction, clash_final)
  /\ forall sol, ~ solves (o (fresh clash_grid)) sol.
Proof.
  split; [exact clash_resolve|].
  exact (contradiction_means_no_solution SuDoKu__relations (fresh clash_grid)
           (fresh []) clash_final relations_ok_table clash_clues_ok
           clash_resolve).
Defined.

(** X4: on a grid with tracking off, as [SuDoKu_generate] calls it,
    [SuDoKu__unique_sol] returns, and counts the solutions of the clues up
    to two: 1 exactly when there is one solution, -2 exactly when there
    are at least two, and 0 or -1 exactly when there is none. *)
Theorem unique_sol_counts_solutions
  (rel : list (list Z)) (s t0 : SuDoKu) :
  relations_ok rel = true -> clues_ok (o s) = true -> e s = false ->
  (exists k, SuDoKu__unique_sol rel s t0 = Some k) /\
  (SuDoKu__unique_sol rel s t0 = Some 1
   <-> exists sol, solves (o s) sol
                   /\ forall sol', solves (o s) sol' -> sol' = sol)
  /\ (SuDoKu__unique_sol rel s t0 = Some (-2)
      <-> exists sol sol', sol <> sol' /\ solves (o s) sol
                           /\ solves (o s) sol')
  /\ (SuDoKu__unique_sol rel s t0 = Some 0
      \/ SuDoKu__unique_sol rel s t0 = Some (-1)
      <-> forall sol, ~ solves (o s) sol).
Proof.
  intros Hrel Hclues He.
  destruct (resolve_exact rel Hrel s t0 Hclues)
    as [(s1 & _ & U & H)|(res & s2 & _ & U & N & H)];
    rewrite (U s t0 eq_refl He); (split; [eexists; reflexivity|]).
  { split; [|split].
    - split; [discriminate|intros (sol & A & _); destruct (H sol A)].
    - split; [discriminate|intros (sol & _ & _ & A & _); destruct (H sol A)].
    - split; [intros _; exact H|auto]. }
  destruct res as [|x [|y res]].
  - split; [|split].
    + split; [discriminate|intros (sol & A & _); destruct (proj2 (H sol) A)].
    + split; [discriminate|].
      intros (sol & _ & _ & A & _); destruct (proj2 (H sol) A).
    + split; [intros _ sol A; destruct (proj2 (H sol) A)|auto].
  - split; [|split].
    + split; [intros _|reflexivity].
      exists x; split; [apply H; left; reflexivity|].
      intros sol' A; apply H in A; destruct A as [<-|[]]; reflexivity.
    + split; [discriminate|].
      intros (sol & sol' & D & A & B); apply H in A, B.
      destruct A as [<-|[]], B as [<-|[]]; destruct D; reflexivity.
    + split; [intros [A|A]; discriminate|].
      intros A; destruct (A x); apply H; left; reflexivity.
  - assert (Hc : capped (Z.of_nat (length (x :: y :: res))) = -2)
      by (apply capped_big; simpl length; lia).
    rewrite Hc.
    assert (Hx : solves (o s) x) by (apply H; left; reflexivity).
    assert (Hy : solves (o s) y) by (apply H; right; left; reflexivity).
    assert (Hxy : x <> y).
    { apply NoDup_cons_iff in N; destruct N as (N & _).
      intros ->; apply N; left; reflexivity. }
    split; [|split].
    + split; [discriminate|].
      intros (sol & _ & A); destruct Hxy.
      rewrite (A x Hx), (A y Hy); reflexivity.
    + split; [intros _; exists x, y; auto|reflexivity].
    + split; [intros [A|A]; discriminate|intros A; destruct (A x Hx)].
Qed.

Lemma unique_sol_counts_solutions_witness :
  e (strip (fresh two_way_grid)) = false
  /\ SuDoKu__unique_sol SuDoKu__relations (strip (fresh two_way_grid))
       (fresh [])
     = Some (-2)
  /\ exists sol sol', sol <> sol' /\ solves two_way_grid sol
                      /\ solves two_way_grid sol'.
Proof.
  split; [reflexivity|]; split; [reflexivity|].
  apply (unique_sol_counts_solutions SuDoKu__relations
           (strip (fresh two_way_grid)) (fresh []) relations_ok_table
           two_way_clues_ok eq_refl).
  reflexivity.
Defined.

(** X5: propagation loses no solution.  On a grid between two calls,
    marking a cell with the digit that a valid grid still possible there
    holds in that cell returns 0, and the valid grid is still possible
    afterwards. *)
Theorem mark_keeps_every_solution
  (rel : list (list Z)) (a : list Z) (s : SuDoKu) (i : Z) :
  relations_ok rel = true ->
  valid_grid a -> settled s -> fits a s -> in_grid i ->
  exists s', SuDoKu__mark rel s i (get a i) = Some (0, s') /\ fits a s'.
Proof.
  intros Hrel Va Hs Fa Hi.
  destruct (mark_fits rel Hrel a s i Va Hs Fa Hi) as (s' & E & _ & F & _).
  exists s'; auto.
Qed.

Lemma mark_keeps_every_solution_witness :
  exists s', SuDoKu__mark SuDoKu__relations (SuDoKu__reset (fresh []))
               40 (get full_grid 40) = Some (0, s')
             /\ fits full_grid s'.
Proof.
  apply (mark_keeps_every_solution SuDoKu__relations full_grid
           (SuDoKu__reset (fresh [])) 40 relations_ok_table full_grid_valid
           (reset_settled (fresh [])) (reset_fits full_grid (fresh [])
                                         full_grid_valid)).
  unfold in_grid; lia.
Defined.

(** ** The choice of the search cell *)

Lemma range_S (k : nat) : range (S k) = range k ++ [Z.of_nat k].
Proof. unfold range; rewrite seq_S, map_app; reflexivity. Qed.

Lemma search_min_prefix (s : SuDoKu) (k : nat) :
  (k <= 81)%nat ->
  let r := fold_left (search_min_step s) (range k) (255, 10) in
  (fst r = 255 /\ snd r = 10
   /\ forall j, 0 <= j < Z.of_nat k -> get (v s) j = 0 -> 10 <= get (c s) j)
  \/ (0 <= fst r < Z.of_nat k /\ get (v s) (fst r) = 0
      /\ get (c s) (fst r) = snd r /\ snd r < 10
      /\ forall j, 0 <= j < Z.of_nat k -> get (v s) j = 0 ->
           snd r <= get (c s) j /\ (get (c s) j = snd r -> fst r <= j)).
Proof.
  induction k as [|k IH]; intros Hk; cbv zeta.
  { left; split; [reflexivity|]; split; [reflexivity|]; intros; lia. }
  specialize (IH ltac:(lia)); cbv zeta in IH.
  rewrite range_S, fold_left_app; cbn [fold_left].
  destruct (fold_left (search_min_step s) (range k) (255, 10)) as [im cm].
  cbn [fst snd] in IH; unfold search_min_step.
  assert (Hmod : Z.of_nat k mod 256 = Z.of_nat k) by (apply Z.mod_small; lia).
  destruct (Z.eqb_spec (get (v s) (Z.of_nat k)) 0) as [Hv|Hv];
    [destruct (Z.ltb_spec (get (c s) (Z.of_nat k)) cm) as [Hc|Hc]|];
    cbn [andb fst snd].
  - right; rewrite Hmod.
    split; [lia|]; split; [exact Hv|]; split; [reflexivity|].
    destruct IH as [(-> & -> & A)|(B1 & B2 & B3 & B4 & A)].
    + split; [lia|]; intros j Hj Hvj.
      assert (C : j < Z.of_nat k \/ j = Z.of_nat k) by lia.
      destruct C as [C| ->]; [|lia].
      specialize (A j ltac:(lia) Hvj); lia.
    + split; [lia|]; intros j Hj Hvj.
      assert (C : j < Z.of_nat k \/ j = Z.of_nat k) by lia.
      destruct C as [C| ->]; [|lia].
      destruct (A j ltac:(lia) Hvj); lia.
  - destruct IH as [(-> & -> & A)|(B1 & B2 & B3 & B4 & A)]; [left|right].
    + split; [reflexivity|]; split; [reflexivity|]; intros j Hj Hvj.
      assert (C : j < Z.of_nat k \/ j = Z.of_nat k) by lia.
      destruct C as [C| ->]; [apply A; [lia|exact Hvj]|exact Hc].
    + split; [lia|]; split; [exact B2|]; split; [exact B3|].
      split; [exact B4|]; intros j Hj Hvj.
      assert (C : j < Z.of_nat k \/ j = Z.of_nat k) by lia.
      destruct C as [C| ->]; [apply A; [lia|exact Hvj]|lia].
  - destruct IH as [(-> & -> & A)|(B1 & B2 & B3 & B4 & A)]; [left|right].
    + split; [reflexivity|]; split; [reflexivity|]; intros j Hj Hvj.
      assert (C : j < Z.of_nat k \/ j = Z.of_nat k) by lia.
      destruct C as [C| ->]; [apply A; [lia|exact Hvj]|contradiction].
    + split; [lia|]; split; [exact B2|]; split; [exact B3|].
      split; [exact B4|]; intros j Hj Hvj.
      assert (C : j < Z.of_nat k \/ j = Z.of_nat k) by lia.
      destruct C as [C| ->]; [apply A; [lia|exact Hvj]|contradiction].
Qed.

(** X6: [SuDoKu__search_min] picks a most constrained cell.  When some
    unassigned cell has a count below 10, the result is the first
    unassigned cell among those with the smallest count. *)
Theorem search_min_picks_fewest (s : SuDoKu) (k : Z) :
  in_grid k -> get (v s) k = 0 -> get (c s) k < 10 ->
  in_grid (SuDoKu__search_min s)
  /\ get (v s) (SuDoKu__search_min s) = 0
  /\ forall j, in_grid j -> get (v s) j = 0 ->
       get (c s) (SuDoKu__search_min s) <= get (c s) j
       /\ (get (c s) j = get (c s) (SuDoKu__search_min s) ->
           SuDoKu__search_min s <= j).
Proof.
  intros Hk Hv Hc; unfold SuDoKu__search_min.
  destruct (search_min_prefix s 81 (Nat.le_refl _))
    as [(_ & _ & A)|(B1 & B2 & B3 & B4 & A)].
  { specialize (A k Hk Hv); lia. }
  split; [exact B1|]; split; [exact B2|]; intros j Hj Hvj.
  rewrite B3; destruct (A j Hj Hvj) as (A1 & A2); split; [exact A1|exact A2].
Qed.

Lemma search_min_picks_fewest_witness :
  SuDoKu__search_min row_state = 7
  /\ forall j, in_grid j -> get (v row_state) j = 0 ->
       get (c row_state) 7 <= get (c row_state) j
       /\ (get (c row_state) j = get (c row_state) 7 -> 7 <= j).
Proof.
  split; [reflexivity|].
  apply (search_min_picks_fewest row_state 80);
    [unfold in_grid; lia|reflexivity|reflexivity].
Defined.

(** X7: on a grid without unassigned cell [SuDoKu__search_min] returns
    255, the value of [(unsigned char)-1], and no cell index. *)
Theorem search_min_on_full_grid (s : SuDoKu) :
  (forall j, in_grid j -> get (v s) j <> 0) ->
  SuDoKu__search_min s = 255 /\ ~ in_grid (SuDoKu__search_min s).
Proof.
  intros H; unfold SuDoKu__search_min.
  destruct (search_min_prefix s 81 (Nat.le_refl _))
    as [(A & _)|(B1 & B2 & _)].
  - rewrite A; unfold in_grid; lia.
  - destruct (H _ B1 B2).
Qed.

Lemma search_min_on_full_grid_witness :
  SuDoKu__search_min full_state = 255
  /\ ~ in_grid (SuDoKu__search_min full_state).
Proof.
  apply search_min_on_full_grid; intros j Hj.
  assert (A : forallb (fun j => negb (get (v full_state) j =? 0)) (range 81)
              = true) by (vm_compute; reflexivity).
  pose proof (forallb_range _ _ A j Hj) as B; cbv beta in B.
  apply negb_true_iff, Z.eqb_neq in B; exact B.
Defined.


(** ** Generation: the shuffle *)

Lemma firstn_upd_ge {A : Type} (l : list A) (k m : nat) (x : A) :
  (m <= k)%nat -> firstn m (upd l k x) = firstn m l.
Proof.
  revert k m; induction l as [|h l IH]; intros k m H; [reflexivity|].
  destruct m as [|m]; [reflexivity|].
  destruct k as [|k]; [lia|]; simpl; f_equal; apply IH; lia.
Qed.

Lemma firstn_upd_lt {A : Type} (l : list A) (k m : nat) (x : A) :
  (k < m)%nat -> firstn m (upd l k x) = upd (firstn m l) k x.
Proof.
  revert k m; induction l as [|h l IH]; intros k m H.
  { destruct m; reflexivity. }
  destruct m as [|m]; [lia|].
  destruct k as [|k]; simpl; [reflexivity|f_equal; apply IH; lia].
Qed.

Lemma firstn_S_nth {A : Type} (l : list A) (m : nat) (d : A) :
  (m < length l)%nat -> firstn (S m) l = firstn m l ++ [nth m l d].
Proof.
  revert m; induction l as [|h l IH]; intros m H; [simpl in H; lia|].
  destruct m as [|m]; [reflexivity|].
  simpl in H; change (h :: firstn (S m) l = h :: (firstn m l ++ [nth m l d])).
  f_equal; apply IH; lia.
Qed.

Lemma upd_app_l {A : Type} (l1 l2 : list A) (k : nat) (x : A) :
  (k < length l1)%nat -> upd (l1 ++ l2) k x = upd l1 k x ++ l2.
Proof.
  revert k; induction l1 as [|h l1 IH]; intros k H; [simpl in H; lia|].
  destruct k as [|k]; simpl; [reflexivity|].
  f_equal; apply IH; simpl in H; lia.
Qed.

Lemma upd_swap_perm {A : Type} (l : list A) (k : nat) (x d : A) :
  (k < length l)%nat -> Permutation (upd l k x ++ [nth k l d]) (l ++ [x]).
Proof.
  revert k; induction l as [|h l IH]; intros k H; [simpl in H; lia|].
  destruct k as [|k]; simpl.
  - change (Permutation ((x :: l) ++ [h]) ((h :: l) ++ [x])).
    rewrite <- !Permutation_cons_append; apply perm_swap.
  - apply perm_skip, IH; simpl in H; lia.
Qed.

Lemma shuffle_prefix (rnd : nat -> Z) (order0 : list Z) (k : nat) (m : nat) :
  (forall x, 0 <= rnd x) -> length order0 = 81%nat -> (m <= 81)%nat ->
  length (fst (fold_left (shuffle_step rnd) (range m) (order0, k))) = 81%nat
  /\ Permutation
       (firstn m (fst (fold_left (shuffle_step rnd) (range m) (order0, k))))
       (range m)
  /\ snd (fold_left (shuffle_step rnd) (range m) (order0, k)) = (k + m)%nat.
Proof.
  intros Hrnd L0; induction m as [|m IH]; intros Hm.
  { split; [exact L0|]; split; [apply perm_nil|simpl; lia]. }
  destruct (IH ltac:(lia)) as (L & P & K).
  rewrite range_S, fold_left_app; cbn [fold_left].
  destruct (fold_left (shuffle_step rnd) (range m) (order0, k))
    as [ord k'].
  cbn [fst snd] in L, P, K; unfold shuffle_step; cbn [fst snd].
  set (i := Z.of_nat m).
  set (j := Z.rem (rnd k') (i + 1)).
  assert (Hj : 0 <= j < i + 1)
    by (apply Z.rem_bound_pos; [apply Hrnd|unfold i; lia]).
  split; [rewrite !length_put; exact L|]; split; [|lia].
  unfold put, get.
  destruct (Z.ltb_spec i 0) as [Hi|_]; [unfold i in Hi; lia|].
  destruct (Z.ltb_spec j 0) as [Hj0|_]; [lia|].
  replace (Z.to_nat i) with m by (unfold i; lia).
  set (jn := Z.to_nat j).
  assert (Hjn : (jn <= m)%nat) by (unfold jn, i in *; lia).
  set (ord1 := upd ord m (nth jn ord 0)).
  assert (L1 : length ord1 = 81%nat) by (unfold ord1; rewrite length_upd; exact L).
  destruct (Nat.eq_dec jn m) as [E|Hne].
  - rewrite E, (firstn_S_nth _ m 0) by (rewrite length_upd; lia).
    rewrite nth_upd_eq by lia.
    rewrite firstn_upd_ge by lia; unfold ord1; rewrite firstn_upd_ge by lia.
    apply Permutation_app_tail; exact P.
  - rewrite firstn_upd_lt by lia.
    rewrite (firstn_S_nth ord1 m 0) by lia.
    unfold ord1 at 2; rewrite nth_upd_eq by lia.
    unfold ord1; rewrite firstn_upd_ge by lia.
    rewrite upd_app_l by (rewrite length_firstn; lia).
    assert (Hn : nth jn ord 0 = nth jn (firstn m ord) 0).
    { rewrite nth_firstn.
      destruct (Nat.ltb_spec jn m); [reflexivity|lia]. }
    rewrite Hn.
    etransitivity; [apply upd_swap_perm; rewrite length_firstn; lia|].
    apply Permutation_app_tail; exact P.
Qed.

Lemma shuffle_spec (rnd : nat -> Z) (order0 : list Z) (k : nat) :
  (forall x, 0 <= rnd x) -> length order0 = 81%nat ->
  Permutation (fst (shuffle rnd order0 k)) (range 81)
  /\ snd (shuffle rnd order0 k) = (k + 81)%nat.
Proof.
  intros Hrnd L0; unfold shuffle.
  destruct (shuffle_prefix rnd order0 k 81 Hrnd L0 (Nat.le_refl _))
    as (L & P & K).
  split; [|exact K].
  rewrite firstn_all2 in P by lia; exact P.
Qed.


(** ** Generation: filling the grid *)

Lemma low_bits_check_all : forallb low_bits_check (range 512) = true.
Proof. vm_compute; reflexivity. Qed.

Lemma low_bits_ffs (m k : Z) :
  is_mask m -> 0 <= k < popcount m ->
  1 <= ffs (clear_low m (Z.to_nat k)) <= 9
  /\ bit_of m (ffs (clear_low m (Z.to_nat k))) = true.
Proof.
  intros Hm Hk.
  pose proof (forallb_range _ _ low_bits_check_all m Hm) as H.
  unfold low_bits_check in H.
  destruct (mask_facts m Hm) as (Hp & _).
  pose proof (forallb_range _ _ H k ltac:(simpl; lia)) as H1.
  cbv beta zeta in H1.
  destruct (Z.ltb_spec k (popcount m)) as [_|Hge]; [|lia].
  cbn [implb] in H1; rewrite !andb_true_iff in H1.
  destruct H1 as ((A & B) & C); split; [lia|exact C].
Qed.

Lemma eliminate_alive (s : SuDoKu) (j d : Z) (s' : SuDoKu) :
  consistent s -> alive s -> in_grid j -> 0 <= d <= 19 ->
  SuDoKu__eliminate s j d = (0, s') -> alive s'.
Proof.
  intros Hcons Ha Hj Hd E.
  destruct (eliminate_cases s j d Hcons Hj Hd)
    as (r & s0 & E0 & _ & Hv & _ & _ & _ & Hcase).
  rewrite E in E0; injection E0 as <- <-.
  destruct Hcase as [(_ & _ & ->)|(_ & _ & _ & Hc & Hcase)]; [exact Ha|].
  destruct Hcons as ((_ & _ & Lc & _) & _).
  intros i Hi Hvi; rewrite Hv in Hvi; rewrite Hc.
  rewrite get_put by (unfold in_grid in Hj; lia).
  destruct (Z.eqb_spec i j) as [->|_]; [|apply Ha; assumption].
  destruct Hcase as [(_ & R & _)|[(C2 & _)|(C2 & _)]]; [discriminate|lia|lia].
Qed.

Lemma eliminate_peers_alive (d : Z) (js : list Z) :
  0 <= d <= 19 -> Forall in_grid js ->
  forall s s', consistent s -> alive s ->
    eliminate_peers s js d = (0, s') -> alive s'.
Proof.
  intros Hd Hjs; induction Hjs as [|j js Hj Hjs IH]; intros s s' Hcons Ha E.
  { injection E as <-; exact Ha. }
  cbn [eliminate_peers] in E.
  destruct (SuDoKu__eliminate s j d) as [r1 s1] eqn:E1.
  destruct (eliminate_keeps s j d r1 s1 Hcons Hj Hd E1) as (C1 & _ & R1 & _).
  destruct R1 as [->| ->].
  - change (0 <? 0) with false in E; cbv iota in E.
    exact (IH s1 s' C1 (eliminate_alive s j d s1 Hcons Ha Hj Hd E1) E).
  - change (-2 <? 0) with true in E; cbv iota in E; discriminate.
Qed.

Lemma assign_alive (s : SuDoKu) (i d : Z) :
  consistent s -> alive s -> in_grid i -> d <> 0 -> alive (assign s i d).
Proof.
  intros ((Lv & _ & Lc & _) & _) Ha Hi Hd j Hj.
  cbn [assign v c set_v set_n set_p set_c].
  rewrite !get_put by (unfold in_grid in Hi; lia).
  destruct (Z.eqb_spec j i) as [_|_]; [intros; contradiction|apply Ha, Hj].
Qed.

Section Generation.

Variable rel : list (list Z).
Hypothesis Hrel : relations_ok rel = true.

Lemma mark_drain_alive (f : nat) :
  (forall s i d s' tr,
      consistent s -> alive s -> in_grid i -> 0 <= d <= 9 ->
      mark_fuel rel f s i d = Some (0, s', tr) -> alive s')
  /\ (forall s s' tr,
      consistent s -> alive s ->
      drain_fuel rel f s = Some (0, s', tr) -> alive s').
Proof.
  induction f as [|f [IHm IHd]]; [split; intros; discriminate|].
  split.
  - intros s i d s' tr Hcons Ha Hi Hd E.
    rewrite mark_fuel_S in E.
    destruct (Z.eqb_spec (get (v s) i) d) as [Hv|Hv].
    { injection E as <- _; exact Ha. }
    destruct (bit_of (get (p s) i) d) eqn:Hb; cbn [negb] in E;
      [|discriminate].
    assert (Hd19 : 0 <= d <= 19) by lia.
    destruct (assign_keeps s i d Hcons Hi Hd19 Hb) as (C1 & _ & _ & Hd1 & _).
    destruct (relations_row rel i Hrel Hi) as (Hrow & Hpeers).
    rewrite Hrow in E.
    assert (Hjs : Forall in_grid (nth (Z.to_nat i) rel [])).
    { apply Forall_forall; intros j Hj; apply Hpeers in Hj; tauto. }
    destruct (eliminate_peers (assign s i d) (nth (Z.to_nat i) rel []) d)
      as [r1 s1] eqn:E1.
    destruct (eliminate_peers_keeps _ d Hd19 Hjs _ _ _ C1 E1)
      as (C2 & _ & R2 & _).
    destruct R2 as [->| ->].
    + change (0 <? 0) with false in E; cbv iota in E.
      apply (IHd s1 s' tr C2); [|exact E].
      apply (eliminate_peers_alive d _ Hd19 Hjs (assign s i d) s1 C1);
        [|exact E1].
      apply assign_alive; [exact Hcons|exact Ha|exact Hi|lia].
    + change (-2 <? 0) with true in E; cbv iota in E; discriminate.
  - intros s s' tr Hcons Ha E.
    rewrite drain_fuel_S in E.
    destruct (Z.ltb_spec (q_o s) (q_i s)) as [Hlt|Hge].
    2:{ injection E as <- _; exact Ha. }
    destruct (set_q_o_keeps s Hcons Hlt) as (C1 & _ & Hx).
    cbv zeta in E.
    set (x := get (q s) (q_o s)) in *.
    set (s1 := set_q_o s (q_o s + 1)) in *.
    assert (Hd : 0 <= ffs (get (p s1) x) mod 256 <= 9).
    { destruct Hcons as (_ & Hcnt & _).
      destruct (Hcnt x Hx) as (Hm & _).
      destruct (mask_facts _ Hm) as (_ & _ & Hf & _).
      change (get (p s1) x) with (get (p s) x).
      rewrite Z.mod_small; lia. }
    destruct (mark_fuel rel f s1 x (ffs (get (p s1) x) mod 256))
      as [[[r1 s2] tr1]|] eqn:E1; [|discriminate].
    destruct (proj1 (mark_drain_keeps rel Hrel f) _ _ _ _ _ _ C1 Hx Hd E1)
      as (C2 & _ & R1 & _).
    destruct R1 as [->| ->].
    + change (0 <? 0) with false in E; cbv iota in E.
      destruct (drain_fuel rel f s2) as [[[r2 s3] tr2]|] eqn:E2;
        [|discriminate].
      injection E as -> <- _.
      apply (IHd s2 s3 tr2 C2); [|exact E2].
      exact (IHm s1 x _ s2 tr1 C1 Ha Hx Hd E1).
    + change (-2 <? 0) with true in E; cbv iota in E; discriminate.
Qed.

Lemma mark_alive (s : SuDoKu) (i d : Z) (s' : SuDoKu) :
  consistent s -> alive s -> in_grid i -> 0 <= d <= 9 ->
  SuDoKu__mark rel s i d = Some (0, s') -> alive s'.
Proof.
  intros Hcons Ha Hi Hd E; rewrite mark_eq in E.
  destruct (mark_fuel rel mark_depth s i d) as [[[r0 s0] tr]|] eqn:E1;
    [|discriminate].
  injection E as -> ->.
  exact (proj1 (mark_drain_alive mark_depth) s i d s' tr Hcons Ha Hi Hd E1).
Qed.

Lemma reset_alive (s : SuDoKu) : alive (SuDoKu__reset s).
Proof.
  intros i Hi _; cbn [SuDoKu__reset c]; rewrite get_repeat by exact Hi; lia.
Qed.

Lemma fill_cells_spec (rnd : nat -> Z) (cells : list Z) :
  (forall x, 0 <= rnd x) -> Forall in_grid cells ->
  forall s k, settled s -> alive s ->
    exists res,
      fill_cells rel rnd s k cells = Some res
      /\ match res with
         | FillCrash => False
         | FillRetry _ _ => True
         | FillDone s' _ =>
             settled s' /\ alive s' /\ extends s s'
             /\ forall i, In i cells -> get (v s') i <> 0
         end.
Proof.
  intros Hrnd Hcells; induction Hcells as [|i cells Hi Hcells IH];
    intros s k Hs Ha.
  { eexists; split; [reflexivity|].
    split; [exact Hs|]; split; [exact Ha|]; split; [apply extends_refl|].
    intros i []. }
  cbn [fill_cells].
  destruct (Z.eqb_spec (get (v s) i) 0) as [Hv|Hv].
  2:{ destruct (IH s k Hs Ha) as (res & E & H); exists res; split; [exact E|].
      destruct res as [|s' k'|s' k']; auto.
      destruct H as (A & B & C & D); repeat (split; [assumption|]).
      intros j [<-|Hj]; [|apply D, Hj].
      destruct C as (_ & _ & _ & _ & C & _); rewrite C; assumption. }
  pose proof (Ha i Hi Hv) as Hc.
  destruct (Z.eqb_spec (get (c s) i) 0) as [Hc0|_]; [lia|].
  cbv zeta.
  set (m := Z.rem (rnd k) (get (c s) i)).
  assert (Hm : 0 <= m < get (c s) i)
    by (apply Z.rem_bound_pos; [apply Hrnd|lia]).
  pose proof (proj1 Hs) as Hcons.
  destruct Hcons as (_ & Hcnt & _); destruct (Hcnt i Hi) as (Hmask & Hpc & _).
  rewrite Hpc in Hm.
  destruct (low_bits_ffs _ m Hmask Hm) as (Hd & Hb).
  set (d := ffs (clear_low (get (p s) i) (Z.to_nat m))) in *.
  rewrite (Z.mod_small d 256) by lia.
  assert (Hd0 : 0 <= d <= 9) by lia.
  destruct (mark_keeps rel Hrel s i d (proj1 Hs) Hi Hd0)
    as (r & s1 & E1 & C1 & X1 & R1 & V1 & _).
  rewrite E1; destruct R1 as [->| ->].
  2:{ change (-2 =? -2) with true; cbv iota; eexists; split; [reflexivity|].
      exact I. }
  change (0 =? -2) with false; cbv iota.
  assert (S1 : settled s1) by exact (mark_settled rel Hrel s i d s1 Hs Hi Hd E1).
  assert (A1 : alive s1) by exact (mark_alive s i d s1 (proj1 Hs) Ha Hi Hd0 E1).
  destruct (IH s1 (S k) S1 A1) as (res & E & H); exists res; split; [exact E|].
  destruct res as [|s' k'|s' k']; auto.
  destruct H as (A & B & C & D); repeat (split; [assumption|]).
  split; [exact (extends_trans _ _ _ X1 C)|].
  intros j [<-|Hj]; [|apply D, Hj].
  destruct C as (_ & _ & _ & _ & C & _).
  assert (Vi : get (v s1) i = d) by (apply V1; [reflexivity|lia]).
  rewrite (C i Hi) by (rewrite Vi; lia); lia.
Qed.

Lemma fill_grid_S (rnd : nat -> Z) (att : nat) (s : SuDoKu)
  (order : list Z) (k : nat) :
  fill_grid rel rnd (S att) s order k =
  match fill_cells rel rnd (SuDoKu__reset s) k
          (map (get order) (range 81)) with
  | Some (FillRetry s1 k1) => fill_grid rel rnd att s1 order k1
  | x => x
  end.
Proof. reflexivity. Qed.

Lemma fill_grid_spec (rnd : nat -> Z) (cells : list Z) :
  (forall x, 0 <= rnd x) -> Forall in_grid cells ->
  forall att order s k res,
    map (get order) (range 81) = cells ->
    fill_grid rel rnd att s order k = Some res ->
    exists s' k', res = FillDone s' k' /\ settled s'
                  /\ forall i, In i cells -> get (v s') i <> 0.
Proof.
  intros Hrnd Hcells att; induction att as [|att IH];
    intros order s k res Ho E; [discriminate|].
  rewrite fill_grid_S, Ho in E.
  destruct (fill_cells_spec rnd cells Hrnd Hcells (SuDoKu__reset s) k
              (reset_settled s) (reset_alive s)) as (res0 & E0 & H).
  rewrite E0 in E.
  destruct res0 as [|s1 k1|s1 k1]; [destruct H| |].
  - exact (IH order s1 k1 res Ho E).
  - injection E as <-.
    destruct H as (A & _ & _ & D).
    exists s1, k1; split; [reflexivity|]; split; [exact A|exact D].
Qed.

(** Step 1 leaves the tracking flag as [SuDoKu_generate] has set it. *)
Lemma fill_cells_flag (rnd : nat -> Z) (cells : list Z) :
  forall s k res,
    fill_cells rel rnd s k cells = Some res ->
    match res with
    | FillCrash => True
    | FillRetry s' _ | FillDone s' _ => e s' = e s
    end.
Proof.
  induction cells as [|i cells IH]; intros s k res E.
  { injection E as <-; reflexivity. }
  cbn [fill_cells] in E.
  destruct (get (v s) i =? 0); [|exact (IH _ _ _ E)].
  destruct (get (c s) i =? 0); [injection E as <-; exact I|].
  destruct (SuDoKu__mark rel s i _) as [[r s1]|] eqn:M; [|discriminate].
  destruct (mark_flag rel _ _ _ _ _ M) as (F & _).
  destruct (r =? -2); [injection E as <-; exact F|].
  specialize (IH _ _ _ E); destruct res; [exact I|congruence|congruence].
Qed.

Lemma fill_grid_flag (rnd : nat -> Z) (att : nat) :
  forall order s k s' k',
    fill_grid rel rnd att s order k = Some (FillDone s' k') -> e s' = e s.
Proof.
  induction att as [|att IH]; intros order s k s' k' E; [discriminate|].
  rewrite fill_grid_S in E.
  destruct (fill_cells rel rnd (SuDoKu__reset s) k _) as [res|] eqn:F;
    [|discriminate].
  pose proof (fill_cells_flag rnd _ _ _ _ F) as H.
  change (e (SuDoKu__reset s)) with (e s) in H.
  destruct res as [|s1 k1|s1 k1]; [discriminate| |].
  - rewrite (IH _ _ _ _ _ E); exact H.
  - injection E as <- _; exact H.
Qed.

End Generation.


(** ** Generation: removing clues *)

Lemma get_nth (l : list Z) (k : nat) : get l (Z.of_nat k) = nth k l 0.
Proof.
  unfold get; destruct (Z.ltb_spec (Z.of_nat k) 0); [lia|].
  rewrite Nat2Z.id; reflexivity.
Qed.

Lemma filled_full (l : list Z) :
  (forall x, In x l -> x <> 0) -> filled l = Z.of_nat (length l).
Proof.
  intros H; unfold filled; f_equal.
  induction l as [|x l IH]; [reflexivity|]; simpl.
  destruct (Z.eqb_spec x 0) as [Hx|_].
  - destruct (H x (or_introl eq_refl) Hx).
  - simpl; f_equal; apply IH; intros y Hy; apply H; right; exact Hy.
Qed.

Lemma map_get_range (l : list Z) : map (get l) (range (length l)) = l.
Proof.
  induction l as [|x l IH] using rev_ind; [reflexivity|].
  rewrite length_app, Nat.add_1_r, range_S, map_app; cbn [map length].
  rewrite get_nth, nth_middle; f_equal.
  etransitivity; [|exact IH]; apply map_ext_in; intros i Hi.
  apply in_range in Hi; unfold get.
  destruct (Z.ltb_spec i 0); [reflexivity|].
  apply app_nth1; lia.
Qed.

Lemma clues_ok_intro (l : list Z) :
  length l = 81%nat -> (forall i, in_grid i -> 0 <= get l i <= 9) ->
  clues_ok l = true.
Proof.
  intros L H; unfold clues_ok; rewrite L; cbn [Nat.eqb andb].
  change ((81 =? 81)%nat) with true; cbn [andb].
  apply forallb_forall; intros x Hx.
  destruct (In_nth l x 0 Hx) as (k & Hk & <-).
  rewrite <- get_nth.
  specialize (H (Z.of_nat k) ltac:(unfold in_grid; lia)).
  apply andb_true_iff; split; apply Z.leb_le; lia.
Qed.

Lemma solves_weaker (base base' : list Z) (sol : list (list Z)) :
  weaker base' base -> solves base sol -> solves base' sol.
Proof.
  intros W (A & B & C); split; [exact A|]; split; [exact B|].
  intros i Hi; destruct (C i Hi) as (C1 & C2 & C3).
  split; [exact C1|]; split; [exact C2|].
  intros Hnz; rewrite (W i Hi Hnz); apply C3; rewrite <- (W i Hi Hnz).
  exact Hnz.
Qed.

Lemma put_same (l : list Z) (i x : Z) :
  0 <= i < Z.of_nat (length l) -> put (put l i x) i (get l i) = l.
Proof.
  intros Hi; apply (nth_ext _ _ 0 0); [rewrite !length_put; reflexivity|].
  intros k Hk; rewrite !length_put in Hk; rewrite <- !get_nth.
  rewrite get_put by (rewrite length_put; exact Hi).
  destruct (Z.eqb_spec (Z.of_nat k) i) as [->|Hne]; [reflexivity|].
  apply get_put_neq; congruence.
Qed.

Lemma solves_full_unique (a : list Z) (sol : list (list Z)) :
  (forall i, in_grid i -> get a i <> 0) -> solves a sol ->
  sol = SuDoKu_get2darray a.
Proof.
  intros Hnz Hsol.
  destruct (solves_is_solution _ _ Hsol) as (a' & -> & _ & Hkeep).
  apply get2darray_ext; intros k Hk; apply Hkeep; [exact Hk|apply Hnz, Hk].
Qed.

Lemma reduced_o (full : list (list Z)) (done : Z -> Prop) (s s' : SuDoKu) :
  o s' = o s -> reduced full done s -> reduced full done s'.
Proof. unfold reduced; intros ->; auto. Qed.

Lemma reduced_ext (full : list (list Z)) (done done' : Z -> Prop)
  (s : SuDoKu) :
  (forall i, done' i -> done i) -> reduced full done s ->
  reduced full done' s.
Proof.
  intros H (A & B & C & D); split; [exact A|]; split; [exact B|].
  split; [exact C|]; intros i Hi; apply D, H, Hi.
Qed.

Section Reduction.

Variable rel : list (list Z).
Hypothesis Hrel : relations_ok rel = true.

Lemma unique_sol_self_spec (s : SuDoKu) :
  clues_ok (o s) = true ->
  exists s', unique_sol_self rel s = Some s' /\ o s' = o s /\ e s' = e s.
Proof.
  intros Hclues; destruct (clues_ok_range _ Hclues) as (Lo & Ho).
  assert (Hcells : Forall in_grid (range 81)).
  { apply Forall_forall; intros i Hi; apply in_range in Hi; exact Hi. }
  destruct (mark_clues_keeps rel Hrel (range 81) Hcells (SuDoKu__reset s)
              (reset_settled s) Ho) as (r & s1 & E & _ & X1 & _).
  exists s1; unfold unique_sol_self; rewrite E; split; [reflexivity|].
  destruct X1 as (Xo & Xe & _); split; [exact Xo|exact Xe].
Qed.

Lemma reduce_cells_spec (t0 : SuDoKu) (full : list (list Z))
  (cells : list Z) :
  Forall in_grid cells ->
  forall (s : SuDoKu) (done : Z -> Prop),
    reduced full done s -> e s = false ->
    exists s', reduce_cells rel s t0 cells = Some (inr s')
               /\ reduced full (fun i => done i \/ In i cells) s'
               /\ e s' = e s.
Proof.
  intros Hcells; induction Hcells as [|i cells Hi Hcells IH];
    intros s done Hred He.
  { exists s; split; [reflexivity|]; split; [|reflexivity].
    apply (reduced_ext full done); [intros i [H|[]]; exact H|exact Hred]. }
  destruct Hred as (Hclues & Hfull & Huniq & Hmin).
  destruct (clues_ok_range _ Hclues) as (Lo & Ho).
  assert (Li : 0 <= i < Z.of_nat (length (o s)))
    by (rewrite Lo; unfold in_grid in Hi; lia).
  set (o1 := put (o s) i 0).
  assert (G1 : forall j, get o1 j = if j =? i then 0 else get (o s) j)
    by (intros j; apply get_put; exact Li).
  assert (H1 : clues_ok o1 = true).
  { apply clues_ok_intro; [unfold o1; rewrite length_put; exact Lo|].
    intros j Hj; rewrite G1; destruct (j =? i); [lia|apply Ho, Hj]. }
  assert (W1 : weaker o1 (o s)).
  { intros j Hj; rewrite G1; destruct (j =? i); [intros []|]; reflexivity. }
  assert (Sol1 : solves o1 full) by exact (solves_weaker _ _ _ W1 Hfull).
  assert (Hold : forall j, done j -> in_grid j -> get o1 j <> 0 ->
            exists sol, solves (put o1 j 0) sol /\ sol <> full).
  { intros j Dj Hj Hnz; rewrite G1 in Hnz.
    destruct (Z.eqb_spec j i) as [_|Hji]; [destruct Hnz; reflexivity|].
    destruct (Hmin j Dj Hj Hnz) as (sol & A & B).
    exists sol; split; [|exact B].
    apply (solves_weaker (put (o s) j 0)); [|exact A].
    assert (Lj : 0 <= j < Z.of_nat (length (o s)))
      by (rewrite Lo; unfold in_grid in Hj; lia).
    intros k Hk; rewrite !get_put
      by (try (unfold o1; rewrite length_put); exact Lj).
    destruct (k =? j); [intros []; reflexivity|].
    apply W1, Hk. }
  set (s1 := set_o s o1).
  destruct (unique_sol_self_spec s1 H1) as (s2 & E2 & O2 & Ee2).
  change (o s1) with o1 in O2; change (e s1) with (e s) in Ee2.
  cbn [reduce_cells]; cbv zeta; fold o1; fold s1; rewrite E2.
  destruct (resolve_exact rel Hrel s1 t0 H1)
    as [(s1' & _ & _ & H)|(res & s2' & _ & U & N & H)].
  { destruct (H full Sol1). }
  rewrite (U s1 t0 eq_refl He); change (o s1) with o1 in H.
  destruct res as [|x [|y res]].
  - destruct (proj2 (H full) Sol1).
  - assert (Hx : x = full).
    { destruct (proj2 (H full) Sol1) as [A|[]]; exact A. }
    change (capped (Z.of_nat (length [x]))) with 1.
    change (0 <=? 1) with true; cbv iota.
    assert (R2 : reduced full (fun j => done j \/ j = i) s2).
    { rewrite <- O2 in H1, Sol1, H, Hold, G1.
      split; [exact H1|]; split; [exact Sol1|]; split.
      - intros sol A; apply H in A; destruct A as [<-|[]]; exact Hx.
      - intros j [Dj| ->] Hj Hnz; [exact (Hold j Dj Hj Hnz)|].
        rewrite G1, Z.eqb_refl in Hnz; destruct Hnz; reflexivity. }
    destruct (IH s2 _ R2 ltac:(congruence)) as (s' & E & R & Ee).
    exists s'; split; [exact E|]; split; [|congruence].
    apply (reduced_ext full (fun j => (done j \/ j = i) \/ In j cells));
      [|exact R].
    intros j [Dj|[Ej|Hj]];
      [left; left; exact Dj|left; right; symmetry; exact Ej|right; exact Hj].
  - assert (Hc : capped (Z.of_nat (length (x :: y :: res))) = -2)
      by (apply capped_big; simpl length; lia).
    rewrite Hc; change (0 <=? -2) with false; change (-2 =? -2) with true.
    cbv iota.
    set (s3 := set_o s2 (put (o s2) i (get (o s) i))).
    assert (O3 : o s3 = o s).
    { change (o s3) with (put (o s2) i (get (o s) i)).
      rewrite O2; apply put_same; exact Li. }
    assert (Hxy : x <> y).
    { apply NoDup_cons_iff in N; destruct N as (N & _).
      intros ->; apply N; left; reflexivity. }
    assert (Hx : solves o1 x) by (apply H; left; reflexivity).
    assert (Hy : solves o1 y) by (apply H; right; left; reflexivity).
    assert (Hother : exists sol, solves o1 sol /\ sol <> full).
    { destruct (list_eq_dec (list_eq_dec Z.eq_dec) x full) as [Ex|Nx].
      - exists y; split; [exact Hy|congruence].
      - exists x; split; [exact Hx|exact Nx]. }
    assert (R3 : reduced full (fun j => done j \/ j = i) s3).
    { apply (reduced_o full _ s s3 O3).
      split; [exact Hclues|]; split; [exact Hfull|]; split; [exact Huniq|].
      intros j [Dj| ->] Hj Hnz; [exact (Hmin j Dj Hj Hnz)|exact Hother]. }
    destruct (IH s3 _ R3 ltac:(change (e s3) with (e s2); congruence))
      as (s' & E & R & Ee).
    exists s'; split; [exact E|]; split; [|rewrite Ee; exact Ee2].
    apply (reduced_ext full (fun j => (done j \/ j = i) \/ In j cells));
      [|exact R].
    intros j [Dj|[Ej|Hj]];
      [left; left; exact Dj|left; right; symmetry; exact Ej|right; exact Hj].
Qed.

Lemma generate_eq (rnd : nat -> Z) (att : nat) (order0 : list Z)
  (s t0 : SuDoKu) :
  SuDoKu_generate rel rnd att order0 s t0 =
  match fill_grid rel rnd att (set_e (SuDoKu__reset s) false)
          (fst (shuffle rnd order0 0)) (snd (shuffle rnd order0 0)) with
  | Some FillCrash => Some GenCrash
  | Some (FillDone s1 k2) =>
      match reduce_cells rel (set_o s1 (v s1)) t0
              (map (get (fst (shuffle rnd (fst (shuffle rnd order0 0)) k2)))
                 (range 81)) with
      | None => None
      | Some (inl s3) => Some (GenNull s3)
      | Some (inr s3) =>
          Some (GenGrid (SuDoKu_get2darray (o s3)) (set_e s3 (e s)))
      end
  | _ => None
  end.
Proof. reflexivity. Qed.

(** [SuDoKu_generate], when the loop of step 1 ends: the clues have one
    solution and every one of them is needed. *)
Lemma generate_spec (rnd : nat -> Z) (att : nat) (order0 : list Z)
  (s t0 : SuDoKu) (out : gen_outcome) :
  (forall x, 0 <= rnd x) -> length order0 = 81%nat ->
  SuDoKu_generate rel rnd att order0 s t0 = Some out ->
  exists s' full,
    out = GenGrid (SuDoKu_get2darray (o s')) s'
    /\ e s' = e s /\ reduced full in_grid s'.
Proof.
  intros Hrnd L0 E; rewrite generate_eq in E.
  destruct (shuffle_spec rnd order0 0 Hrnd L0) as (P1 & _).
  set (order1 := fst (shuffle rnd order0 0)) in *.
  set (k1 := snd (shuffle rnd order0 0)) in *.
  assert (L1 : length order1 = 81%nat)
    by (rewrite (Permutation_length P1); reflexivity).
  assert (M1 : map (get order1) (range 81) = order1)
    by (rewrite <- L1 at 1; apply map_get_range).
  assert (F1 : Forall in_grid order1).
  { apply Forall_forall; intros x Hx.
    apply (Permutation_in _ P1), in_range in Hx; exact Hx. }
  destruct (fill_grid rel rnd att (set_e (SuDoKu__reset s) false) order1 k1)
    as [fr|] eqn:Fg; [|discriminate].
  destruct (fill_grid_spec rel Hrel rnd order1 Hrnd F1 att order1 _ k1 fr M1 Fg)
    as (s1 & k2 & -> & S1 & Hall).
  pose proof (fill_grid_flag rel rnd att _ _ _ _ _ Fg) as Hflag.
  change (e (set_e (SuDoKu__reset s) false)) with false in Hflag.
  pose proof S1 as (((Lv & _) & Hcnt & _ & Hn) & _).
  assert (Hnz : forall i, in_grid i -> get (v s1) i <> 0).
  { intros i Hi; apply Hall, (Permutation_in _ (Permutation_sym P1)).
    apply in_range; exact Hi. }
  assert (Hn81 : n s1 = 81).
  { rewrite Hn, filled_full, Lv; [reflexivity|].
    intros x Hx; destruct (In_nth _ x 0 Hx) as (k & Hk & <-).
    rewrite <- get_nth; apply Hnz; unfold in_grid; lia. }
  set (full := SuDoKu_get2darray (v s1)).
  assert (R2 : reduced full (fun _ => False) (set_o s1 (v s1))).
  { cbn [set_o]; unfold reduced; cbn [o].
    split; [|split; [exact (settled_complete s1 S1 Hn81)|split]].
    - apply clues_ok_intro; [exact Lv|intros i Hi; apply Hcnt, Hi].
    - intros sol; apply solves_full_unique, Hnz.
    - intros i []. }
  destruct (shuffle_spec rnd order1 k2 Hrnd L1) as (P2 & _).
  set (order2 := fst (shuffle rnd order1 k2)) in *.
  assert (L2 : length order2 = 81%nat)
    by (rewrite (Permutation_length P2); reflexivity).
  assert (M2 : map (get order2) (range 81) = order2)
    by (rewrite <- L2 at 1; apply map_get_range).
  assert (F2 : Forall in_grid order2).
  { apply Forall_forall; intros x Hx.
    apply (Permutation_in _ P2), in_range in Hx; exact Hx. }
  rewrite M2 in E.
  destruct (reduce_cells_spec t0 full order2 F2 _ _ R2 Hflag)
    as (s3 & E3 & R3 & Ee).
  rewrite E3 in E; injection E as <-.
  exists (set_e s3 (e s)), full; split; [reflexivity|].
  split; [reflexivity|].
  apply (reduced_o full _ s3); [reflexivity|].
  apply (reduced_ext full (fun i => False \/ In i order2)); [|exact R3].
  intros i Hi; right; apply (Permutation_in _ (Permutation_sym P2)).
  apply in_range; exact Hi.
Qed.

End Reduction.


Lemma lcg_nonneg (x : nat) : 0 <= lcg x.
Proof. unfold lcg; apply Z.mod_pos_bound; lia. Qed.

Lemma gen_demo_run :
  SuDoKu_generate SuDoKu__relations lcg 50 (repeat 0 81) (fresh [])
    (fresh [])
  = Some gen_demo_out.
Proof. vm_compute; reflexivity. Qed.

(** X8: the shuffle loops of [SuDoKu_generate] leave a permutation of
    the cell indices 0..80 in [order], whatever the array held before
    (it is not initialised) and whatever [random()] returns. *)
Theorem shuffle_is_permutation (rnd : nat -> Z) (order0 : list Z) (k : nat) :
  (forall x, 0 <= rnd x) -> length order0 = 81%nat ->
  Permutation (fst (shuffle rnd order0 k)) (range 81).
Proof. intros Hrnd L0; apply shuffle_spec; assumption. Qed.

Lemma shuffle_is_permutation_witness :
  nth 0 (fst (shuffle lcg (repeat 0 81) 0)) 0 = 75
  /\ Permutation (fst (shuffle lcg (repeat 0 81) 0)) (range 81).
Proof.
  split; [vm_compute; reflexivity|].
  exact (shuffle_is_permutation lcg (repeat 0 81) 0 lcg_nonneg eq_refl).
Defined.

(** X9: a puzzle returned by [SuDoKu_generate] has exactly one
    solution. *)
Theorem generate_unique_solution
  (rel : list (list Z)) (rnd : nat -> Z) (att : nat) (order0 : list Z)
  (s t0 : SuDoKu) (out : gen_outcome) :
  relations_ok rel = true -> (forall x, 0 <= rnd x) ->
  length order0 = 81%nat ->
  SuDoKu_generate rel rnd att order0 s t0 = Some out ->
  exists s' full,
    out = GenGrid (SuDoKu_get2darray (o s')) s'
    /\ solves (o s') full
    /\ forall sol, solves (o s') sol -> sol = full.
Proof.
  intros Hrel Hrnd L0 E.
  destruct (generate_spec rel Hrel rnd att order0 s t0 out Hrnd L0 E)
    as (s' & full & A & _ & _ & B & C & _).
  exists s', full; auto.
Qed.

Lemma generate_unique_solution_witness :
  exists s' full,
    gen_demo_out = GenGrid (SuDoKu_get2darray (o s')) s'
    /\ solves (o s') full
    /\ forall sol, solves (o s') sol -> sol = full.
Proof.
  exact (generate_unique_solution SuDoKu__relations lcg 50 (repeat 0 81)
           (fresh []) (fresh []) gen_demo_out relations_ok_table lcg_nonneg
           eq_refl gen_demo_run).
Defined.

(** X10: a puzzle returned by [SuDoKu_generate] is minimal: blanking any
    one of its clues gives clues with at least two solutions. *)
Theorem generate_minimal
  (rel : list (list Z)) (rnd : nat -> Z) (att : nat) (order0 : list Z)
  (s t0 : SuDoKu) (out : gen_outcome) :
  relations_ok rel = true -> (forall x, 0 <= rnd x) ->
  length order0 = 81%nat ->
  SuDoKu_generate rel rnd att order0 s t0 = Some out ->
  exists s',
    out = GenGrid (SuDoKu_get2darray (o s')) s'
    /\ forall i, in_grid i -> get (o s') i <> 0 ->
         exists sol sol', sol <> sol'
                          /\ solves (put (o s') i 0) sol
                          /\ solves (put (o s') i 0) sol'.
Proof.
  intros Hrel Hrnd L0 E.
  destruct (generate_spec rel Hrel rnd att order0 s t0 out Hrnd L0 E)
    as (s' & full & A & _ & Hclues & B & _ & D).
  exists s'; split; [exact A|]; intros i Hi Hnz.
  destruct (D i Hi Hi Hnz) as (sol & Hsol & Hne).
  exists sol, full; split; [exact Hne|]; split; [exact Hsol|].
  apply (solves_weaker (o s')); [|exact B].
  destruct (clues_ok_range _ Hclues) as (Lo & _).
  intros j Hj; rewrite get_put by (rewrite Lo; unfold in_grid in Hi; lia).
  destruct (j =? i); [intros []|]; reflexivity.
Qed.

Lemma generate_minimal_witness :
  exists s',
    gen_demo_out = GenGrid (SuDoKu_get2darray (o s')) s'
    /\ forall i, in_grid i -> get (o s') i <> 0 ->
         exists sol sol', sol <> sol'
                          /\ solves (put (o s') i 0) sol
                          /\ solves (put (o s') i 0) sol'.
Proof.
  exact (generate_minimal SuDoKu__relations lcg 50 (repeat 0 81)
           (fresh []) (fresh []) gen_demo_out relations_ok_table lcg_nonneg
           eq_refl gen_demo_run).
Defined.

(** X11: when its first loop ends, [SuDoKu_generate] returns a grid of
    blanks and digits and restores the tracking flag: it never computes
    [random() % 0] and never takes the [return NULL] of its second
    step. *)
Theorem generate_returns_a_grid
  (rel : list (list Z)) (rnd : nat -> Z) (att : nat) (order0 : list Z)
  (s t0 : SuDoKu) (out : gen_outcome) :
  relations_ok rel = true -> (forall x, 0 <= rnd x) ->
  length order0 = 81%nat ->
  SuDoKu_generate rel rnd att order0 s t0 = Some out ->
  out <> GenCrash /\ (forall s', out <> GenNull s')
  /\ exists s', out = GenGrid (SuDoKu_get2darray (o s')) s'
                /\ e s' = e s /\ clues_ok (o s') = true.
Proof.
  intros Hrel Hrnd L0 E.
  destruct (generate_spec rel Hrel rnd att order0 s t0 out Hrnd L0 E)
    as (s' & full & -> & Ee & Hclues & _).
  split; [discriminate|]; split; [discriminate|].
  exists s'; auto.
Qed.

Lemma generate_returns_a_grid_witness :
  gen_demo_out = GenGrid (SuDoKu_get2darray (o gen_demo_grid)) gen_demo_grid
  /\ filled (o gen_demo_grid) = 24
  /\ gen_demo_out <> GenCrash /\ (forall s', gen_demo_out <> GenNull s')
  /\ exists s', gen_demo_out = GenGrid (SuDoKu_get2darray (o s')) s'
                /\ e s' = e (fresh []) /\ clues_ok (o s') = true.
Proof.
  split; [reflexivity|]; split; [reflexivity|].
  exact (generate_returns_a_grid SuDoKu__relations lcg 50 (repeat 0 81)
           (fresh []) (fresh []) gen_demo_out relations_ok_table lcg_nonneg
           eq_refl gen_demo_run).
Defined.


(** ** Output buffers *)

Lemma upd_middle {A : Type} (pre : list A) (x y : A) (rest : list A) :
  upd (pre ++ x :: rest) (length pre) y = pre ++ y :: rest.
Proof. induction pre as [|h pre IH]; simpl; [reflexivity|f_equal; exact IH]. Qed.

Lemma poke_middle (pre : list ascii) (x : ascii) (rest : list ascii)
  (ch : ascii) :
  poke (pre ++ x :: rest) (Z.of_nat (length pre)) ch = Ok (pre ++ ch :: rest).
Proof.
  unfold poke; rewrite length_app; cbn [length].
  destruct (Z.leb_spec 0 (Z.of_nat (length pre))); [|lia].
  destruct (Z.ltb_spec (Z.of_nat (length pre))
              (Z.of_nat (length pre + S (length rest)))); [|lia].
  cbn [andb]; rewrite Nat2Z.id, upd_middle; reflexivity.
Qed.

Lemma stpcpy_grow (src : list ascii) :
  forall (pre tail : list ascii),
    (length src < length tail)%nat ->
    stpcpy (pre ++ tail) (Z.of_nat (length pre)) src
    = Ok ((pre ++ src) ++ nul :: skipn (S (length src)) tail,
          Z.of_nat (length (pre ++ src))).
Proof.
  induction src as [|ch src IH]; intros pre tail H.
  - destruct tail as [|x tail]; [simpl in H; lia|].
    cbn [stpcpy]; rewrite poke_middle; cbn [bind skipn length].
    rewrite app_nil_r; reflexivity.
  - destruct tail as [|x tail]; [simpl in H; lia|].
    cbn [stpcpy]; rewrite poke_middle; cbn [bind].
    replace (pre ++ ch :: tail) with ((pre ++ [ch]) ++ tail)
      by (rewrite <- app_assoc; reflexivity).
    replace (Z.of_nat (length pre) + 1) with (Z.of_nat (length (pre ++ [ch])))
      by (rewrite length_app; simpl; lia).
    rewrite IH by (simpl in H; lia).
    rewrite <- !app_assoc; reflexivity.
Qed.

Lemma c_string_text (text rest : list ascii) :
  Forall (fun ch => code ch <> 0) text ->
  c_string (text ++ nul :: rest) = string_of_list_ascii text.
Proof.
  induction 1 as [|ch text Hch Htext IH]; [reflexivity|].
  cbn [app c_string string_of_list_ascii].
  destruct (Z.eqb_spec (code ch) 0); [contradiction|]; f_equal; exact IH.
Qed.

Lemma cell_char_facts (x : Z) :
  valid_cell x = true ->
  code (cell_char x) <> 0 /\ is_newline (cell_char x) = false
  /\ is_clue (cell_char x) = negb (x =? 0)
  /\ is_blank (cell_char x) = (x =? 0)
  /\ (x <> 0 -> code (cell_char x) - 48 = x).
Proof.
  unfold valid_cell; rewrite andb_true_iff, !Z.leb_le; intros H.
  assert (C : x = 0 \/ x = 1 \/ x = 2 \/ x = 3 \/ x = 4 \/ x = 5 \/ x = 6
              \/ x = 7 \/ x = 8 \/ x = 9) by lia.
  assert (T : forall y, y = x ->
            (code (cell_char y) =? 0) = false ->
            is_newline (cell_char y) = false ->
            is_clue (cell_char y) = negb (y =? 0) ->
            is_blank (cell_char y) = (y =? 0) ->
            (if y =? 0 then true else code (cell_char y) - 48 =? y) = true ->
            code (cell_char x) <> 0 /\ is_newline (cell_char x) = false
            /\ is_clue (cell_char x) = negb (x =? 0)
            /\ is_blank (cell_char x) = (x =? 0)
            /\ (x <> 0 -> code (cell_char x) - 48 = x)).
  { intros y -> A1 A2 A3 A4 A5; split; [apply Z.eqb_neq, A1|].
    split; [exact A2|]; split; [exact A3|]; split; [exact A4|].
    intros Hnz; destruct (Z.eqb_spec x 0); [contradiction|].
    apply Z.eqb_eq, A5. }
  repeat (destruct C as [C|C]; [apply (T _ (eq_sym C)); reflexivity|]).
  apply (T _ (eq_sym C)); reflexivity.
Qed.

Lemma to_string_cells_spec (vals : list Z) (m : nat) :
  forall (k : nat) (pre tail : list ascii),
    (k + m = 81)%nat -> (m < length tail)%nat ->
    match to_string_cells vals (map Z.of_nat (seq k m))
            ((pre ++ map (fun i => cell_char (get vals i)) (range k)) ++ tail)
            (Z.of_nat (length pre)) with
    | Overflow => False
    | Invalid =>
        forallb (fun i => valid_cell (get vals i)) (map Z.of_nat (seq k m))
        = false
    | Ok b =>
        forallb (fun i => valid_cell (get vals i)) (map Z.of_nat (seq k m))
        = true
        /\ b = (pre ++ grid_text vals) ++ nul :: skipn (S m) tail
    end.
Proof.
  induction m as [|m IH]; intros k pre tail Hk Hm.
  - cbn [seq map to_string_cells forallb].
    replace k with 81%nat by lia.
    destruct tail as [|x tail]; [simpl in Hm; lia|].
    replace (Z.of_nat (length pre) + 81)
      with (Z.of_nat (length (pre ++ map (fun i => cell_char (get vals i))
                                        (range 81))))
      by (rewrite length_app, length_map; unfold range;
          rewrite length_map, length_seq; lia).
    rewrite poke_middle; split; reflexivity.
  - destruct tail as [|x tail]; [simpl in Hm; lia|].
    cbn [seq map to_string_cells forallb]; cbv zeta.
    assert (Hoff : Z.of_nat (length pre) + Z.of_nat k
                   = Z.of_nat (length (pre ++ map (fun i => cell_char
                                                     (get vals i)) (range k))))
      by (rewrite length_app, length_map; unfold range;
          rewrite length_map, length_seq; lia).
    assert (Step : forall ch,
              ch = cell_char (get vals (Z.of_nat k)) ->
              (pre ++ map (fun i => cell_char (get vals i)) (range k))
                ++ ch :: tail
              = (pre ++ map (fun i => cell_char (get vals i)) (range (S k)))
                  ++ tail).
    { intros ch ->; rewrite range_S, map_app, <- !app_assoc; reflexivity. }
    specialize (IH (S k) pre tail ltac:(lia) ltac:(simpl in Hm; lia)).
    set (vx := get vals (Z.of_nat k)) in *.
    assert (Hvc : valid_cell vx = ((0 <=? vx) && (vx <=? 9))) by reflexivity.
    rewrite Hvc.
    destruct (Z.eqb_spec vx 0) as [Hz|Hnz].
    + rewrite Hoff, poke_middle; cbn [bind].
      rewrite (Step "_"%char)
        by (unfold cell_char; rewrite Hz; reflexivity).
      rewrite Hz; cbn [Z.leb Z.compare andb]; exact IH.
    + assert (Hch : chr (vx + 48) = cell_char vx).
      { unfold cell_char; destruct (Z.eqb_spec vx 0); [contradiction|].
        reflexivity. }
      destruct ((1 <=? vx) && (vx <=? 9)) eqn:Hv.
      * rewrite Hoff, poke_middle; cbn [bind].
        rewrite (Step _ Hch).
        rewrite andb_true_iff, !Z.leb_le in Hv.
        destruct (Z.leb_spec 0 vx); [|lia].
        destruct (Z.leb_spec vx 9); [|lia].
        cbn [andb]; exact IH.
      * rewrite andb_false_iff, !Z.leb_gt in Hv.
        destruct (Z.leb_spec 0 vx); destruct (Z.leb_spec vx 9);
          try reflexivity; lia.
Qed.

Lemma to_string_spec (vals : list Z) (pre tail : list ascii) :
  (81 < length tail)%nat ->
  match SuDoKu__to_string vals (pre ++ tail) (Z.of_nat (length pre)) with
  | Overflow => False
  | Invalid => valid_cells vals = false
  | Ok b =>
      valid_cells vals = true
      /\ b = (pre ++ grid_text vals) ++ nul :: skipn 82 tail
  end.
Proof.
  intros H.
  pose proof (to_string_cells_spec vals 81 0 pre tail eq_refl H) as S.
  change (range 0) with (@nil Z) in S; cbn [map] in S.
  rewrite app_nil_r in S; exact S.
Qed.

Lemma grid_text_chars (vals : list Z) :
  valid_cells vals = true ->
  Forall (fun ch => code ch <> 0) (grid_text vals).
Proof.
  intros H; unfold grid_text; apply Forall_forall; intros ch Hin.
  apply in_map_iff in Hin; destruct Hin as (i & <- & Hi).
  unfold valid_cells in H; rewrite forallb_forall in H.
  apply (cell_char_facts _ (H i Hi)).
Qed.

Lemma str_spec (s : SuDoKu) :
  (valid_cells (o s) = false /\ SuDoKu_str s = StrValueError)
  \/ (valid_cells (o s) = true
      /\ SuDoKu_str s = StrReturned (string_of_list_ascii (grid_text (o s)))).
Proof.
  unfold SuDoKu_str.
  pose proof (to_string_spec (o s) [] (repeat nul 82)
                ltac:(rewrite repeat_length; lia)) as S.
  cbn [app length] in S; change (Z.of_nat 0) with 0 in S.
  destruct (SuDoKu__to_string (o s) (repeat nul 82) 0) as [| |b];
    [destruct S|left; auto|right].
  destruct S as (V & ->); split; [exact V|]; cbn [finish app].
  rewrite c_string_text by (apply grid_text_chars; exact V); reflexivity.
Qed.

(** Parsing the characters of cells back. *)
Lemma scan_cells (xs : list Z) :
  forall i a,
    0 <= i -> i + Z.of_nat (length xs) <= 81 -> length a = 81%nat ->
    forallb valid_cell xs = true ->
    exists a',
      from_string_scan (string_of_list_ascii (map cell_char xs)) i a
      = ScanEnd (i + Z.of_nat (length xs)) a'
      /\ length a' = 81%nat
      /\ forall k,
           get a' k =
           if (i <=? k) && (k <? i + Z.of_nat (length xs))
              && negb (nth (Z.to_nat (k - i)) xs 0 =? 0)
           then nth (Z.to_nat (k - i)) xs 0
           else get a k.
Proof.
  induction xs as [|x xs IH]; intros i a Hi Hlen La Hv.
  { exists a; split; [simpl; rewrite Z.add_0_r; reflexivity|].
    split; [exact La|]; intros k; cbn [length].
    destruct (Z.ltb_spec k (i + Z.of_nat 0)) as [Hk|Hk];
      [|rewrite andb_false_r; reflexivity].
    destruct (Z.leb_spec i k); [lia|reflexivity]. }
  cbn [forallb] in Hv; apply andb_true_iff in Hv; destruct Hv as (Hx & Hv).
  destruct (cell_char_facts x Hx) as (_ & Hnl & Hcl & Hbl & Hcode).
  cbn [map string_of_list_ascii from_string_scan length].
  rewrite Hnl, Hcl, Hbl.
  destruct (Z.leb_spec 81 i) as [Hfull|_]; [simpl length in Hlen; lia|].
  assert (Step : forall k,
            nth (Z.to_nat (k - i)) (x :: xs) 0
            = if k <=? i then x else nth (Z.to_nat (k - (i + 1))) xs 0).
  { intros k; destruct (Z.leb_spec k i).
    - replace (Z.to_nat (k - i)) with 0%nat by lia; reflexivity.
    - replace (Z.to_nat (k - i)) with (S (Z.to_nat (k - (i + 1)))) by lia.
      reflexivity. }
  simpl length in Hlen.
  destruct (Z.eqb_spec x 0) as [Hz|Hnz]; cbn [negb].
  - destruct (IH (i + 1) a ltac:(lia) ltac:(lia) La Hv) as (a' & E & La' & Hk).
    exists a'; split; [rewrite E; f_equal; lia|]; split; [exact La'|].
    intros k; rewrite Hk, Step.
    destruct (Z.leb_spec k i) as [Hki|Hki].
    + destruct (Z.leb_spec (i + 1) k); [lia|]; cbn [andb].
      rewrite Hz; cbn [Z.eqb negb]; rewrite andb_false_r; reflexivity.
    + destruct (Z.leb_spec (i + 1) k); [|lia].
      destruct (Z.leb_spec i k); [|lia].
      replace (i + Z.of_nat (S (length xs)))
        with (i + 1 + Z.of_nat (length xs)) by lia; reflexivity.
  - assert (Li : 0 <= i < Z.of_nat (length a)) by lia.
    destruct (IH (i + 1) (put a i (code (cell_char x) - 48)) ltac:(lia)
                ltac:(lia) ltac:(rewrite length_put; exact La) Hv)
      as (a' & E & La' & Hk).
    exists a'; split; [rewrite E; f_equal; lia|]; split; [exact La'|].
    intros k; rewrite Hk, Step, (Hcode Hnz).
    destruct (Z.leb_spec k i) as [Hki|Hki].
    + destruct (Z.leb_spec (i + 1) k); [lia|]; cbn [andb].
      destruct (Z.leb_spec i k); cbn [andb].
      * assert (k = i) by lia; subst k.
        destruct (Z.ltb_spec i (i + Z.of_nat (S (length xs)))); [|lia].
        destruct (Z.eqb_spec x 0); [contradiction|]; cbn [andb negb].
        apply get_put_eq; exact Li.
      * apply get_put_neq; lia.
    + destruct (Z.leb_spec (i + 1) k); [|lia].
      destruct (Z.leb_spec i k); [|lia].
      replace (i + Z.of_nat (S (length xs)))
        with (i + 1 + Z.of_nat (length xs)) by lia.
      rewrite get_put_neq by lia; reflexivity.
Qed.


Lemma nth_map_range {A : Type} (f : Z -> A) (k m : nat) (d : A) :
  (k < m)%nat -> nth k (map f (range m)) d = f (Z.of_nat k).
Proof.
  intros H; unfold range; rewrite map_map.
  rewrite (nth_indep _ d (f (Z.of_nat 0)))
    by (rewrite length_map, length_seq; exact H).
  rewrite (map_nth (fun x => f (Z.of_nat x))), seq_nth by exact H.
  reflexivity.
Qed.

Lemma length_string_of_list (l : list ascii) :
  String.length (string_of_list_ascii l) = length l.
Proof. induction l as [|ch l IH]; simpl; [reflexivity|f_equal; exact IH]. Qed.

Lemma forallb_false_exists {A : Type} (f : A -> bool) (l : list A) :
  forallb f l = false -> exists x, In x l /\ f x = false.
Proof.
  induction l as [|x l IH]; [discriminate|]; cbn [forallb].
  destruct (f x) eqn:Hx; cbn [andb].
  - intros H; destruct (IH H) as (y & Hy & Fy); exists y; split;
      [right; exact Hy|exact Fy].
  - intros _; exists x; split; [left; reflexivity|exact Hx].
Qed.

Lemma valid_cell_range (x : Z) : valid_cell x = true <-> 0 <= x <= 9.
Proof. unfold valid_cell; rewrite andb_true_iff, !Z.leb_le; tauto. Qed.

(** ** The one-line format *)

(** X12: [SuDoKu_str] raises a ValueError exactly when a clue is outside
    0..9, and else returns 81 characters; it never writes outside of its
    block of 82 characters. *)
Theorem str_error_iff_invalid_clue (s : SuDoKu) :
  SuDoKu_str s <> StrOverflow
  /\ (SuDoKu_str s = StrValueError
      <-> exists k, in_grid k /\ ~ 0 <= get (o s) k <= 9)
  /\ ((forall k, in_grid k -> 0 <= get (o s) k <= 9)
      -> exists str, SuDoKu_str s = StrReturned str
                     /\ String.length str = 81%nat).
Proof.
  destruct (str_spec s) as [(V & E)|(V & E)]; rewrite E.
  - split; [discriminate|]; split.
    + split; [intros _|reflexivity].
      destruct (forallb_false_exists _ _ V) as (k & Hk & Fk).
      apply in_range in Hk; exists k; split; [exact Hk|].
      intros H; apply valid_cell_range in H; congruence.
    + intros H; unfold valid_cells in V.
      destruct (forallb_false_exists _ _ V) as (k & Hk & Fk).
      apply in_range in Hk; apply H, valid_cell_range in Hk; congruence.
  - split; [discriminate|]; split.
    + split; [discriminate|intros (k & Hk & Fk)].
      unfold valid_cells in V; rewrite forallb_forall in V.
      destruct Fk; apply valid_cell_range, V, in_range; exact Hk.
    + intros _; eexists; split; [reflexivity|].
      rewrite length_string_of_list; unfold grid_text.
      rewrite length_map; reflexivity.
Qed.

Lemma str_error_iff_invalid_clue_witness :
  SuDoKu_str bad_grid = StrValueError
  /\ exists k, in_grid k /\ ~ 0 <= get (o bad_grid) k <= 9.
Proof.
  split; [reflexivity|].
  apply (str_error_iff_invalid_clue bad_grid); reflexivity.
Defined.

(** X13: the string of a grid parses back to its clues.  [SuDoKu_str]
    followed by [SuDoKu__from_string] into a grid [t] succeeds and stores
    every clue; where the first grid is blank, [t] keeps its own clue. *)
Theorem str_then_from_string (s t : SuDoKu) :
  valid_cells (o s) = true -> length (o t) = 81%nat ->
  exists str a,
    SuDoKu_str s = StrReturned str
    /\ SuDoKu__from_string t str = (None, set_o t a)
    /\ length a = 81%nat
    /\ forall k, in_grid k ->
         get a k = if get (o s) k =? 0 then get (o t) k else get (o s) k.
Proof.
  intros V Lt.
  destruct (str_spec s) as [(V' & _)|(_ & E)]; [congruence|].
  assert (Hxs : forallb valid_cell (map (get (o s)) (range 81)) = true).
  { unfold valid_cells in V; rewrite forallb_forall in *.
    intros x Hx; apply in_map_iff in Hx; destruct Hx as (i & <- & Hi).
    apply V, Hi. }
  destruct (scan_cells (map (get (o s)) (range 81)) 0 (o t) ltac:(lia)
              ltac:(rewrite length_map; unfold range;
                    rewrite length_map, length_seq; lia) Lt Hxs)
    as (a & Sc & La & Hk).
  rewrite map_map in Sc.
  exists (string_of_list_ascii (grid_text (o s))), a.
  split; [exact E|]; split; [|split; [exact La|]].
  - unfold SuDoKu__from_string, grid_text; rewrite Sc.
    rewrite length_map; unfold range; rewrite length_map, length_seq.
    reflexivity.
  - intros k Hkg; rewrite Hk, Z.sub_0_r.
    rewrite length_map; unfold range at 1; rewrite length_map, length_seq.
    rewrite nth_map_range by (unfold in_grid in Hkg; lia).
    rewrite Z2Nat.id by (unfold in_grid in Hkg; lia).
    destruct (Z.leb_spec 0 k); [|unfold in_grid in Hkg; lia].
    destruct (Z.ltb_spec k (0 + Z.of_nat 81)); [|unfold in_grid in Hkg; lia].
    cbn [andb]; destruct (get (o s) k =? 0); reflexivity.
Qed.

Lemma str_then_from_string_witness :
  exists str a,
    SuDoKu_str demo_grid = StrReturned str
    /\ SuDoKu__from_string SuDoKu_new str = (None, set_o SuDoKu_new a)
    /\ length a = 81%nat
    /\ forall k, in_grid k ->
         get a k = if get (o demo_grid) k =? 0 then get (o SuDoKu_new) k
                   else get (o demo_grid) k.
Proof.
  apply (str_then_from_string demo_grid SuDoKu_new); reflexivity.
Defined.

Lemma chr_code (ch : ascii) : chr (code ch) = ch.
Proof.
  unfold chr, code; rewrite Nat2Z.id; apply ascii_nat_embedding.
Qed.

(** X14: a string that parses into a blank grid prints as its
    significant characters, with every blank written as an underscore. *)
Theorem from_string_then_str (t t' : SuDoKu) (str : string) :
  length (o t) = 81%nat -> (forall k, in_grid k -> get (o t) k = 0) ->
  SuDoKu__from_string t str = (None, t') ->
  SuDoKu_str t'
  = StrReturned (string_of_list_ascii (map normal_char (significant str))).
Proof.
  intros Lo Hz E; unfold SuDoKu__from_string in E.
  pose proof (scan_kind str 0 (o t) ltac:(lia)) as K.
  change (Z.to_nat (81 - 0)) with 81%nat in K.
  destruct (from_string_scan str 0 (o t)) as [i' a|i' a|ch a] eqn:S;
    [|destruct (i' <? 81); discriminate|discriminate].
  destruct (Z.ltb_spec i' 81) as [Hlt|Hge]; [discriminate|].
  injection E as <-.
  destruct K as (A & B & C).
  assert (L : length (significant str) = 81%nat) by lia.
  destruct (scan_array str 0 (o t) i' a ltac:(lia) Lo S) as (_ & Hk).
  assert (Hcell : forall k, in_grid k ->
            cell_char (get a k)
            = normal_char (nth (Z.to_nat k) (significant str) "0"%char)
            /\ valid_cell (get a k) = true).
  { intros k Hkg; rewrite Hk, Z.sub_0_r.
    destruct (Z.leb_spec 0 k); [|unfold in_grid in Hkg; lia].
    destruct (Z.ltb_spec k i'); [|unfold in_grid in Hkg; lia].
    cbn [andb]; unfold normal_char.
    destruct (is_clue (nth (Z.to_nat k) (significant str) "0"%char)) eqn:Hc.
    - unfold is_clue in Hc; rewrite andb_true_iff, !Z.leb_le in Hc.
      split; [|apply valid_cell_range; lia].
      unfold cell_char.
      destruct (Z.eqb_spec
                  (code (nth (Z.to_nat k) (significant str) "0"%char) - 48) 0);
        [lia|].
      rewrite Z.sub_add; apply chr_code.
    - rewrite (Hz k Hkg); split; reflexivity. }
  destruct (str_spec (set_o t a)) as [(V & _)|(_ & ->)].
  { destruct (forallb_false_exists _ _ V) as (k & Hin & Fk).
    apply in_range in Hin; cbn [o set_o] in Fk.
    rewrite (proj2 (Hcell k Hin)) in Fk; discriminate. }
  do 2 f_equal; cbn [o set_o]; unfold grid_text.
  apply (nth_ext _ _ "0"%char "0"%char).
  { rewrite !length_map, L; unfold range; rewrite length_map, length_seq.
    reflexivity. }
  intros k Hklt; rewrite length_map in Hklt; unfold range in Hklt.
  rewrite length_map, length_seq in Hklt.
  rewrite nth_map_range by exact Hklt.
  rewrite (proj1 (Hcell (Z.of_nat k) ltac:(unfold in_grid; lia))).
  rewrite Nat2Z.id.
  rewrite (nth_indep (map normal_char (significant str)) "0"%char
             (normal_char "0"%char)) by (rewrite length_map; lia).
  rewrite map_nth; reflexivity.
Qed.

Lemma from_string_then_str_witness :
  SuDoKu_str demo_grid
  = StrReturned
      (string_of_list_ascii (map normal_char (significant demo_puzzle))).
Proof.
  apply (from_string_then_str (fresh (repeat 0 81)) demo_grid demo_puzzle).
  - reflexivity.
  - intros k Hk; apply get_repeat; exact Hk.
  - reflexivity.
Defined.


(** ** The HTML and console formats *)

Lemma stpcpy_room (src pre tail : list ascii) :
  (length src < length tail)%nat ->
  exists tail',
    stpcpy (pre ++ tail) (Z.of_nat (length pre)) src
    = Ok ((pre ++ src) ++ tail', Z.of_nat (length (pre ++ src)))
    /\ (length tail' + length src = length tail)%nat
    /\ exists rest, tail' = nul :: rest.
Proof.
  intros H; exists (nul :: skipn (S (length src)) tail).
  split; [apply stpcpy_grow, H|]; split; [|eexists; reflexivity].
  cbn [length]; rewrite length_skipn; lia.
Qed.

Lemma copy_room (src : string) (pre tail : list ascii) :
  (length (list_ascii_of_string src) < length tail)%nat ->
  exists tail',
    copy src (pre ++ tail, Z.of_nat (length pre))
    = Ok ((pre ++ list_ascii_of_string src) ++ tail',
          Z.of_nat (length (pre ++ list_ascii_of_string src)))
    /\ (length tail' + length (list_ascii_of_string src) = length tail)%nat
    /\ exists rest, tail' = nul :: rest.
Proof. intros H; unfold copy; cbn [fst snd]; apply stpcpy_room, H. Qed.

Lemma html_cell_spec (x : Z) (pre tail : list ascii) :
  (15 < length tail)%nat ->
  match html_cell x (pre ++ tail, Z.of_nat (length pre)) with
  | Overflow => False
  | Invalid => valid_cell x = false
  | Ok st =>
      valid_cell x = true
      /\ exists tail',
          st = ((pre ++ html_cell_text x) ++ tail',
                Z.of_nat (length (pre ++ html_cell_text x)))
          /\ (length tail' + length (html_cell_text x) = length tail)%nat
          /\ (length (html_cell_text x) <= 15)%nat
          /\ exists rest, tail' = nul :: rest
  end.
Proof.
  intros H; unfold html_cell, html_cell_text.
  destruct (copy_room "<td>" pre tail ltac:(simpl; lia))
    as (t1 & -> & L1 & _); cbn [bind fst snd].
  simpl (length (list_ascii_of_string "<td>")) in L1.
  destruct (Z.eqb_spec x 0) as [->|Hnz].
  - destruct (copy_room "&nbsp;" (pre ++ list_ascii_of_string "<td>") t1
                ltac:(simpl; lia)) as (t2 & -> & L2 & _); cbn [bind].
    simpl (length (list_ascii_of_string "&nbsp;")) in L2.
    destruct (copy_room "</td>"
                ((pre ++ list_ascii_of_string "<td>")
                   ++ list_ascii_of_string "&nbsp;") t2 ltac:(simpl; lia))
      as (t3 & -> & L3 & N3).
    simpl (length (list_ascii_of_string "</td>")) in L3.
    split; [reflexivity|]; exists t3.
    rewrite <- !app_assoc; split; [reflexivity|].
    split; [simpl; lia|]; split; [simpl; lia|exact N3].
  - destruct ((1 <=? x) && (x <=? 9)) eqn:Hv.
    + change (b0 <- poke ((pre ++ list_ascii_of_string "<td>") ++ t1)
                      (Z.of_nat (length (pre ++ list_ascii_of_string "<td>")))
                      (chr (x + 48)) ;;
              b1 <- poke b0
                      (Z.of_nat (length (pre ++ list_ascii_of_string "<td>"))
                       + 1) nul ;;
              Ok (b1, Z.of_nat (length (pre ++ list_ascii_of_string "<td>"))
                      + 1))
        with (stpcpy ((pre ++ list_ascii_of_string "<td>") ++ t1)
                (Z.of_nat (length (pre ++ list_ascii_of_string "<td>")))
                [chr (x + 48)]).
      destruct (stpcpy_room [chr (x + 48)]
                  (pre ++ list_ascii_of_string "<td>") t1 ltac:(simpl; lia))
        as (t2 & -> & L2 & _); cbn [bind].
      simpl (length [chr (x + 48)]) in L2.
      destruct (copy_room "</td>"
                  ((pre ++ list_ascii_of_string "<td>") ++ [chr (x + 48)]) t2
                  ltac:(simpl; lia)) as (t3 & -> & L3 & N3).
      simpl (length (list_ascii_of_string "</td>")) in L3.
      rewrite andb_true_iff, !Z.leb_le in Hv.
      split; [apply valid_cell_range; lia|]; exists t3.
      rewrite <- !app_assoc; split; [reflexivity|].
      split; [simpl; lia|]; split; [simpl; lia|exact N3].
    + cbn [bind]; rewrite andb_false_iff, !Z.leb_gt in Hv.
      unfold valid_cell.
      destruct (Z.leb_spec 0 x); destruct (Z.leb_spec x 9); try reflexivity.
      lia.
Qed.

Lemma html_cells_spec (vals : list Z) (i : Z) (js : list Z) :
  forall pre tail,
    (15 * length js < length tail)%nat ->
    match html_cells vals i js (pre ++ tail, Z.of_nat (length pre)) with
    | Overflow => False
    | Invalid =>
        forallb (fun j => valid_cell (get vals (9 * i + j))) js = false
    | Ok st =>
        forallb (fun j => valid_cell (get vals (9 * i + j))) js = true
        /\ exists tail',
            st = ((pre ++ html_cells_text vals i js) ++ tail',
                  Z.of_nat (length (pre ++ html_cells_text vals i js)))
            /\ (length tail' + length (html_cells_text vals i js)
                = length tail)%nat
            /\ (length (html_cells_text vals i js) <= 15 * length js)%nat
  end.
Proof.
  induction js as [|j js IH]; intros pre tail H.
  { cbn [html_cells forallb]; split; [reflexivity|]; exists tail.
    unfold html_cells_text; cbn [flat_map]; rewrite app_nil_r.
    split; [reflexivity|]; simpl; lia. }
  cbn [length] in H; cbn [html_cells forallb].
  pose proof (html_cell_spec (get vals (9 * i + j)) pre tail ltac:(lia)) as C.
  destruct (html_cell (get vals (9 * i + j))
              (pre ++ tail, Z.of_nat (length pre))) as [| |st];
    cbn [bind]; [destruct C|rewrite C; reflexivity|].
  destruct C as (V & t1 & -> & L1 & B1 & _); rewrite V; cbn [andb].
  specialize (IH (pre ++ html_cell_text (get vals (9 * i + j))) t1
                ltac:(lia)).
  destruct (html_cells vals i js _) as [| |st]; [destruct IH|exact IH|].
  destruct IH as (V2 & t2 & -> & L2 & B2); split; [exact V2|]; exists t2.
  unfold html_cells_text in *; cbn [flat_map].
  rewrite <- !app_assoc; split; [reflexivity|].
  rewrite !length_app in *; cbn [length]; lia.
Qed.

Lemma html_rows_spec (vals : list Z) (rows : list Z) :
  forall pre tail,
    (144 * length rows < length tail)%nat ->
    match html_rows vals rows (pre ++ tail, Z.of_nat (length pre)) with
    | Overflow => False
    | Invalid =>
        forallb (fun i => forallb (fun j => valid_cell (get vals (9 * i + j)))
                            (range 9)) rows = false
    | Ok st =>
        forallb (fun i => forallb (fun j => valid_cell (get vals (9 * i + j)))
                            (range 9)) rows = true
        /\ exists tail',
            st = ((pre ++ html_rows_text vals rows) ++ tail',
                  Z.of_nat (length (pre ++ html_rows_text vals rows)))
            /\ (length tail' + length (html_rows_text vals rows)
                = length tail)%nat
            /\ (length (html_rows_text vals rows) <= 144 * length rows)%nat
  end.
Proof.
  induction rows as [|i rows IH]; intros pre tail H.
  { cbn [html_rows forallb]; split; [reflexivity|]; exists tail.
    unfold html_rows_text; cbn [flat_map]; rewrite app_nil_r.
    split; [reflexivity|]; simpl; lia. }
  cbn [length] in H; cbn [html_rows forallb]; unfold html_row.
  destruct (copy_room "<tr>" pre tail ltac:(simpl; lia))
    as (t1 & -> & L1 & _); cbn [bind].
  simpl (length (list_ascii_of_string "<tr>")) in L1.
  pose proof (html_cells_spec vals i (range 9)
                (pre ++ list_ascii_of_string "<tr>") t1
                ltac:(change (length (range 9)) with 9%nat; lia)) as C.
  destruct (html_cells vals i (range 9) _) as [| |st];
    cbn [bind]; [destruct C|rewrite C; reflexivity|].
  destruct C as (V & t2 & -> & L2 & B2); rewrite V; cbn [andb].
  change (length (range 9)) with 9%nat in B2.
  destruct (copy_room "</tr>"
              ((pre ++ list_ascii_of_string "<tr>")
                 ++ html_cells_text vals i (range 9)) t2 ltac:(simpl; lia))
    as (t3 & -> & L3 & _); cbn [bind].
  simpl (length (list_ascii_of_string "</tr>")) in L3.
  specialize (IH (((pre ++ list_ascii_of_string "<tr>")
                     ++ html_cells_text vals i (range 9))
                    ++ list_ascii_of_string "</tr>") t3 ltac:(lia)).
  destruct (html_rows vals rows _) as [| |st]; [destruct IH|exact IH|].
  destruct IH as (V2 & t4 & -> & L4 & B4); split; [exact V2|]; exists t4.
  unfold html_rows_text in *; cbn [flat_map].
  rewrite <- !app_assoc; split; [reflexivity|].
  rewrite !length_app in *.
  change (length (list_ascii_of_string "<tr>")) with 4%nat in *.
  change (length (list_ascii_of_string "</tr>")) with 5%nat in *.
  cbn [length]; lia.
Qed.

Lemma valid_cells_rows (vals : list Z) :
  forallb (fun i => forallb (fun j => valid_cell (get vals (9 * i + j)))
                      (range 9)) (range 9)
  = valid_cells vals.
Proof.
  unfold valid_cells.
  destruct (forallb (fun i => valid_cell (get vals i)) (range 81)) eqn:V.
  - rewrite forallb_forall in V; apply forallb_forall; intros i Hi.
    apply forallb_forall; intros j Hj; apply in_range in Hi, Hj.
    apply V, in_range; lia.
  - destruct (forallb_false_exists _ _ V) as (k & Hk & Fk).
    apply in_range in Hk.
    destruct (forallb _ (range 9)) eqn:W; [|reflexivity].
    rewrite forallb_forall in W.
    specialize (W (k / 9) ltac:(apply in_range; split;
                                [apply Z.div_pos; lia
                                |apply Z.div_lt_upper_bound; lia])).
    rewrite forallb_forall in W.
    specialize (W (k mod 9) ltac:(apply in_range; apply Z.mod_pos_bound; lia)).
    rewrite <- Z.div_mod in W by lia; congruence.
Qed.

Lemma html_spec (vals : list Z) (tail : list ascii) :
  (1326 < length tail)%nat ->
  match SuDoKu__to_html vals tail with
  | Overflow => False
  | Invalid => valid_cells vals = false
  | Ok b =>
      valid_cells vals = true
      /\ (length (html_text vals) <= 1326)%nat
      /\ exists rest, b = html_text vals ++ nul :: rest
  end.
Proof.
  intros H; unfold SuDoKu__to_html, html_text.
  set (head := ("<table class=" ++ quote ++ "sudoku" ++ quote ++ ">")%string).
  destruct (copy_room head [] tail ltac:(simpl; lia))
    as (t1 & E1 & L1 & _).
  cbn [app length] in E1; change (Z.of_nat 0) with 0 in E1.
  rewrite E1; cbn [bind].
  simpl (length (list_ascii_of_string head)) in L1.
  pose proof (html_rows_spec vals (range 9) (list_ascii_of_string head) t1
                ltac:(change (length (range 9)) with 9%nat; lia)) as C.
  rewrite valid_cells_rows in C.
  destruct (html_rows vals (range 9) _) as [| |st];
    cbn [bind]; [destruct C|exact C|].
  destruct C as (V & t2 & -> & L2 & B2).
  change (length (range 9)) with 9%nat in B2.
  destruct (copy_room "</table>"
              (list_ascii_of_string head ++ html_rows_text vals (range 9)) t2
              ltac:(simpl; lia)) as (t3 & -> & L3 & (rest & ->)).
  cbn [bind fst]; split; [exact V|]; split.
  - rewrite !length_app.
    simpl (length (list_ascii_of_string head)).
    simpl (length (list_ascii_of_string "</table>")); lia.
  - exists rest; rewrite <- !app_assoc; reflexivity.
Qed.


Lemma upd_app_r {A : Type} (pre l : list A) (k : nat) (x : A) :
  upd (pre ++ l) (length pre + k) x = pre ++ upd l k x.
Proof. induction pre as [|h pre IH]; simpl; [reflexivity|f_equal; exact IH]. Qed.

Lemma poke_inside (pre line rest : list ascii) (z : Z) (ch : ascii) :
  0 <= z < Z.of_nat (length line) ->
  poke (pre ++ line ++ rest) (Z.of_nat (length pre) + z) ch
  = Ok (pre ++ upd line (Z.to_nat z) ch ++ rest).
Proof.
  intros Hz; unfold poke; rewrite !length_app.
  destruct (Z.leb_spec 0 (Z.of_nat (length pre) + z)); [|lia].
  destruct (Z.ltb_spec (Z.of_nat (length pre) + z)
              (Z.of_nat (length pre + (length line + length rest)))); [|lia].
  cbn [andb].
  replace (Z.to_nat (Z.of_nat (length pre) + z))
    with (length pre + Z.to_nat z)%nat by lia.
  rewrite upd_app_r, upd_app_l by lia; reflexivity.
Qed.

Lemma console_cells_spec (vals : list Z) (i : Z) (pre rest : list ascii)
  (js : list Z) :
  Forall (fun j => 0 <= j <= 8) js ->
  forall line,
    length line = 38%nat ->
    match console_cells vals i js (Z.of_nat (length pre))
            (pre ++ line ++ rest) with
    | Overflow => False
    | Invalid =>
        forallb (fun j => valid_cell (get vals (9 * i + j))) js = false
    | Ok b =>
        forallb (fun j => valid_cell (get vals (9 * i + j))) js = true
        /\ b = pre ++ console_line vals i js line ++ rest
        /\ length (console_line vals i js line) = 38%nat
    end.
Proof.
  induction 1 as [|j js Hj Hjs IH]; intros line L.
  { cbn [console_cells forallb]; split; [reflexivity|]; split;
      [reflexivity|exact L]. }
  cbn [console_cells forallb]; cbv zeta.
  unfold console_line; cbn [fold_left]; fold (console_line vals i js).
  unfold console_step at 2 4.
  set (k := get vals (9 * i + j)).
  assert (Hvc : valid_cell k = ((0 <=? k) && (k <=? 9))) by reflexivity.
  rewrite Hvc.
  destruct (Z.eqb_spec k 0) as [Hz|Hnz].
  - rewrite Hz; cbn [Z.leb Z.compare andb]; apply IH, L.
  - destruct ((1 <=? k) && (k <=? 9)) eqn:Hv.
    + rewrite poke_inside by lia; cbn [bind].
      rewrite andb_true_iff, !Z.leb_le in Hv.
      destruct (Z.leb_spec 0 k); [|lia].
      destruct (Z.leb_spec k 9); [|lia].
      cbn [andb]; apply IH; rewrite length_upd; exact L.
    + rewrite andb_false_iff, !Z.leb_gt in Hv.
      destruct (Z.leb_spec 0 k); destruct (Z.leb_spec k 9);
        try reflexivity; lia.
Qed.

Lemma console_row_spec (vals : list Z) (i : Z) (pre tail : list ascii) :
  (76 < length tail)%nat ->
  match console_row vals i (pre ++ tail, Z.of_nat (length pre)) with
  | Overflow => False
  | Invalid =>
      forallb (fun j => valid_cell (get vals (9 * i + j))) (range 9) = false
  | Ok st =>
      forallb (fun j => valid_cell (get vals (9 * i + j))) (range 9) = true
      /\ exists tail',
          st = ((pre ++ console_text vals [i]) ++ tail',
                Z.of_nat (length (pre ++ console_text vals [i])))
          /\ (length tail' + 76 = length tail)%nat
          /\ length (console_text vals [i]) = 76%nat
  end.
Proof.
  intros H; unfold console_row.
  destruct (copy_room lin pre tail ltac:(simpl; lia))
    as (t1 & -> & L1 & _); cbn [bind fst snd].
  change (length (list_ascii_of_string lin)) with 38%nat in L1.
  rewrite <- app_assoc.
  assert (Hjs : Forall (fun j => 0 <= j <= 8) (range 9)).
  { apply Forall_forall; intros j Hj; apply in_range in Hj; lia. }
  pose proof (console_cells_spec vals i pre t1 (range 9) Hjs
                (list_ascii_of_string lin) eq_refl) as C.
  destruct (console_cells vals i (range 9) _ _) as [| |b];
    cbn [bind]; [destruct C|exact C|].
  destruct C as (V & -> & L2).
  set (line := console_line vals i (range 9) (list_ascii_of_string lin)) in *.
  replace (Z.of_nat (length (pre ++ list_ascii_of_string lin)))
    with (Z.of_nat (length (pre ++ line)))
    by (rewrite !length_app, L2; reflexivity).
  rewrite app_assoc.
  destruct (copy_room sep (pre ++ line) t1 ltac:(simpl; lia))
    as (t2 & -> & L3 & _).
  change (length (list_ascii_of_string sep)) with 38%nat in L3.
  split; [exact V|].
  exists t2; unfold console_text; cbn [flat_map]; fold line.
  rewrite app_nil_r, <- !app_assoc; split; [reflexivity|].
  split; [lia|rewrite length_app, L2; reflexivity].
Qed.

Lemma console_text_cons (vals : list Z) (i : Z) (rows : list Z) :
  console_text vals (i :: rows) = console_text vals [i] ++ console_text vals rows.
Proof. unfold console_text; cbn [flat_map]; rewrite app_nil_r; reflexivity. Qed.

Lemma console_rows_spec (vals : list Z) (rows : list Z) :
  forall pre tail,
    (76 * length rows < length tail)%nat ->
    match console_rows vals rows (pre ++ tail, Z.of_nat (length pre)) with
    | Overflow => False
    | Invalid =>
        forallb (fun i => forallb (fun j => valid_cell (get vals (9 * i + j)))
                            (range 9)) rows = false
    | Ok st =>
        forallb (fun i => forallb (fun j => valid_cell (get vals (9 * i + j)))
                            (range 9)) rows = true
        /\ exists tail',
            st = ((pre ++ console_text vals rows) ++ tail',
                  Z.of_nat (length (pre ++ console_text vals rows)))
            /\ length (console_text vals rows) = (76 * length rows)%nat
  end.
Proof.
  induction rows as [|i rows IH]; intros pre tail H.
  { cbn [console_rows forallb]; split; [reflexivity|]; exists tail.
    unfold console_text; cbn [flat_map]; rewrite app_nil_r.
    split; reflexivity. }
  cbn [length] in H; cbn [console_rows forallb].
  pose proof (console_row_spec vals i pre tail ltac:(lia)) as C.
  destruct (console_row vals i _) as [| |st];
    cbn [bind]; [destruct C|rewrite C; reflexivity|].
  destruct C as (V & t1 & -> & L1 & B1); rewrite V; cbn [andb].
  specialize (IH (pre ++ console_text vals [i]) t1 ltac:(lia)).
  destruct (console_rows vals rows _) as [| |st]; [destruct IH|exact IH|].
  destruct IH as (V2 & t2 & -> & B2); split; [exact V2|]; exists t2.
  rewrite (console_text_cons vals i rows), <- !app_assoc.
  split; [reflexivity|].
  rewrite length_app, B1, B2; cbn [length]; lia.
Qed.

Lemma console_spec (vals : list Z) (tail : list ascii) :
  (722 < length tail)%nat ->
  match SuDoKu__to_console vals tail with
  | Overflow => False
  | Invalid => valid_cells vals = false
  | Ok b =>
      valid_cells vals = true
      /\ length (list_ascii_of_string sep ++ console_text vals (range 9))
         = 722%nat
      /\ exists rest,
          b = removelast (list_ascii_of_string sep
                          ++ console_text vals (range 9))
              ++ nul :: rest
  end.
Proof.
  intros H; unfold SuDoKu__to_console.
  destruct (copy_room sep [] tail ltac:(simpl; lia)) as (t1 & E1 & L1 & _).
  cbn [app length] in E1; change (Z.of_nat 0) with 0 in E1.
  rewrite E1; cbn [bind].
  change (length (list_ascii_of_string sep)) with 38%nat in L1.
  pose proof (console_rows_spec vals (range 9) (list_ascii_of_string sep) t1
                ltac:(change (length (range 9)) with 9%nat; lia)) as C.
  rewrite valid_cells_rows in C.
  destruct (console_rows vals (range 9) _) as [| |st];
    cbn [bind]; [destruct C|exact C|].
  destruct C as (V & t2 & -> & B2); cbn [fst snd].
  change (length (range 9)) with 9%nat in B2.
  set (text := list_ascii_of_string sep ++ console_text vals (range 9)) in *.
  assert (Lt : length text = 722%nat).
  { unfold text; rewrite length_app, B2; reflexivity. }
  assert (Hne : text <> []) by (intros E; rewrite E in Lt; discriminate).
  clearbody text; destruct (exists_last Hne) as (body & x & ->).
  rewrite removelast_last, <- app_assoc; cbn [app].
  replace (Z.of_nat (length (body ++ [x])) - 1) with (Z.of_nat (length body))
    by (rewrite length_app; simpl; lia).
  rewrite poke_middle.
  split; [exact V|]; split; [exact Lt|]; exists t2; reflexivity.
Qed.


Lemma no_nul_Forall (l : list ascii) :
  no_nul l = true -> Forall (fun ch => code ch <> 0) l.
Proof.
  unfold no_nul; rewrite forallb_forall; intros H.
  apply Forall_forall; intros ch Hin.
  apply H, negb_true_iff, Z.eqb_neq in Hin; exact Hin.
Qed.

Lemma no_nul_app (l1 l2 : list ascii) :
  no_nul (l1 ++ l2) = no_nul l1 && no_nul l2.
Proof. apply forallb_app. Qed.

Lemma no_nul_flat_map {A : Type} (f : A -> list ascii) (l : list A) :
  (forall x, In x l -> no_nul (f x) = true) -> no_nul (flat_map f l) = true.
Proof.
  induction l as [|x l IH]; intros H; [reflexivity|].
  cbn [flat_map]; rewrite no_nul_app, H, IH; [reflexivity| |left; reflexivity].
  intros y Hy; apply H; right; exact Hy.
Qed.

Lemma no_nul_upd (l : list ascii) (k : nat) (ch : ascii) :
  no_nul l = true -> code ch <> 0 -> no_nul (upd l k ch) = true.
Proof.
  revert k; induction l as [|h l IH]; intros k H Hch; [reflexivity|].
  cbn [no_nul forallb] in H; apply andb_true_iff in H; destruct H as (H1 & H2).
  destruct k as [|k]; cbn [upd no_nul forallb].
  - apply Z.eqb_neq in Hch; rewrite Hch; exact H2.
  - rewrite H1; apply IH; assumption.
Qed.

Lemma digit_no_nul (x : Z) :
  valid_cell x = true -> x <> 0 -> code (chr (x + 48)) <> 0.
Proof.
  intros V Hnz; destruct (cell_char_facts x V) as (H & _).
  unfold cell_char in H; destruct (Z.eqb_spec x 0); [contradiction|exact H].
Qed.

Lemma html_text_no_nul (vals : list Z) :
  valid_cells vals = true -> no_nul (html_text vals) = true.
Proof.
  intros V; unfold valid_cells in V; rewrite forallb_forall in V.
  unfold html_text, html_rows_text, html_cells_text.
  rewrite !no_nul_app; apply andb_true_iff; split; [reflexivity|].
  apply andb_true_iff; split; [|reflexivity].
  apply no_nul_flat_map; intros i Hi; rewrite !no_nul_app.
  apply andb_true_iff; split; [reflexivity|].
  apply andb_true_iff; split; [|reflexivity].
  apply no_nul_flat_map; intros j Hj; unfold html_cell_text.
  apply in_range in Hi, Hj.
  specialize (V (9 * i + j) ltac:(apply in_range; lia)).
  rewrite !no_nul_app; apply andb_true_iff; split; [reflexivity|].
  apply andb_true_iff; split; [|reflexivity].
  destruct (Z.eqb_spec (get vals (9 * i + j)) 0) as [_|Hnz]; [reflexivity|].
  cbn [no_nul forallb]; rewrite andb_true_r.
  apply negb_true_iff, Z.eqb_neq, digit_no_nul; assumption.
Qed.

Lemma console_line_no_nul (vals : list Z) (i : Z) (js : list Z) :
  (forall j, In j js -> valid_cell (get vals (9 * i + j)) = true) ->
  forall l, no_nul l = true -> no_nul (console_line vals i js l) = true.
Proof.
  induction js as [|j js IH]; intros V l H; [exact H|].
  unfold console_line; cbn [fold_left]; fold (console_line vals i js).
  apply IH; [intros x Hx; apply V; right; exact Hx|].
  unfold console_step.
  destruct (Z.eqb_spec (get vals (9 * i + j)) 0) as [_|Hnz]; [exact H|].
  apply no_nul_upd; [exact H|].
  apply digit_no_nul; [apply V; left; reflexivity|exact Hnz].
Qed.

Lemma console_output_no_nul (vals : list Z) :
  valid_cells vals = true -> no_nul (console_output vals) = true.
Proof.
  intros V; unfold valid_cells in V; rewrite forallb_forall in V.
  assert (H : no_nul (list_ascii_of_string sep ++ console_text vals (range 9))
              = true).
  { rewrite no_nul_app; apply andb_true_iff; split; [reflexivity|].
    apply no_nul_flat_map; intros i Hi; rewrite no_nul_app.
    apply andb_true_iff; split; [|reflexivity].
    apply console_line_no_nul; [|reflexivity].
    intros j Hj; apply in_range in Hi, Hj; apply V, in_range; lia. }
  unfold console_output.
  destruct (list_ascii_of_string sep ++ console_text vals (range 9))
    as [|h l] eqn:E using rev_ind; [reflexivity|].
  rewrite removelast_last; rewrite no_nul_app in H.
  apply andb_true_iff in H; apply H.
Qed.

(** The three formats of [SuDoKu_to_string] on an array of values. *)
Lemma formats_spec (vals : list Z) :
  (valid_cells vals = false
   /\ finish (SuDoKu__to_console vals (repeat nul (19 * 38 + 1)))
      = StrValueError
   /\ finish (SuDoKu__to_html vals (repeat nul (9 * 144 + 30 + 1)))
      = StrValueError
   /\ finish (SuDoKu__to_string vals (repeat nul (81 + 1)) 0) = StrValueError)
  \/ (valid_cells vals = true
      /\ finish (SuDoKu__to_console vals (repeat nul (19 * 38 + 1)))
         = StrReturned (string_of_list_ascii (console_output vals))
      /\ finish (SuDoKu__to_html vals (repeat nul (9 * 144 + 30 + 1)))
         = StrReturned (string_of_list_ascii (html_text vals))
      /\ finish (SuDoKu__to_string vals (repeat nul (81 + 1)) 0)
         = StrReturned (string_of_list_ascii (grid_text vals))).
Proof.
  pose proof (console_spec vals (repeat nul (19 * 38 + 1))
                ltac:(rewrite repeat_length; simpl; lia)) as C.
  pose proof (html_spec vals (repeat nul (9 * 144 + 30 + 1))
                ltac:(rewrite repeat_length; simpl; lia)) as H.
  pose proof (to_string_spec vals [] (repeat nul (81 + 1))
                ltac:(rewrite repeat_length; simpl; lia)) as S.
  cbn [app length] in S; change (Z.of_nat 0) with 0 in S.
  destruct (valid_cells vals) eqn:V; [right|left]; split; try reflexivity.
  - destruct (SuDoKu__to_console vals _) as [| |b1];
      [destruct C|discriminate C|].
    destruct (SuDoKu__to_html vals _) as [| |b2];
      [destruct H|discriminate H|].
    destruct (SuDoKu__to_string vals _ 0) as [| |b3];
      [destruct S|discriminate S|].
    destruct C as (_ & _ & r1 & ->), H as (_ & _ & r2 & ->), S as (_ & ->).
    cbn [finish app].
    rewrite !c_string_text;
      [auto|apply grid_text_chars; exact V
      |apply no_nul_Forall, html_text_no_nul; exact V
      |apply no_nul_Forall, console_output_no_nul; exact V].
  - destruct (SuDoKu__to_console vals _) as [| |b1];
      [destruct C| |destruct C; discriminate].
    destruct (SuDoKu__to_html vals _) as [| |b2];
      [destruct H| |destruct H; discriminate].
    destruct (SuDoKu__to_string vals _ 0) as [| |b3];
      [destruct S| |destruct S; discriminate].
    auto.
Qed.


Lemma nth_flat_map_fixed {A : Type} (f : A -> list ascii) (w : nat)
  (d : ascii) (a0 : A) :
  (forall x, length (f x) = w) ->
  forall (l : list A) (i z : nat),
    (z < w)%nat -> (i < length l)%nat ->
    nth (w * i + z) (flat_map f l) d = nth z (f (nth i l a0)) d.
Proof.
  intros Hw; induction l as [|x l IH]; intros i z Hz Hi; [simpl in Hi; lia|].
  cbn [flat_map]; destruct i as [|i].
  - rewrite Nat.mul_0_r, app_nth1 by (rewrite Hw; exact Hz); reflexivity.
  - rewrite app_nth2 by (rewrite Hw; lia).
    replace (w * S i + z - length (f x))%nat with (w * i + z)%nat
      by (rewrite Hw; lia).
    apply IH; [exact Hz|simpl in Hi; lia].
Qed.

Lemma console_line_cons (vals : list Z) (i j : Z) (js : list Z)
  (l : list ascii) :
  console_line vals i (j :: js) l
  = console_line vals i js (console_step vals i l j).
Proof. reflexivity. Qed.

Lemma console_line_length (vals : list Z) (i : Z) (js : list Z) :
  forall l, length (console_line vals i js l) = length l.
Proof.
  induction js as [|j js IH]; intros l; [reflexivity|].
  rewrite console_line_cons, IH; unfold console_step.
  destruct (get vals (9 * i + j) =? 0); [reflexivity|apply length_upd].
Qed.

Lemma console_line_nth (vals : list Z) (i j : Z) (d : ascii) (js : list Z) :
  0 <= j <= 8 -> Forall (fun x => 0 <= x <= 8) js ->
  forall l,
    length l = 38%nat ->
    nth (Z.to_nat (4 * j + 2)) (console_line vals i js l) d
    = if existsb (Z.eqb j) js && negb (get vals (9 * i + j) =? 0)
      then chr (get vals (9 * i + j) + 48)
      else nth (Z.to_nat (4 * j + 2)) l d.
Proof.
  intros Hj Hjs; induction Hjs as [|x js Hx Hjs IH]; intros l L;
    [reflexivity|].
  rewrite console_line_cons; cbn [existsb].
  rewrite IH by (unfold console_step;
                 destruct (get vals (9 * i + x) =? 0);
                 [exact L|rewrite length_upd; exact L]).
  unfold console_step.
  destruct (Z.eqb_spec j x) as [<-|Hne]; cbn [orb].
  - destruct (Z.eqb_spec (get vals (9 * i + j)) 0) as [Hz|Hnz]; cbn [negb].
    + rewrite !andb_false_r; reflexivity.
    + rewrite !andb_true_r.
      destruct (existsb (Z.eqb j) js); [reflexivity|].
      apply nth_upd_eq; lia.
  - destruct (existsb (Z.eqb j) js && negb (get vals (9 * i + j) =? 0));
      [reflexivity|].
    destruct (get vals (9 * i + x) =? 0); [reflexivity|].
    apply nth_upd_neq; lia.
Qed.

Lemma nth_removelast {A : Type} (l : list A) (k : nat) (d : A) :
  (S k < length l)%nat -> nth k (removelast l) d = nth k l d.
Proof.
  intros H; destruct l as [|h l] using rev_ind; [simpl in H; lia|].
  rewrite removelast_last, app_nth1; [reflexivity|].
  rewrite length_app in H; simpl in H; lia.
Qed.

(** The cell of row [i] and column [j] in the console format. *)
Lemma console_output_cell (vals : list Z) (i j : Z) :
  0 <= i <= 8 -> 0 <= j <= 8 ->
  nth (Z.to_nat (38 + 76 * i + (4 * j + 2))) (console_output vals) nul
  = if get vals (9 * i + j) =? 0 then " "%char
    else chr (get vals (9 * i + j) + 48).
Proof.
  intros Hi Hj; unfold console_output.
  assert (Hw : forall x,
            length (console_line vals x (range 9) (list_ascii_of_string lin)
                    ++ list_ascii_of_string sep) = 76%nat).
  { intros x; rewrite length_app, console_line_length; reflexivity. }
  assert (Lt : length (console_text vals (range 9)) = (76 * 9)%nat).
  { assert (G : forall rows,
              length (console_text vals rows) = (76 * length rows)%nat).
    { induction rows as [|x l IH]; [reflexivity|].
      rewrite console_text_cons, length_app, IH.
      unfold console_text; cbn [flat_map]; rewrite app_nil_r, Hw.
      cbn [length]; lia. }
    apply G. }
  rewrite nth_removelast
    by (rewrite length_app, Lt;
        change (length (list_ascii_of_string sep)) with 38%nat; lia).
  rewrite app_nth2
    by (change (length (list_ascii_of_string sep)) with 38%nat; lia).
  change (length (list_ascii_of_string sep)) with 38%nat.
  replace (Z.to_nat (38 + 76 * i + (4 * j + 2)) - 38)%nat
    with (76 * Z.to_nat i + Z.to_nat (4 * j + 2))%nat by lia.
  unfold console_text.
  rewrite (nth_flat_map_fixed _ 76 nul 0 Hw)
    by (try (change (length (range 9)) with 9%nat); lia).
  assert (Hnth : nth (Z.to_nat i) (range 9) 0 = i).
  { rewrite <- (map_id (range 9)), nth_map_range by lia; lia. }
  rewrite Hnth.
  rewrite app_nth1
    by (rewrite console_line_length;
        change (length (list_ascii_of_string lin)) with 38%nat; lia).
  assert (Hjs : Forall (fun x => 0 <= x <= 8) (range 9)).
  { apply Forall_forall; intros x Hx; apply in_range in Hx; lia. }
  rewrite (console_line_nth vals i j nul (range 9) Hj Hjs
             (list_ascii_of_string lin) eq_refl).
  assert (Hin : existsb (Z.eqb j) (range 9) = true).
  { apply existsb_exists; exists j; split; [apply in_range; lia|].
    apply Z.eqb_refl. }
  rewrite Hin; cbn [andb].
  destruct (get vals (9 * i + j) =? 0); cbn [negb]; [|reflexivity].
  assert (C : j = 0 \/ j = 1 \/ j = 2 \/ j = 3 \/ j = 4 \/ j = 5 \/ j = 6
              \/ j = 7 \/ j = 8) by lia.
  repeat (destruct C as [->|C]; [reflexivity|]); subst; reflexivity.
Qed.

(** ** The method [to_string] *)

(** X15: [SuDoKu_to_string] never writes outside of the block it
    allocates, for every format and every grid of values; with the
    clues as values, an unknown format is the only reason for the
    invalid-format error and a clue outside 0..9 the only one for the
    ValueError of the formatters. *)
Theorem to_string_outcome
  (s : SuDoKu) (format : string) (values : option pyobj) (cvalues0 : list Z) :
  SuDoKu_to_string s format values cvalues0 <> StrOverflow
  /\ (SuDoKu_to_string s format None cvalues0 = StrInvalidFormat
      <-> format <> "console"%string /\ format <> "html"%string
          /\ format <> "string"%string)
  /\ (SuDoKu_to_string s format None cvalues0 = StrValueError
      <-> (format = "console"%string \/ format = "html"%string
           \/ format = "string"%string)
          /\ valid_cells (o s) = false).
Proof.
  assert (F : forall vals,
            let r := if String.eqb format "console" then
                       finish (SuDoKu__to_console vals
                                 (repeat nul (19 * 38 + 1)))
                     else if String.eqb format "html" then
                       finish (SuDoKu__to_html vals
                                 (repeat nul (9 * 144 + 30 + 1)))
                     else if String.eqb format "string" then
                       finish (SuDoKu__to_string vals
                                 (repeat nul (81 + 1)) 0)
                     else StrInvalidFormat in
            r <> StrOverflow
            /\ (r = StrInvalidFormat
                <-> format <> "console"%string /\ format <> "html"%string
                    /\ format <> "string"%string)
            /\ (r = StrValueError
                <-> (format = "console"%string \/ format = "html"%string
                     \/ format = "string"%string)
                    /\ valid_cells vals = false)).
  { intros vals; cbv zeta.
    assert (G : forall x,
              (valid_cells vals = false /\ x = StrValueError)
              \/ (valid_cells vals = true /\ exists str, x = StrReturned str)
              -> x <> StrOverflow /\ x <> StrInvalidFormat
                 /\ (x = StrValueError <-> valid_cells vals = false)).
    { intros x [(V & ->)|(V & str & ->)]; rewrite V;
        (split; [discriminate|]); (split; [discriminate|]);
        split; try discriminate; reflexivity. }
    destruct (formats_spec vals) as [(V & A & B & C)|(V & A & B & C)].
    - pose proof (G _ (or_introl (conj V A))) as Gc.
      pose proof (G _ (or_introl (conj V B))) as Gh.
      pose proof (G _ (or_introl (conj V C))) as Gs.
      clear A B C G.
      revert Gc Gh Gs.
      generalize (finish (SuDoKu__to_console vals (repeat nul (19 * 38 + 1)))).
      generalize (finish (SuDoKu__to_html vals
                            (repeat nul (9 * 144 + 30 + 1)))).
      generalize (finish (SuDoKu__to_string vals (repeat nul (81 + 1)) 0)).
      intros rs rh rc (C1 & C2 & C3) (H1 & H2 & H3) (S1 & S2 & S3).
      destruct (String.eqb_spec format "console") as [->|N1];
        [split; [exact C1|]; split;
         [split; [intros X; destruct (C2 X)|intros (X & _); destruct X;
                                            reflexivity]
         |split; [intros X; split; [auto|apply C3, X]
                 |intros (_ & X); apply C3, X]]|].
      destruct (String.eqb_spec format "html") as [->|N2];
        [split; [exact H1|]; split;
         [split; [intros X; destruct (H2 X)
                 |intros (_ & X & _); destruct X; reflexivity]
         |split; [intros X; split; [auto|apply H3, X]
                 |intros (_ & X); apply H3, X]]|].
      destruct (String.eqb_spec format "string") as [->|N3];
        [split; [exact S1|]; split;
         [split; [intros X; destruct (S2 X)
                 |intros (_ & _ & X); destruct X; reflexivity]
         |split; [intros X; split; [auto|apply S3, X]
                 |intros (_ & X); apply S3, X]]|].
      split; [discriminate|]; split; [split; auto|].
      split; [discriminate|intros ([X|[X|X]] & _); contradiction].
    - pose proof (G _ (or_intror (conj V (ex_intro _ _ A)))) as Gc.
      pose proof (G _ (or_intror (conj V (ex_intro _ _ B)))) as Gh.
      pose proof (G _ (or_intror (conj V (ex_intro _ _ C)))) as Gs.
      clear A B C G.
      revert Gc Gh Gs.
      generalize (finish (SuDoKu__to_console vals (repeat nul (19 * 38 + 1)))).
      generalize (finish (SuDoKu__to_html vals
                            (repeat nul (9 * 144 + 30 + 1)))).
      generalize (finish (SuDoKu__to_string vals (repeat nul (81 + 1)) 0)).
      intros rs rh rc (C1 & C2 & C3) (H1 & H2 & H3) (S1 & S2 & S3).
      destruct (String.eqb_spec format "console") as [->|N1];
        [split; [exact C1|]; split;
         [split; [intros X; destruct (C2 X)|intros (X & _); destruct X;
                                            reflexivity]
         |split; [intros X; split; [auto|apply C3, X]
                 |intros (_ & X); apply C3, X]]|].
      destruct (String.eqb_spec format "html") as [->|N2];
        [split; [exact H1|]; split;
         [split; [intros X; destruct (H2 X)
                 |intros (_ & X & _); destruct X; reflexivity]
         |split; [intros X; split; [auto|apply H3, X]
                 |intros (_ & X); apply H3, X]]|].
      destruct (String.eqb_spec format "string") as [->|N3];
        [split; [exact S1|]; split;
         [split; [intros X; destruct (S2 X)
                 |intros (_ & _ & X); destruct X; reflexivity]
         |split; [intros X; split; [auto|apply S3, X]
                 |intros (_ & X); apply S3, X]]|].
      split; [discriminate|]; split; [split; auto|].
      split; [discriminate|intros ([X|[X|X]] & _); contradiction]. }
  split; [|exact (proj2 (F (o s)))].
  unfold SuDoKu_to_string.
  destruct values as [x|]; [|exact (proj1 (F (o s)))].
  destruct (SuDoKu_set2darray cvalues0 (Some x)) as [[err|] cv];
    [destruct err; discriminate|exact (proj1 (F cv))].
Qed.

(** X16: the console format.  For clues in 0..9 the method returns 721
    characters, and the cell of row [i] and column [j] stands at offset
    [38 + 76 i + 4 j + 2]: a space for a blank, else the digit. *)
Theorem to_string_console (s : SuDoKu) (cvalues0 : list Z) :
  valid_cells (o s) = true ->
  exists str,
    SuDoKu_to_string s "console" None cvalues0 = StrReturned str
    /\ String.length str = 721%nat
    /\ forall i j, 0 <= i <= 8 -> 0 <= j <= 8 ->
         nth (Z.to_nat (38 + 76 * i + (4 * j + 2)))
           (list_ascii_of_string str) nul
         = if get (o s) (9 * i + j) =? 0 then " "%char
           else chr (get (o s) (9 * i + j) + 48).
Proof.
  intros V; exists (string_of_list_ascii (console_output (o s))).
  destruct (formats_spec (o s)) as [(V' & _)|(_ & A & _)]; [congruence|].
  split; [exact A|].
  rewrite length_string_of_list, list_ascii_of_string_of_list_ascii.
  split; [|intros i j Hi Hj; apply console_output_cell; assumption].
  pose proof (console_spec (o s) (repeat nul (19 * 38 + 1))
                ltac:(rewrite repeat_length; simpl; lia)) as C.
  destruct (SuDoKu__to_console (o s) _) as [| |b];
    [destruct C|congruence|].
  destruct C as (_ & L & _); unfold console_output.
  destruct (list_ascii_of_string sep ++ console_text (o s) (range 9))
    as [|h l] using rev_ind; [discriminate|].
  rewrite removelast_last; rewrite length_app in L; simpl in L; lia.
Qed.

Lemma to_string_console_witness :
  exists str,
    SuDoKu_to_string demo_grid "console" None [] = StrReturned str
    /\ String.length str = 721%nat
    /\ forall i j, 0 <= i <= 8 -> 0 <= j <= 8 ->
         nth (Z.to_nat (38 + 76 * i + (4 * j + 2)))
           (list_ascii_of_string str) nul
         = if get (o demo_grid) (9 * i + j) =? 0 then " "%char
           else chr (get (o demo_grid) (9 * i + j) + 48).
Proof. apply (to_string_console demo_grid []); reflexivity. Defined.

(** X17: the HTML format.  For clues in 0..9 the method returns the
    table, a [td] element per cell with the digit or [&nbsp;], in at
    most 1326 characters: with its NUL the longest table fills the block
    of [9 * 144 + 30 + 1] characters. *)
Theorem to_string_html (s : SuDoKu) (cvalues0 : list Z) :
  valid_cells (o s) = true ->
  SuDoKu_to_string s "html" None cvalues0
  = StrReturned (string_of_list_ascii (html_text (o s)))
  /\ (length (html_text (o s)) <= 1326)%nat
  /\ ((forall k, in_grid k -> get (o s) k = 0) ->
      length (html_text (o s)) = 1326%nat).
Proof.
  intros V.
  destruct (formats_spec (o s)) as [(V' & _)|(_ & _ & B & _)]; [congruence|].
  split; [exact B|].
  pose proof (html_spec (o s) (repeat nul (9 * 144 + 30 + 1))
                ltac:(rewrite repeat_length; simpl; lia)) as C.
  destruct (SuDoKu__to_html (o s) _) as [| |b]; [destruct C|congruence|].
  destruct C as (_ & L & _); split; [exact L|].
  intros Hz; unfold html_text, html_rows_text, html_cells_text.
  rewrite !length_app.
  assert (R : forall i, In i (range 9) ->
            length (flat_map (fun j => html_cell_text (get (o s) (9 * i + j)))
                      (range 9)) = 135%nat).
  { intros i Hi; apply in_range in Hi.
    assert (C : forall js, Forall (fun j => 0 <= j <= 8) js ->
              length (flat_map
                        (fun j => html_cell_text (get (o s) (9 * i + j))) js)
              = (15 * length js)%nat).
    { induction 1 as [|j js Hj Hjs IH]; [reflexivity|].
      cbn [flat_map length]; rewrite length_app, IH.
      rewrite (Hz (9 * i + j)) by (unfold in_grid; lia).
      change (length (html_cell_text 0)) with 15%nat; lia. }
    rewrite C; [reflexivity|].
    apply Forall_forall; intros j Hj; apply in_range in Hj; lia. }
  assert (T : forall rows, (forall i, In i rows -> In i (range 9)) ->
            length (flat_map
                      (fun i => list_ascii_of_string "<tr>"
                                ++ flat_map (fun j => html_cell_text
                                                        (get (o s) (9 * i + j)))
                                     (range 9)
                                ++ list_ascii_of_string "</tr>") rows)
            = (144 * length rows)%nat).
  { induction rows as [|i rows IH]; intros Hin; [reflexivity|].
    cbn [flat_map length]; rewrite !length_app, R, IH;
      [|intros x Hx; apply Hin; right; exact Hx|apply Hin; left; reflexivity].
    change (length (list_ascii_of_string "<tr>")) with 4%nat.
    change (length (list_ascii_of_string "</tr>")) with 5%nat; lia. }
  rewrite T by auto; reflexivity.
Qed.

Lemma to_string_html_witness :
  SuDoKu_to_string SuDoKu_new "html" None []
  = StrReturned (string_of_list_ascii (html_text (o SuDoKu_new)))
  /\ (length (html_text (o SuDoKu_new)) <= 1326)%nat
  /\ ((forall k, in_grid k -> get (o SuDoKu_new) k = 0) ->
      length (html_text (o SuDoKu_new)) = 1326%nat).
Proof. apply (to_string_html SuDoKu_new []); reflexivity. Defined.


(** ** The 2D arrays *)

Lemma set_cells_frame (i : Z) (r : list pyobj) (js : list Z) :
  0 <= i -> Forall (fun j => 0 <= j <= 8) js ->
  forall a,
    length (snd (set_cells a i js r)) = length a
    /\ forall k, ~ 9 * i <= k < 9 * i + 9 ->
         get (snd (set_cells a i js r)) k = get a k.
Proof.
  intros Hi Hjs; induction Hjs as [|j js Hj Hjs IH]; intros a;
    [split; reflexivity|].
  cbn [set_cells].
  destruct (nth (Z.to_nat j) r PyOther) as [x|l|]; try (split; reflexivity).
  destruct (IH (put a (9 * i + j) (PyLong_AsLong x mod 256))) as (L & G).
  split; [rewrite L; apply length_put|].
  intros k Hk; rewrite (G k Hk); apply get_put_neq; lia.
Qed.

Lemma set_cells_good (i : Z) (x : Z -> Z) (js : list Z) :
  0 <= i <= 8 -> Forall (fun j => 0 <= j <= 8) js ->
  forall a,
    length a = 81%nat ->
    exists a',
      set_cells a i js (map (fun j => PyInt (x j)) (range 9)) = (None, a')
      /\ forall k,
           get a' k = if existsb (fun j => k =? 9 * i + j) js
                      then as_byte (x (k - 9 * i)) else get a k.
Proof.
  intros Hi Hjs; induction Hjs as [|j js Hj Hjs IH]; intros a La.
  { exists a; split; reflexivity. }
  cbn [set_cells existsb].
  replace (nth (Z.to_nat j) (map (fun j0 => PyInt (x j0)) (range 9)) PyOther)
    with (PyInt (x j))
    by (rewrite nth_map_range by lia; rewrite Z2Nat.id by lia; reflexivity).
  destruct (IH (put a (9 * i + j) (PyLong_AsLong (x j) mod 256))
              ltac:(rewrite length_put; exact La)) as (a' & E & G).
  exists a'; split; [exact E|]; intros k; rewrite G.
  destruct (existsb (fun j0 => k =? 9 * i + j0) js);
    [rewrite orb_true_r; reflexivity|].
  rewrite orb_false_r, get_put by lia.
  destruct (Z.eqb_spec k (9 * i + j)) as [->|_]; [|reflexivity].
  unfold as_byte; do 3 f_equal; lia.
Qed.

Lemma in_row (i k : Z) :
  existsb (fun j => k =? 9 * i + j) (range 9)
  = (9 * i <=? k) && (k <? 9 * i + 9).
Proof.
  destruct (Z.leb_spec (9 * i) k); destruct (Z.ltb_spec k (9 * i + 9));
    cbn [andb].
  - apply existsb_exists; exists (k - 9 * i); split;
      [apply in_range; lia|apply Z.eqb_eq; lia].
  - destruct (existsb _ (range 9)) eqn:E; [|reflexivity].
    apply existsb_exists in E; destruct E as (j & Hj & E).
    apply in_range in Hj; apply Z.eqb_eq in E; lia.
  - destruct (existsb _ (range 9)) eqn:E; [|reflexivity].
    apply existsb_exists in E; destruct E as (j & Hj & E).
    apply in_range in Hj; apply Z.eqb_eq in E; lia.
  - destruct (existsb _ (range 9)) eqn:E; [|reflexivity].
    apply existsb_exists in E; destruct E as (j & Hj & E).
    apply in_range in Hj; apply Z.eqb_eq in E; lia.
Qed.

Lemma set_rows_good (l : list pyobj) (x : Z -> Z) (rows : list Z) :
  Forall (fun i => 0 <= i <= 8
                   /\ nth (Z.to_nat i) l PyOther
                      = PyList (map (fun j => PyInt (x (9 * i + j)))
                                  (range 9))) rows ->
  forall a,
    length a = 81%nat ->
    exists a',
      set_rows a rows l = (None, a') /\ length a' = 81%nat
      /\ forall k,
           get a' k
           = if existsb (fun i => (9 * i <=? k) && (k <? 9 * i + 9)) rows
             then as_byte (x k) else get a k.
Proof.
  induction 1 as [|i rows (Hi & Hrow) Hrows IH]; intros a La.
  { exists a; split; [reflexivity|]; split; [exact La|reflexivity]. }
  cbn [set_rows existsb]; rewrite Hrow.
  rewrite length_map; change (length (range 9)) with 9%nat.
  change ((9 =? 9)%nat) with true; cbv iota.
  assert (Hjs : Forall (fun j => 0 <= j <= 8) (range 9)).
  { apply Forall_forall; intros j Hj; apply in_range in Hj; lia. }
  destruct (set_cells_good i (fun j => x (9 * i + j)) (range 9) Hi Hjs a La)
    as (a1 & E1 & G1).
  rewrite E1.
  assert (L1 : length a1 = 81%nat).
  { pose proof (proj1 (set_cells_frame i
                         (map (fun j => PyInt (x (9 * i + j))) (range 9))
                         (range 9) ltac:(lia) Hjs a)) as L.
    rewrite E1 in L; cbn [snd] in L; lia. }
  destruct (IH a1 L1) as (a' & E & La' & G).
  exists a'; split; [exact E|]; split; [exact La'|].
  intros k; rewrite G, G1, in_row.
  destruct (existsb _ rows); [rewrite orb_true_r; reflexivity|].
  rewrite orb_false_r.
  destruct ((9 * i <=? k) && (k <? 9 * i + 9)); [|reflexivity].
  do 2 f_equal; lia.
Qed.

Lemma set_rows_app (l : list pyobj) (rows1 rows2 : list Z) :
  forall a,
    set_rows a (rows1 ++ rows2) l
    = match set_rows a rows1 l with
      | (None, a1) => set_rows a1 rows2 l
      | x => x
      end.
Proof.
  induction rows1 as [|i rows1 IH]; intros a; [reflexivity|].
  cbn [app set_rows].
  destruct (nth (Z.to_nat i) l PyOther) as [x|r|]; try reflexivity.
  destruct (length r =? 9)%nat; [|reflexivity].
  destruct (set_cells a i (range 9) r) as [[err|] a1]; [reflexivity|apply IH].
Qed.

Lemma set_row_bad (l : list pyobj) (i : Z) (rows : list Z) (a : list Z) :
  0 <= i -> good_row (nth (Z.to_nat i) l PyOther) = false ->
  exists err,
    fst (set_rows a (i :: rows) l) = Some err
    /\ length (snd (set_rows a (i :: rows) l)) = length a
    /\ forall k, ~ 9 * i <= k < 9 * i + 9 ->
         get (snd (set_rows a (i :: rows) l)) k = get a k.
Proof.
  intros Hi Hbad; cbn [set_rows].
  destruct (nth (Z.to_nat i) l PyOther) as [x|r|];
    try (exists NotNineColumns; repeat split; reflexivity).
  cbn [good_row] in Hbad.
  destruct (length r =? 9)%nat eqn:Lr;
    [|exists NotNineColumns; repeat split; reflexivity].
  cbn [andb] in Hbad.
  assert (Hjs : Forall (fun j => 0 <= j <= 8) (range 9)).
  { apply Forall_forall; intros j Hj; apply in_range in Hj; lia. }
  pose proof (set_cells_frame i r (range 9) Hi Hjs a) as (L & G).
  assert (Herr : exists err, fst (set_cells a i (range 9) r) = Some err).
  { apply Nat.eqb_eq in Lr.
    destruct (forallb_false_exists _ _ Hbad) as (y & Hy & Fy).
    destruct (In_nth r y PyOther Hy) as (m & Hm & Em).
    assert (C : forall js a0,
              In (Z.of_nat m) js ->
              exists err, fst (set_cells a0 i js r) = Some err).
    { induction js as [|j js IHjs]; intros a0 Hin; [destruct Hin|].
      cbn [set_cells].
      destruct Hin as [->|Hin].
      - rewrite Nat2Z.id, Em.
        destruct y; [discriminate| |]; exists NotIntegers; reflexivity.
      - destruct (nth (Z.to_nat j) r PyOther);
          [apply IHjs, Hin| |]; exists NotIntegers; reflexivity. }
    apply C, in_range; lia. }
  destruct Herr as (err & Herr); exists err.
  destruct (set_cells a i (range 9) r) as [[e1|] a1];
    cbn [fst snd] in *; [|discriminate].
  split; [exact Herr|]; split; [exact L|exact G].
Qed.


Lemma py_grid_row (xs : list Z) (i : Z) :
  0 <= i <= 8 ->
  match py_grid xs with
  | PyList l =>
      length l = 9%nat
      /\ nth (Z.to_nat i) l PyOther
         = PyList (map (fun j => PyInt (get xs (9 * i + j))) (range 9))
  | _ => False
  end.
Proof.
  intros Hi; unfold py_grid, SuDoKu_get2darray.
  split; [rewrite !length_map; reflexivity|].
  rewrite map_map, nth_map_range by lia.
  rewrite Z2Nat.id, map_map by lia; reflexivity.
Qed.

(** X18: storing a 9x9 list of integers with [SuDoKu_set2darray]
    succeeds and stores every integer as an [unsigned char], that is
    modulo 256 (255 for one that does not fit a [long]); a grid read with
    [SuDoKu_get2darray] is stored back unchanged. *)
Theorem set2darray_stores_bytes (a xs : list Z) :
  length a = 81%nat ->
  SuDoKu_set2darray a (Some (py_grid xs))
  = (None, map (fun k => as_byte (get xs k)) (range 81))
  /\ (length xs = 81%nat -> (forall k, in_grid k -> 0 <= get xs k < 256) ->
      SuDoKu_set2darray a (Some (py_grid xs)) = (None, xs)).
Proof.
  intros La.
  assert (E : SuDoKu_set2darray a (Some (py_grid xs))
              = (None, map (fun k => as_byte (get xs k)) (range 81))).
  { pose proof (py_grid_row xs) as R.
    unfold SuDoKu_set2darray.
    destruct (py_grid xs) as [|l|]; try (destruct (R 0); lia).
    destruct (R 0 ltac:(lia)) as (Ll & _); rewrite Ll.
    change ((9 =? 9)%nat) with true; cbv iota.
    assert (Hrows : Forall (fun i => 0 <= i <= 8
                       /\ nth (Z.to_nat i) l PyOther
                          = PyList (map (fun j => PyInt (get xs (9 * i + j)))
                                      (range 9))) (range 9)).
    { apply Forall_forall; intros i Hi; apply in_range in Hi.
      split; [lia|apply R; lia]. }
    destruct (set_rows_good l (get xs) (range 9) Hrows a La)
      as (a' & E & La' & G).
    rewrite E; f_equal.
    apply (nth_ext _ _ 0 0).
    { rewrite La', length_map; reflexivity. }
    intros k Hk; rewrite nth_map_range by lia.
    rewrite <- get_nth, G.
    assert (Hin : existsb (fun i => (9 * i <=? Z.of_nat k)
                                    && (Z.of_nat k <? 9 * i + 9)) (range 9)
                  = true).
    { apply existsb_exists; exists (Z.of_nat k / 9).
      pose proof (Z.div_mod (Z.of_nat k) 9 ltac:(lia)) as D.
      pose proof (Z.mod_pos_bound (Z.of_nat k) 9 ltac:(lia)) as M.
      split; [apply in_range; lia|].
      apply andb_true_iff; split; [apply Z.leb_le|apply Z.ltb_lt]; lia. }
    rewrite Hin; reflexivity. }
  split; [exact E|]; intros Lx Hx; rewrite E; f_equal.
  apply (nth_ext _ _ 0 0); [rewrite length_map, Lx; reflexivity|].
  intros k Hk; rewrite length_map in Hk; change (length (range 81)) with 81%nat in Hk.
  rewrite nth_map_range, <- get_nth by exact Hk.
  specialize (Hx (Z.of_nat k) ltac:(unfold in_grid; lia)).
  unfold as_byte, PyLong_AsLong.
  destruct (Z.leb_spec (- 2 ^ 63) (get xs (Z.of_nat k))); [|lia].
  destruct (Z.ltb_spec (get xs (Z.of_nat k)) (2 ^ 63)); [|lia].
  apply Z.mod_small; lia.
Qed.

Lemma set2darray_stores_bytes_witness :
  SuDoKu_set2darray (repeat 0 81) (Some (py_grid (repeat 261 81)))
  = (None, repeat 5 81)
  /\ SuDoKu_set2darray (repeat 0 81) (Some (py_grid (repeat (2 ^ 70) 81)))
     = (None, repeat 255 81)
  /\ SuDoKu_set2darray (repeat 0 81) (Some (py_grid full_grid))
     = (None, full_grid).
Proof.
  split; [|split].
  - rewrite (proj1 (set2darray_stores_bytes (repeat 0 81) (repeat 261 81)
                      eq_refl)); reflexivity.
  - rewrite (proj1 (set2darray_stores_bytes (repeat 0 81)
                      (repeat (2 ^ 70) 81) eq_refl)); reflexivity.
  - rewrite (proj1 (set2darray_stores_bytes (repeat 0 81) full_grid eq_refl)).
    reflexivity.
Defined.

Lemma range_split (m k : nat) :
  (k < m)%nat ->
  range m = range k ++ Z.of_nat k :: map Z.of_nat (seq (S k) (m - S k)).
Proof.
  intros H; unfold range.
  replace m with (k + S (m - S k))%nat at 1 by lia.
  rewrite seq_app, map_app; reflexivity.
Qed.

(** X19: a failing [SuDoKu_set2darray] is not undone.  When the rows
    before row [i0] are lists of nine integers and row [i0] is not, the
    call fails, the cells of the rows before [i0] hold the new values
    and the cells after row [i0] keep the old ones. *)
Theorem set2darray_failure_keeps_rows
  (a : list Z) (l : list pyobj) (x : Z -> Z) (i0 : Z) :
  length a = 81%nat -> length l = 9%nat -> 0 <= i0 <= 8 ->
  (forall i, 0 <= i < i0 ->
     nth (Z.to_nat i) l PyOther
     = PyList (map (fun j => PyInt (x (9 * i + j))) (range 9))) ->
  good_row (nth (Z.to_nat i0) l PyOther) = false ->
  exists err a',
    SuDoKu_set2darray a (Some (PyList l)) = (Some err, a')
    /\ length a' = 81%nat
    /\ (forall k, 0 <= k < 9 * i0 -> get a' k = as_byte (x k))
    /\ (forall k, 9 * i0 + 9 <= k -> get a' k = get a k).
Proof.
  intros La Ll Hi0 Hgood Hbad; unfold SuDoKu_set2darray; rewrite Ll.
  change ((9 =? 9)%nat) with true; cbv iota.
  rewrite (range_split 9 (Z.to_nat i0)) by lia.
  rewrite set_rows_app, Z2Nat.id by lia.
  assert (Hrows : Forall (fun i => 0 <= i <= 8
                     /\ nth (Z.to_nat i) l PyOther
                        = PyList (map (fun j => PyInt (x (9 * i + j)))
                                    (range 9))) (range (Z.to_nat i0))).
  { apply Forall_forall; intros i Hi; apply in_range in Hi.
    split; [lia|apply Hgood; lia]. }
  destruct (set_rows_good l x (range (Z.to_nat i0)) Hrows a La)
    as (a1 & E1 & L1 & G1).
  rewrite E1.
  destruct (set_row_bad l i0 (map Z.of_nat (seq (S (Z.to_nat i0))
                                             (9 - S (Z.to_nat i0)))) a1
              ltac:(lia) Hbad) as (err & Herr & L2 & G2).
  destruct (set_rows a1 _ l) as [r a'] eqn:E2; cbn [fst snd] in *.
  subst r; exists err, a'; split; [reflexivity|]; split; [lia|].
  assert (Hin : forall k,
            existsb (fun i => (9 * i <=? k) && (k <? 9 * i + 9))
              (range (Z.to_nat i0))
            = (0 <=? k) && (k <? 9 * i0)).
  { intros k.
    destruct (Z.leb_spec 0 k); destruct (Z.ltb_spec k (9 * i0)); cbn [andb].
    - apply existsb_exists; exists (k / 9).
      pose proof (Z.div_mod k 9 ltac:(lia)) as D.
      pose proof (Z.mod_pos_bound k 9 ltac:(lia)) as M.
      split; [apply in_range; lia|].
      apply andb_true_iff; split; [apply Z.leb_le|apply Z.ltb_lt]; lia.
    - destruct (existsb _ _) eqn:E; [|reflexivity].
      apply existsb_exists in E; destruct E as (i & Hi & E).
      apply in_range in Hi; apply andb_true_iff in E.
      destruct E as (A & B); apply Z.leb_le in A; apply Z.ltb_lt in B; lia.
    - destruct (existsb _ _) eqn:E; [|reflexivity].
      apply existsb_exists in E; destruct E as (i & Hi & E).
      apply in_range in Hi; apply andb_true_iff in E.
      destruct E as (A & B); apply Z.leb_le in A; apply Z.ltb_lt in B; lia.
    - destruct (existsb _ _) eqn:E; [|reflexivity].
      apply existsb_exists in E; destruct E as (i & Hi & E).
      apply in_range in Hi; apply andb_true_iff in E.
      destruct E as (A & B); apply Z.leb_le in A; apply Z.ltb_lt in B; lia. }
  split; intros k Hk; rewrite G2, G1, Hin by lia.
  - destruct (Z.leb_spec 0 k); [|lia].
    destruct (Z.ltb_spec k (9 * i0)); [reflexivity|lia].
  - destruct (Z.ltb_spec k (9 * i0)); [lia|].
    rewrite andb_false_r; reflexivity.
Qed.

Lemma set2darray_failure_keeps_rows_witness :
  exists err a',
    SuDoKu_set2darray (repeat 7 81) (Some (PyList broken_rows))
    = (Some err, a')
    /\ length a' = 81%nat
    /\ (forall k, 0 <= k < 9 * 1 -> get a' k = as_byte (k + 1))
    /\ (forall k, 9 * 1 + 9 <= k -> get a' k = get (repeat 7 81) k).
Proof.
  apply (set2darray_failure_keeps_rows (repeat 7 81) broken_rows
           (fun k => k + 1) 1); try reflexivity; [lia|].
  intros i Hi; replace i with 0 by lia; reflexivity.
Defined.


(** ** The representation *)

Lemma repr_spec (s : SuDoKu) :
  (valid_cells (o s) = false /\ SuDoKu_repr s = StrValueError)
  \/ (valid_cells (o s) = true
      /\ SuDoKu_repr s
         = StrReturned
             (string_of_list_ascii
                (repr_text (shown_problem s) (shown_estimate s)))).
Proof.
  unfold SuDoKu_repr, shown_problem, shown_estimate, repr_text.
  destruct (copy_room "sudoku.SuDoKu(" [] (repeat nul 135)
              ltac:(rewrite repeat_length; simpl; lia)) as (t1 & E1 & L1 & _).
  cbn [app length] in E1; change (Z.of_nat 0) with 0 in E1.
  rewrite E1; cbn [bind]; rewrite repeat_length in L1.
  change (length (list_ascii_of_string "sudoku.SuDoKu(")) with 14%nat in L1.
  set (pre1 := list_ascii_of_string "sudoku.SuDoKu(") in *.
  assert (Fin : forall pre t,
            (17 < length t)%nat -> no_nul pre = true ->
            finish
              (st2 <- (if negb (e s) then
                         st <- (if negb (existsb (fun i => negb (get (o s) i =? 0))
                                           (range 81))
                                then Ok (pre ++ t, Z.of_nat (length pre))
                                else copy ", " (pre ++ t, Z.of_nat (length pre))) ;;
                         copy "estimate=False" st
                       else Ok (pre ++ t, Z.of_nat (length pre))) ;;
               st3 <- copy ")" st2 ;; Ok (fst st3))
            = StrReturned
                (string_of_list_ascii
                   (pre
                    ++ (if e s then []
                        else (if existsb (fun i => negb (get (o s) i =? 0))
                                   (range 81)
                              then list_ascii_of_string ", " else [])
                             ++ list_ascii_of_string "estimate=False")
                    ++ list_ascii_of_string ")"))).
  { intros pre t Ht Hpre.
    assert (Last : forall pre' t',
              (1 < length t')%nat -> no_nul pre' = true ->
              finish (st3 <- copy ")" (pre' ++ t', Z.of_nat (length pre')) ;;
                      Ok (fst st3))
              = StrReturned
                  (string_of_list_ascii (pre' ++ list_ascii_of_string ")"))).
    { intros pre' t' Ht' Hpre'.
      destruct (copy_room ")" pre' t' ltac:(simpl; lia))
        as (t3 & -> & _ & (rest & ->)); cbn [bind fst finish].
      rewrite c_string_text; [reflexivity|].
      apply no_nul_Forall; rewrite no_nul_app, Hpre'; reflexivity. }
    destruct (e s); cbn [negb bind].
    { rewrite Last by (try lia; exact Hpre); reflexivity. }
    destruct (existsb _ (range 81)); cbn [negb bind].
    - destruct (copy_room ", " pre t ltac:(simpl; lia))
        as (t2 & -> & L2 & _); cbn [bind].
      change (length (list_ascii_of_string ", ")) with 2%nat in L2.
      destruct (copy_room "estimate=False" (pre ++ list_ascii_of_string ", ")
                  t2 ltac:(simpl; lia)) as (t3 & -> & L3 & _); cbn [bind].
      change (length (list_ascii_of_string "estimate=False")) with 14%nat in L3.
      rewrite Last; [rewrite <- !app_assoc; reflexivity|lia|].
      rewrite !no_nul_app, Hpre; reflexivity.
    - destruct (copy_room "estimate=False" pre t ltac:(simpl; lia))
        as (t3 & -> & L3 & _); cbn [bind].
      change (length (list_ascii_of_string "estimate=False")) with 14%nat in L3.
      rewrite Last; [rewrite <- !app_assoc; reflexivity|lia|].
      rewrite !no_nul_app, Hpre; reflexivity. }
  destruct (existsb (fun i => negb (get (o s) i =? 0)) (range 81)) eqn:Show.
  - destruct (copy_room ("problem=" ++ quote) pre1 t1 ltac:(simpl; lia))
      as (t2 & -> & L2 & _); cbn [bind fst snd].
    change (length (list_ascii_of_string ("problem=" ++ quote)))
      with 9%nat in L2.
    set (pre2 := pre1 ++ list_ascii_of_string ("problem=" ++ quote)) in *.
    pose proof (to_string_spec (o s) pre2 t2 ltac:(lia)) as S.
    destruct (SuDoKu__to_string (o s) (pre2 ++ t2) _) as [| |b];
      [destruct S|left; split; [exact S|reflexivity]|right].
    destruct S as (V & ->); split; [exact V|]; cbn [bind].
    replace (Z.of_nat (length pre2) + 81)
      with (Z.of_nat (length (pre2 ++ grid_text (o s))))
      by (rewrite length_app; unfold grid_text; rewrite length_map;
          change (length (range 81)) with 81%nat; lia).
    destruct (copy_room quote (pre2 ++ grid_text (o s))
                (nul :: skipn 82 t2)
                ltac:(cbn [length]; rewrite length_skipn; simpl; lia))
      as (t3 & -> & L3 & _); cbn [bind].
    cbn [length] in L3; rewrite length_skipn in L3.
    change (length (list_ascii_of_string quote)) with 1%nat in L3.
    rewrite Fin; [|lia|].
    + rewrite list_ascii_of_string_of_list_ascii.
      unfold pre2, pre1; rewrite <- !app_assoc.
      destruct (e s); reflexivity.
    + unfold pre2, pre1; rewrite !no_nul_app.
      pose proof (grid_text_chars (o s) V) as G.
      assert (N : no_nul (grid_text (o s)) = true).
      { unfold no_nul; apply forallb_forall; intros ch Hch.
        rewrite Forall_forall in G.
        apply negb_true_iff, Z.eqb_neq, G, Hch. }
      rewrite N; reflexivity.
  - right; split.
    + unfold valid_cells; apply forallb_forall; intros i Hi.
      destruct (get (o s) i =? 0) eqn:Z0.
      * apply Z.eqb_eq in Z0; rewrite Z0; reflexivity.
      * assert (X : existsb (fun i => negb (get (o s) i =? 0)) (range 81)
                    = true)
          by (apply existsb_exists; exists i; rewrite Z0; auto).
        congruence.
    + cbn [bind]; rewrite Fin; [destruct (e s); reflexivity|lia|reflexivity].
Qed.


(** X20: [SuDoKu_repr] never writes outside of its block of 135
    characters and raises a ValueError for a clue outside 0..9; for
    clues in 0..9 it returns the call of the constructor that rebuilds
    the grid: a new object initialised with the arguments shown has the
    same clues and the same tracking flag. *)
Theorem repr_rebuilds_grid (s : SuDoKu) :
  SuDoKu_repr s <> StrOverflow
  /\ (valid_cells (o s) = false -> SuDoKu_repr s = StrValueError)
  /\ (valid_cells (o s) = true -> length (o s) = 81%nat ->
      SuDoKu_repr s
      = StrReturned
          (string_of_list_ascii
             (repr_text (shown_problem s) (shown_estimate s)))
      /\ SuDoKu_init SuDoKu_new (shown_problem s) (shown_estimate s)
         = (None, set_e (set_o SuDoKu_new (o s)) (e s))).
Proof.
  destruct (repr_spec s) as [(V & E)|(V & E)]; rewrite E, V.
  { split; [discriminate|]; split; [reflexivity|discriminate]. }
  split; [discriminate|]; split; [discriminate|].
  intros _ Lo; split; [reflexivity|].
  unfold SuDoKu_init, shown_problem, shown_estimate.
  set (s1 := match (if e s then None else Some false) with
             | Some b => set_e SuDoKu_new b
             | None => SuDoKu_new
             end).
  assert (Hs1 : forall a, set_o s1 a = set_e (set_o SuDoKu_new a) (e s)).
  { intros a; unfold s1; destruct (e s); reflexivity. }
  assert (Lo1 : length (o s1) = 81%nat)
    by (unfold s1; destruct (e s); reflexivity).
  assert (Zo1 : forall k, in_grid k -> get (o s1) k = 0).
  { intros k Hk; unfold s1; destruct (e s); apply get_repeat; exact Hk. }
  destruct (existsb (fun i => negb (get (o s) i =? 0)) (range 81)) eqn:Show.
  - assert (Hxs : forallb valid_cell (map (get (o s)) (range 81)) = true).
    { unfold valid_cells in V; rewrite forallb_forall in *.
      intros x Hx; apply in_map_iff in Hx; destruct Hx as (i & <- & Hi).
      apply V, Hi. }
    destruct (scan_cells (map (get (o s)) (range 81)) 0 (o s1) ltac:(lia)
                ltac:(rewrite length_map; change (length (range 81))
                        with 81%nat; lia) Lo1 Hxs)
      as (a & Sc & La & Hk).
    rewrite map_map in Sc.
    unfold SuDoKu__from_string, grid_text; rewrite Sc.
    rewrite length_map; change (length (range 81)) with 81%nat.
    change (0 + Z.of_nat 81 <? 81) with false; cbv iota.
    rewrite Hs1; do 3 f_equal.
    apply (nth_ext _ _ 0 0); [lia|]; intros k Hklt.
    rewrite <- !get_nth, Hk, Z.sub_0_r.
    rewrite length_map; change (length (range 81)) with 81%nat.
    rewrite nth_map_range, Z2Nat.id by lia.
    destruct (Z.leb_spec 0 (Z.of_nat k)); [|lia].
    destruct (Z.ltb_spec (Z.of_nat k) (0 + Z.of_nat 81)); [|lia].
    cbn [andb]; destruct (Z.eqb_spec (get (o s) (Z.of_nat k)) 0) as [Hz|_];
      [|reflexivity].
    cbn [negb]; rewrite Hz; apply Zo1; unfold in_grid; lia.
  - assert (Es1 : s1 = set_o s1 (o s)).
    { assert (Eo : o s1 = o s).
      { apply (nth_ext _ _ 0 0); [lia|]; intros k Hklt.
        rewrite <- !get_nth, Zo1 by (unfold in_grid; lia).
        destruct (Z.eqb_spec (get (o s) (Z.of_nat k)) 0) as [Hz|Hnz];
          [congruence|].
        assert (X : existsb (fun i => negb (get (o s) i =? 0)) (range 81)
                    = true).
        { apply existsb_exists; exists (Z.of_nat k).
          split; [apply in_range; lia|].
          apply negb_true_iff, Z.eqb_neq, Hnz. }
        congruence. }
      rewrite <- Eo; unfold s1; destruct (e s); reflexivity. }
    rewrite Es1, Hs1; reflexivity.
Qed.

Lemma repr_rebuilds_grid_witness :
  SuDoKu_repr (set_e demo_grid false)
  = StrReturned
      (string_of_list_ascii
         (repr_text (shown_problem (set_e demo_grid false))
            (shown_estimate (set_e demo_grid false))))
  /\ SuDoKu_init SuDoKu_new (shown_problem (set_e demo_grid false))
       (shown_estimate (set_e demo_grid false))
     = (None, set_e (set_o SuDoKu_new (o demo_grid)) false).
Proof.
  apply (repr_rebuilds_grid (set_e demo_grid false)); reflexivity.
Defined.

(** ** Parsing: what a failure leaves behind *)

Lemma scan_invalid (str : string) :
  forall i a ch a',
    0 <= i -> length a = 81%nat ->
    from_string_scan str i a = ScanInvalid ch a' ->
    exists m,
      (m < length (significant str))%nat /\ i + Z.of_nat m < 81
      /\ nth m (significant str) "0"%char = ch /\ valid_char ch = false
      /\ (forall j, (j < m)%nat ->
            valid_char (nth j (significant str) "0"%char) = true)
      /\ forall k,
           get a' k =
           if (i <=? k) && (k <? i + Z.of_nat m)
              && is_clue (nth (Z.to_nat (k - i)) (significant str) "0"%char)
           then code (nth (Z.to_nat (k - i)) (significant str) "0"%char) - 48
           else get a k.
Proof.
  induction str as [|ch0 str IH]; intros i a ch a' Hi La E; [discriminate|].
  cbn [from_string_scan] in E; rewrite significant_cons.
  destruct (is_newline ch0); [exact (IH i a ch a' Hi La E)|].
  destruct (Z.leb_spec 81 i) as [Hfull|Hroom]; [discriminate|].
  assert (Step : forall x k,
            nth (Z.to_nat (k - i)) (ch0 :: significant str) x
            = if k <=? i then ch0
              else nth (Z.to_nat (k - (i + 1))) (significant str) x).
  { intros x k; destruct (Z.leb_spec k i).
    - replace (Z.to_nat (k - i)) with 0%nat by lia; reflexivity.
    - replace (Z.to_nat (k - i)) with (S (Z.to_nat (k - (i + 1)))) by lia.
      reflexivity. }
  destruct (is_clue ch0) eqn:Hc.
  { destruct (IH (i + 1) (put a i (code ch0 - 48)) ch a' ltac:(lia)
                ltac:(rewrite length_put; exact La) E)
      as (m & Hm & Hlt & Hn & Hv & Hbefore & Hk).
    exists (S m); split; [simpl; lia|]; split; [lia|].
    split; [exact Hn|]; split; [exact Hv|]; split.
    { intros [|j] Hj; [unfold valid_char; cbn [nth]; rewrite Hc; reflexivity|].
      apply Hbefore; lia. }
    intros k; rewrite Hk, Step.
    replace (i + Z.of_nat (S m)) with (i + 1 + Z.of_nat m) by lia.
    destruct (Z.leb_spec k i) as [Hki|Hki].
    - destruct (Z.leb_spec (i + 1) k); [lia|]; cbn [andb].
      destruct (Z.leb_spec i k); cbn [andb].
      + assert (k = i) by lia; subst k.
        destruct (Z.ltb_spec i (i + 1 + Z.of_nat m)); [|lia]; cbn [andb].
        rewrite Hc; apply get_put_eq; lia.
      + apply get_put_neq; lia.
    - destruct (Z.leb_spec (i + 1) k); [|lia].
      destruct (Z.leb_spec i k); [|lia].
      rewrite get_put_neq by lia; reflexivity. }
  destruct (is_blank ch0) eqn:Hb.
  - destruct (IH (i + 1) a ch a' ltac:(lia) La E)
      as (m & Hm & Hlt & Hn & Hv & Hbefore & Hk).
    exists (S m); split; [simpl; lia|]; split; [lia|].
    split; [exact Hn|]; split; [exact Hv|]; split.
    { intros [|j] Hj;
        [unfold valid_char; cbn [nth]; rewrite Hb; apply orb_true_r|].
      apply Hbefore; lia. }
    intros k; rewrite Hk, Step.
    replace (i + Z.of_nat (S m)) with (i + 1 + Z.of_nat m) by lia.
    destruct (Z.leb_spec k i) as [Hki|Hki].
    + destruct (Z.leb_spec (i + 1) k); [lia|]; cbn [andb].
      rewrite Hc, andb_false_r; reflexivity.
    + destruct (Z.leb_spec (i + 1) k); [|lia].
      destruct (Z.leb_spec i k); [|lia]; reflexivity.
  - injection E as <- <-.
    exists 0%nat; split; [simpl; lia|]; split; [lia|].
    split; [reflexivity|]; split; [unfold valid_char; rewrite Hc, Hb; auto|].
    split; [intros j Hj; lia|].
    intros k; rewrite Z.add_0_r.
    destruct (Z.leb_spec i k); destruct (Z.ltb_spec k i); try reflexivity.
    lia.
Qed.

(** X21: a failing [SuDoKu__from_string] is not undone.  When it fails
    on an invalid character, that character is the first invalid one of
    the significant characters and stands among the first 81 of them, the
    clues of the digits read before it are already stored, and every
    other cell is as before. *)
Theorem from_string_failure_keeps_digits
  (s s' : SuDoKu) (str : string) (ch : ascii) :
  length (o s) = 81%nat ->
  SuDoKu__from_string s str = (Some (InvalidCharacter ch), s') ->
  exists m,
    (m < 81)%nat /\ (m < length (significant str))%nat
    /\ nth m (significant str) "0"%char = ch
    /\ valid_char ch = false
    /\ (forall j, (j < m)%nat ->
          valid_char (nth j (significant str) "0"%char) = true)
    /\ forall k, in_grid k ->
         get (o s') k =
         if (k <? Z.of_nat m)
            && is_clue (nth (Z.to_nat k) (significant str) "0"%char)
         then code (nth (Z.to_nat k) (significant str) "0"%char) - 48
         else get (o s) k.
Proof.
  intros Lo E; unfold SuDoKu__from_string in E.
  destruct (from_string_scan str 0 (o s)) as [i' a|i' a|ch' a] eqn:S;
    [destruct (i' <? 81); discriminate|destruct (i' <? 81); discriminate|].
  injection E as <- <-.
  destruct (scan_invalid str 0 (o s) ch' a ltac:(lia) Lo S)
    as (m & Hm & Hlt & Hn & Hv & Hbefore & Hk).
  exists m; split; [lia|]; split; [exact Hm|]; split; [exact Hn|].
  split; [exact Hv|]; split; [exact Hbefore|].
  intros k Hkg; cbn [o set_o]; rewrite Hk, Z.sub_0_r, Z.add_0_l.
  destruct (Z.leb_spec 0 k); [reflexivity|unfold in_grid in Hkg; lia].
Qed.

Lemma from_string_failure_keeps_digits_witness :
  fst (SuDoKu__from_string SuDoKu_new bad_puzzle)
  = Some (InvalidCharacter "x"%char)
  /\ get (o (snd (SuDoKu__from_string SuDoKu_new bad_puzzle))) 1 = 2
  /\ exists m,
       (m < 81)%nat /\ (m < length (significant bad_puzzle))%nat
       /\ nth m (significant bad_puzzle) "0"%char = "x"%char
       /\ valid_char "x"%char = false
       /\ (forall j, (j < m)%nat ->
             valid_char (nth j (significant bad_puzzle) "0"%char) = true)
       /\ forall k, in_grid k ->
            get (o (snd (SuDoKu__from_string SuDoKu_new bad_puzzle))) k =
            if (k <? Z.of_nat m)
               && is_clue (nth (Z.to_nat k) (significant bad_puzzle) "0"%char)
            then code (nth (Z.to_nat k) (significant bad_puzzle) "0"%char) - 48
            else get (o SuDoKu_new) k.
Proof.
  split; [reflexivity|]; split; [reflexivity|].
  apply (from_string_failure_keeps_digits SuDoKu_new
           (snd (SuDoKu__from_string SuDoKu_new bad_puzzle)) bad_puzzle
           "x"%char); reflexivity.
Defined.


(** ** What the search depends on *)

Section Independence.

Variable rel : list (list Z).

Lemma resolve_aux_graph (f : nat) (s t0 : SuDoKu) (r : Z) (res : solutions)
  (s' : SuDoKu) :
  resolve_aux_fuel rel f s t0 = Some (r, res, s') ->
  e s = true -> is_null (g s') = false.
Proof.
  intros E He; destruct f as [|f]; [discriminate|].
  rewrite resolve_aux_fuel_S, He in E.
  destruct (n s =? 81); [injection E as _ _ <-; reflexivity|].
  destruct (resolve_branches rel _ s t0 _ digits [] []) as [[[r0 res0] sg]|];
    [|discriminate].
  injection E as _ _ <-; reflexivity.
Qed.

(** The return code and the solutions of one level do not depend on
    the tracking flag, on the graph, or on the workspace. *)
Lemma resolve_strip (f : nat) :
  forall s1 s2 t1 t2,
    strip s1 = strip s2 ->
    match resolve_aux_fuel rel f s1 t1, resolve_aux_fuel rel f s2 t2 with
    | Some (r1, res1, _), Some (r2, res2, _) => r1 = r2 /\ res1 = res2
    | None, None => True
    | _, _ => False
    end.
Proof.
  induction f as [|f IH]; intros s1 s2 t1 t2 H; [exact I|].
  rewrite !resolve_aux_fuel_S.
  destruct (strip_fields _ _ H) as (Ho & Hv & Hp & Hc & Hn).
  rewrite Hn, Hv; destruct (n s2 =? 81); [split; reflexivity|].
  assert (Hi : SuDoKu__search_min s1 = SuDoKu__search_min s2).
  { unfold SuDoKu__search_min, search_min_step; rewrite Hv, Hc; reflexivity. }
  rewrite Hi; generalize (SuDoKu__search_min s2) as i; intros i.
  assert (Loop : forall ds res sg1 sg2,
            match
              resolve_branches rel (fun t => resolve_aux_fuel rel f t t1)
                s1 t1 i ds res sg1,
              resolve_branches rel (fun t => resolve_aux_fuel rel f t t2)
                s2 t2 i ds res sg2
            with
            | Some (r1, res1, _), Some (r2, res2, _) => r1 = r2 /\ res1 = res2
            | None, None => True
            | _, _ => False
            end).
  { induction ds as [|d ds IHds]; intros res sg1 sg2; [split; reflexivity|].
    cbn [resolve_branches]; rewrite Hp.
    destruct (bit_of (get (p s2) i) d); [|apply IHds].
    assert (Hcopy : strip (SuDoKu__copy s1 t1) = strip (SuDoKu__copy s2 t2))
      by exact H.
    pose proof (mark_strip rel _ _ i d Hcopy) as M.
    destruct (SuDoKu__mark rel (SuDoKu__copy s1 t1) i d) as [[r1 u1]|] eqn:M1;
      destruct (SuDoKu__mark rel (SuDoKu__copy s2 t2) i d) as [[r2 u2]|] eqn:M2;
      try contradiction; [|exact I].
    destruct M as (-> & M).
    destruct (mark_flag rel _ _ _ _ _ M1) as (E1 & N1).
    destruct (mark_flag rel _ _ _ _ _ M2) as (E2 & N2).
    change (e (SuDoKu__copy s1 t1)) with (e s1) in E1, N1.
    change (e (SuDoKu__copy s2 t2)) with (e s2) in E2, N2.
    destruct (Z.eqb_spec r2 (-2)) as [Hr|Hr].
    { assert (Hr0 : r2 <> 0) by lia.
      destruct (e s1) eqn:He1; [rewrite (N1 Hr0 eq_refl)|];
        (destruct (e s2) eqn:He2; [rewrite (N2 Hr0 eq_refl)|]); apply IHds. }
    destruct (r2 <? 0); [split; reflexivity|].
    pose proof (IH u1 u2 t1 t2 M) as R.
    destruct (resolve_aux_fuel rel f u1 t1) as [[[q1 sres1] w1]|] eqn:R1;
      destruct (resolve_aux_fuel rel f u2 t2) as [[[q2 sres2] w2]|] eqn:R2;
      try contradiction; [|exact I].
    destruct R as (-> & ->).
    destruct (q2 <? 0); [split; reflexivity|].
    destruct (e s1) eqn:He1;
      [rewrite (resolve_aux_graph _ _ _ _ _ _ R1 ltac:(congruence))|];
      (destruct (e s2) eqn:He2;
       [rewrite (resolve_aux_graph _ _ _ _ _ _ R2 ltac:(congruence))|]);
      apply IHds. }
  specialize (Loop digits [] [] []).
  destruct (resolve_branches rel _ s1 t1 i digits [] []) as [[[r1 res1] sg1]|];
    destruct (resolve_branches rel _ s2 t2 i digits [] []) as [[[r2 res2] sg2]|];
    try contradiction; exact Loop.
Qed.

Lemma resolve_depends_on_clues (s1 s2 t1 t2 : SuDoKu) :
  o s1 = o s2 ->
  match SuDoKu_resolve rel s1 t1, SuDoKu_resolve rel s2 t2 with
  | Some (out1, _), Some (out2, _) => out1 = out2
  | None, None => True
  | _, _ => False
  end.
Proof.
  intros Ho; unfold SuDoKu_resolve.
  assert (H : strip (SuDoKu__reset s1) = strip (SuDoKu__reset s2)).
  { unfold strip, SuDoKu__reset; cbn; rewrite Ho; reflexivity. }
  pose proof (mark_clues_strip rel (range 81) _ _ H) as M.
  destruct (mark_clues rel (SuDoKu__reset s1) (range 81)) as [[r1 u1]|];
    destruct (mark_clues rel (SuDoKu__reset s2) (range 81)) as [[r2 u2]|];
    try contradiction; [|exact I].
  destruct M as (-> & M); destruct (r2 <? 0); [reflexivity|].
  rewrite !resolve_aux_eq.
  pose proof (resolve_strip search_depth u1 u2
                (if e s1 then set_g t1 GNull else t1)
                (if e s2 then set_g t2 GNull else t2) M) as R.
  destruct (resolve_aux_fuel rel search_depth u1 _) as [[[q1 res1] w1]|];
    destruct (resolve_aux_fuel rel search_depth u2 _) as [[[q2 res2] w2]|];
    try contradiction; [|exact I].
  destruct R as (-> & ->); destruct (q2 <? 0); reflexivity.
Qed.

End Independence.

(** X22: with tracking off, as [SuDoKu_generate] calls it,
    [SuDoKu__unique_sol] depends on the clues only: not on what the grid
    held before (values, candidates, counts, queue, counters, graph) and
    not on the content of its workspace, which is not initialised; and on
    clues that are blanks and digits it returns. *)
Theorem unique_sol_depends_on_clues_only
  (rel : list (list Z)) (s1 s2 t1 t2 : SuDoKu) :
  o s1 = o s2 -> e s1 = false -> e s2 = false ->
  SuDoKu__unique_sol rel s1 t1 = SuDoKu__unique_sol rel s2 t2
  /\ (relations_ok rel = true -> clues_ok (o s1) = true ->
      exists k, SuDoKu__unique_sol rel s1 t1 = Some k).
Proof.
  intros Ho He1 He2; split; [exact (unique_sol_strip rel s1 s2 t1 t2 Ho He1 He2)|].
  intros Hrel Hclues.
  destruct (resolve_exact rel Hrel s1 t1 Hclues)
    as [(u & _ & U & _)|(res & u & _ & U & _)];
    rewrite (U s1 t1 eq_refl He1); eexists; reflexivity.
Qed.

Lemma unique_sol_depends_on_clues_only_witness :
  SuDoKu__unique_sol SuDoKu__relations (set_e demo_final false) full_state
  = Some 1
  /\ o (set_e demo_final false) = o (strip demo_grid)
  /\ v (set_e demo_final false) <> v (strip demo_grid)
  /\ SuDoKu__unique_sol SuDoKu__relations (set_e demo_final false) full_state
     = SuDoKu__unique_sol SuDoKu__relations (strip demo_grid) (fresh [])
  /\ (relations_ok SuDoKu__relations = true ->
      clues_ok (o (set_e demo_final false)) = true ->
      exists k,
        SuDoKu__unique_sol SuDoKu__relations (set_e demo_final false)
          full_state = Some k).
Proof.
  split; [vm_compute; reflexivity|]; split; [vm_compute; reflexivity|].
  split; [vm_compute; discriminate|].
  apply (unique_sol_depends_on_clues_only SuDoKu__relations
           (set_e demo_final false) (strip demo_grid) full_state (fresh []));
    vm_compute; reflexivity.
Defined.

(** X23: what [SuDoKu_resolve] returns or raises depends on the clues
    only: the same solutions in the same order, whatever the grid held
    before, whether the search is tracked or not, and whatever the
    workspace holds. *)
Theorem resolve_depends_on_clues_only
  (rel : list (list Z)) (s1 s2 t1 t2 : SuDoKu)
  (out1 out2 : py_result) (s1' s2' : SuDoKu) :
  o s1 = o s2 ->
  SuDoKu_resolve rel s1 t1 = Some (out1, s1') ->
  SuDoKu_resolve rel s2 t2 = Some (out2, s2') ->
  out1 = out2.
Proof.
  intros Ho E1 E2.
  pose proof (resolve_depends_on_clues rel s1 s2 t1 t2 Ho) as R.
  rewrite E1, E2 in R; exact R.
Qed.

Lemma resolve_depends_on_clues_only_witness :
  Returned two_way_solutions
  = match SuDoKu_resolve SuDoKu__relations
            (set_e (fresh two_way_grid) false) full_state with
    | Some (out, _) => out
    | None => Raised InternalError
    end.
Proof.
  destruct (SuDoKu_resolve SuDoKu__relations
              (set_e (fresh two_way_grid) false) full_state)
    as [[out s']|] eqn:E; [|vm_compute in E; discriminate].
  exact (resolve_depends_on_clues_only SuDoKu__relations
           (fresh two_way_grid) (set_e (fresh two_way_grid) false)
           (fresh []) full_state (Returned two_way_solutions) out
           two_way_final s' eq_refl two_way_resolve E).
Defined.


(** ** The length of the decision tree *)

Lemma tree_len_root (x : graph) (lo lo' : Z) :
  tree_from lo x -> lo - lo' <= SuDoKu__graph_len_aux x lo'.
Proof.
  destruct x as [| |d ch|d l]; simpl; try contradiction; [lia|].
  intros (Hlo & Hl).
  assert (Len : forall a0,
            a0 <= (fix loop (l : list graph) (acc : Z) : Z :=
                     match l with
                     | [] => acc
                     | y :: l' =>
                         let sl := SuDoKu__graph_len_aux y d in
                         if sl <? 0 then sl else loop l' (acc + sl)
                     end) l a0).
  { induction l as [|y l IHl]; intros a0; [lia|].
    destruct Hl as (Ty & Tl).
    destruct (tree_walks y d Ty) as (_ & _ & L).
    cbv zeta; destruct (Z.ltb_spec (SuDoKu__graph_len_aux y d) 0); [lia|].
    apply Z.le_trans with (a0 + SuDoKu__graph_len_aux y d);
      [lia|exact (IHl Tl _)]. }
  apply Z.le_trans with (d - lo'); [lia|exact (Len _)].
Qed.

Lemma filled_pos (l : list Z) (x : Z) : In x l -> x <> 0 -> 1 <= filled l.
Proof.
  intros Hin Hnz; unfold filled.
  assert (H : In x (filter (fun y => negb (y =? 0)) l)).
  { apply filter_In; split; [exact Hin|].
    apply negb_true_iff, Z.eqb_neq, Hnz. }
  destruct (filter (fun y => negb (y =? 0)) l); [destruct H|simpl; lia].
Qed.

Section TreeLength.

Variable rel : list (list Z).
Hypothesis Hrel : relations_ok rel = true.

(** Once a clue has been marked, a cell is filled, also when the marking
    fails. *)
Lemma mark_clues_first (cells : list Z) :
  Forall in_grid cells ->
  forall s r s',
    consistent s -> (forall i, in_grid i -> 0 <= get (o s) i <= 9) ->
    mark_clues rel s cells = Some (r, s') ->
    1 <= n s
    \/ ((exists i, In i cells /\ get (o s) i <> 0)
        /\ forall i, in_grid i -> get (p s) i = 511 /\ get (v s) i = 0) ->
    1 <= n s'.
Proof.
  induction 1 as [|i cells Hi Hcells IH]; intros s r s' Hcons Ho E Hn.
  { injection E as _ <-; destruct Hn as [Hn|((i & [] & _) & _)]; exact Hn. }
  cbn [mark_clues] in E.
  destruct (Z.ltb_spec 0 (get (o s) i)) as [Hpos|Hz].
  2:{ apply (IH s r s' Hcons Ho E).
      destruct Hn as [Hn|((k & [Ek|Hk] & Hnz) & Hall)]; [left; exact Hn| |].
      - subst k; specialize (Ho i Hi); lia.
      - right; split; [exists k; auto|exact Hall]. }
  destruct (mark_keeps rel Hrel s i (get (o s) i) Hcons Hi (Ho i Hi))
    as (r1 & s1 & E1 & C1 & X1 & _ & _ & N1 & _).
  rewrite E1 in E.
  assert (Hn1 : 1 <= n s1).
  { destruct Hn as [Hn|(_ & Hall)].
    - destruct X1 as (_ & _ & X1 & _); lia.
    - destruct (Hall i Hi) as (Hp & Hv).
      destruct N1 as (N1 & _); [lia| |].
      + rewrite Hp; apply bit_of_full; specialize (Ho i Hi); lia.
      + destruct Hcons as (_ & _ & _ & Hfill).
        pose proof (filled_le (v s)); lia. }
  destruct (r1 <? 0); [injection E as _ <-; exact Hn1|].
  apply (IH s1 r s' C1); [|exact E|left; exact Hn1].
  destruct X1 as (-> & _); exact Ho.
Qed.

Lemma estimate_spec (s t0 : SuDoKu) (out : py_result) (s' : SuDoKu) (k : Z) :
  clues_ok (o s) = true -> e s = true ->
  in_grid k -> get (o s) k <> 0 ->
  SuDoKu_resolve rel s t0 = Some (out, s') ->
  exists l f, SuDoKu_estimate s' = EstValue l f /\ 1 <= l.
Proof.
  intros Hclues He Hk Hnz E.
  destruct (clues_ok_range _ Hclues) as (Lo & Ho).
  assert (Hcells : Forall in_grid (range 81)).
  { apply Forall_forall; intros i Hi; apply in_range in Hi; exact Hi. }
  destruct (mark_clues_keeps rel Hrel (range 81) Hcells (SuDoKu__reset s)
              (reset_settled s) Ho)
    as (r & s1 & E1 & C1 & X1 & R1 & L1 & S1).
  assert (Hn1 : 1 <= n s1).
  { apply (mark_clues_first (range 81) Hcells (SuDoKu__reset s) r s1
             (proj1 (reset_settled s)) Ho E1).
    right; split; [exists k; split; [apply in_range; exact Hk|exact Hnz]|].
    intros i Hi; cbn [SuDoKu__reset p v]; rewrite !get_repeat by exact Hi.
    split; reflexivity. }
  assert (Ee1 : e s1 = true)
    by (destruct X1 as (_ & -> & _); exact He).
  destruct R1 as [->| ->].
  - destruct (S1 eq_refl) as (St & _).
    assert (Hf : 82 - n s1 <= Z.of_nat search_depth).
    { change (Z.of_nat search_depth) with 82; lia. }
    destruct (level_ok_all rel Hrel search_depth s1
                (if e s then set_g t0 GNull else t0) St Hf)
      as (res & s2 & E2 & Ee & _ & Htree & _).
    rewrite (resolve_returned rel s t0 s1 res s2 E1 E2) in E.
    injection E as _ <-.
    specialize (Htree Ee1).
    destruct (tree_walks (g s2) (n s1) Htree) as (F & C & _).
    pose proof (tree_len_root (g s2) (n s1) 0 Htree) as L.
    unfold SuDoKu_estimate, SuDoKu__graph_len.
    rewrite Ee, Ee1, (tree_from_not_null _ _ Htree), F; cbn [negb orb].
    destruct (Z.ltb_spec (SuDoKu__graph_len_aux (g s2) 0) 0); [lia|].
    destruct (Z.ltb_spec (child_count (g s2)) 0); [lia|].
    eexists _, _; split; [reflexivity|lia].
  - assert (Es : SuDoKu_resolve rel s t0 = Some (Raised Contradiction, s1)).
    { unfold SuDoKu_resolve; rewrite E1; reflexivity. }
    rewrite Es in E; injection E as _ <-.
    unfold SuDoKu_estimate, SuDoKu__graph_len.
    assert (Hneq : -2 <> 0) by lia.
    rewrite Ee1, (L1 Hneq He); cbn.
    replace (n s1 - 0) with (n s1) by lia.
    destruct (Z.ltb_spec (n s1) 0); [lia|].
    eexists _, _; split; [reflexivity|lia].
Qed.

End TreeLength.

(** X24: after a tracked [SuDoKu_resolve] of clues in 0..9 that are not
    all blank, [SuDoKu_estimate] returns a value, and the length of
    which it takes the logarithm is at least 1; this holds when the
    clues are solved and when they raise a Contradiction. *)
Theorem estimate_length_positive
  (rel : list (list Z)) (s t0 : SuDoKu) (out : py_result) (s' : SuDoKu)
  (k : Z) :
  relations_ok rel = true -> clues_ok (o s) = true -> e s = true ->
  in_grid k -> get (o s) k <> 0 ->
  SuDoKu_resolve rel s t0 = Some (out, s') ->
  exists l f, SuDoKu_estimate s' = EstValue l f /\ 1 <= l.
Proof.
  intros Hrel Hclues He Hk Hnz E.
  exact (estimate_spec rel Hrel s t0 out s' k Hclues He Hk Hnz E).
Qed.

Lemma estimate_length_positive_witness :
  SuDoKu_estimate clash_final = EstValue 1 0
  /\ exists l f, SuDoKu_estimate clash_final = EstValue l f /\ 1 <= l.
Proof.
  split; [reflexivity|].
  apply (estimate_length_positive SuDoKu__relations (fresh clash_grid)
           (fresh []) (Raised Contradiction) clash_final 0
           relations_ok_table clash_clues_ok eq_refl);
    [unfold in_grid; lia|vm_compute; discriminate|exact clash_resolve].
Defined.


(** ** Candidates after a mark *)

(** X25: a successful [SuDoKu__mark] leaves no dead cell.  On a grid
    where every unassigned cell has a candidate, a call that returns 0
    leaves a grid where every unassigned cell still has one: a cell
    whose last candidate goes makes the call fail. *)
Theorem mark_leaves_no_dead_cell
  (rel : list (list Z)) (s : SuDoKu) (i d : Z) (s' : SuDoKu) :
  relations_ok rel = true ->
  consistent s -> alive s -> in_grid i -> 0 <= d <= 9 ->
  SuDoKu__mark rel s i d = Some (0, s') ->
  forall j, in_grid j -> get (v s') j = 0 -> 1 <= get (c s') j.
Proof.
  intros Hrel Hcons Ha Hi Hd E.
  exact (mark_alive rel Hrel s i d s' Hcons Ha Hi Hd E).
Qed.

Lemma mark_leaves_no_dead_cell_witness :
  SuDoKu__mark SuDoKu__relations (SuDoKu__reset (fresh [])) 40 5
  = Some (0, after SuDoKu__relations (SuDoKu__reset (fresh [])) 40 5)
  /\ forall j, in_grid j ->
       get (v (after SuDoKu__relations (SuDoKu__reset (fresh [])) 40 5)) j = 0 ->
       1 <= get (c (after SuDoKu__relations (SuDoKu__reset (fresh [])) 40 5)) j.
Proof.
  assert (E : SuDoKu__mark SuDoKu__relations (SuDoKu__reset (fresh [])) 40 5
              = Some (0, after SuDoKu__relations (SuDoKu__reset (fresh []))
                           40 5)) by (vm_compute; reflexivity).
  split; [exact E|].
  apply (mark_leaves_no_dead_cell SuDoKu__relations
           (SuDoKu__reset (fresh [])) 40 5 _ relations_ok_table
           (proj1 (reset_settled (fresh []))) (reset_alive (fresh [])));
    [unfold in_grid; lia|lia|exact E].
Defined.

Lemma to_string_outcome_witness :
  SuDoKu_to_string bad_grid "html" None [] = StrValueError
  /\ SuDoKu_to_string demo_grid "xml" None [] = StrInvalidFormat.
Proof.
  split.
  - apply (to_string_outcome bad_grid "html" None []).
    split; [right; left; reflexivity|reflexivity].
  - apply (to_string_outcome demo_grid "xml" None []).
    repeat split; discriminate.
Defined.


(** ** The leaves of the decision tree *)

Lemma plus_leaves_app (l1 l2 : list graph) :
  fold_right (fun y acc => plus_leaves y + acc) 0 (l1 ++ l2)
  = fold_right (fun y acc => plus_leaves y + acc) 0 l1
    + fold_right (fun y acc => plus_leaves y + acc) 0 l2.
Proof. induction l1 as [|y l1 IH]; simpl; [reflexivity|rewrite IH; lia]. Qed.

Lemma plus_at_81_app (l1 l2 : list graph) :
  fold_right (fun y acc => plus_at_81 y /\ acc) True (l1 ++ l2)
  <-> fold_right (fun y acc => plus_at_81 y /\ acc) True l1
      /\ fold_right (fun y acc => plus_at_81 y /\ acc) True l2.
Proof. induction l1 as [|y l1 IH]; simpl; tauto. Qed.

Section Leaves.

Variable rel : list (list Z).

Lemma mark_failure_leaf (s : SuDoKu) (i d r : Z) (s' : SuDoKu) :
  SuDoKu__mark rel s i d = Some (r, s') -> r <> 0 -> e s = true ->
  g s' = GLeaf (n s') "-"%char.
Proof.
  intros E Hr He; rewrite mark_eq in E.
  destruct (mark_fuel rel mark_depth s i d) as [[[r0 s0] tr]|] eqn:E1;
    [|discriminate].
  injection E as -> ->.
  exact (proj2 (proj1 (mark_drain_leaf rel mark_depth) _ _ _ _ _ _ E1) Hr He).
Qed.

(** A tracked level: one ['+'] leaf per solution, each at depth 81. *)
Lemma level_leaves (f : nat) :
  forall s t0 r res s',
    resolve_aux_fuel rel f s t0 = Some (r, res, s') ->
    0 <= r -> e s = true ->
    plus_leaves (g s') = Z.of_nat (length res) /\ plus_at_81 (g s').
Proof.
  induction f as [|f IH]; intros s t0 r res s' E Hr He; [discriminate|].
  rewrite resolve_aux_fuel_S, He in E.
  destruct (Z.eqb_spec (n s) 81) as [Hn|Hn].
  { injection E as _ <- <-; cbn; split; [reflexivity|intros _; exact Hn]. }
  set (i := SuDoKu__search_min s) in *; clearbody i.
  assert (Loop : forall ds res0 sg r' res' sg',
            resolve_branches rel (fun t => resolve_aux_fuel rel f t t0)
              s t0 i ds res0 sg = Some (r', res', sg') ->
            0 <= r' ->
            fold_right (fun y acc => plus_leaves y + acc) 0 sg
            = Z.of_nat (length res0) ->
            fold_right (fun y acc => plus_at_81 y /\ acc) True sg ->
            fold_right (fun y acc => plus_leaves y + acc) 0 sg'
            = Z.of_nat (length res')
            /\ fold_right (fun y acc => plus_at_81 y /\ acc) True sg').
  { induction ds as [|d ds IHds]; intros res0 sg r' res' sg' E' Hr' Hc Hp.
    { injection E' as _ <- <-; auto. }
    cbn [resolve_branches] in E'; rewrite He in E'.
    destruct (bit_of (get (p s) i) d); [|exact (IHds _ _ _ _ _ E' Hr' Hc Hp)].
    destruct (SuDoKu__mark rel (SuDoKu__copy s t0) i d) as [[r1 t1]|] eqn:M;
      [|discriminate].
    destruct (mark_flag rel _ _ _ _ _ M) as (E1 & _).
    change (e (SuDoKu__copy s t0)) with (e s) in E1.
    destruct (Z.eqb_spec r1 (-2)) as [Hr1|Hr1].
    { assert (Hr0 : r1 <> 0) by lia.
      pose proof (mark_failure_leaf _ _ _ _ _ M Hr0 He) as G.
      rewrite G in E'; cbn [is_null] in E'.
      apply (IHds _ _ _ _ _ E' Hr').
      - rewrite plus_leaves_app; cbn; lia.
      - apply plus_at_81_app; split; [exact Hp|].
        cbn; split; [discriminate|exact I]. }
    destruct (Z.ltb_spec r1 0) as [Hneg|Hpos].
    { injection E' as <- _ _; lia. }
    destruct (resolve_aux_fuel rel f t1 t0) as [[[r2 sres] t2]|] eqn:R;
      [|discriminate].
    destruct (Z.ltb_spec r2 0) as [Hneg2|Hpos2].
    { injection E' as <- _ _; lia. }
    destruct (IH t1 t0 r2 sres t2 R Hpos2 ltac:(congruence)) as (C2 & P2).
    destruct (is_null (g t2)); [injection E' as <- _ _; lia|].
    apply (IHds _ _ _ _ _ E' Hr').
    - rewrite plus_leaves_app, length_app; cbn [fold_right]; lia.
    - apply plus_at_81_app; split; [exact Hp|]; cbn; auto. }
  destruct (resolve_branches rel _ s t0 i digits [] []) as [[[r0 res0] sg]|]
    eqn:B; [|discriminate].
  injection E as <- <- <-.
  destruct (Loop digits [] [] r0 res0 sg B Hr eq_refl I) as (C & P).
  cbn [g set_g plus_leaves plus_at_81]; auto.
Qed.

Lemma resolve_unfold (s t0 : SuDoKu) :
  SuDoKu_resolve rel s t0 =
  match mark_clues rel (SuDoKu__reset s) (range 81) with
  | None => None
  | Some (r, s1) =>
      if r <? 0 then
        Some (Raised (if r =? -2 then Contradiction else InternalError), s1)
      else
        match resolve_aux_fuel rel search_depth s1
                (if e s then set_g t0 GNull else t0) with
        | None => None
        | Some (r2, res, s2) =>
            if r2 <? 0 then Some (Raised InternalError, s2)
            else Some (Returned res, s2)
        end
  end.
Proof. reflexivity. Qed.

Lemma resolve_leaves (s t0 : SuDoKu) (res : solutions) (s' : SuDoKu) :
  e s = true ->
  SuDoKu_resolve rel s t0 = Some (Returned res, s') ->
  plus_leaves (g s') = Z.of_nat (length res) /\ plus_at_81 (g s').
Proof.
  intros He E; rewrite resolve_unfold in E.
  set (t0' := if e s then set_g t0 GNull else t0) in E; clearbody t0'.
  destruct (mark_clues rel (SuDoKu__reset s) (range 81)) as [[r u]|] eqn:M;
    [|discriminate].
  destruct (r <? 0); [discriminate|].
  pose proof (level_leaves search_depth u t0') as L.
  destruct (resolve_aux_fuel rel search_depth u t0') as [[[r2 res2] s2]|];
    [|discriminate].
  destruct (Z.ltb_spec r2 0) as [Hneg|Hpos]; [discriminate|].
  injection E as <- <-.
  apply (L r2 res2 s2 eq_refl Hpos).
  rewrite (mark_clues_flag rel _ _ _ _ M); exact He.
Qed.

End Leaves.

(** X26: the decision tree of a tracked [SuDoKu_resolve] that returns
    has exactly one ['+'] leaf per returned solution, and every ['+']
    leaf is at depth 81. *)
Theorem tracked_tree_counts_solutions
  (rel : list (list Z)) (s t0 : SuDoKu) (res : solutions) (s' : SuDoKu) :
  e s = true ->
  SuDoKu_resolve rel s t0 = Some (Returned res, s') ->
  plus_leaves (g s') = Z.of_nat (length res) /\ plus_at_81 (g s').
Proof. intros He E; exact (resolve_leaves rel s t0 res s' He E). Qed.

Lemma tracked_tree_counts_solutions_witness :
  g two_way_final = GNode 63 [GLeaf 81 "+"%char; GLeaf 81 "+"%char]
  /\ plus_leaves (g two_way_final) = Z.of_nat (length two_way_solutions)
  /\ plus_at_81 (g two_way_final).
Proof.
  split; [reflexivity|].
  exact (tracked_tree_counts_solutions SuDoKu__relations (fresh two_way_grid)
           (fresh []) two_way_solutions two_way_final eq_refl
           two_way_resolve).
Defined.


Lemma plus_leaves_nonneg (x : graph) : 0 <= plus_leaves x.
Proof.
  induction x as [| |d ch|d l IH] using graph_induction; cbn; try lia.
  - destruct (Ascii.eqb ch "+"%char); lia.
  - induction IH as [|y l Hy Hl IHl]; cbn; lia.
Qed.

(** A tree with a ['+'] leaf is at least as long as the way down to
    depth 81. *)
Lemma tree_len_plus (x : graph) :
  forall lo, tree_from lo x -> plus_at_81 x -> 1 <= plus_leaves x ->
    81 - lo <= SuDoKu__graph_len_aux x lo.
Proof.
  induction x as [| |d ch|d l IH] using graph_induction; intros lo T P C;
    cbn [plus_leaves] in C; try lia.
  - cbn [plus_at_81] in P; cbn [tree_from] in T; cbn [SuDoKu__graph_len_aux].
    destruct (Ascii.eqb ch "+"%char); [|lia].
    specialize (P eq_refl); lia.
  - destruct T as (Hlo & Tl); cbn [plus_at_81] in P.
    cbn [SuDoKu__graph_len_aux].
    assert (Len : forall a0,
              (1 <= fold_right (fun y acc => plus_leaves y + acc) 0 l ->
               a0 + (81 - d)
               <= (fix loop (l : list graph) (acc : Z) : Z :=
                     match l with
                     | [] => acc
                     | y :: l' =>
                         let sl := SuDoKu__graph_len_aux y d in
                         if sl <? 0 then sl else loop l' (acc + sl)
                     end) l a0)
              /\ a0 <= (fix loop (l : list graph) (acc : Z) : Z :=
                          match l with
                          | [] => acc
                          | y :: l' =>
                              let sl := SuDoKu__graph_len_aux y d in
                              if sl <? 0 then sl else loop l' (acc + sl)
                          end) l a0).
    { clear C; induction IH as [|y l Hy Hl IHl]; intros a0.
      { cbn; split; lia. }
      destruct Tl as (Ty & Tl), P as (Py & Pl).
      destruct (tree_walks y d Ty) as (_ & _ & L).
      cbn [fold_right]; cbv zeta.
      destruct (Z.ltb_spec (SuDoKu__graph_len_aux y d) 0); [lia|].
      destruct (IHl Tl Pl (a0 + SuDoKu__graph_len_aux y d)) as (A & B).
      split.
      - intros C.
        destruct (Z.le_gt_cases 1 (plus_leaves y)) as [Cy|Cy].
        + specialize (Hy d Ty Py Cy).
          apply Z.le_trans with (a0 + SuDoKu__graph_len_aux y d); [lia|].
          exact B.
        + pose proof (plus_leaves_nonneg y).
          apply Z.le_trans
            with (a0 + SuDoKu__graph_len_aux y d + (81 - d)); [lia|].
          apply A; lia.
      - apply Z.le_trans with (a0 + SuDoKu__graph_len_aux y d); [lia|].
        exact B. }
    apply Z.le_trans with (d - lo + (81 - d)); [lia|].
    apply (proj1 (Len (d - lo))), C.
Qed.

(** X27: a tracked [SuDoKu_resolve] that returns at least one solution
    leaves a decision tree of length at least 81, so that the difficulty
    [log(l / 81.0) + 1.0] of [SuDoKu_estimate] is at least 1. *)
Theorem estimate_of_solved_puzzle
  (rel : list (list Z)) (s t0 : SuDoKu) (res : solutions) (s' : SuDoKu) :
  relations_ok rel = true -> clues_ok (o s) = true -> e s = true ->
  SuDoKu_resolve rel s t0 = Some (Returned res, s') -> res <> [] ->
  exists l f, SuDoKu_estimate s' = EstValue l f /\ 81 <= l.
Proof.
  intros Hrel Hclues He E Hres.
  destruct (resolve_leaves rel s t0 res s' He E) as (C & P).
  destruct (resolve_spec rel Hrel s t0 Hclues) as (r & s1 & _ & H).
  destruct H as [(_ & B & _)|(_ & res' & s2 & B & Ee & _ & Htree & _)];
    rewrite E in B; [discriminate|].
  injection B as _ <-.
  specialize (Htree He).
  destruct (tree_walks (g s') 0 Htree) as (F & Cc & _).
  assert (C1 : 1 <= plus_leaves (g s')).
  { rewrite C; destruct res; [contradiction|simpl length; lia]. }
  pose proof (tree_len_plus (g s') 0 Htree P C1) as L.
  unfold SuDoKu_estimate, SuDoKu__graph_len.
  rewrite Ee, He, (tree_from_not_null _ _ Htree), F; cbn [negb orb].
  destruct (Z.ltb_spec (SuDoKu__graph_len_aux (g s') 0) 0); [lia|].
  destruct (Z.ltb_spec (child_count (g s')) 0); [lia|].
  eexists _, _; split; [reflexivity|lia].
Qed.

Lemma estimate_of_solved_puzzle_witness :
  SuDoKu_estimate demo_final = EstValue 88 2
  /\ exists l f, SuDoKu_estimate demo_final = EstValue l f /\ 81 <= l.
Proof.
  split; [reflexivity|].
  apply (estimate_of_solved_puzzle SuDoKu__relations demo_grid (fresh [])
           demo_solutions demo_final relations_ok_table demo_clues_ok
           eq_refl demo_resolve).
  discriminate.
Defined.
